(* ===== verification/_CoqProject ===== *)
-Q . S2P
Prelude.v
GoStrings.v
GoText.v
GoFloat.v
GoNumber.v
GoJson.v
GoStruct.v
GoUrl.v
GoTime.v
GoParse.v
GoDate.v
Events.v
Governor.v
Metrics.v
Coordinator.v
PassiveModel.v
Modbus.v
Normalizer.v
Protocols.v
Config.v
PassiveCollector.v
Lifecycle.v
Collectors.v
Network.v
NetworkWindows.v
Inventory.v
Filesystem.v
Usb.v
UsbShutdown.v
UsbWindow.v
ProcPoll.v
ProcLinux.v
ProcWindows.v
Storage.v
RetryTime.v
EventJson.v
UsbValidator.v
StorageSpec.v
Identity.v
StorageInit.v
Provider.v
ProviderWindows.v
Interfaces.v
Contents.v
Ingestion.v
Forwarder.v
Detection.v
Repository.v
IngestApi.v
IngestBody.v
Worker.v
Shutdown.v
Endpoint.v
PostUrl.v
EndToEnd.v
Drain.v
EndpointStart.v
Mains.v
WorkerStart.v
