(* ===== verification/Prelude.v ===== *)
(** A verification development for RedCyberFox (OTSOC), an endpoint agent and
    server for operational-technology security monitoring.

    * The program

    The agent (src/agent) runs collectors that produce canonical events
    (src/pkg/events).  The ingestion engine makes each event durable in an
    SQLite store, retrying, recovering to a dead-letter queue or spilling to
    disk when the store fails; a detection engine evaluates rules on committed
    events and stores findings; a forwarder posts pending events to the server
    and removes them when they are accepted.  Next to this path a resource
    governor watches the host and moves between NORMAL, RESOURCE-SAVER and
    EMERGENCY, fed by a coordinator that samples the operating system.  The
    server (src/server) validates and queues events (API), and a worker takes
    them from the stream, persists them in PostgreSQL and acknowledges them;
    read endpoints return a tenant's events and alerts.

    * The files

    Shared: [Prelude] (scope, errors, results, machine integers, bytes and
    slices, tactics), [GoStrings] (strings, formatting, runes), [GoText]
    (splitting and joining), [GoParse] (numbers, durations, lines, IP
    addresses), [GoFloat] (binary64 by SpecFloat), [GoNumber] (decimal texts of
    float64 values), [GoJson] (the texts of encoding/json), [GoStruct] (structs and
    their tags in that package), [GoUrl] (net/url.Parse), [GoTime] (time and
    duration), [GoDate] (the calendar and the text of a time).

    Events: [Events] models pkg/events/canonical.go, [EventJson] its Serialize
    and Deserialize.

    Resource control (agent/internal/governor): [Governor] is governor.go and
    types.go, [Metrics] metrics.go, [Coordinator] coordinator.go; [Provider]
    is provider.go as a type class with its laws and its instances
    provider_linux.go and sqlite_provider.go, with sampling.go;
    [ProviderWindows] is provider_windows.go.

    Passive network sensor (agent/internal/collectors/passivenetwork):
    [PassiveModel] is model.go, [Modbus] modbus.go, [Normalizer]
    normalizer.go, [Protocols] protocols.go, [PassiveCollector] collector.go
    and adapter.go; [Config] is agent/internal/config/config.go.

    Process collector (agent/internal/collectors/process): [Lifecycle] is
    model.go, reconcile.go, lifecycle.go and collector.go; [ProcPoll] has what
    the adapters share, [ProcLinux] is adapter_linux.go and [ProcWindows]
    adapter_windows.go.

    Host collectors (agent/internal/collectors): [Collectors] is the life
    cycle, interval and delivery they have in common; [Network] is
    network/collector.go and network_linux.go, [NetworkWindows]
    network_windows.go, [Inventory] inventory/collector.go, [Filesystem]
    filesystem/collector.go, [Usb] usb/collector.go, usb_linux.go and
    usb_windows.go, [UsbWindow] the window of the Windows watcher and
    [UsbShutdown] the goroutines of the USB collector; [UsbValidator] is
    agent/cmd/usbvalidator/main.go.

    Durability (agent/internal): [Storage] is storage/sqlite.go,
    [StorageSpec] its properties, [StorageInit] its opening over the files of
    the disk, and [RetryTime] the texts it keeps retry times as; [Identity] is identity/identity.go and health/health.go;
    [Interfaces] is interfaces/interfaces.go, the
    type class its clients are verified against, with the SQLite store as an
    instance, and [Contents] a second class on what its rows hold and a third, the
    codec, on the encoding of events, with JSON as its instance; [Ingestion] is ingestion/engine.go, [Forwarder]
    forwarder/forwarder.go, [Detection] detection/{engine,rules,yara_rule}.go.

    Server (server/internal): [Repository] is db/repository.go, [IngestApi]
    api/ingest.go, api/read.go and queue/producer.go, [IngestBody] the decoding of
    a posted body, [Worker]
    the messages of queue/consumer.go and [WorkerStart] its loop and the worker's
    main.

    The whole (agent/cmd/endpoint/main.go): [EndpointStart] is main up to the
    wait for a signal, [Endpoint] follows an event from a collector through the
    engine and the forwarder to the server, [PostUrl] is the URL it posts to,
    [Shutdown] is the agent's
    goroutines and the order in which main ends them; [Mains] is the start of
    the servers and the synthetic agent.  [EndToEnd] composes [Forwarder],
    [IngestApi], [Worker] and the store, over a network that loses requests and
    answers and next to other clients, into one machine and proves that it implements an abstract
    specification, the custody of an event; its own definitions only connect
    the operations of those files.  [Drain] bounds the rounds this machine needs
    to deliver a backlog.

    * How the code is modelled

    A method is a function from the receiver's record and its arguments to the
    new record and the results.  An error is a value of [error] with the
    errors it wraps, so [errors.Is] is a function; a result with an error is
    [result].  Code that may panic runs in the option monad, [None] being the
    panic.  Integers are [Z] with their wrap-around written out ([u16], [u64],
    [i64]); floats are IEEE binary64 values including NaN; strings are Go
    byte strings; maps are [gmap]s, and where Go iterates over a map the
    order is an argument that the theorems quantify over.

    What the code does not determine is an argument too: the clock, which SQL
    statement, request or file operation fails and how, whether a failed
    commit took effect, what the server answers, when a context is cancelled.
    Third-party code is a parameter: [uuid.Parse] and [uuid.NewSHA1], the
    YARA-X scanner, and so is the parsing of the authority in a URL, whose rules
    for literal addresses depend on the version of Go.  Theorems
    hold for all of these unless a hypothesis says otherwise.  The encoding of
    events is a parameter with the laws of [EventCodec] too; [json_codec] proves
    them of the JSON encoding, and the examples run on it.  The location of a
    time is no part of [Time]; the encoder takes the UTC offset as an argument.  Locks are not
    modelled where a mutex makes an operation atomic; where goroutines
    interleave, in the replay pipeline, the USB watchers, the agent as a whole
    and the path to the server, the model is a step relation or a step function on labels.  Kernel
    files and the answers of system calls are inputs, the parsers that read
    them are not.  Logging is left out.

    * What is proved

    Events: validation accepts exactly the well-formed events; the JSON text of
    an event is decoded to the same event with valid UTF-8, and what was
    decoded survives any number of further encodings.

    Ingestion, forwarding and detection, over any store that satisfies the
    interface: an event handed to the engine ends committed, dead-lettered,
    spilled or dropped, each with its exact callback; a pending event stays
    until it is acknowledged or dead-lettered; detection adds findings and
    changes nothing else. The store: what each result of [Store] means for the
    tables, idempotence, a table invariant kept by all operations, pruning
    order, atomic dead-lettering, retry schedule, and the completeness and
    order of the pending batch. Server: 202 exactly when the posted bytes are
    the JSON text of one valid event, which is then queued, and nothing queued
    without it but by an XADD whose reply was lost; acknowledgement only after
    persistence or dead-lettering, idempotent and atomic persistence, tenant
    isolation. From end to end: custody of an event passes from the agent's
    store to the stream to the database and is not lost on the way but to the
    quota, whatever fails and however the steps interleave; its row is inserted
    once, and only if it was offered; the worker's dead-letter stream stays
    empty; one good round trip delivers it, and rounds of the forwarder at any
    times of a window that have a place for every try its events can take in it
    deliver the backlog, whatever undeliverable events are among them. Governor
    and coordinator: missing or invalid telemetry leads to EMERGENCY, recovery
    is neither premature nor withheld, the target is monotone in load, the
    metrics mirror the governor. Sensor: total decoding whose evidence is known
    exactly for well-formed frames, by a specification on the bytes of the
    frame; decoding inverts the wire formats, port numbers alone never
    establish a protocol, every frame yields a valid event, nothing is dropped
    or reordered. Process lifecycle: reconciliation is the difference of
    snapshots, the emitted log replays to the engine's state, a reused PID is a
    new process; polling on both platforms never reports the exit of a process
    that merely became unreadable. Host collectors: the /proc/net and Windows
    tables are read back exactly, uevents round-trip, a USB device has one
    identity on both platforms, a failed reading is flagged and never passed
    off as an empty one. Resource providers: a signal is valid exactly when it
    was measured, and the SQLite footprint is the size the quota uses. The
    configuration is what its JSON file says, and valid. Opening the store
    keeps every file and the device id, which it adopts from the identity file
    of an older agent; a retry time is read back as the same instant in every
    form it was ever stored in, the migration to the canonical form is all or
    nothing, and comparing the texts is comparing the times. The whole agent:
    when it starts and with what identity, what a collector emits the server
    accepts, the posts go to the ingest path below the address of the server
    and carry the tenant, and the shutdown loses no event in any interleaving
    and terminates exactly if no collector can block for ever, which
    [UsbShutdown] proves of the Linux USB watcher and refutes of the Windows
    one.

    Some theorems state defects the model made visible: pruning that cannot
    free space, a sequence number shared by a dead letter and a live event, the
    retry loop that spins when one context has both roles, Ethernet padding
    counted as payload and a later fragment read as a segment, the event that
    is dropped without being announced, the Windows USB watcher that can block
    [Stop] for ever and can leave its window behind, the start-up errors that
    are never logged, the oversized event that is retried for ever, the server
    address with an empty query or fragment that is accepted and never reached,
    the synthetic agent whose default target the server refuses.

    * Bounds and fuel

    The retry loop of the ingestion engine runs on fuel; four turns are proved
    enough when the two contexts differ.  The prune loop of the quota deletes at
    least one row per round, so the number of rows plus one is enough; this is
    proved with the loop's specification.  Rune counting consumes a byte per
    step; [ParseDuration] a byte per term, so its length is enough, proved with
    it.  The JSON parser may take two calls per byte, which is
    proved enough for every text; the scientific and decimal
    forms of a float are tried by increasing number of digits, at most those of
    its exact value.  An id is padded to four digits in at most three turns.  The Windows
    table loops are bounded by the entry count of the buffer, and the loops on
    replies of the operating system by the list of replies.  [measure] bounds
    the shutdown of the agent.  The tries of an event in a window are counted with
    as much fuel as the window has seconds, a backoff being at least one.  All other recursion is structural.

    * What is not modelled

    The conversions of PostgreSQL's columns, so that two spellings of one UUID are
    two keys here; the retry-time migration is modelled, but by itself: [Init] ends
    before it.  Of the endpoint's main, the parsing of its flags and the goroutine that
    logs heartbeats; signals and timeouts of the HTTP server; the thread a
    goroutine runs on; live packet capture, which the repository does not
    contain; the dashboard, deployments and the vendored Go tools. *)
From stdpp Require Export base tactics numbers strings list sorting pretty gmap.
From Stdlib Require Export ZArith Lia Strings.Byte.
From Stdlib Require Ascii String.

(** ** Scopes, notations *)

Declare Scope go_scope.
Delimit Scope go_scope with go.
Open Scope go_scope.

(** Go string equality and concatenation. *)
Notation "s =s t" := (String.eqb s t) (at level 70, no associativity) : go_scope.
Notation "s ^^ t" := (String.append s t) (at level 50, left associativity) : go_scope.

(** A Go expression that may panic at run time is an [option]: [None] is the
    panic.  [guard!] stands for an early return. *)
Notation "'let!' x ':=' e 'in' k" := (mbind (fun x => k) e)
  (at level 200, x pattern, e at level 200, k at level 200, right associativity) : go_scope.

(** ** Errors

    A Go error is its message together with the errors it wraps; a sentinel
    ([errors.New] at package level) wraps nothing and is identified by its
    message.  [fmt.Errorf("...%w...")] and [errors.Join] build [ErrWrap]. *)
Inductive error : Type :=
  | ErrNew (msg : string)
  | ErrWrap (msg : string) (causes : list error).

Definition error_Error (e : error) : string :=
  match e with ErrNew m | ErrWrap m _ => m end.

(** [errors.Is(e, target)] for a sentinel target: some node of the error tree
    is the sentinel. *)
Fixpoint errors_Is (e : error) (target : string) : bool :=
  match e with
  | ErrNew m => m =s target
  | ErrWrap _ cs => existsb (fun c => errors_Is c target) cs
  end.

(** [errors.Join(a, b)] on possibly-nil errors; nil when both are nil. *)
Definition errors_Join (a b : option error) : option error :=
  match a, b with
  | None, None => None
  | Some x, None | None, Some x => Some (ErrWrap (error_Error x) [x])
  | Some x, Some y =>
      Some (ErrWrap (error_Error x ^^ String (Ascii.ascii_of_nat 10) EmptyString ^^ error_Error y) [x; y])
  end.

Definition errors_IsOpt (e : option error) (target : string) : bool :=
  match e with Some x => errors_Is x target | None => false end.

Inductive result (A : Type) : Type :=
  | Ok (a : A)
  | Err (e : error).
Arguments Ok {A} _.
Arguments Err {A} _.

Definition is_ok {A} (r : result A) : bool :=
  match r with Ok _ => true | Err _ => false end.

(** The early return [if err != nil { return err }]. *)
#[export] Instance result_bind : MBind result := fun A B f r => match r with Ok a => f a | Err e => Err e end.
#[export] Instance result_fmap : FMap result := fun A B f r => match r with Ok a => Ok (f a) | Err e => Err e end.

(** The results of a list of calls, or the first error. *)
Fixpoint sequence {A} (l : list (result A)) : result (list A) :=
  match l with
  | [] => Ok []
  | Ok a :: l => cons a <$> sequence l
  | Err e :: _ => Err e
  end.

(** ** Machine integers

    A w-bit integer is the [Z] it denotes; the operations that can leave the
    range are followed by the wrap-around written here. *)
Definition MaxUint64 : Z := 2 ^ 64 - 1.
Definition MaxInt64 : Z := 2 ^ 63 - 1.
Definition MinInt64 : Z := - 2 ^ 63.

Definition wrapU (w z : Z) : Z := z mod 2 ^ w.
Definition u8 (z : Z) : Z := wrapU 8 z.
Definition u16 (z : Z) : Z := wrapU 16 z.
Definition u32 (z : Z) : Z := wrapU 32 z.
Definition u64 (z : Z) : Z := wrapU 64 z.
Definition i64 (z : Z) : Z := (z + 2 ^ 63) mod 2 ^ 64 - 2 ^ 63.

Definition in_u8 (z : Z) : Prop := (0 <= z < 2 ^ 8)%Z.
Definition in_u16 (z : Z) : Prop := (0 <= z < 2 ^ 16)%Z.
Definition in_u64 (z : Z) : Prop := (0 <= z <= MaxUint64)%Z.
Definition in_i64 (z : Z) : Prop := (MinInt64 <= z <= MaxInt64)%Z.

#[export] Instance in_u64_dec z : Decision (in_u64 z).
Proof. unfold in_u64. apply _. Defined.
#[export] Instance in_i64_dec z : Decision (in_i64 z).
Proof. unfold in_i64. apply _. Defined.

Create HintDb go_int.

(** The ranges as literals, for [lia]. *)
Ltac int_lits :=
  unfold in_u8, in_u16, in_u64, in_i64, MaxUint64, MaxInt64, MinInt64, u8, u16, u32, u64, i64, wrapU in *;
  change (2 ^ 8)%Z with 256%Z in *;
  change (2 ^ 16)%Z with 65536%Z in *;
  change (2 ^ 32)%Z with 4294967296%Z in *;
  change (2 ^ 63)%Z with 9223372036854775808%Z in *;
  change (2 ^ 64)%Z with 18446744073709551616%Z in *.

Lemma u64_range z : in_u64 (u64 z).
Proof. int_lits. pose proof (Z.mod_pos_bound z 18446744073709551616). lia. Qed.

Lemma u64_small z : in_u64 z -> u64 z = z.
Proof. int_lits. intros. apply Z.mod_small. lia. Qed.

Lemma i64_range z : in_i64 (i64 z).
Proof.
  int_lits. pose proof (Z.mod_pos_bound (z + 9223372036854775808) 18446744073709551616). lia.
Qed.

Lemma i64_small z : in_i64 z -> i64 z = z.
Proof. int_lits. intros. rewrite Z.mod_small; lia. Qed.

#[export] Hint Resolve u64_range i64_range : go_int.

(** ** Bytes and byte slices *)

Notation bytes := (list byte) (only parsing).

Definition bz (b : byte) : Z := Z.of_N (Byte.to_N b).

Definition zb (z : Z) : byte :=
  match Byte.of_N (Z.to_N (z mod 256)) with Some b => b | None => x00 end.

(** Little-endian: [binary.LittleEndian.Uint16/32/64]. *)
Definition leWord (l : bytes) : Z := foldr (fun b acc => bz b + 256 * acc)%Z 0%Z l.

Lemma bz_range b : (0 <= bz b < 256)%Z.
Proof. unfold bz. pose proof (Byte.to_N_bounded b). lia. Qed.

Lemma zb_bz b : zb (bz b) = b.
Proof.
  unfold zb. rewrite Z.mod_small by apply bz_range.
  unfold bz. rewrite N2Z.id, Byte.of_to_N. done.
Qed.

Lemma bz_zb_mod z : bz (zb z) = (z mod 256)%Z.
Proof.
  pose proof (Z.mod_pos_bound z 256 ltac:(lia)) as Hm. unfold zb.
  destruct (Byte.of_N (Z.to_N (z mod 256))) as [b|] eqn:E.
  - unfold bz. apply Byte.to_of_N in E. rewrite E. lia.
  - apply Byte.of_N_None_iff in E. lia.
Qed.

Lemma bz_zb z : (0 <= z < 256)%Z -> bz (zb z) = z.
Proof. intros Hz. rewrite bz_zb_mod. by apply Z.mod_small. Qed.

(** [s[lo:hi]]: Go panics when the bounds are not ordered or exceed the
    capacity; the model panics as soon as they exceed the length, which is the
    stricter condition. *)
Definition go_slice {A} (s : list A) (lo hi : nat) : option (list A) :=
  if decide (lo <= hi <= length s)%nat then Some (take (hi - lo) (drop lo s)) else None.

Definition go_slice_from {A} (s : list A) (lo : nat) : option (list A) :=
  go_slice s lo (length s).

(** [binary.BigEndian.Uint16(s[i:i+2])] *)
Definition be16 (s : bytes) (i : nat) : option Z :=
  let! b0 := s !! i in
  let! b1 := s !! S i in
  Some (Z.lor (Z.shiftl (bz b0) 8) (bz b1)).

Definition put_be16 (z : Z) : bytes := [zb (Z.shiftr z 8); zb z].

Lemma be16_some s i : (i + 2 <= length s)%nat -> exists z, be16 s i = Some z.
Proof.
  intros H. unfold be16.
  destruct (lookup_lt_is_Some_2 s i) as [b0 ->]; [lia|].
  destruct (lookup_lt_is_Some_2 s (S i)) as [b1 ->]; [lia|].
  simpl. eauto.
Qed.

Lemma lor_shiftl_add a b : (0 <= b < 256)%Z -> Z.lor (Z.shiftl a 8) b = (a * 256 + b)%Z.
Proof.
  intros Hb. rewrite Z.shiftl_mul_pow2 by lia. change (2 ^ 8)%Z with 256%Z.

  rewrite <- Z.add_lor_land.
  assert (Z.land (a * 256) b = 0)%Z as ->; [|lia].
  apply Z.bits_inj'. intros n Hn. rewrite Z.land_spec, Z.bits_0.
  destruct (decide (n < 8)%Z) as [Hlt|Hge].
  - change 256%Z with (2 ^ 8)%Z. rewrite Z.mul_pow2_bits_low by lia. done.
  - rewrite (Z.bits_above_log2 b n), andb_false_r; [done|lia|].
    destruct (decide (b = 0)%Z) as [->|]; [simpl; lia|].
    assert (Z.log2 b < 8)%Z by (apply Z.log2_lt_pow2; lia). lia.
Qed.

Lemma be16_range s i z : be16 s i = Some z -> in_u16 z.
Proof.
  unfold be16. destruct (s !! i) as [b0|]; [|done]. simpl.
  destruct (s !! S i) as [b1|]; [|done]. simpl. intros [= <-].
  rewrite lor_shiftl_add by apply bz_range.
  pose proof (bz_range b0); pose proof (bz_range b1). int_lits. lia.
Qed.

Lemma be16_put pre z post :
  in_u16 z -> be16 (pre ++ put_be16 z ++ post) (length pre) = Some z.
Proof.
  intros Hz. unfold be16, put_be16. cbn [app].
  rewrite (list_lookup_middle _ _ _ (length pre)) by done. simpl.
  rewrite cons_middle, app_assoc.
  rewrite (list_lookup_middle _ _ _ (S (length pre))) by (rewrite length_app; simpl; lia).
  simpl. f_equal.
  int_lits.
  rewrite Z.shiftr_div_pow2 by lia. change (2 ^ 8)%Z with 256%Z.
  rewrite (bz_zb_mod z).
  rewrite bz_zb by (split; [apply Z.div_pos; lia | apply Z.div_lt_upper_bound; lia]).
  rewrite lor_shiftl_add by (apply Z.mod_pos_bound; lia).
  pose proof (Z.div_mod z 256). lia.
Qed.

(** Reads behind a prefix. *)
Lemma lookup_skip {A} (pre l : list A) i : (pre ++ l) !! (length pre + i)%nat = l !! i.
Proof. rewrite lookup_app_r by lia. f_equal. lia. Qed.

Lemma go_slice_skip {A} (pre l : list A) lo hi :
  go_slice (pre ++ l) (length pre + lo) (length pre + hi) = go_slice l lo hi.
Proof.
  unfold go_slice. rewrite length_app.
  destruct (decide (lo <= hi <= length l)%nat).
  - rewrite decide_True by lia. f_equal.
    replace (length pre + hi - (length pre + lo))%nat with (hi - lo)%nat by lia.
    by rewrite drop_app_add.
  - rewrite decide_False by lia. done.
Qed.

Lemma go_slice_from_skip {A} (pre l : list A) lo :
  go_slice_from (pre ++ l) (length pre + lo) = go_slice_from l lo.
Proof. unfold go_slice_from. rewrite length_app. apply go_slice_skip. Qed.

Lemma go_slice_from_app {A} (pre l : list A) : go_slice_from (pre ++ l) (length pre) = Some l.
Proof.
  rewrite <- (Nat.add_0_r (length pre)), go_slice_from_skip. unfold go_slice_from, go_slice.
  rewrite decide_True by lia. rewrite drop_0, Nat.sub_0_r. f_equal. by apply take_ge.
Qed.

Lemma be16_skip pre l i : be16 (pre ++ l) (length pre + i) = be16 l i.
Proof.
  unfold be16. rewrite lookup_skip. destruct (l !! i); [|done]. cbn.
  by rewrite plus_n_Sm, lookup_skip.
Qed.

(** Name the elements of a list whose length is a numeral. *)
Ltac explode l :=
  repeat (destruct l as [|? l]; [discriminate|]); destruct l; [|discriminate].
