(* ===== verification/GoStrings.v ===== *)
(** The parts of Go's string packages the program uses: decimal and
    hexadecimal formatting ([fmt], [net]), rune counting ([unicode/utf8]) and
    the character class of the identifier regexps.  A Go string is its bytes. *)
From S2P Require Import Prelude.
From Stdlib Require Strings.String Strings.Ascii.

Local Open Scope string_scope.
Open Scope Z_scope.

(** [len(s)] *)
Definition go_len (s : string) : Z := Z.of_nat (String.length s).

(** [fmt.Sprintf("%d", z)] *)
Definition fmt_d (z : Z) : string := pretty z.

Definition bytes_of (s : string) : list byte := String.list_byte_of_string s.
Definition string_of (l : list byte) : string := String.string_of_list_byte l.

Lemma string_of_bytes_of s : string_of (bytes_of s) = s.
Proof. apply String.string_of_list_byte_of_string. Qed.
Lemma bytes_of_string_of l : bytes_of (string_of l) = l.
Proof. apply String.list_byte_of_string_of_list_byte. Qed.

(** One hexadecimal digit; [upper] selects the letters of [%X]. *)
Definition hexDigit (upper : bool) (z : Z) : string :=
  let digits := if upper then "0123456789ABCDEF" else "0123456789abcdef" in
  String.substring (Z.to_nat (z mod 16)) 1 digits.

(** [%02x] of a byte. *)
Definition hex02 (z : Z) : string := hexDigit false (z / 16) ^^ hexDigit false z.

(** [%04X] of a uint16. *)
Definition HEX04 (z : Z) : string :=
  hexDigit true (z / 4096) ^^ hexDigit true (z / 256) ^^ hexDigit true (z / 16) ^^ hexDigit true z.

(** [net.HardwareAddr(b).String()]: colon-separated hex pairs. *)
Definition HardwareAddr_String (b : list byte) : string :=
  String.concat ":" (map (fun x => hex02 (bz x)) b).

(** [net.IP(b).String()] for a 4-byte address: dotted decimal. *)
Definition IPv4_String (b : list byte) : string :=
  String.concat "." (map (fun x => fmt_d (bz x)) b).

Example mac_ex : HardwareAddr_String [x00; x1b; xff] = "00:1b:ff".
Proof. vm_compute. reflexivity. Qed.
Example ip_ex : IPv4_String [xc0; xa8; x00; x0a] = "192.168.0.10".
Proof. vm_compute. reflexivity. Qed.
Example hex_ex : HEX04 34525 = "86DD".
Proof. vm_compute. reflexivity. Qed.

(** *** unicode/utf8 *)

(** The entry of the [first] table for a lead byte: the size of the encoding
    and the accepted range of its second byte; [None] for an invalid lead. *)
Definition utf8_first (c : Z) : option (nat * Z * Z) :=
  if c <? 194 then None                                     (* 80..C1 *)
  else if c <=? 223 then Some (2%nat, 128, 191)             (* C2..DF *)
  else if c =? 224 then Some (3%nat, 160, 191)              (* E0 *)
  else if c =? 237 then Some (3%nat, 128, 159)              (* ED *)
  else if c <=? 239 then Some (3%nat, 128, 191)             (* E1..EC, EE..EF *)
  else if c =? 240 then Some (4%nat, 144, 191)              (* F0 *)
  else if c <=? 243 then Some (4%nat, 128, 191)             (* F1..F3 *)
  else if c =? 244 then Some (4%nat, 128, 143)              (* F4 *)
  else None.                                                (* F5..FF *)

Definition utf8_cont (b : byte) : bool := (128 <=? bz b) && (bz b <=? 191).

(** The number of bytes of the first rune of [c :: rest]; 1 for a byte that
    does not start a valid encoding. *)
Definition runeSize (c : byte) (rest : list byte) : nat :=
  if bz c <? 128 then 1%nat
  else match utf8_first (bz c) with
  | None => 1%nat
  | Some (size, lo, hi) =>
      match size, rest with
      | 2%nat, b1 :: _ => if (lo <=? bz b1) && (bz b1 <=? hi) then 2%nat else 1%nat
      | 3%nat, b1 :: b2 :: _ =>
          if (lo <=? bz b1) && (bz b1 <=? hi) && utf8_cont b2 then 3%nat else 1%nat
      | 4%nat, b1 :: b2 :: b3 :: _ =>
          if (lo <=? bz b1) && (bz b1 <=? hi) && utf8_cont b2 && utf8_cont b3 then 4%nat else 1%nat
      | _, _ => 1%nat
      end
  end.

(** [fuel] is the length of the input: every rune consumes a byte. *)
Fixpoint runeCount (fuel : nat) (l : list byte) : Z :=
  match fuel, l with
  | S fuel, c :: rest => 1 + runeCount fuel (drop (runeSize c rest - 1) rest)
  | _, _ => 0
  end.

Definition RuneCountInString (s : string) : Z :=
  let l := bytes_of s in runeCount (length l) l.

Lemma runeSize_pos c rest : (1 <= runeSize c rest)%nat.
Proof. unfold runeSize. repeat case_match; lia. Qed.

Lemma runeCount_bounds fuel l : 0 <= runeCount fuel l <= Z.of_nat (length l).
Proof.
  revert l. induction fuel as [|fuel IH]; intros [|c rest]; cbn [runeCount length]; try lia.
  specialize (IH (drop (runeSize c rest - 1) rest)). rewrite length_drop in IH. lia.
Qed.

(** The fuel is enough: more of it changes nothing. *)
Lemma runeCount_fuel fuel l : (length l <= fuel)%nat -> runeCount fuel l = runeCount (length l) l.
Proof.
  revert l. induction fuel as [fuel IH] using lt_wf_ind. intros [|c rest] Hle; [by destruct fuel|].
  destruct fuel as [|fuel]; [simpl in Hle; lia|]. cbn [runeCount length].
  simpl in Hle. set (t := drop _ rest).
  assert (length t <= length rest)%nat by (unfold t; rewrite length_drop; lia).
  rewrite (IH fuel) by lia. rewrite (IH (length rest)) by lia. done.
Qed.

(** *** [^[a-zA-Z0-9-]+$] *)

Definition idChar (a : Ascii.ascii) : bool :=
  let n := Ascii.nat_of_ascii a in
  ((97 <=? n)%nat && (n <=? 122)%nat) || ((65 <=? n)%nat && (n <=? 90)%nat)
  || ((48 <=? n)%nat && (n <=? 57)%nat) || (n =? 45)%nat.

Fixpoint allChars (p : Ascii.ascii -> bool) (s : string) : bool :=
  match s with
  | EmptyString => true
  | String a s => p a && allChars p s
  end.

Definition idPattern (s : string) : bool := negb (s =s "") && allChars idChar s.

(** An identifier is ASCII: its runes are its bytes. *)
Lemma idChar_ascii a : idChar a = true -> bz (Ascii.byte_of_ascii a) < 128.
Proof. destruct a as [[] [] [] [] [] [] [] []]; vm_compute; congruence. Qed.

Lemma runeCount_chars p s :
  (forall a, p a = true -> bz (Ascii.byte_of_ascii a) < 128) -> allChars p s = true -> RuneCountInString s = go_len s.
Proof.
  intros Hp. unfold RuneCountInString, go_len, bytes_of. induction s as [|a s IH]; [done|]. intros H.
  cbn [allChars] in H. apply andb_prop in H as [Ha Hs].
  change (String.list_byte_of_string (String a s)) with (Ascii.byte_of_ascii a :: String.list_byte_of_string s).
  cbn [length runeCount]. unfold runeSize. rewrite (proj2 (Z.ltb_lt _ _) (Hp _ Ha)).
  change (drop (1 - 1) ?l) with l. rewrite IH by done. cbn [String.length]. lia.
Qed.

Lemma runeCount_ascii s : allChars idChar s = true -> RuneCountInString s = go_len s.
Proof. apply runeCount_chars, idChar_ascii. Qed.

(** *** Lengths *)
Lemma length_bytes_of s : length (bytes_of s) = String.length s.
Proof. unfold bytes_of. induction s as [|a s IH]; [done|]. cbn. by f_equal. Qed.

Lemma runeCount_le_len s : RuneCountInString s <= go_len s.
Proof.
  unfold RuneCountInString, go_len. rewrite <- length_bytes_of. apply runeCount_bounds.
Qed.

Lemma go_len_append s t : go_len (s ^^ t) = go_len s + go_len t.
Proof.
  unfold go_len. induction s as [|a s IH]; [done|].
  change (String a s ^^ t) with (String a (s ^^ t)).
  change (String.length (String a ?u)) with (S (String.length u)). lia.
Qed.

Lemma fmt_byte_len b : go_len (fmt_d (bz b)) <= 3.
Proof. destruct b; vm_compute; congruence. Qed.

Lemma substring1_len n s : (String.length (String.substring n 1 s) <= 1)%nat.
Proof. revert n. induction s as [|a s IH]; intros [|n]; cbn; try lia; [by destruct s|apply IH]. Qed.

Lemma hexDigit_len u z : go_len (hexDigit u z) <= 1.
Proof.
  unfold go_len, hexDigit. cbv zeta.
  match goal with |- context [String.substring ?n 1 ?s] => pose proof (substring1_len n s) end. lia.
Qed.

Lemma concat_len sep (l : list string) k :
  0 <= k -> Forall (fun s => go_len s <= k) l ->
  go_len (String.concat sep l) <= Z.of_nat (length l) * (k + go_len sep).
Proof.
  intros Hk. induction 1 as [|s l Hs Hl IH]; [done|].
  assert (0 <= go_len sep) by (unfold go_len; lia).
  destruct l as [|t l]; [cbn [String.concat length]; lia|].
  change (String.concat sep (s :: t :: l)) with (s ^^ (sep ^^ String.concat sep (t :: l))).
  rewrite !go_len_append. cbn [length] in *. nia.
Qed.

Lemma IPv4_String_len b : (length b <= 6)%nat -> go_len (IPv4_String b) <= 24.
Proof.
  intros Hb. unfold IPv4_String.
  pose proof (concat_len "." (map (fun x => fmt_d (bz x)) b) 3 ltac:(lia)) as H.
  rewrite length_map in H. change (go_len ".") with 1 in H.
  assert (go_len (String.concat "." (map (fun x => fmt_d (bz x)) b)) <= Z.of_nat (length b) * (3 + 1)); [|lia].
  apply H. apply Forall_map, Forall_true. intros x. apply fmt_byte_len.
Qed.

Lemma HardwareAddr_String_len b : (length b <= 6)%nat -> go_len (HardwareAddr_String b) <= 18.
Proof.
  intros Hb. unfold HardwareAddr_String.
  pose proof (concat_len ":" (map (fun x => hex02 (bz x)) b) 2 ltac:(lia)) as H.
  rewrite length_map in H. change (go_len ":") with 1 in H.
  assert (go_len (String.concat ":" (map (fun x => hex02 (bz x)) b)) <= Z.of_nat (length b) * (2 + 1)); [|lia].
  apply H. apply Forall_map, Forall_true. intros x. unfold hex02. rewrite go_len_append.
  pose proof (hexDigit_len false (bz x / 16)). pose proof (hexDigit_len false (bz x)). cbn beta. lia.
Qed.

(** *** strconv *)

Definition digitVal (a : Ascii.ascii) : option Z :=
  let n := Z.of_nat (Ascii.nat_of_ascii a) in
  if (48 <=? n) && (n <=? 57) then Some (n - 48) else None.

Fixpoint parseDigits (s : string) (acc : Z) : option Z :=
  match s with
  | EmptyString => Some acc
  | String a s =>
      match digitVal a with
      | Some d => parseDigits s (acc * 10 + d)
      | None => None
      end
  end.

(** [strconv.Atoi] and [strconv.ParseInt(s, 10, 64)]: an optional sign, at
    least one digit, and a value in range; [None] is the error. *)
Definition Atoi (s : string) : option Z :=
  let '(neg, digits) := match s with
                        | String a r => if Ascii.eqb a (Ascii.ascii_of_nat 43) then (false, r)
                                        else if Ascii.eqb a (Ascii.ascii_of_nat 45) then (true, r)
                                        else (false, s)
                        | EmptyString => (false, s)
                        end in
  if digits =s "" then None
  else match parseDigits digits 0 with
       | Some n => let n := if (neg : bool) then - n else n in
                   if (MinInt64 <=? n) && (n <=? MaxInt64) then Some n else None
       | None => None
       end.

Example Atoi_ex : map Atoi ["120"; "-7"; "+3"; "abc"; ""; "9223372036854775808"; "1 "]
  = [Some 120; Some (-7); Some 3; None; None; None; None].
Proof. vm_compute. reflexivity. Qed.

(** [strings.TrimRight(s, c)] for a one-character cutset. *)
Fixpoint TrimRight (s : string) (c : Ascii.ascii) : string :=
  match s with
  | EmptyString => EmptyString
  | String a s =>
      let t := TrimRight s c in
      if (t =s "") && Ascii.eqb a c then EmptyString else String a t
  end.

(** [s[:n]] for [0 <= n <= len(s)]. *)
Definition prefixString (n : nat) (s : string) : string := String.substring 0 n s.

(** *** Separators *)

Definition noChar (c : Ascii.ascii) (s : string) : bool := allChars (fun a => negb (Ascii.eqb a c)) s.

(** Text up to the first separator is determined by the joined string. *)
Lemma char_split c s1 s2 t1 t2 :
  noChar c s1 = true -> noChar c s2 = true ->
  (s1 ^^ String c EmptyString) ^^ t1 = (s2 ^^ String c EmptyString) ^^ t2 -> s1 = s2 /\ t1 = t2.
Proof.
  revert s2. induction s1 as [|a s1 IH]; intros [|b s2] H1 H2 H; cbn in *.
  - by injection H.
  - injection H as <- _. by rewrite Ascii.eqb_refl in H2.
  - injection H as -> _. by rewrite Ascii.eqb_refl in H1.
  - injection H as -> H. apply andb_prop in H1 as [_ H1], H2 as [_ H2].
    by destruct (IH s2 H1 H2 H) as [-> ->].
Qed.
