(* ===== verification/GoText.v ===== *)
(** The parts of Go's [strings], [bytes] and [strconv] packages that the
    operating-system parsers use: byte search, splitting, white-space fields,
    and number parsing with its inverse on formatted numbers. *)
From S2P Require Import Prelude GoStrings.
From stdpp Require Import pretty.
From Stdlib Require Import Strings.Ascii.
From Stdlib Require Strings.String.

Local Open Scope string_scope.
Local Open Scope list_scope.
Open Scope Z_scope.

(** *** Search *)

(** [strings.IndexByte(s, c)] and [strings.LastIndexByte(s, c)]; [None] is -1. *)
Fixpoint IndexByte (s : string) (c : Ascii.ascii) : option nat :=
  match s with
  | EmptyString => None
  | String a s => if Ascii.eqb a c then Some 0%nat else S <$> IndexByte s c
  end.

Fixpoint LastIndexByte (s : string) (c : Ascii.ascii) : option nat :=
  match s with
  | EmptyString => None
  | String a s =>
      match LastIndexByte s c with
      | Some i => Some (S i)
      | None => if Ascii.eqb a c then Some 0%nat else None
      end
  end.

(** [s[i:]] for [0 <= i <= len(s)]. *)
Fixpoint suffixString (i : nat) (s : string) : string :=
  match i, s with
  | O, _ => s
  | S i, String _ s => suffixString i s
  | S _, EmptyString => EmptyString
  end.

(** [strings.HasPrefix(s, p)] *)
Definition HasPrefix (s p : string) : bool := String.prefix p s.

Definition asciiLower (a : Ascii.ascii) : Ascii.ascii :=
  let n := Ascii.nat_of_ascii a in
  if (65 <=? n)%nat && (n <=? 90)%nat then Ascii.ascii_of_nat (n + 32) else a.

(** [strings.ToLower] of ASCII text. *)
Fixpoint lowerString (s : string) : string :=
  match s with EmptyString => EmptyString | String a s => String (asciiLower a) (lowerString s) end.

(** [strings.Split(s, c)] for a separator of one byte. *)
Fixpoint Split (s : string) (c : Ascii.ascii) : list string :=
  match s with
  | EmptyString => [""]
  | String a s =>
      if Ascii.eqb a c then "" :: Split s c
      else match Split s c with
           | w :: ws => String a w :: ws
           | [] => [String a ""]
           end
  end.

Example index_ex : (IndexByte "1 (a)b) S" "("%char, LastIndexByte "1 (a)b) S" ")"%char, LastIndexByte "x" ")"%char)
  = (Some 2%nat, Some 6%nat, None).
Proof. reflexivity. Qed.
Example split_ex : Split "a:b:" ":"%char = ["a"; "b"; ""].
Proof. reflexivity. Qed.

(** *** Fields *)

(** The length of the white-space character the bytes start with, 0 when they
    start with none ([unicode.IsSpace]): the ASCII blanks, U+0085, U+00A0,
    U+1680, U+2000 to U+200A, U+2028, U+2029, U+202F, U+205F and U+3000. *)
Definition spaceSize (l : list byte) : nat :=
  match l with
  | (x09 | x0a | x0b | x0c | x0d | x20) :: _ => 1%nat
  | xc2 :: (x85 | xa0) :: _ => 2%nat
  | xe1 :: x9a :: x80 :: _ => 3%nat
  | xe2 :: x80 :: (x80 | x81 | x82 | x83 | x84 | x85 | x86 | x87 | x88 | x89 | x8a | xa8 | xa9 | xaf) :: _ => 3%nat
  | xe2 :: x81 :: x9f :: _ => 3%nat
  | xe3 :: x80 :: x80 :: _ => 3%nat
  | _ => 0%nat
  end.

Definition flush (cur : list byte) : list (list byte) := match cur with [] => [] | _ => [cur] end.

(** [skip]: bytes left of the white-space character being skipped; [cur]: the
    field being read.  A byte inside a character is never the first byte of a
    white-space character, so reading byte by byte finds the same fields as
    decoding runes. *)
Fixpoint fieldsFrom (l : list byte) (skip : nat) (cur : list byte) : list (list byte) :=
  match l with
  | [] => flush cur
  | b :: l' =>
      match skip with
      | S k => fieldsFrom l' k cur
      | O =>
          match spaceSize l with
          | O => fieldsFrom l' 0 (cur ++ [b])
          | S k => flush cur ++ fieldsFrom l' k []
          end
      end
  end.

(** [strings.Fields(s)] *)
Definition Fields (s : string) : list string := map string_of (fieldsFrom (bytes_of s) 0 []).

Example fields_ex : Fields ("  Uid:" ^^ string_of [x09] ^^ "10 20 " ^^ string_of [xe2; x80; x89] ^^ "x") = ["Uid:"; "10"; "20"; "x"].
Proof. vm_compute. reflexivity. Qed.

(** *** Numbers *)

(** [strconv.ParseUint(s, 10, 64)] *)
Definition ParseUint (s : string) : option Z :=
  if s =s "" then None
  else match parseDigits s 0 with
       | Some n => if n <=? MaxUint64 then Some n else None
       | None => None
       end.

(** ** Lemmas *)
Lemma append_nil_r (s : string) : s ^^ "" = s.
Proof. induction s as [|a s IH]; [done|]. change (String a (s ^^ "") = String a s). by f_equal. Qed.

Lemma append_cons a (s t : string) : String a s ^^ t = String a (s ^^ t).
Proof. done. Qed.

Lemma append_assoc (s t u : string) : (s ^^ t) ^^ u = s ^^ (t ^^ u).
Proof. induction s as [|a s IH]; [done|]. change (String a ((s ^^ t) ^^ u) = String a (s ^^ (t ^^ u))). by f_equal. Qed.

Lemma length_append (s t : string) : String.length (s ^^ t) = (String.length s + String.length t)%nat.
Proof. induction s as [|a s IH]; [done|]. change (S (String.length (s ^^ t)) = S (String.length s + String.length t)). by f_equal. Qed.

Lemma bytes_of_append s t : bytes_of (s ^^ t) = bytes_of s ++ bytes_of t.
Proof.
  unfold bytes_of. induction s as [|a s IH]; [done|].
  change (Ascii.byte_of_ascii a :: String.list_byte_of_string (s ^^ t)
          = Ascii.byte_of_ascii a :: (String.list_byte_of_string s ++ String.list_byte_of_string t)).
  by f_equal.
Qed.

Lemma allChars_append p s t : allChars p (s ^^ t) = allChars p s && allChars p t.
Proof.
  induction s as [|a s IH]; [done|].
  change (p a && allChars p (s ^^ t) = (p a && allChars p s) && allChars p t). by rewrite IH, andb_assoc.
Qed.

Lemma allChars_impl (p q : Ascii.ascii -> bool) s :
  (forall a, p a = true -> q a = true) -> allChars p s = true -> allChars q s = true.
Proof.
  intros Hpq. induction s as [|a s IH]; [done|]. cbn. intros [Ha Hs]%andb_prop.
  by rewrite (Hpq _ Ha), IH.
Qed.

(** *** Search *)
Lemma IndexByte_first c s t :
  noChar c s = true -> IndexByte (s ^^ String c t) c = Some (String.length s).
Proof.
  induction s as [|a s IH]; intros H.
  - change (IndexByte (String c t) c = Some 0%nat). cbn [IndexByte]. by rewrite Ascii.eqb_refl.
  - unfold noChar in H. cbn in H. apply andb_prop in H as [Ha Hs].
    change (IndexByte (String a (s ^^ String c t)) c = Some (S (String.length s))). cbn [IndexByte].
    destruct (Ascii.eqb a c); [done|]. by rewrite (IH Hs).
Qed.

Lemma LastIndexByte_none c s : noChar c s = true -> LastIndexByte s c = None.
Proof.
  induction s as [|a s IH]; [done|]. unfold noChar. cbn. intros [Ha Hs]%andb_prop.
  rewrite (IH Hs). by destruct (Ascii.eqb a c).
Qed.

Lemma LastIndexByte_last c s t :
  noChar c t = true -> LastIndexByte (s ^^ String c t) c = Some (String.length s).
Proof.
  intros Ht. induction s as [|a s IH].
  - change (LastIndexByte (String c t) c = Some 0%nat). cbn [LastIndexByte]. by rewrite (LastIndexByte_none _ _ Ht), Ascii.eqb_refl.
  - change (LastIndexByte (String a (s ^^ String c t)) c = Some (S (String.length s))).
    cbn [LastIndexByte]. by rewrite IH.
Qed.

Lemma suffixString_append s t : suffixString (String.length s) (s ^^ t) = t.
Proof. induction s as [|a s IH]; [done|]. exact IH. Qed.

Lemma prefixString_append s t : prefixString (String.length s) (s ^^ t) = s.
Proof.
  unfold prefixString. induction s as [|a s IH]; [by destruct t|].
  change (String a (String.substring 0 (String.length s) (s ^^ t)) = String a s). by f_equal.
Qed.

(** *** Fields *)

(** A printable ASCII character other than the blank. *)
Definition wordChar (a : Ascii.ascii) : bool :=
  let n := Ascii.nat_of_ascii a in (33 <=? n)%nat && (n <=? 126)%nat.

Definition isWord (s : string) : bool := negb (s =s "") && allChars wordChar s.

Lemma wordChar_no_space a l : wordChar a = true -> spaceSize (Ascii.byte_of_ascii a :: l) = 0%nat.
Proof. destruct a as [[] [] [] [] [] [] [] []]; vm_compute; congruence. Qed.

Lemma fieldsFrom_word w l cur :
  allChars wordChar w = true -> fieldsFrom (bytes_of w ++ l) 0 cur = fieldsFrom l 0 (cur ++ bytes_of w).
Proof.
  revert cur. induction w as [|a w IH]; intros cur H; [by rewrite app_nil_r|].
  cbn in H. apply andb_prop in H as [Ha Hw].
  change (bytes_of (String a w)) with (Ascii.byte_of_ascii a :: bytes_of w).
  rewrite <- app_comm_cons. cbn [fieldsFrom]. rewrite (wordChar_no_space _ _ Ha), (IH _ Hw).
  by rewrite <- app_assoc.
Qed.

Lemma flush_word w : isWord w = true -> flush (bytes_of w) = [bytes_of w].
Proof. by destruct w. Qed.

(** Text that ends the field before it and holds none itself. *)
Definition endsFields (t : string) : Prop := forall cur, fieldsFrom (bytes_of t) 0 cur = flush cur.

Lemma endsFields_nil : endsFields "".
Proof. done. Qed.
Lemma endsFields_newline : endsFields (string_of [x0a]).
Proof. intros cur. cbn. by rewrite app_nil_r. Qed.

(** Words joined by blanks are found again. *)
Lemma Fields_concat ws t :
  Forall (fun w => isWord w = true) ws -> endsFields t -> Fields (String.concat " " ws ^^ t) = ws.
Proof.
  intros H Ht. unfold Fields. enough (fieldsFrom (bytes_of (String.concat " " ws ^^ t)) 0 [] = map bytes_of ws) as ->.
  { clear H. induction ws as [|w ws IH]; [done|]. cbn [map]. by rewrite string_of_bytes_of, IH. }
  induction H as [|w ws Hw Hws IH]; [apply (Ht [])|].
  pose proof Hw as Hw'. unfold isWord in Hw'. apply andb_prop in Hw' as [_ Hc].
  destruct ws as [|w' ws].
  - cbn [String.concat map]. rewrite bytes_of_append, (fieldsFrom_word _ _ _ Hc).
    cbn [app]. rewrite Ht. by apply flush_word.
  - change (String.concat " " (w :: w' :: ws)) with (w ^^ (" " ^^ String.concat " " (w' :: ws))).
    rewrite !append_assoc, !bytes_of_append, (fieldsFrom_word _ _ _ Hc), <- bytes_of_append.
    change (bytes_of " ") with [x20]. cbn [app fieldsFrom spaceSize]. rewrite IH.
    by rewrite (flush_word _ Hw).
Qed.

(** *** Numbers *)
Lemma parse_pretty_go n s : parseDigits (pretty_N_go n s) 0 = parseDigits s (Z.of_N n).
Proof.
  revert s. induction (N.lt_wf_0 n) as [n _ IH]. intros s.
  destruct (decide (n = 0)%N) as [->|Hn]; [by rewrite pretty_N_go_0|].
  rewrite pretty_N_go_step by lia. rewrite IH by (apply N.div_lt; lia). cbn [parseDigits].
  assert (Hd : digitVal (pretty_N_char (n mod 10)) = Some (Z.of_N (n mod 10))).
  { pose proof (N.mod_lt n 10 ltac:(lia)) as Hm. revert Hm. generalize (n mod 10)%N as d.
    intros d Hm. assert (d = 0 \/ d = 1 \/ d = 2 \/ d = 3 \/ d = 4 \/ d = 5 \/ d = 6 \/ d = 7 \/ d = 8 \/ d = 9)%N by lia.
    naive_solver. }
  rewrite Hd. f_equal. rewrite (N.div_mod n 10) at 3 by done. lia.
Qed.

Lemma parse_pretty (n : N) : parseDigits (pretty n) 0 = Some (Z.of_N n).
Proof.
  unfold pretty, pretty_N. destruct (decide (n = 0)%N) as [->|Hn]; [done|]. by rewrite parse_pretty_go.
Qed.

(** A numeral starts with a digit. *)
Lemma pretty_head (n : N) : exists a s, pretty n = String a s /\ digitVal a <> None.
Proof.
  pose proof (parse_pretty n) as H. destruct (pretty n) as [|a s] eqn:E.
  - destruct n as [|p]; [done|]. exfalso. cbn in H. by injection H.
  - exists a, s. split; [done|]. cbn [parseDigits] in H. by destruct (digitVal a).
Qed.

Lemma fmt_d_nonneg z : 0 <= z -> fmt_d z = pretty (Z.to_N z).
Proof. by destruct z. Qed.

Lemma ParseUint_fmt_d z : in_u64 z -> ParseUint (fmt_d z) = Some z.
Proof.
  intros [Hlo Hhi]. rewrite fmt_d_nonneg by done. unfold ParseUint.
  destruct (pretty_head (Z.to_N z)) as (a & s & E & _).
  assert ((pretty (Z.to_N z) =s "") = false) as -> by (by rewrite E).
  rewrite parse_pretty, Z2N.id by done. by rewrite (proj2 (Z.leb_le _ _) Hhi).
Qed.

Lemma digit_not_sign a :
  digitVal a <> None ->
  Ascii.eqb a (Ascii.ascii_of_nat 43) = false /\ Ascii.eqb a (Ascii.ascii_of_nat 45) = false.
Proof. destruct a as [[] [] [] [] [] [] [] []]; vm_compute; intuition congruence. Qed.

(** Parsing inverts formatting. *)
Lemma Atoi_fmt_d z : in_i64 z -> Atoi (fmt_d z) = Some z.
Proof.
  intros Hz. unfold Atoi.
  assert (Hr : forall n, in_i64 n -> (MinInt64 <=? n) && (n <=? MaxInt64) = true).
  { intros n [??]. apply andb_true_intro. split; by apply Z.leb_le. }
  destruct (Z.leb_spec 0 z) as [Hp|Hn].
  - rewrite fmt_d_nonneg by done. pose proof (parse_pretty (Z.to_N z)) as Hparse.
    destruct (pretty_head (Z.to_N z)) as (a & s & E & Ha). rewrite E in *.
    destruct (digit_not_sign a Ha) as [-> ->].
    cbv iota beta zeta. change (String a s =s "") with false. cbv iota. rewrite Hparse, Z2N.id by done. by rewrite Hr.
  - destruct z as [|p|p]; [lia..|]. change (fmt_d (Z.neg p)) with (String "-"%char (pretty (N.pos p))).
    cbv iota beta zeta. change (Ascii.eqb "-"%char (Ascii.ascii_of_nat 43)) with false. change (Ascii.eqb "-"%char (Ascii.ascii_of_nat 45)) with true.
    cbv iota beta zeta. destruct (pretty_head (N.pos p)) as (a & s & E & _). pose proof (parse_pretty (N.pos p)) as Hparse.
    rewrite E in *. change (String a s =s "") with false. cbv iota. rewrite Hparse.
    change (- Z.of_N (N.pos p)) with (Z.neg p). by rewrite Hr.
Qed.

Lemma digit_wordChar a : digitVal a <> None -> wordChar a = true.
Proof. destruct a as [[] [] [] [] [] [] [] []]; vm_compute; congruence. Qed.

Lemma parse_word s acc n : parseDigits s acc = Some n -> allChars wordChar s = true.
Proof.
  revert acc. induction s as [|a s IH]; intros acc H; [done|]. cbn [parseDigits] in H. cbn [allChars].
  destruct (digitVal a) eqn:Ed; [|done]. rewrite (digit_wordChar a) by congruence. by eapply IH.
Qed.

Lemma fmt_d_word z : isWord (fmt_d z) = true.
Proof.
  unfold isWord. destruct z as [|p|p]; [done| |].
  - change (fmt_d (Z.pos p)) with (pretty (N.pos p)). destruct (pretty_head (N.pos p)) as (a & s & E & _).
    rewrite (parse_word _ _ _ (parse_pretty (N.pos p))). by rewrite E.
  - change (fmt_d (Z.neg p)) with (String "-"%char (pretty (N.pos p))). cbn [allChars].
    by rewrite (parse_word _ _ _ (parse_pretty (N.pos p))).
Qed.

(** Numerals hold digits and the sign only. *)
Lemma parse_noChar c s acc n : digitVal c = None -> parseDigits s acc = Some n -> noChar c s = true.
Proof.
  intros Hc. revert acc. induction s as [|a s IH]; intros acc H; [done|]. cbn [parseDigits] in H.
  destruct (digitVal a) eqn:Ed; [|done]. unfold noChar in *. cbn [allChars].
  rewrite (IH _ H), andb_true_r. destruct (Ascii.eqb_spec a c); [congruence|done].
Qed.

Lemma fmt_d_noChar c z : digitVal c = None -> c <> "-"%char -> noChar c (fmt_d z) = true.
Proof.
  intros Hc Hs. destruct z as [|p|p].
  - by apply (parse_noChar c (fmt_d 0) 0 0).
  - change (fmt_d (Z.pos p)) with (pretty (N.pos p)). by eapply parse_noChar, parse_pretty.
  - change (fmt_d (Z.neg p)) with (String "-"%char (pretty (N.pos p))). unfold noChar. cbn [allChars].
    destruct (Ascii.eqb_spec "-"%char c); [congruence|]. by eapply parse_noChar, parse_pretty.
Qed.

Lemma noChar_concat c sep ws :
  noChar c sep = true -> Forall (fun w => noChar c w = true) ws -> noChar c (String.concat sep ws) = true.
Proof.
  intros Hsep. induction 1 as [|w ws Hw Hws IH]; [done|]. destruct ws as [|w' ws]; [done|].
  change (String.concat sep (w :: w' :: ws)) with (w ^^ (sep ^^ String.concat sep (w' :: ws))).
  unfold noChar in *. by rewrite !allChars_append, Hw, Hsep, IH.
Qed.

(** *** Words, blanks and lines *)
Lemma Fields_blank t : Fields (" " ^^ t) = Fields t.
Proof. unfold Fields. by rewrite bytes_of_append. Qed.

Lemma Fields_cons w t : isWord w = true -> Fields (w ^^ " " ^^ t) = w :: Fields t.
Proof.
  intros Hw. pose proof Hw as Hc. unfold isWord in Hc. apply andb_prop in Hc as [_ Hc].
  unfold Fields. rewrite append_assoc, !bytes_of_append, (fieldsFrom_word _ _ _ Hc).
  change (bytes_of " ") with [x20]. cbn [app fieldsFrom spaceSize].
  rewrite (flush_word _ Hw). cbn [app map]. by rewrite string_of_bytes_of.
Qed.

(** A run of blanks before a field changes nothing. *)
Fixpoint blanks (n : nat) : string := match n with O => "" | S n => " " ^^ blanks n end.

Lemma Fields_blanks n t : Fields (blanks n ^^ t) = Fields t.
Proof. induction n as [|n IH]; [done|]. cbn [blanks]. by rewrite append_assoc, Fields_blank. Qed.

Lemma Split_noChar c s : noChar c s = true -> Split s c = [s].
Proof.
  induction s as [|a s IH]; [done|]. unfold noChar. cbn [allChars Split]. intros [Ha Hs]%andb_prop.
  destruct (Ascii.eqb a c); [done|]. by rewrite (IH Hs).
Qed.

Lemma Split_first c s t : noChar c s = true -> Split (s ^^ String c t) c = s :: Split t c.
Proof.
  induction s as [|a s IH]; intros H.
  - change ("" ^^ String c t) with (String c t). cbn [Split]. by rewrite Ascii.eqb_refl.
  - unfold noChar in H. cbn in H. apply andb_prop in H as [Ha Hs].
    rewrite append_cons. cbn [Split]. destruct (Ascii.eqb a c); [done|]. by rewrite (IH Hs).
Qed.

(** Lines, each ended by the separator. *)
Fixpoint unlines (c : Ascii.ascii) (ls : list string) : string :=
  match ls with [] => "" | l :: ls => l ^^ String c (unlines c ls) end.

Lemma Split_unlines c ls :
  Forall (fun l => noChar c l = true) ls -> Split (unlines c ls) c = ls ++ [""].
Proof. induction 1 as [|l ls Hl _ IH]; [done|]. cbn [unlines]. rewrite (Split_first _ _ _ Hl), IH. done. Qed.

Lemma noChar_append c s t : noChar c (s ^^ t) = noChar c s && noChar c t.
Proof. apply allChars_append. Qed.

Lemma noChar_word c s : wordChar c = false -> allChars wordChar s = true -> noChar c s = true.
Proof.
  intros Hc. apply allChars_impl. intros a Ha. destruct (Ascii.eqb_spec a c); [congruence|done].
Qed.

Lemma substring_append s w t :
  String.substring (String.length s) (String.length w) (s ^^ (w ^^ t)) = w.
Proof.
  induction s as [|a s IH].
  - change ("" ^^ (w ^^ t)) with (w ^^ t). apply prefixString_append.
  - exact IH.
Qed.

Lemma append_inj s t u : s ^^ t = s ^^ u -> t = u.
Proof. induction s as [|a s IH]; [done|]. rewrite !append_cons. intros [= H]. by apply IH. Qed.

Lemma append_self s t : s ^^ t = s -> t = "".
Proof. intros H. apply (append_inj s). by rewrite append_nil_r. Qed.

Lemma HasPrefix_append s t : HasPrefix (s ^^ t) s = true.
Proof.
  unfold HasPrefix. induction s as [|a s IH]; [by destruct t|].
  change (String a s ^^ t) with (String a (s ^^ t)). cbn [String.prefix].
  destruct (Ascii.ascii_dec a a); [exact IH|done].
Qed.

(** *** Runs of digits *)
Definition isDigit (a : Ascii.ascii) : bool := match digitVal a with Some _ => true | None => false end.

(** The leading digits of a text, and the rest. *)
Fixpoint spanDigits (s : string) : string * string :=
  match s with
  | String a s' => if isDigit a then let '(d, r) := spanDigits s' in (String a d, r) else ("", s)
  | EmptyString => ("", "")
  end.

(** A text that does not go on with a digit. *)
Definition endsDigits (s : string) : bool :=
  match s with String a _ => negb (isDigit a) | EmptyString => true end.

Lemma spanDigits_append d r : allChars isDigit d = true -> endsDigits r = true -> spanDigits (d ^^ r) = (d, r).
Proof.
  intros Hd Hr. induction d as [|a d IH].
  - destruct r as [|a r]; [done|]. cbn [endsDigits] in Hr. change ("" ^^ ?x) with x. cbn [spanDigits]. by destruct (isDigit a).
  - cbn [allChars] in Hd. apply andb_prop in Hd as [Ha Hd]. rewrite append_cons. cbn [spanDigits].
    by rewrite Ha, (IH Hd).
Qed.

Lemma parseDigits_append s t acc :
  parseDigits (s ^^ t) acc = match parseDigits s acc with Some v => parseDigits t v | None => None end.
Proof.
  revert acc. induction s as [|a s IH]; intros acc; [done|]. rewrite append_cons. cbn [parseDigits].
  destruct (digitVal a); [apply IH|done].
Qed.

Lemma parseDigits_digits s acc : allChars isDigit s = true <-> is_Some (parseDigits s acc).
Proof.
  revert acc. induction s as [|a s IH]; intros acc; [split; [by eexists|done]|]. cbn [allChars parseDigits]. unfold isDigit at 1.
  destruct (digitVal a); cbn; [apply IH|]. split; [done|]. by intros [? ?].
Qed.

Lemma pretty_digits (n : N) : allChars isDigit (pretty n) = true.
Proof. apply (parseDigits_digits _ 0). rewrite parse_pretty. by eexists. Qed.
