(* ===== verification/GoFloat.v ===== *)
(** Go's [float64]: IEEE-754 binary64 with round-to-nearest-even, as the
    executable specification [SpecFloat] instantiated at precision 53 and
    exponent bound 1024.  The file proves the order facts the governor's
    threshold comparisons need: on non-NaN values [<=] is a total preorder,
    and every comparison against NaN is false. *)
From Corelib Require Import SpecFloat.
From S2P Require Import Prelude.

Open Scope Z_scope.

Notation float64 := spec_float.

Definition fNaN : float64 := S754_nan.
Definition fzero : float64 := S754_zero false.

Definition fadd : float64 -> float64 -> float64 := SFadd 53 1024.
Definition fsub : float64 -> float64 -> float64 := SFsub 53 1024.
Definition fmul : float64 -> float64 -> float64 := SFmul 53 1024.
Definition fdiv : float64 -> float64 -> float64 := SFdiv 53 1024.
Definition fleb : float64 -> float64 -> bool := SFleb.
Definition fltb : float64 -> float64 -> bool := SFltb.

(** [float64(n)] for an integer [n]. *)
Definition f_of_Z (n : Z) : float64 := binary_normalize 53 1024 n 0 false.

(** A decimal literal [num/den] with [num], [den] exactly representable: the
    nearest float64 to the quotient. *)
Definition f_lit (num den : Z) : float64 := fdiv (f_of_Z num) (f_of_Z den).

(** [int64(f)]: truncation towards zero, for values in range. *)
Definition f_trunc (f : float64) : Z :=
  match f with
  | S754_finite s m e =>
      let a := if 0 <=? e then Z.shiftl (Zpos m) e else Z.shiftr (Zpos m) (- e) in
      if s then - a else a
  | _ => 0
  end.

Definition isNaN (f : float64) : bool := match f with S754_nan => true | _ => false end.
Definition isInf (f : float64) : bool := match f with S754_infinity _ => true | _ => false end.

#[export] Instance float64_eq_dec : EqDecision float64.
Proof. solve_decision. Defined.

(** *** The order

    Every non-NaN float has a key in [Z * Z * Z] and [SFcompare] is the
    lexicographic comparison of the keys. *)
Definition fkey (f : float64) : Z * Z * Z :=
  match f with
  | S754_nan => (0, 0, 0)
  | S754_zero _ => (0, 0, 0)
  | S754_infinity true => (-2, 0, 0)
  | S754_infinity false => (2, 0, 0)
  | S754_finite false m e => (1, e, Zpos m)
  | S754_finite true m e => (-1, - e, Zneg m)
  end.

Definition klt (a b : Z * Z * Z) : Prop :=
  let '(a1, a2, a3) := a in let '(b1, b2, b3) := b in
  a1 < b1 \/ (a1 = b1 /\ (a2 < b2 \/ (a2 = b2 /\ a3 < b3))).

Definition kle (a b : Z * Z * Z) : Prop :=
  let '(a1, a2, a3) := a in let '(b1, b2, b3) := b in
  a1 < b1 \/ (a1 = b1 /\ (a2 < b2 \/ (a2 = b2 /\ a3 <= b3))).

(** The order facts on keys are linear arithmetic on their components. *)
Ltac korder :=
  repeat match goal with
  | H : context [fkey ?f] |- _ => destruct (fkey f) as [[? ?] ?]
  | |- context [fkey ?f] => destruct (fkey f) as [[? ?] ?]
  end; cbn [klt kle] in *; lia.

Lemma SFcompare_key f g :
  isNaN f = false -> isNaN g = false ->
  match SFcompare f g with
  | Some Lt => klt (fkey f) (fkey g)
  | Some Eq => kle (fkey f) (fkey g) /\ kle (fkey g) (fkey f)
  | Some Gt => klt (fkey g) (fkey f)
  | None => False
  end.
Proof.
  destruct f as [|[]| |[] m e], g as [|[]| |[] m' e']; try done; intros _ _;
    cbn [SFcompare fkey klt kle]; try lia.
  all: destruct (Z.compare_spec e e'); try (cbn [CompOpp]; lia); subst.
  all: change (Pos.compare_cont Eq m m') with (Pos.compare m m').
  all: destruct (Pos.compare_spec m m'); cbn [CompOpp]; subst; try lia; try done.
Qed.

Lemma isNaN_true f : isNaN f = true -> f = fNaN.
Proof. by destruct f. Qed.

(** Comparisons with NaN are false. *)
Lemma fleb_nan_l f : fleb fNaN f = false.
Proof. by destruct f. Qed.
Lemma fleb_nan_r f : fleb f fNaN = false.
Proof. by destruct f as [|[]| |[]]. Qed.
Lemma fltb_nan_l f : fltb fNaN f = false.
Proof. by destruct f. Qed.
Lemma fltb_nan_r f : fltb f fNaN = false.
Proof. by destruct f as [|[]| |[]]. Qed.

Lemma fleb_key f g :
  fleb f g = true <-> isNaN f = false /\ isNaN g = false /\ kle (fkey f) (fkey g).
Proof.
  destruct (isNaN f) eqn:Hf; [apply isNaN_true in Hf as ->; rewrite fleb_nan_l; split; [done|by intros [? _]]|].
  destruct (isNaN g) eqn:Hg; [apply isNaN_true in Hg as ->; rewrite fleb_nan_r; split; [done|by intros (_ & ? & _)]|].
  pose proof (SFcompare_key f g Hf Hg) as Hc. unfold fleb, SFleb.
  destruct (SFcompare f g) as [[]|]; [..|done]; split; try done;
    try (intros (_ & _ & ?)); try split_and!; try done; korder.
Qed.

Lemma fltb_key f g :
  fltb f g = true <-> isNaN f = false /\ isNaN g = false /\ klt (fkey f) (fkey g).
Proof.
  destruct (isNaN f) eqn:Hf; [apply isNaN_true in Hf as ->; rewrite fltb_nan_l; split; [done|by intros [? _]]|].
  destruct (isNaN g) eqn:Hg; [apply isNaN_true in Hg as ->; rewrite fltb_nan_r; split; [done|by intros (_ & ? & _)]|].
  pose proof (SFcompare_key f g Hf Hg) as Hc. unfold fltb, SFltb.
  destruct (SFcompare f g) as [[]|]; [..|done]; split; try done;
    try (intros (_ & _ & ?)); try split_and!; try done; korder.
Qed.

Lemma fleb_trans f g h : fleb f g = true -> fleb g h = true -> fleb f h = true.
Proof. rewrite !fleb_key. intros (?&?&?) (?&?&?); split_and!; try done; korder. Qed.

Lemma fleb_refl f : isNaN f = false -> fleb f f = true.
Proof. intros. apply fleb_key. split_and!; [done..|]. korder. Qed.

Lemma fltb_fleb f g : fltb f g = true -> fleb f g = true.
Proof. rewrite fltb_key, fleb_key. intros (?&?&?); split_and!; try done; korder. Qed.

Lemma fltb_fleb_trans f g h : fltb f g = true -> fleb g h = true -> fltb f h = true.
Proof. rewrite !fltb_key, fleb_key. intros (?&?&?) (?&?&?); split_and!; try done; korder. Qed.

(** On non-NaN values, [not (f <= g)] is [g < f]. *)
Lemma fleb_negb f g :
  isNaN f = false -> isNaN g = false -> fleb f g = negb (fltb g f).
Proof.
  intros Hf Hg. apply eq_true_iff_eq. rewrite negb_true_iff, <- not_true_iff_false.
  rewrite fleb_key, fltb_key. split.
  - intros (_&_&?) (_&_&?). korder.
  - intros Hn. split_and!; [done..|].
    assert (~ klt (fkey g) (fkey f)) by tauto. korder.
Qed.

(** Small integers convert exactly; a few values used by configurations. *)
Example f_of_Z_100 : f_of_Z 100 = S754_finite false 7036874417766400 (-46).
Proof. vm_compute. reflexivity. Qed.

Example f_lit_09_trunc : f_trunc (fmul (f_of_Z 52428800) (f_lit 9 10)) = 47185920.
Proof. vm_compute. reflexivity. Qed.

(** ** Sign and range of computed values

    Quotients and products of non-negative numbers are non-negative numbers:
    rounding never yields NaN or a sign.  [posfin] values are the positive
    finite ones, which the conversions of positive integers are. *)
Definition nonneg (f : float64) : bool :=
  match f with S754_zero _ | S754_finite false _ _ | S754_infinity false => true | _ => false end.
Definition posfin (f : float64) : bool := match f with S754_finite false _ _ => true | _ => false end.
Definition positive_f (f : float64) : bool :=
  match f with S754_finite false _ _ | S754_infinity false => true | _ => false end.

Lemma nonneg_fleb f : nonneg f = true <-> isNaN f = false /\ fleb fzero f = true.
Proof. destruct f as [|[]| |[]]; split; try done; by intros [??]. Qed.

Lemma nonneg_not_below f : nonneg f = true -> isNaN f || fltb f fzero = false.
Proof. by destruct f as [|[]| |[]]. Qed.

Lemma shr_1_div r : 0 <= shr_m r -> shr_m (shr_1 r) = shr_m r / 2.
Proof.
  destruct r as [[|[p|p|]|p] b s]; cbn [shr_m shr_1]; intros H; try done.
  - rewrite Pos2Z.inj_xI. rewrite Z.mul_comm, Z.div_add_l by lia. by rewrite Z.add_0_r.
  - rewrite Pos2Z.inj_xO, Z.mul_comm. by rewrite Z.div_mul.
Qed.

Lemma iter_shr_div n r : 0 <= shr_m r -> shr_m (SpecFloat.iter_pos shr_1 n r) = shr_m r / 2 ^ Zpos n.
Proof.
  revert r. induction n as [n IH|n IH|]; intros r H; cbn [SpecFloat.iter_pos].
  - assert (H1 : 0 <= shr_m (shr_1 r)) by (rewrite shr_1_div by done; apply Z.div_pos; lia).
    assert (H2 : 0 <= shr_m (SpecFloat.iter_pos shr_1 n (shr_1 r))) by (rewrite IH by done; apply Z.div_pos; lia).
    rewrite IH by done. rewrite IH by done. rewrite shr_1_div by done.
    rewrite !Z.div_div by lia.
    replace (2 ^ Z.pos n~1) with (2 * (2 ^ Z.pos n * 2 ^ Z.pos n)); [done|].
    rewrite <- Z.pow_add_r, <- Z.pow_succ_r by lia. f_equal. lia.
  - assert (H1 : 0 <= shr_m (SpecFloat.iter_pos shr_1 n r)) by (rewrite IH by done; apply Z.div_pos; lia).
    rewrite IH by done. rewrite IH by done. rewrite Z.div_div by lia.
    replace (2 ^ Z.pos n~0) with (2 ^ Z.pos n * 2 ^ Z.pos n); [done|].
    rewrite <- Z.pow_add_r by lia. f_equal. lia.
  - by rewrite shr_1_div.
Qed.

Lemma shr_record_of_loc_m m l : shr_m (shr_record_of_loc m l) = m.
Proof. by destruct l as [|[]]. Qed.

(** [k]: the number of bits [shr_fexp] shifts out. *)
Definition fexpShift (m e : Z) : Z := SpecFloat.fexp 53 1024 (Zdigits2 m + e) - e.

Lemma shr_fexp_eq m e l :
  0 <= m ->
  shr_m (shr_fexp 53 1024 m e l).1 = m / 2 ^ Z.max 0 (fexpShift m e) /\
  (shr_fexp 53 1024 m e l).2 = e + Z.max 0 (fexpShift m e).
Proof.
  intros Hm. unfold shr_fexp, shr. fold (fexpShift m e).
  destruct (fexpShift m e) as [|p|p] eqn:E; cbn [fst snd].
  - rewrite shr_record_of_loc_m, Z.div_1_r. split; [done|lia].
  - rewrite iter_shr_div; rewrite shr_record_of_loc_m; [|done]. rewrite Z.max_r by lia. done.
  - rewrite shr_record_of_loc_m, Z.max_l, Z.div_1_r by lia. split; [done|lia].
Qed.

Lemma round_even_bounds m l : m <= round_nearest_even m l <= m + 1.
Proof. destruct l as [|[]]; cbn; try lia. destruct (Z.even m); lia. Qed.

Lemma round_aux_nonneg m e l : 0 <= m -> nonneg (binary_round_aux 53 1024 false m e l) = true.
Proof.
  intros Hm. unfold binary_round_aux.
  destruct (shr_fexp_eq m e l Hm) as [H1 _].
  destruct (shr_fexp 53 1024 m e l) as [r1 e1]. cbn [fst] in H1.
  pose proof (round_even_bounds (shr_m r1) (loc_of_shr_record r1)) as Hb.
  assert (Hr : 0 <= shr_m r1) by (rewrite H1; apply Z.div_pos; lia).
  destruct (shr_fexp_eq (round_nearest_even (shr_m r1) (loc_of_shr_record r1)) e1 loc_Exact ltac:(lia)) as [H2 _].
  destruct (shr_fexp 53 1024 _ e1 loc_Exact) as [r2 e2]. cbn [fst] in H2.
  assert (Hr2 : 0 <= shr_m r2) by (rewrite H2; apply Z.div_pos; lia).
  destruct (shr_m r2); [done| |lia]. by destruct (e2 <=? 1024 - 53).
Qed.

Lemma fdiv_nonneg x y : nonneg x = true -> posfin y = true -> nonneg (fdiv x y) = true.
Proof.
  destruct x as [|[]| |[] mx ex], y as [|[]| |[] my ey]; try done. intros _ _.
  unfold fdiv, SFdiv, SFdiv_core_binary. cbv zeta.
  match goal with |- context [Z.div_eucl ?n _] => set (m' := n) end.
  assert (Hm : 0 <= m').
  { unfold m'. destruct (_ - _ - _); [lia| |lia]. apply Z.shiftl_nonneg. lia. }
  pose proof (Z.div_pos m' (Z.pos my) Hm ltac:(lia)) as Hq. unfold Z.div in Hq.
  destruct (Z.div_eucl m' (Z.pos my)) as [q r]. by apply round_aux_nonneg.
Qed.

Lemma fdiv_nonneg' x y : nonneg x = true -> isInf x = false -> positive_f y = true -> nonneg (fdiv x y) = true.
Proof.
  intros Hx Hi Hy. destruct y as [|[]| |[]] eqn:E; try done; [by destruct x as [|[]| |[]]|].
  by apply fdiv_nonneg.
Qed.

Lemma fmul_nonneg x y : nonneg x = true -> posfin y = true -> nonneg (fmul x y) = true.
Proof.
  destruct x as [|[]| |[] mx ex], y as [|[]| |[] my ey]; try done. intros _ _.
  unfold fmul, SFmul. by apply round_aux_nonneg.
Qed.

Lemma digits2_bounds p :
  2 ^ (Z.pos (digits2_pos p) - 1) <= Z.pos p < 2 ^ Z.pos (digits2_pos p).
Proof.
  induction p as [p IH|p IH|]; cbn [digits2_pos]; [| |done].
  all: rewrite Pos2Z.inj_succ; set (d := Z.pos (digits2_pos p)) in *.
  all: replace (Z.succ d - 1) with (Z.succ (d - 1)) by lia; rewrite !Z.pow_succ_r by lia; lia.
Qed.

Lemma Zdigits2_bounds m : 0 < m -> 1 <= Zdigits2 m /\ 2 ^ (Zdigits2 m - 1) <= m < 2 ^ Zdigits2 m.
Proof. destruct m as [|p|p]; try lia. intros _. cbn [Zdigits2]. pose proof (digits2_bounds p). lia. Qed.

Lemma Zdigits2_le m k : 0 < m -> m < 2 ^ k -> Zdigits2 m <= k.
Proof.
  intros Hm Hk. destruct (Zdigits2_bounds m Hm) as (H1 & H2 & _).
  destruct (Z_lt_le_dec k 0) as [Hn|Hn]; [rewrite Z.pow_neg_r in Hk; lia|].
  pose proof (Z.pow_lt_mono_r_iff 2 (Zdigits2 m - 1) k ltac:(lia) ltac:(lia)). lia.
Qed.

(** Within the normal range no bit that matters is shifted out. *)
Lemma fexpShift_normal m e :
  0 < m -> -1000 <= e ->
  Z.max 0 (fexpShift m e) = Z.max 0 (Zdigits2 m - 53) /\ 0 < m / 2 ^ Z.max 0 (fexpShift m e).
Proof.
  intros Hm He. destruct (Zdigits2_bounds m Hm) as (H1 & H2 & _).
  assert (Hk : Z.max 0 (fexpShift m e) = Z.max 0 (Zdigits2 m - 53)).
  { unfold fexpShift, SpecFloat.fexp, emin. lia. }
  split; [done|]. rewrite Hk. apply Z.div_str_pos. split; [apply Z.pow_pos_nonneg; lia|].
  etransitivity; [|exact H2]. apply Z.pow_le_mono_r; lia.
Qed.

Lemma round_aux_posfin m e :
  0 < m < 2 ^ 64 -> -1000 <= e <= 0 -> posfin (binary_round_aux 53 1024 false m e loc_Exact) = true.
Proof.
  intros Hm He. unfold binary_round_aux.
  destruct (shr_fexp_eq m e loc_Exact ltac:(lia)) as [H1 E1].
  destruct (fexpShift_normal m e ltac:(lia) ltac:(lia)) as [K1 P1].
  pose proof (Zdigits2_le m 64 ltac:(lia) ltac:(lia)) as D1.
  destruct (shr_fexp 53 1024 m e loc_Exact) as [r1 e1]. cbn [fst snd] in *. rewrite <- H1 in P1.
  set (m2 := round_nearest_even (shr_m r1) (loc_of_shr_record r1)).
  pose proof (round_even_bounds (shr_m r1) (loc_of_shr_record r1)) as Hb. fold m2 in Hb.
  assert (m2 < 2 ^ 65).
  { assert (shr_m r1 <= m); [|change (2 ^ 65) with (2 * 2 ^ 64); lia].
    rewrite H1. apply Z.div_le_upper_bound; [apply Z.pow_pos_nonneg; lia|].
    pose proof (Z.pow_pos_nonneg 2 (Z.max 0 (fexpShift m e)) ltac:(lia) ltac:(lia)). nia. }
  destruct (shr_fexp_eq m2 e1 loc_Exact ltac:(lia)) as [H2 E2].
  destruct (fexpShift_normal m2 e1 ltac:(lia) ltac:(lia)) as [K2 P2].
  pose proof (Zdigits2_le m2 65 ltac:(lia) ltac:(lia)) as D2.
  destruct (shr_fexp 53 1024 m2 e1 loc_Exact) as [r2 e2]. cbn [fst snd] in *. rewrite <- H2 in P2.
  destruct (shr_m r2); [lia| |lia].
  destruct (Z.leb_spec e2 (1024 - 53)); [done|lia].
Qed.

Lemma iter_xO p n : Z.pos (Pos.iter xO p n) = Z.pos p * 2 ^ Z.pos n.
Proof.
  induction n as [|n IH] using Pos.peano_ind; [cbn; lia|].
  rewrite Pos.iter_succ, Pos2Z.inj_succ, Z.pow_succ_r by lia. rewrite Pos2Z.inj_xO, IH. ring.
Qed.

(** Positive uint64 values convert to positive finite numbers. *)
Lemma f_of_Z_posfin n : 0 < n < 2 ^ 64 -> posfin (f_of_Z n) = true.
Proof.
  intros Hn. unfold f_of_Z, binary_normalize. destruct n as [|p|p]; try lia.
  unfold binary_round, shl_align. pose proof (digits2_bounds p) as Hd.
  assert (Hf : SpecFloat.fexp 53 1024 (Z.pos (digits2_pos p) + 0) = Z.pos (digits2_pos p) - 53).
  { unfold SpecFloat.fexp, emin. lia. }
  rewrite Hf. destruct (Z.pos (digits2_pos p) - 53 - 0) as [|d|d] eqn:E; try (apply round_aux_posfin; lia).
  apply round_aux_posfin; [|lia]. rewrite iter_xO. split; [lia|].
  apply Z.lt_le_trans with (2 ^ Z.pos (digits2_pos p) * 2 ^ Z.pos d); [nia|].
  rewrite <- Z.pow_add_r by lia. apply Z.pow_le_mono_r; lia.
Qed.

Lemma f_of_Z_nonneg n : 0 <= n < 2 ^ 64 -> nonneg (f_of_Z n) = true /\ isInf (f_of_Z n) = false.
Proof.
  intros Hn. destruct (Z.eq_dec n 0) as [->|]; [done|].
  pose proof (f_of_Z_posfin n ltac:(lia)) as H. by destruct (f_of_Z n) as [|[]| |[]].
Qed.

(** ** Ratios of counters

    A count below 2^53 converts exactly, to a mantissa of 53 digits; a larger
    one is rounded, monotonically.  The quotient of a smaller by a larger one
    never rounds above 1. *)
Definition fone : float64 := S754_finite false 4503599627370496 (-52).

Lemma Zdigits2_eq m k : 0 < k -> 2 ^ (k - 1) <= m < 2 ^ k -> Zdigits2 m = k.
Proof.
  intros Hk [H1 H2]. pose proof (Z.pow_pos_nonneg 2 (k - 1) ltac:(lia) ltac:(lia)).
  pose proof (Zdigits2_le m k ltac:(lia) H2) as Hd.
  destruct (Zdigits2_bounds m ltac:(lia)) as (D & _ & D2).
  pose proof (Z.pow_lt_mono_r_iff 2 (k - 1) (Zdigits2 m) ltac:(lia) ltac:(lia)). lia.
Qed.

(** Rounding a mantissa that already has 53 digits, or 54 with exponent at
    least [emin]: the exponent moves by at most one and the result stays
    within the bound given by the exponent. *)
Lemma round_aux_le q e l :
  -1000 <= e -> (2 ^ 52 <= q < 2 ^ 53 /\ e <= -53) \/ (2 ^ 53 <= q < 2 ^ 54 /\ e <= -54) ->
  fleb (binary_round_aux 53 1024 false q e l) fone = true.
Proof.
  intros He Hq. assert (0 < q) as Hq0 by lia. unfold binary_round_aux.
  destruct (shr_fexp_eq q e l ltac:(lia)) as [H1 E1].
  destruct (fexpShift_normal q e Hq0 He) as [K1 _].
  destruct (shr_fexp 53 1024 q e l) as [r1 e1]. cbn [fst snd] in *. rewrite K1 in *.
  assert (2 ^ 52 <= shr_m r1 < 2 ^ 53 /\ -1000 <= e1 <= -53) as [Hr1 He1].
  { destruct Hq as [[Hq ?]|[Hq ?]].
    - rewrite (Zdigits2_eq q 53) in * by lia. rewrite H1, E1. cbn [Z.max]. rewrite Z.div_1_r. lia.
    - rewrite (Zdigits2_eq q 54) in * by lia. rewrite H1, E1. change (Z.max 0 (54 - 53)) with 1.
      split; [|lia]. split; [apply Z.div_le_lower_bound|apply Z.div_lt_upper_bound]; lia. }
  set (m2 := round_nearest_even (shr_m r1) (loc_of_shr_record r1)).
  pose proof (round_even_bounds (shr_m r1) (loc_of_shr_record r1)) as Hb. fold m2 in Hb.
  destruct (shr_fexp_eq m2 e1 loc_Exact ltac:(lia)) as [H2 E2].
  destruct (fexpShift_normal m2 e1 ltac:(lia) ltac:(lia)) as [K2 _].
  destruct (shr_fexp 53 1024 m2 e1 loc_Exact) as [r2 e2]. cbn [fst snd] in *. rewrite K2 in *.
  assert (0 < shr_m r2 /\ (e2 <= -53 \/ (e2 = -52 /\ shr_m r2 = 2 ^ 52))) as [Hp Hr2].
  { destruct (Z.eq_dec m2 (2 ^ 53)) as [Heq|].
    - rewrite (Zdigits2_eq m2 54) in * by lia. rewrite H2, E2, Heq. change (Z.max 0 (54 - 53)) with 1.
      change (2 ^ 53 / 2 ^ 1) with (2 ^ 52). lia.
    - rewrite (Zdigits2_eq m2 53) in * by lia. rewrite H2, E2. cbn [Z.max]. rewrite Z.div_1_r. lia. }
  destruct (shr_m r2) as [|p|p]; [lia| |lia].
  destruct (Z.leb_spec e2 (1024 - 53)); [|lia].
  apply fleb_key. split_and!; [done..|]. cbn [fkey kle fone]. lia.
Qed.

(** An exact mantissa of 53 digits is not rounded. *)
Lemma round_aux_exact m e :
  2 ^ 52 <= m < 2 ^ 53 -> -1000 <= e <= 900 ->
  binary_round_aux 53 1024 false m e loc_Exact = S754_finite false (Z.to_pos m) e.
Proof.
  intros Hm He. assert (Hx : shr_fexp 53 1024 m e loc_Exact = (shr_record_of_loc m loc_Exact, e)).
  { unfold shr_fexp. rewrite (Zdigits2_eq m 53) by lia.
    assert (SpecFloat.fexp 53 1024 (53 + e) - e = 0) as -> by (unfold SpecFloat.fexp, emin; lia). done. }
  unfold binary_round_aux. rewrite Hx. cbv iota beta zeta.
  change (round_nearest_even _ _) with m. rewrite Hx. cbv iota beta zeta.
  rewrite shr_record_of_loc_m. destruct m as [|p|p]; try lia. cbn [Z.to_pos].
  destruct (Z.leb_spec e (1024 - 53)); [done|lia].
Qed.

Lemma f_of_Z_exact n :
  0 < n < 2 ^ 53 ->
  exists m e, f_of_Z n = S754_finite false m e /\ 2 ^ 52 <= Z.pos m < 2 ^ 53 /\
    e = Zdigits2 n - 53 /\ Z.pos m = n * 2 ^ (- e).
Proof.
  intros Hn. destruct n as [|p|p]; try lia. unfold f_of_Z, binary_normalize, binary_round, shl_align.
  pose proof (Zdigits2_le (Z.pos p) 53 ltac:(lia) ltac:(lia)) as Hd. cbn [Zdigits2] in *.
  pose proof (digits2_bounds p) as Hb. set (d := digits2_pos p) in *.
  assert (SpecFloat.fexp 53 1024 (Z.pos d + 0) = Z.pos d - 53) as -> by (unfold SpecFloat.fexp, emin; lia).
  assert (Hm : 2 ^ 52 <= Z.pos p * 2 ^ (53 - Z.pos d) < 2 ^ 53).
  { replace (2 ^ 52) with (2 ^ (Z.pos d - 1) * 2 ^ (53 - Z.pos d))
      by (rewrite <- Z.pow_add_r by lia; f_equal; lia).
    replace (2 ^ 53) with (2 ^ Z.pos d * 2 ^ (53 - Z.pos d))
      by (rewrite <- Z.pow_add_r by lia; f_equal; lia).
    pose proof (Z.pow_pos_nonneg 2 (53 - Z.pos d) ltac:(lia) ltac:(lia)). nia. }
  exists (Z.to_pos (Z.pos p * 2 ^ (53 - Z.pos d))), (Z.pos d - 53).
  rewrite Z2Pos.id by lia. replace (- (Z.pos d - 53)) with (53 - Z.pos d) by lia.
  split_and!; try lia.
  destruct (Z.pos d - 53 - 0) as [|k|k] eqn:E; [| lia |].
  - replace (53 - Z.pos d) with 0 in * by lia. rewrite Z.mul_1_r in *.
    replace (Z.pos d - 53) with 0 by lia. by rewrite round_aux_exact by lia.
  - assert (Z.pos (Pos.iter xO p k) = Z.pos p * 2 ^ (53 - Z.pos d)) as Hi.
    { rewrite iter_xO. f_equal. f_equal. lia. }
    rewrite Hi, round_aux_exact by lia. done.
Qed.

(** *** Rounding on the way in: integers of more than 53 digits

    [shiftedOut k m r]: [r] is what [shr_1] leaves of [m] after [k] steps; its
    round and sticky bits compare the part shifted out with half a unit. *)
Definition shiftedOut (k m : Z) (r : shr_record) : Prop :=
  exists rest, m = shr_m r * 2 ^ k + rest /\ 0 <= shr_m r /\ 0 <= rest < 2 ^ k /\
    (shr_r r = true <-> 2 ^ k <= 2 * rest) /\ (shr_s r = false <-> rest = 0 \/ 2 * rest = 2 ^ k).

Lemma shiftedOut_step k m r : 0 <= k -> shiftedOut k m r -> shiftedOut (k + 1) m (shr_1 r).
Proof.
  intros Hk (rest & Hm & H0 & Hr & Hb & Hs). destruct r as [q b s]. cbn [shr_m shr_r shr_s] in *.
  assert (exists q' o, shr_1 {| shr_m := q; shr_r := b; shr_s := s |} =
            {| shr_m := q'; shr_r := o; shr_s := b || s |} /\ 0 <= q' /\ q = 2 * q' + (if o then 1 else 0))
    as (q' & o & -> & Hq' & ->).
  { destruct q as [|[p|p|]|p]; cbn; [exists 0, false|exists (Z.pos p), true|exists (Z.pos p), false|exists 0, true|lia];
      split_and!; try done; lia. }
  exists ((if o then 2 ^ k else 0) + rest). cbn [shr_m shr_r shr_s].
  pose proof (Z.pow_pos_nonneg 2 k ltac:(lia) Hk). rewrite Z.pow_add_r, Z.pow_1_r by lia.
  split_and!; try done; try (destruct o; nia).
  rewrite orb_false_iff, Hs. assert (b = false <-> 2 * rest < 2 ^ k) as ->.
  { rewrite <- not_true_iff_false, Hb. lia. }
  destruct o; lia.
Qed.

Lemma shiftedOut_iter p k m r :
  0 <= k -> shiftedOut k m r -> shiftedOut (k + Z.pos p) m (SpecFloat.iter_pos shr_1 p r).
Proof.
  revert k r. induction p as [p IH|p IH|]; intros k r Hk H; cbn [SpecFloat.iter_pos].
  - replace (k + Z.pos p~1) with (k + 1 + Z.pos p + Z.pos p) by lia.
    apply IH; [lia|]. apply IH; [lia|]. by apply shiftedOut_step.
  - replace (k + Z.pos p~0) with (k + Z.pos p + Z.pos p) by lia. apply IH; [lia|]. by apply IH.
  - by apply shiftedOut_step.
Qed.

Definition shiftOut (p : positive) (m : Z) : shr_record :=
  SpecFloat.iter_pos shr_1 p (shr_record_of_loc m loc_Exact).

Lemma shiftOut_spec p m : 0 <= m -> shiftedOut (Z.pos p) m (shiftOut p m).
Proof.
  intros Hm. apply (shiftedOut_iter p 0 m); [done|].
  exists 0. cbn. split_and!; try lia; split; try done; lia.
Qed.

Definition roundRecord (r : shr_record) : Z := round_nearest_even (shr_m r) (loc_of_shr_record r).

(** Rounding at a fixed position is monotone. *)
Lemma roundRecord_mono k a b ra rb :
  0 <= k -> a <= b -> shiftedOut k a ra -> shiftedOut k b rb -> roundRecord ra <= roundRecord rb.
Proof.
  intros Hk Hab (xa & Ha & A0 & A1 & A2 & A3) (xb & Hb & B0 & B1 & B2 & B3). unfold roundRecord.
  pose proof (round_even_bounds (shr_m ra) (loc_of_shr_record ra)) as Ra.
  pose proof (round_even_bounds (shr_m rb) (loc_of_shr_record rb)) as Rb.
  pose proof (Z.pow_pos_nonneg 2 k ltac:(lia) Hk).
  destruct (Z.lt_trichotomy (shr_m ra) (shr_m rb)) as [Hlt|[Heq|Hgt]]; [lia| |nia].
  assert (xa <= xb) by nia. destruct ra as [ma qa sa], rb as [mb qb sb]. cbn [shr_m shr_r shr_s] in *. subst mb.
  destruct qa, sa, qb, sb; cbn [loc_of_shr_record round_nearest_even] in *; try destruct (Z.even ma); try lia;
    exfalso; naive_solver lia.
Qed.

(** The mantissa of [n], before a carry into a 54th digit is renormalised. *)
Definition mantissa (n : Z) : Z :=
  match Zdigits2 n - 53 with
  | Z.pos d => roundRecord (shiftOut d n)
  | _ => n * 2 ^ (53 - Zdigits2 n)
  end.

Lemma mantissa_range n : 0 < n -> 2 ^ 52 <= mantissa n <= 2 ^ 53.
Proof.
  intros Hn. unfold mantissa. destruct (Zdigits2_bounds n Hn) as (D1 & D2 & D3).
  assert (Zdigits2 n <= 53 -> 2 ^ 52 <= n * 2 ^ (53 - Zdigits2 n) <= 2 ^ 53) as Hs.
  { intros Hd. pose proof (Z.pow_pos_nonneg 2 (53 - Zdigits2 n) ltac:(lia) ltac:(lia)).
    replace (2 ^ 52) with (2 ^ (Zdigits2 n - 1) * 2 ^ (53 - Zdigits2 n))
      by (rewrite <- Z.pow_add_r by lia; f_equal; lia).
    replace (2 ^ 53) with (2 ^ Zdigits2 n * 2 ^ (53 - Zdigits2 n))
      by (rewrite <- Z.pow_add_r by lia; f_equal; lia). nia. }
  destruct (Zdigits2 n - 53) as [|d|d] eqn:E; try (apply Hs; lia).
  destruct (shiftOut_spec d n ltac:(lia)) as (rest & Hm & H0 & Hr & _).
  pose proof (round_even_bounds (shr_m (shiftOut d n)) (loc_of_shr_record (shiftOut d n))) as Hb.
  unfold roundRecord.
  assert (2 ^ (Zdigits2 n - 1) = 2 ^ 52 * 2 ^ Z.pos d) as E1 by (rewrite <- Z.pow_add_r by lia; f_equal; lia).
  assert (2 ^ Zdigits2 n = 2 ^ 53 * 2 ^ Z.pos d) as E2 by (rewrite <- Z.pow_add_r by lia; f_equal; lia).
  pose proof (Z.pow_pos_nonneg 2 (Z.pos d) ltac:(lia) ltac:(lia)). nia.
Qed.

Lemma mantissa_mono a b : 0 < a <= b -> Zdigits2 a = Zdigits2 b -> mantissa a <= mantissa b.
Proof.
  intros Hab Hd. unfold mantissa. rewrite Hd.
  pose proof (Z.pow_nonneg 2 (53 - Zdigits2 b) ltac:(lia)).
  destruct (Zdigits2 b - 53) as [|d|d]; try nia.
  apply (roundRecord_mono (Z.pos d) a b); [lia|lia|apply shiftOut_spec; lia..].
Qed.

(** Every positive uint64 becomes a normal number with that mantissa; a carry
    moves to the next exponent. *)
Lemma f_of_Z_normal n :
  0 < n < 2 ^ 64 ->
  f_of_Z n = if mantissa n =? 2 ^ 53 then S754_finite false (Z.to_pos (2 ^ 52)) (Zdigits2 n - 52)
             else S754_finite false (Z.to_pos (mantissa n)) (Zdigits2 n - 53).
Proof.
  intros Hn. destruct (Z_lt_le_dec n (2 ^ 53)) as [Hs|Hl].
  { destruct (f_of_Z_exact n ltac:(lia)) as (m & e & -> & Hm & -> & V).
    pose proof (Zdigits2_le n 53 ltac:(lia) ltac:(lia)).
    assert (mantissa n = Z.pos m) as ->.
    { unfold mantissa. rewrite V. replace (53 - Zdigits2 n) with (- (Zdigits2 n - 53)) by lia.
      destruct (Zdigits2 n - 53) eqn:?; done || lia. }
    destruct (Z.eqb_spec (Z.pos m) (2 ^ 53)); [lia|done]. }
  pose proof (mantissa_range n ltac:(lia)) as Hr. destruct (Zdigits2_bounds n ltac:(lia)) as (D1 & D2 & D3).
  pose proof (Zdigits2_le n 64 ltac:(lia) ltac:(lia)) as D4.
  assert (53 < Zdigits2 n) as D5.
  { pose proof (Z.pow_lt_mono_r_iff 2 53 (Zdigits2 n) ltac:(lia) ltac:(lia)). lia. }
  unfold f_of_Z, binary_normalize. destruct n as [|p|p]; try lia. unfold binary_round, shl_align.
  change (Z.pos (digits2_pos p)) with (Zdigits2 (Z.pos p)).
  assert (SpecFloat.fexp 53 1024 (Zdigits2 (Z.pos p) + 0) = Zdigits2 (Z.pos p) - 53) as ->
    by (unfold SpecFloat.fexp, emin; lia).
  unfold mantissa in *. destruct (Zdigits2 (Z.pos p) - 53) as [|d|d] eqn:E; try lia.
  rewrite Z.sub_0_r. unfold binary_round_aux.
  assert (shr_fexp 53 1024 (Z.pos p) 0 loc_Exact = (shiftOut d (Z.pos p), Z.pos d)) as ->.
  { unfold shr_fexp. assert (SpecFloat.fexp 53 1024 (Zdigits2 (Z.pos p) + 0) - 0 = Z.pos d) as ->
      by (unfold SpecFloat.fexp, emin; lia). done. }
  cbv iota beta zeta. fold (roundRecord (shiftOut d (Z.pos p))).
  set (q := roundRecord (shiftOut d (Z.pos p))) in *.
  replace (Zdigits2 (Z.pos p) - 52) with (Z.pos d + 1) by lia.
  destruct (Z.eqb_spec q (2 ^ 53)) as [->|Hq].
  - destruct (shr_fexp_eq (2 ^ 53) (Z.pos d) loc_Exact ltac:(lia)) as [H1 E1].
    destruct (fexpShift_normal (2 ^ 53) (Z.pos d) ltac:(lia) ltac:(lia)) as [K _].
    destruct (shr_fexp 53 1024 (2 ^ 53) (Z.pos d) loc_Exact) as [r e]. cbn [fst snd] in *.
    rewrite K in *. change (Zdigits2 (2 ^ 53)) with 54 in *. change (Z.max 0 (54 - 53)) with 1 in *.
    rewrite H1, E1. change (2 ^ 53 / 2 ^ 1) with 4503599627370496. cbv iota.
    destruct (Z.leb_spec (Z.pos d + 1) (1024 - 53)); [done|lia].
  - destruct (shr_fexp_eq q (Z.pos d) loc_Exact ltac:(lia)) as [H1 E1].
    destruct (fexpShift_normal q (Z.pos d) ltac:(lia) ltac:(lia)) as [K _].
    destruct (shr_fexp 53 1024 q (Z.pos d) loc_Exact) as [r e]. cbn [fst snd] in *.
    rewrite (Zdigits2_eq q 53) in * by lia. rewrite K in *. change (Z.max 0 (53 - 53)) with 0 in *.
    rewrite Z.div_1_r in H1. rewrite Z.add_0_r in E1. rewrite H1, E1.
    destruct q as [|qp|qp]; try lia. destruct (Z.leb_spec (Z.pos d) (1024 - 53)); [done|lia].
Qed.

(** The conversion of uint64 values preserves the order. *)
Lemma f_of_Z_order a b :
  0 < a <= b -> b < 2 ^ 64 ->
  exists ma ea mb eb,
    f_of_Z a = S754_finite false ma ea /\ f_of_Z b = S754_finite false mb eb /\
    2 ^ 52 <= Z.pos ma < 2 ^ 53 /\ 2 ^ 52 <= Z.pos mb < 2 ^ 53 /\ -52 <= ea <= 12 /\ -52 <= eb <= 12 /\
    (ea < eb \/ (ea = eb /\ (ma <= mb)%positive)).
Proof.
  intros Ha Hb. rewrite (f_of_Z_normal a), (f_of_Z_normal b) by lia.
  pose proof (mantissa_range a ltac:(lia)). pose proof (mantissa_range b ltac:(lia)).
  pose proof (Zdigits2_le a 64 ltac:(lia) ltac:(lia)). pose proof (Zdigits2_le b 64 ltac:(lia) ltac:(lia)).
  destruct (Zdigits2_bounds a ltac:(lia)) as (? & _). destruct (Zdigits2_bounds b ltac:(lia)) as (? & _ & Hu).
  pose proof (Zdigits2_le a (Zdigits2 b) ltac:(lia) ltac:(lia)).
  pose proof (mantissa_mono a b Ha) as Hm.
  destruct (Z.eqb_spec (mantissa a) (2 ^ 53)), (Z.eqb_spec (mantissa b) (2 ^ 53));
    do 4 eexists; (split; [reflexivity|split; [reflexivity|]]); rewrite ?Z2Pos.id by lia;
    split_and!; try lia; change (Z.pos (Z.to_pos (2 ^ 52))) with (2 ^ 52); try lia.
Qed.

(** [0 <= a / b <= 1] in float64 for uint64 values [a <= b], [0 < b]: neither
    the conversions nor the division round above 1. *)
Lemma fdiv_ratio a b :
  0 <= a <= b -> 0 < b < 2 ^ 64 ->
  nonneg (fdiv (f_of_Z a) (f_of_Z b)) = true /\ fleb (fdiv (f_of_Z a) (f_of_Z b)) fone = true.
Proof.
  intros Hab Hb. split.
  { apply fdiv_nonneg; [apply f_of_Z_nonneg|apply f_of_Z_posfin]; lia. }
  destruct (Z.eq_dec a 0) as [->|Ha].
  { pose proof (f_of_Z_posfin b ltac:(lia)). by destruct (f_of_Z b) as [|[]| |[]]. }
  destruct (f_of_Z_order a b ltac:(lia) ltac:(lia)) as (m1 & e1 & m2 & e2 & R1 & R2 & B1 & B2 & X1' & X2' & Ho).
  rewrite R1, R2. unfold fdiv, SFdiv. cbn [xorb]. unfold SFdiv_core_binary.
  pose proof (Zdigits2_eq (Z.pos m1) 53 ltac:(lia) ltac:(lia)) as X1.
  pose proof (Zdigits2_eq (Z.pos m2) 53 ltac:(lia) ltac:(lia)) as X2.
  rewrite X1, X2.
  assert (Z.min (SpecFloat.fexp 53 1024 (53 + e1 - (53 + e2))) (e1 - e2) = e1 - e2 - 53) as ->
    by (unfold SpecFloat.fexp, emin; lia).
  cbv zeta. replace (e1 - e2 - (e1 - e2 - 53)) with 53 by lia. cbv iota.
  rewrite Z.shiftl_mul_pow2 by lia.
  pose proof (Z.div_eucl_eq (Z.pos m1 * 2 ^ 53) (Z.pos m2) ltac:(lia)) as Hq.
  pose proof (Z.mod_pos_bound (Z.pos m1 * 2 ^ 53) (Z.pos m2) ltac:(lia)) as Hr. unfold Z.modulo in Hr.
  destruct (Z.div_eucl _ _) as [q r]. destruct (decide (m1 = m2 /\ e1 = e2)) as [[-> ->]|Hne].
  - destruct (Z.div_mod_unique (Z.pos m2) (2 ^ 53) q 0 r ltac:(lia) ltac:(lia) ltac:(lia)) as [<- <-].
    replace (e2 - e2 - 53) with (-53) by lia.
    unfold new_location, new_location_even, new_location_odd. change (0 =? 0) with true.
    destruct (Z.even _); vm_compute; done.
  - apply round_aux_le; [lia|].
    destruct (Z_lt_le_dec q (2 ^ 53)) as [Hl|Hl]; [left|right].
    + assert (2 ^ 52 <= q) by nia. lia.
    + assert (Z.pos m2 <= Z.pos m1) by nia. assert (q < 2 ^ 54) by nia.
      assert (e1 <> e2); [|lia]. intros ->. apply Hne. split; [lia|done].
Qed.
