(* ===== verification/GoNumber.v ===== *)
(** Decimal texts of float64 values, as encoding/json reads and prints them: the
    JSON number grammar, [strconv.ParseFloat] as the correctly rounded quotient
    of two integers, and [strconv.AppendFloat] with the shortest digits that
    read back as the same value. *)
From Corelib Require Import SpecFloat.
From Stdlib Require Import Strings.Ascii.
From S2P Require Import Prelude GoStrings GoText GoFloat.

Local Open Scope string_scope.
Open Scope Z_scope.

(** ** Rounding a quotient *)

(** The float64 nearest to [p / q], ties to even. *)
Definition roundRatio (neg : bool) (p q : Z) : float64 :=
  let '(m, e, l) := SFdiv_core_binary 53 1024 p 0 q 0 in binary_round_aux 53 1024 neg m e l.

Definition validFloat (f : float64) : bool := valid_binary 53 1024 f.
Definition finite (f : float64) : bool := negb (isNaN f) && negb (isInf f).

(** ** Reading *)

(** A part of a number: at least one digit. *)
Definition digits1 (s : string) : option (string * string) :=
  match spanDigits s with ("", _) => None | r => Some r end.

Definition isE (a : Ascii.ascii) : bool := Ascii.eqb a "e"%char || Ascii.eqb a "E"%char.

(** The exponent part, up to the end of the text. *)
Definition scanExponent (s : string) : option Z :=
  match s with
  | EmptyString => Some 0
  | String a s =>
      if isE a then
        let '(neg, s) := match s with
                         | String b s' => if Ascii.eqb b "-"%char then (true, s') else if Ascii.eqb b "+"%char then (false, s') else (false, s)
                         | EmptyString => (false, s)
                         end in
        match digits1 s with
        | Some (ds, "") => (fun n => if (neg : bool) then - n else n) <$> parseDigits ds 0
        | _ => None
        end
      else None
  end.

Definition scanFraction (s : string) : option (string * string) :=
  match s with
  | String a s' => if Ascii.eqb a "."%char then digits1 s' else Some ("", s)
  | EmptyString => Some ("", s)
  end.

Definition leadingZero (i : string) : bool := match i with String "0" (String _ _) => true | _ => false end.

Record Decimal := { dc_neg : bool; dc_int : string; dc_frac : string; dc_exp : Z }.

(** A JSON number: [-? (0 | [1-9][0-9]* ) (\.[0-9]+)? ([eE][+-]?[0-9]+)?]. *)
Definition scanNumber (s : string) : option Decimal :=
  let '(neg, s) := match s with
                   | String a s' => if Ascii.eqb a "-"%char then (true, s') else (false, s)
                   | EmptyString => (false, s)
                   end in
  let! r := digits1 s in
  let '(i, s) := r in
  if leadingZero i then None
  else
    let! r := scanFraction s in
    let '(f, s) := r in
    let! x := scanExponent s in
    Some {| dc_neg := neg; dc_int := i; dc_frac := f; dc_exp := x |}.

(** The float64 nearest to [m * 10^x]. *)
Definition decValue (neg : bool) (m x : Z) : float64 :=
  if m =? 0 then S754_zero neg
  else if 0 <=? x then roundRatio neg (m * 10 ^ x) 1
  else roundRatio neg m (10 ^ (- x)).

(** [strconv.ParseFloat(s, 64)] of a JSON number; [None] is a value out of
    range. *)
Definition ParseFloat (s : string) : option float64 :=
  let! d := scanNumber s in
  let! m := parseDigits (dc_int d ^^ dc_frac d) 0 in
  let f := decValue (dc_neg d) m (dc_exp d - go_len (dc_frac d)) in
  if isInf f then None else Some f.

(** ** Printing *)

Fixpoint zeros (k : nat) : string := match k with O => "" | S k => String "0" (zeros k) end.

(** [digs] with the decimal point after [dp] digits: the format [%f]. *)
Definition fixedText (digs : string) (dp : Z) : string :=
  let nd := go_len digs in
  if dp <=? 0 then "0." ^^ (zeros (Z.to_nat (- dp)) ^^ digs)
  else if nd <=? dp then digs ^^ zeros (Z.to_nat (dp - nd))
  else prefixString (Z.to_nat dp) digs ^^ ("." ^^ suffixString (Z.to_nat dp) digs).

(** The format [%e] as encoding/json cleans it up: no leading zero in a negative
    exponent (a positive one has two digits). *)
Definition sciText (digs : string) (dp : Z) : string :=
  match digs with
  | String a rest =>
      String a (match rest with EmptyString => "" | _ => "." ^^ rest end)
      ^^ ("e" ^^ ((if dp - 1 <? 0 then "-" else "+") ^^ pretty (Z.to_N (Z.abs (dp - 1)))))
  | EmptyString => ""
  end.

(** The text of the decimal [D * 10^x]. *)
Definition decText (neg sci : bool) (D x : Z) : string :=
  let digs := pretty (Z.to_N D) in
  let dp := go_len digs + x in
  (if neg then "-" else "") ^^ (if sci then sciText digs dp else fixedText digs dp).

(** No trailing zeros; [fuel] is the number of digits. *)
Fixpoint trimZeros (fuel : nat) (D x : Z) : Z * Z :=
  match fuel with
  | O => (D, x)
  | S fuel => if D mod 10 =? 0 then trimZeros fuel (D / 10) (x + 1) else (D, x)
  end.

Definition trimmedText (neg sci : bool) (nd : nat) (D x : Z) : string :=
  let '(D, x) := trimZeros nd D x in decText neg sci D x.

(** [roundShortest]: [M * 10^x], of [nd] digits, is the exact value; [n] digits of it,
    rounded down or up, are enough when they read back as [f].  [k] is the
    number of digits left to try. *)
Fixpoint shortest (f : float64) (neg sci : bool) (nd : nat) (M x : Z) (k : nat) : string :=
  match k with
  | O => trimmedText neg sci nd M x
  | S k' =>
      let unit := 10 ^ Z.of_nat k in
      let down := trimmedText neg sci nd (M / unit) (x + Z.of_nat k) in
      let up := trimmedText neg sci nd (M / unit + 1) (x + Z.of_nat k) in
      let okdown := bool_decide (ParseFloat down = Some f) in
      let okup := bool_decide (ParseFloat up = Some f) in
      if okdown && okup then
        match Z.compare (2 * (M mod unit)) unit with
        | Lt => down
        | Gt => up
        | Eq => if Z.even (M / unit) then down else up
        end
      else if okdown then down
      else if okup then up
      else shortest f neg sci nd M x k'
  end.

(** The exact decimal value of [m * 2^e]. *)
Definition exactDecimal (m e : Z) : Z * Z :=
  if 0 <=? e then (m * 2 ^ e, 0) else (m * 5 ^ (- e), e).

(** [floatEncoder]: [%e] below 1e-6 and from 1e21 on. *)
Definition formatFloat (f : float64) : string :=
  match f with
  | S754_zero neg => if neg then "-0" else "0"
  | S754_finite neg m e =>
      let abs := S754_finite false m e in
      let sci := fltb abs (decValue false 1 (-6)) || fleb (decValue false 1 21) abs in
      let '(M, x) := exactDecimal (Zpos m) e in
      let nd := String.length (pretty (Z.to_N M)) in
      shortest f neg sci nd M x (nd - 1)
  | _ => ""
  end.

Example formatFloat_ex :
  map formatFloat [f_of_Z 4242; f_lit 1 10; f_lit 85 100; S754_zero true; f_of_Z (-7); f_lit 1 3; decValue false 1 21; decValue false 5 (-324);
                   decValue true 17976931348623157 292; decValue false 1 (-6); decValue false 123 (-9); decValue false 9007199254740993 0]
  = ["4242"; "0.1"; "0.85"; "-0"; "-7"; "0.3333333333333333"; "1e+21"; "5e-324"; "-1.7976931348623157e+308"; "0.000001"; "1.23e-7"; "9007199254740992"] /\
  map ParseFloat ["1e309"; "01"; "1."; ".5"; "-"; "1e"; "0x1"; "1E2"; "1e-400"]
  = [None; None; None; None; None; None; None; Some (f_of_Z 100); Some fzero].
Proof. vm_compute. split; reflexivity. Qed.

(** ** Rounding: lemmas *)
Lemma shr_1_even k : 0 <= k -> shr_1 {| shr_m := 2 * k; shr_r := false; shr_s := false |} = {| shr_m := k; shr_r := false; shr_s := false |}.
Proof. intros Hk. destruct k as [|p|p]; [done|done|lia]. Qed.

Lemma iter_shr_exact n m :
  0 <= m -> SpecFloat.iter_pos shr_1 n {| shr_m := m * 2 ^ Zpos n; shr_r := false; shr_s := false |}
            = {| shr_m := m; shr_r := false; shr_s := false |}.
Proof.
  revert m. induction n as [n IH|n IH|]; intros m Hm; cbn [SpecFloat.iter_pos].
  - replace (m * 2 ^ Z.pos n~1) with (2 * ((m * 2 ^ Zpos n) * 2 ^ Zpos n)).
    2:{ replace (Z.pos n~1) with (Z.succ (Zpos n + Zpos n)) by lia. rewrite Z.pow_succ_r, Z.pow_add_r by lia. ring. }
    assert (0 <= m * 2 ^ Zpos n) by (apply Z.mul_nonneg_nonneg; [done|by apply Z.pow_nonneg]).
    assert (0 <= m * 2 ^ Zpos n * 2 ^ Zpos n) by (apply Z.mul_nonneg_nonneg; [done|by apply Z.pow_nonneg]).
    by rewrite shr_1_even, IH, IH.
  - replace (m * 2 ^ Z.pos n~0) with ((m * 2 ^ Zpos n) * 2 ^ Zpos n).
    2:{ replace (Z.pos n~0) with (Zpos n + Zpos n) by lia. rewrite Z.pow_add_r by lia. ring. }
    assert (0 <= m * 2 ^ Zpos n) by (apply Z.mul_nonneg_nonneg; [done|by apply Z.pow_nonneg]). by rewrite IH, IH.
  - rewrite <- (shr_1_even m) by done. do 2 f_equal. lia.
Qed.

Lemma Zdigits2_shift m n : 0 < m -> 0 <= n -> Zdigits2 (m * 2 ^ n) = Zdigits2 m + n.
Proof.
  intros Hm Hn. destruct (Zdigits2_bounds m Hm) as (H1 & H2 & H3). apply Zdigits2_eq; [lia|].
  replace (Zdigits2 m + n - 1) with (Zdigits2 m - 1 + n) by lia. rewrite !Z.pow_add_r by lia.
  pose proof (Z.pow_pos_nonneg 2 n ltac:(lia) Hn). nia.
Qed.

(** A canonical mantissa that was shifted left comes back. *)
Lemma round_aux_shifted neg m e n :
  0 <= n -> bounded 53 1024 m (e + n) = true ->
  binary_round_aux 53 1024 neg (Zpos m * 2 ^ n) e loc_Exact = S754_finite neg m (e + n).
Proof.
  intros Hn [Hc He]%andb_prop. apply Z.eqb_eq in Hc. unfold binary_round_aux.
  assert (shr_fexp 53 1024 (Zpos m * 2 ^ n) e loc_Exact = ({| shr_m := Zpos m; shr_r := false; shr_s := false |}, e + n)) as ->.
  { unfold shr_fexp. rewrite Zdigits2_shift by lia. cbn [Zdigits2].
    replace (Z.pos (digits2_pos m) + n + e) with (Z.pos (digits2_pos m) + (e + n)) by lia. rewrite Hc.
    replace (e + n - e) with n by lia. cbn [shr_record_of_loc]. destruct n as [|k|k]; [|unfold shr|lia].
    - by rewrite Z.mul_1_r, Z.add_0_r.
    - by rewrite iter_shr_exact. }
  cbn [shr_m loc_of_shr_record round_nearest_even].
  assert (shr_fexp 53 1024 (Zpos m) (e + n) loc_Exact = ({| shr_m := Zpos m; shr_r := false; shr_s := false |}, e + n)) as ->.
  { unfold shr_fexp. cbn [Zdigits2]. by rewrite Hc, Z.sub_diag. }
  cbn [shr_m]. by rewrite He.
Qed.

Lemma fexp_mono a b : a <= b -> SpecFloat.fexp 53 1024 a <= SpecFloat.fexp 53 1024 b.
Proof. unfold SpecFloat.fexp. lia. Qed.

(** The division of the core: an exact or truncated quotient. *)
Lemma div_core p q :
  0 < p -> 0 < q ->
  let e := Z.min (SpecFloat.fexp 53 1024 (Zdigits2 p - Zdigits2 q)) 0 in
  SFdiv_core_binary 53 1024 p 0 q 0 = (p * 2 ^ (- e) / q, e, new_location q (p * 2 ^ (- e) mod q)).
Proof.
  intros Hp Hq e. unfold SFdiv_core_binary. rewrite !Z.add_0_r. change (0 - 0) with 0. fold e. cbv zeta.
  assert (match 0 - e with 0 => p | Z.pos _ => Z.shiftl p (0 - e) | Z.neg _ => 0 end = p * 2 ^ (- e)) as ->.
  { replace (0 - e) with (- e) by lia. assert (0 <= - e) by lia. destruct (- e) eqn:E; [by rewrite Z.mul_1_r| |lia].
    by rewrite Z.shiftl_mul_pow2. }
  unfold Z.div, Z.modulo. by destruct (Z.div_eucl _ _).
Qed.

(** A quotient that is a float64 rounds to it. *)
Lemma roundRatio_exact neg p q m e :
  0 < p -> 0 < q -> bounded 53 1024 m e = true -> p * 2 ^ Z.max 0 (- e) = Zpos m * 2 ^ Z.max 0 e * q ->
  roundRatio neg p q = S754_finite neg m e.
Proof.
  intros Hp Hq Hb Hv. unfold roundRatio. rewrite div_core by done. set (e' := Z.min _ _).
  destruct (Zdigits2_bounds p Hp) as (P1 & P2 & P3). destruct (Zdigits2_bounds q Hq) as (Q1 & Q2 & Q3).
  destruct (Zdigits2_bounds (Zpos m) ltac:(lia)) as (M1 & M2 & M3).
  assert (e' <= e) as He'.
  { pose proof Hb as [Hc _]%andb_prop. apply Z.eqb_eq in Hc. change (Z.pos (digits2_pos m)) with (Zdigits2 (Zpos m)) in Hc.
    assert (Zdigits2 p - Zdigits2 q <= Zdigits2 (Zpos m) + e) as Hd; [|pose proof (fexp_mono _ _ Hd); lia].
    destruct (Z.le_gt_cases (Zdigits2 p - Zdigits2 q) (Zdigits2 (Zpos m) + e)) as [|Hgt]; [done|exfalso].
    assert (Zpos m * 2 ^ Z.max 0 e * q < 2 ^ (Zdigits2 (Zpos m) + Z.max 0 e + Zdigits2 q)) as Hlt.
    { rewrite !Z.pow_add_r by lia. pose proof (Z.pow_pos_nonneg 2 (Z.max 0 e) ltac:(lia) ltac:(lia)).
      apply Z.mul_lt_mono_nonneg; nia. }
    assert (2 ^ (Zdigits2 p - 1 + Z.max 0 (- e)) <= p * 2 ^ Z.max 0 (- e)) as Hge.
    { rewrite Z.pow_add_r by lia. apply Z.mul_le_mono_nonneg_r; [by apply Z.pow_nonneg|lia]. }
    assert (2 ^ (Zdigits2 (Zpos m) + Z.max 0 e + Zdigits2 q) <= 2 ^ (Zdigits2 p - 1 + Z.max 0 (- e))); [|lia].
    apply Z.pow_le_mono_r; lia. }
  assert (p * 2 ^ (- e') = Zpos m * 2 ^ (e - e') * q) as Hx.
  { assert (e' <= 0) by (unfold e'; lia). destruct (Z.le_gt_cases 0 e) as [H0|H0].
    - rewrite Z.max_l, Z.max_r, Z.mul_1_r in Hv by lia. rewrite Hv. replace (e - e') with (e + - e') by lia.
      rewrite Z.pow_add_r by lia. ring.
    - rewrite Z.max_r, (Z.max_l 0 e), Z.mul_1_r in Hv by lia. replace (- e') with (- e + (e - e')) by lia.
      rewrite Z.pow_add_r by lia. rewrite Z.mul_assoc, Hv. ring. }
  rewrite Hx, Z.div_mul, Z.mod_mul by lia.
  replace (new_location q 0) with loc_Exact by (unfold new_location, new_location_even, new_location_odd; by destruct (Z.even q)).
  rewrite round_aux_shifted; [f_equal; lia|lia|]. by replace (e' + (e - e')) with e by lia.
Qed.

Lemma Zdigits2_div m n : 0 < m -> 0 <= n < Zdigits2 m -> Zdigits2 (m / 2 ^ n) = Zdigits2 m - n.
Proof.
  intros Hm Hn. destruct (Zdigits2_bounds m Hm) as (H1 & H2 & H3).
  pose proof (Z.pow_pos_nonneg 2 n ltac:(lia) ltac:(lia)). apply Zdigits2_eq; [lia|]. split.
  - apply Z.div_le_lower_bound; [done|]. rewrite <- Z.pow_add_r by lia. by replace (n + (Zdigits2 m - n - 1)) with (Zdigits2 m - 1) by lia.
  - apply Z.div_lt_upper_bound; [done|]. rewrite <- Z.pow_add_r by lia. by replace (n + (Zdigits2 m - n)) with (Zdigits2 m) by lia.
Qed.

Lemma Zdigits2_mono a b : 0 <= a <= b -> Zdigits2 a <= Zdigits2 b.
Proof.
  intros H. destruct (Z.eq_dec a 0) as [->|]; [|destruct (Zdigits2_bounds b ltac:(lia)) as (_ & _ & ?); apply Zdigits2_le; lia].
  destruct (Z.eq_dec b 0) as [->|]; [done|]. destruct (Zdigits2_bounds b ltac:(lia)) as (? & _). cbn. lia.
Qed.

(** Shifting out what the format cannot hold leaves a canonical mantissa. *)
Lemma shr_fexp_canonical m e l :
  0 < m -> -1074 <= e <= SpecFloat.fexp 53 1024 (Zdigits2 m + e) ->
  let r := shr_fexp 53 1024 m e l in
  0 < shr_m r.1 /\ SpecFloat.fexp 53 1024 (Zdigits2 (shr_m r.1) + r.2) = r.2.
Proof.
  intros Hm He r. destruct (shr_fexp_eq m e l ltac:(lia)) as [H1 H2]. fold r in H1, H2. rewrite H1, H2.
  destruct (Zdigits2_bounds m Hm) as (D1 & D2 & D3). unfold fexpShift. rewrite Z.max_r by lia.
  set (n := SpecFloat.fexp 53 1024 (Zdigits2 m + e) - e) in *.
  assert (0 <= n < Zdigits2 m) by (unfold n; unfold SpecFloat.fexp, emin in *; lia). split.
  - apply Z.div_str_pos. split; [apply Z.pow_pos_nonneg; lia|]. etrans; [|exact D2]. apply Z.pow_le_mono_r; lia.
  - rewrite Zdigits2_div by done. replace (Zdigits2 m - n + (e + n)) with (Zdigits2 m + e) by lia. unfold n. lia.
Qed.

Lemma round_aux_valid neg m e l :
  0 <= m -> e <= SpecFloat.fexp 53 1024 (Zdigits2 m + e) -> validFloat (binary_round_aux 53 1024 neg m e l) = true.
Proof.
  intros Hm He. unfold binary_round_aux. destruct (shr_fexp_eq m e l Hm) as [H1 E1].
  destruct (shr_fexp 53 1024 m e l) as [r1 e1]. cbn [fst snd] in *. unfold fexpShift in *.
  set (n := SpecFloat.fexp 53 1024 (Zdigits2 m + e) - e) in *. rewrite Z.max_r in * by lia.
  assert (0 <= shr_m r1 /\ -1074 <= e1 <= SpecFloat.fexp 53 1024 (Zdigits2 (shr_m r1) + e1)) as [Hr1 He1].
  { assert (-1074 <= e1) by (rewrite E1; unfold n, SpecFloat.fexp, emin; lia). rewrite H1.
    split; [apply Z.div_pos; [done|apply Z.pow_pos_nonneg; lia]|]. split; [done|].
    destruct (Z.lt_ge_cases n (Zdigits2 m)) as [Hn|Hn].
    - assert (0 < m) by (destruct m; [cbn in Hn; lia|done|lia]). rewrite Zdigits2_div by lia.
      rewrite E1. replace (Zdigits2 m - n + (e + n)) with (Zdigits2 m + e) by lia. unfold n. lia.
    - assert (m < 2 ^ n) as Hlt.
      { destruct (Z.eq_dec m 0) as [->|]; [apply Z.pow_pos_nonneg; lia|].
        destruct (Zdigits2_bounds m ltac:(lia)) as (_ & _ & ?). pose proof (Z.pow_le_mono_r 2 (Zdigits2 m) n ltac:(lia) Hn). lia. }
      rewrite Z.div_small by lia. cbn [Zdigits2]. rewrite E1. unfold n in *. unfold SpecFloat.fexp, emin in *. lia. }
  set (m2 := round_nearest_even (shr_m r1) (loc_of_shr_record r1)).
  pose proof (round_even_bounds (shr_m r1) (loc_of_shr_record r1)) as Hb. fold m2 in Hb.
  destruct (Z.eq_dec m2 0) as [->|Hne].
  { destruct (shr_fexp_eq 0 e1 loc_Exact ltac:(lia)) as [H2 _]. destruct (shr_fexp 53 1024 0 e1 loc_Exact) as [r2 e2].
    cbn [fst] in H2. by rewrite H2, Z.div_0_l by (apply Z.pow_nonzero; lia). }
  destruct (shr_fexp_canonical m2 e1 loc_Exact ltac:(lia)) as [Hp Hc].
  { split; [lia|]. etrans; [apply He1|]. apply fexp_mono. pose proof (Zdigits2_mono (shr_m r1) m2 ltac:(lia)). lia. }
  destruct (shr_fexp 53 1024 m2 e1 loc_Exact) as [r2 e2]. cbn [fst snd] in Hp, Hc.
  destruct (shr_m r2) as [|p|p]; [done| |lia]. destruct (e2 <=? 1024 - 53) eqn:Hle; [|done].
  unfold validFloat, valid_binary, bounded, canonical_mantissa. cbn [Zdigits2] in Hc. by rewrite Hc, Z.eqb_refl, Hle.
Qed.

Lemma roundRatio_valid neg p q : 0 < p -> 0 < q -> validFloat (roundRatio neg p q) = true.
Proof.
  intros Hp Hq. unfold roundRatio. rewrite div_core by done. set (e := Z.min _ _).
  assert (e <= 0) by (unfold e; lia). pose proof (Z.pow_pos_nonneg 2 (- e) ltac:(lia) ltac:(lia)) as H2.
  apply round_aux_valid; [apply Z.div_pos; nia|].
  destruct (Zdigits2_bounds p Hp) as (P1 & P2 & P3). destruct (Zdigits2_bounds q Hq) as (Q1 & Q2 & Q3).
  set (m := p * 2 ^ (- e) / q). assert (Zdigits2 p - Zdigits2 q - e <= Zdigits2 m) as Hd.
  { destruct (Z.le_gt_cases (Zdigits2 p - Zdigits2 q - e) 0) as [|Hpos].
    - assert (0 <= m) by (apply Z.div_pos; nia). pose proof (Zdigits2_mono 0 m ltac:(lia)). cbn in *. lia.
    - assert (2 ^ (Zdigits2 p - Zdigits2 q - e - 1) <= m) as Hm.
      { apply Z.div_le_lower_bound; [done|]. apply Z.le_trans with (2 ^ Zdigits2 q * 2 ^ (Zdigits2 p - Zdigits2 q - e - 1)).
        - apply Z.mul_le_mono_nonneg_r; [by apply Z.pow_nonneg|lia].
        - rewrite <- Z.pow_add_r by lia. replace (Zdigits2 q + (Zdigits2 p - Zdigits2 q - e - 1)) with (Zdigits2 p - 1 + - e) by lia.
          rewrite Z.pow_add_r by lia. apply Z.mul_le_mono_nonneg_r; lia. }
      pose proof (Z.pow_pos_nonneg 2 (Zdigits2 p - Zdigits2 q - e - 1) ltac:(lia) ltac:(lia)).
      pose proof (Zdigits2_mono _ _ (conj (Z.pow_nonneg 2 (Zdigits2 p - Zdigits2 q - e - 1) ltac:(lia)) Hm)) as Hmono.
      rewrite (Zdigits2_eq (2 ^ _) (Zdigits2 p - Zdigits2 q - e)) in Hmono; [done|lia|].
      split; [done|]. apply Z.pow_lt_mono_r; lia. }
  etrans; [apply Z.le_min_l|]. apply fexp_mono. lia.
Qed.

Lemma roundRatio_nan neg p q : 0 < p -> 0 < q -> isNaN (roundRatio neg p q) = false.
Proof.
  intros Hp Hq. unfold roundRatio. rewrite div_core by done. set (e := Z.min _ _).
  assert (e <= 0) by (unfold e; lia). pose proof (Z.pow_pos_nonneg 2 (- e) ltac:(lia) ltac:(lia)) as H2.
  set (m := p * 2 ^ (- e) / q). assert (0 <= m) as Hm by (apply Z.div_pos; nia).
  unfold binary_round_aux. set (l := new_location q _). destruct (shr_fexp_eq m e l Hm) as [H1 _].
  destruct (shr_fexp 53 1024 m e l) as [r1 e1]. cbn [fst] in H1.
  pose proof (round_even_bounds (shr_m r1) (loc_of_shr_record r1)) as Hb.
  assert (Hr : 0 <= shr_m r1) by (rewrite H1; apply Z.div_pos; [done|apply Z.pow_pos_nonneg; lia]).
  destruct (shr_fexp_eq (round_nearest_even (shr_m r1) (loc_of_shr_record r1)) e1 loc_Exact ltac:(lia)) as [H3 _].
  destruct (shr_fexp 53 1024 _ e1 loc_Exact) as [r2 e2]. cbn [fst] in H3.
  assert (Hr2 : 0 <= shr_m r2) by (rewrite H3; apply Z.div_pos; [lia|apply Z.pow_pos_nonneg; lia]).
  destruct (shr_m r2); [done| |lia]. by destruct (e2 <=? 1024 - 53).
Qed.

(** Integers of machine width are in range. *)
Lemma roundRatio_small neg p : 0 < p < 2 ^ 64 -> isInf (roundRatio neg p 1) = false.
Proof.
  intros Hp. unfold roundRatio. rewrite div_core by lia. rewrite Z.div_1_r, Z.mod_1_r. set (e := Z.min _ _).
  pose proof (Zdigits2_le p 64 ltac:(lia) ltac:(lia)) as Hd. destruct (Zdigits2_bounds p ltac:(lia)) as (D1 & D2 & D3).
  change (Zdigits2 1) with 1 in e. assert (e = Z.min (Zdigits2 p - 54) 0) as He by (unfold e, SpecFloat.fexp, emin; lia).
  change (new_location 1 0) with loc_Exact.
  assert (posfin (binary_round_aux 53 1024 false (p * 2 ^ (- e)) e loc_Exact) = true) as H.
  { apply round_aux_posfin; [|lia]. pose proof (Z.pow_pos_nonneg 2 (- e) ltac:(lia) ltac:(lia)). split; [nia|].
    destruct (Z.le_gt_cases (Zdigits2 p) 54).
    - apply Z.lt_le_trans with (2 ^ Zdigits2 p * 2 ^ (- e)); [nia|]. rewrite <- Z.pow_add_r by lia. apply Z.pow_le_mono_r; lia.
    - replace (- e) with 0 by lia. lia. }
  revert H. unfold binary_round_aux. destruct (shr_fexp _ _ _ _ _) as [r1 e1]. destruct (shr_fexp _ _ _ _ _) as [r2 e2].
  destruct (shr_m r2); [done| |done]. by destruct (e2 <=? 1024 - 53).
Qed.

(** ** Reading what was printed *)
Lemma append_split n s : (n <= String.length s)%nat -> prefixString n s ^^ suffixString n s = s /\
  String.length (prefixString n s) = n /\ String.length (suffixString n s) = (String.length s - n)%nat.
Proof.
  unfold prefixString. revert n. induction s as [|a s IH]; intros [|n] Hn; try (cbn in Hn; lia); [done|by split_and!|].
  cbn in Hn. destruct (IH n ltac:(lia)) as (H1 & H2 & H3).
  change (String.substring 0 (S n) (String a s)) with (String a (String.substring 0 n s)).
  cbn [suffixString]. rewrite append_cons. split_and!; [by f_equal|cbn; by f_equal|done].
Qed.

Lemma pretty_go_first n s : (0 < n)%N -> exists a t, pretty_N_go n s = String a t /\ a <> "0"%char.
Proof.
  revert s. induction (N.lt_wf_0 n) as [n _ IH]. intros s Hn. rewrite pretty_N_go_step by done.
  destruct (decide (n / 10 = 0)%N) as [H0|H0]; [|apply IH; [by apply N.div_lt|by apply N.neq_0_lt_0]].
  rewrite H0, pretty_N_go_0. eexists _, _. split; [done|].
  apply N.div_small_iff in H0; [|done]. rewrite N.mod_small by done. revert Hn H0. clear.
  intros H1 H2. assert (n = 1 \/ n = 2 \/ n = 3 \/ n = 4 \/ n = 5 \/ n = 6 \/ n = 7 \/ n = 8 \/ n = 9)%N by lia.
  by repeat match goal with H : _ \/ _ |- _ => destruct H as [->|H] | H : n = _ |- _ => rewrite H end.
Qed.

(** A positive numeral has no leading zero. *)
Lemma pretty_first D : 0 < D -> exists a t, pretty (Z.to_N D) = String a t /\ a <> "0"%char.
Proof.
  intros HD. unfold pretty, pretty_N. rewrite decide_False by lia. apply pretty_go_first. lia.
Qed.

Lemma parse_zeros k acc : parseDigits (zeros k) acc = Some (acc * 10 ^ Z.of_nat k).
Proof.
  revert acc. induction k as [|k IH]; intros acc; [cbn; f_equal; lia|]. cbn [zeros parseDigits].
  change (digitVal "0"%char) with (Some 0). cbv iota. rewrite IH. f_equal. rewrite Nat2Z.inj_succ, Z.pow_succ_r by lia. lia.
Qed.

Lemma zeros_digits k : allChars isDigit (zeros k) = true.
Proof. apply (parseDigits_digits (zeros k) 0). eexists. apply parse_zeros. Qed.

Lemma zeros_len k : go_len (zeros k) = Z.of_nat k.
Proof. unfold go_len. induction k as [|k IH]; [done|]. cbn [zeros String.length]. lia. Qed.

Lemma digits1_append d r : d <> "" -> allChars isDigit d = true -> endsDigits r = true -> digits1 (d ^^ r) = Some (d, r).
Proof. intros Hd Ha Hr. unfold digits1. rewrite spanDigits_append by done. by destruct d. Qed.

(** What follows the digits of a number. *)
Definition expStart (s : string) : bool := match s with String a _ => isE a | EmptyString => true end.

Lemma expStart_ends s : expStart s = true -> endsDigits s = true /\ scanFraction s = Some ("", s).
Proof.
  destruct s as [|a s]; [done|]. cbn [expStart endsDigits scanFraction]. unfold isE.
  destruct (Ascii.eqb_spec a "e"%char) as [->|_]; [done|]. by destruct (Ascii.eqb_spec a "E"%char) as [->|_].
Qed.

Lemma digit_no_dash i r : i <> "" -> allChars isDigit i = true ->
  match i ^^ r with
  | String a s' => if Ascii.eqb a "-"%char then (true, s') else (false, i ^^ r)
  | EmptyString => (false, i ^^ r)
  end = (false, i ^^ r).
Proof.
  destruct i as [|a i]; [done|]. intros _ [Ha _]%andb_prop. rewrite append_cons.
  destruct (Ascii.eqb_spec a "-"%char) as [->|]; done.
Qed.

Lemma scanNumber_parts (neg : bool) i f et x :
  i <> "" -> allChars isDigit i = true -> leadingZero i = false -> allChars isDigit f = true ->
  expStart et = true -> scanExponent et = Some x ->
  scanNumber ((if neg then "-" else "") ^^ (i ^^ ((if f =s "" then "" else "." ^^ f) ^^ et)))
  = Some {| dc_neg := neg; dc_int := i; dc_frac := f; dc_exp := x |}.
Proof.
  intros Hi Hd Hz Hf He Hx. destruct (expStart_ends et He) as [He1 He2]. unfold scanNumber.
  set (rest := (if f =s "" then "" else "." ^^ f) ^^ et).
  assert (endsDigits rest = true /\ scanFraction rest = Some (f, et)) as [Hr Hs].
  { unfold rest. destruct (String.eqb_spec f "") as [->|Hne]; [done|]. rewrite append_assoc. split; [done|].
    change ("." ^^ (f ^^ et)) with (String "."%char (f ^^ et)). cbn [scanFraction]. by apply digits1_append. }
  assert (match (if neg then "-" else "") ^^ (i ^^ rest) with
          | String a s' => if Ascii.eqb a "-"%char then (true, s') else (false, (if neg then "-" else "") ^^ (i ^^ rest))
          | EmptyString => (false, (if neg then "-" else "") ^^ (i ^^ rest))
          end = (neg, i ^^ rest)) as ->.
  { destruct neg; [done|]. change ("" ^^ (i ^^ rest)) with (i ^^ rest). by apply digit_no_dash. }
  rewrite digits1_append by done. cbn [mbind option_bind]. by rewrite Hz, Hs; cbn [mbind option_bind]; rewrite Hx.
Qed.

Definition expText (y : Z) : string := "e" ^^ ((if y <? 0 then "-" else "+") ^^ pretty (Z.to_N (Z.abs y))).

Lemma expText_read y : scanExponent (expText y) = Some y.
Proof.
  unfold expText. destruct (pretty_head (Z.to_N (Z.abs y))) as (a & s & E & _).
  pose proof (digits1_append (pretty (Z.to_N (Z.abs y))) "" ltac:(by rewrite E) (pretty_digits _) eq_refl) as Hd.
  rewrite append_nil_r in Hd. pose proof (parse_pretty (Z.to_N (Z.abs y))) as Hp. rewrite Z2N.id in Hp by lia.
  destruct (Z.ltb_spec y 0) as [Hn|Hn].
  - change ("e" ^^ ("-" ^^ ?u)) with (String "e"%char (String "-"%char u)). cbn [scanExponent].
    change (isE "e"%char) with true. change (Ascii.eqb "-"%char "-"%char) with true. cbv iota beta zeta. rewrite Hd, Hp. cbn. f_equal. lia.
  - change ("e" ^^ ("+" ^^ ?u)) with (String "e"%char (String "+"%char u)). cbn [scanExponent].
    change (isE "e"%char) with true. change (Ascii.eqb "+"%char "-"%char) with false. change (Ascii.eqb "+"%char "+"%char) with true.
    cbv iota beta zeta. rewrite Hd, Hp. cbn. f_equal. lia.
Qed.

(** The value a text denotes, unless it is out of range. *)
Definition inRange (f : float64) : option float64 := if isInf f then None else Some f.

Lemma ParseFloat_parts (neg : bool) i f et x m :
  i <> "" -> allChars isDigit i = true -> leadingZero i = false -> allChars isDigit f = true ->
  expStart et = true -> scanExponent et = Some x -> parseDigits (i ^^ f) 0 = Some m ->
  ParseFloat ((if neg then "-" else "") ^^ (i ^^ ((if f =s "" then "" else "." ^^ f) ^^ et))) = inRange (decValue neg m (x - go_len f)).
Proof.
  intros Hi Hd Hz Hf He Hx Hm. unfold ParseFloat. erewrite scanNumber_parts by done.
  cbn [mbind option_bind dc_int dc_frac dc_neg dc_exp]. by rewrite Hm.
Qed.

Lemma nonempty_eqb s : s <> "" -> (s =s "") = false.
Proof. apply String.eqb_neq. Qed.

Lemma leadingZero_first a t : a <> "0"%char -> leadingZero (String a t) = false.
Proof. intros Ha. unfold leadingZero. destruct a as [[] [] [] [] [] [] [] []]; try done; by destruct t. Qed.

Lemma decText_value neg sci D x : 0 < D -> ParseFloat (decText neg sci D x) = inRange (decValue neg D x).
Proof.
  intros HD. destruct (pretty_first D HD) as (a & t & E & Ha). unfold decText.
  pose proof (pretty_digits (Z.to_N D)) as Hdig. pose proof (parse_pretty (Z.to_N D)) as Hp. rewrite Z2N.id in Hp by lia.
  set (digs := pretty (Z.to_N D)) in *.
  assert (go_len digs = Z.of_nat (String.length digs)) as Hlen by done. destruct sci.
  - set (y := go_len digs + x - 1). unfold sciText. fold y. fold (expText y). rewrite E.
    pose proof (ParseFloat_parts neg (String a "") t (expText y) y D) as H.
    rewrite E in Hdig. cbn [allChars] in Hdig. apply andb_prop in Hdig as [Hda Hdt].
    replace (y - go_len t) with x in H by (unfold y; rewrite E; unfold go_len; cbn [String.length]; lia).
    rewrite !append_cons in H. change ("" ^^ ?u) with u in H. rewrite append_cons.
    assert ((match t with "" => "" | _ => "." ^^ t end) = (if t =s "" then "" else "." ^^ t)) as -> by by destruct t.
    apply H; [done|cbn [allChars]; by rewrite Hda|by destruct (leadingZero_first a "" Ha)|done|done|apply expText_read|].
    by rewrite <- E.
  - unfold fixedText. destruct (Z.leb_spec (go_len digs + x) 0) as [Hdp|Hdp].
    { set (k := Z.to_nat (- (go_len digs + x))).
      assert (zeros k ^^ digs <> "") as Hne by (rewrite E; by destruct (zeros k)).
      pose proof (ParseFloat_parts neg "0" (zeros k ^^ digs) "" 0 D) as H. rewrite (nonempty_eqb _ Hne), append_nil_r in H.
      rewrite go_len_append, zeros_len in H. replace (0 - (Z.of_nat k + go_len digs)) with x in H by lia.
      apply H; try done; [by rewrite allChars_append, zeros_digits|]. change ("0" ^^ ?u) with (String "0"%char u).
      cbn [parseDigits]. change (digitVal "0"%char) with (Some 0). cbv iota. rewrite parseDigits_append, parse_zeros. exact Hp. }
    destruct (Z.leb_spec (go_len digs) (go_len digs + x)) as [Hx|Hx].
    { replace (go_len digs + x - go_len digs) with x by lia.
      pose proof (ParseFloat_parts neg (digs ^^ zeros (Z.to_nat x)) "" "" 0 (D * 10 ^ x)) as H.
      change (("" =s "")) with true in H. cbv iota in H. change ("" ^^ "") with "" in H. rewrite !append_nil_r in H.
      change (0 - go_len "") with 0 in H.
      assert (decValue neg (D * 10 ^ x) 0 = decValue neg D x) as Hv.
      { pose proof (Z.pow_pos_nonneg 10 x ltac:(lia) ltac:(lia)). unfold decValue.
        rewrite (proj2 (Z.eqb_neq (D * 10 ^ x) 0)), (proj2 (Z.eqb_neq D 0)) by nia.
        rewrite (proj2 (Z.leb_le 0 x)) by lia. change (0 <=? 0) with true. cbv iota. by rewrite Z.mul_1_r. }
      rewrite Hv in H. apply H; try done.
      - by rewrite E.
      - by rewrite allChars_append, Hdig, zeros_digits.
      - rewrite E, append_cons. by apply leadingZero_first.
      - rewrite parseDigits_append, Hp, parse_zeros. rewrite Z2Nat.id by lia. done. }
    destruct (append_split (Z.to_nat (go_len digs + x)) digs ltac:(lia)) as (Hsp & Hl1 & Hl2).
    set (i := prefixString _ digs) in *. set (f := suffixString _ digs) in *.
    assert (allChars isDigit i = true /\ allChars isDigit f = true) as [Hdi Hdf].
    { rewrite <- Hsp, allChars_append in Hdig. by apply andb_prop in Hdig. }
    assert (f <> "") as Hf by (intros Hf; rewrite Hf in Hl2; cbn in Hl2; lia).
    assert (i <> "") as Hi by (intros Hi; rewrite Hi in Hl1; cbn in Hl1; lia).
    pose proof (ParseFloat_parts neg i f "" 0 D) as H. rewrite (nonempty_eqb _ Hf), append_nil_r in H.
    replace (0 - go_len f) with x in H by (unfold go_len in *; lia). apply H; try done.
    + destruct i as [|b i]; [done|]. rewrite append_cons in Hsp. rewrite E in Hsp. injection Hsp as -> _. by apply leadingZero_first.
    + by rewrite Hsp.
Qed.

Lemma trimZeros_value fuel D x :
  0 < D -> let '(D', x') := trimZeros fuel D x in 0 < D' /\ x <= x' /\ D = D' * 10 ^ (x' - x).
Proof.
  revert D x. induction fuel as [|fuel IH]; intros D x HD; cbn [trimZeros].
  { rewrite Z.sub_diag. lia. }
  destruct (Z.eqb_spec (D mod 10) 0) as [H0|_]; [|rewrite Z.sub_diag; lia].
  pose proof (Z.div_mod D 10 ltac:(lia)) as Hdm. specialize (IH (D / 10) (x + 1) ltac:(lia)).
  destruct (trimZeros fuel (D / 10) (x + 1)) as [D' x']. destruct IH as (H1 & H2 & H3). split_and!; [done|lia|].
  replace (x' - x) with (Z.succ (x' - (x + 1))) by lia. rewrite Z.pow_succ_r by lia. lia.
Qed.

(** A decimal equal to the value of a float64 denotes it. *)
Lemma decValue_exact neg m e D x :
  0 < D -> bounded 53 1024 m e = true ->
  (let '(M, x0) := exactDecimal (Zpos m) e in x0 <= x /\ M = D * 10 ^ (x - x0)) ->
  decValue neg D x = S754_finite neg m e.
Proof.
  intros HD Hb Hv. unfold decValue. rewrite (proj2 (Z.eqb_neq D 0)) by lia. unfold exactDecimal in Hv.
  destruct (Z.leb_spec 0 e) as [He|He]; destruct Hv as [Hx Hv].
  - rewrite Z.sub_0_r in Hv. rewrite (proj2 (Z.leb_le 0 x)) by lia.
    apply roundRatio_exact; [rewrite <- Hv; pose proof (Z.pow_pos_nonneg 2 e ltac:(lia) He); lia|lia|done|].
    rewrite Z.max_l, Z.max_r by lia. lia.
  - assert (forall k, 0 <= k -> 10 ^ k = 2 ^ k * 5 ^ k) as H10.
    { intros k Hk. rewrite <- Z.pow_mul_l. done. }
    pose proof (Z.pow_pos_nonneg 5 (- e) ltac:(lia) ltac:(lia)) as H5.
    destruct (Z.leb_spec 0 x) as [Hx0|Hx0].
    + apply roundRatio_exact; [pose proof (Z.pow_pos_nonneg 10 x ltac:(lia) Hx0); nia|lia|done|].
      rewrite Z.max_r, (Z.max_l 0 e), !Z.mul_1_r by lia. replace (x - e) with (x + - e) in Hv by lia.
      rewrite Z.pow_add_r, (H10 (- e)) in Hv by lia. apply (Z.mul_reg_r _ _ (5 ^ (- e))); [lia|]. rewrite Hv. ring.
    + apply roundRatio_exact; [done|apply Z.pow_pos_nonneg; lia|done|].
      rewrite Z.max_r, (Z.max_l 0 e), Z.mul_1_r by lia. apply (Z.mul_reg_r _ _ (5 ^ (- e))); [lia|].
      transitivity (D * 10 ^ (- e)); [rewrite (H10 (- e)) by lia; ring|].
      replace (- e) with (x - e + - x) at 1 by lia. rewrite Z.pow_add_r by lia. rewrite Z.mul_assoc, <- Hv. ring.
Qed.

Lemma exactText_value neg sci nd m e :
  bounded 53 1024 m e = true ->
  (let '(M, x) := exactDecimal (Zpos m) e in ParseFloat (trimmedText neg sci nd M x)) = Some (S754_finite neg m e).
Proof.
  intros Hb. destruct (exactDecimal (Zpos m) e) as [M x] eqn:E.
  assert (0 < M) as HM.
  { unfold exactDecimal in E. destruct (Z.leb_spec 0 e); injection E as <- _; apply Z.mul_pos_pos; try lia; apply Z.pow_pos_nonneg; lia. }
  unfold trimmedText. pose proof (trimZeros_value nd M x HM) as Ht. destruct (trimZeros nd M x) as [D' x'].
  destruct Ht as (HD & Hx & Hv). rewrite decText_value by done. rewrite (decValue_exact neg m e D' x'); [done|done|done|].
  by rewrite E.
Qed.

Lemma shortest_value f neg sci nd M x k :
  ParseFloat (trimmedText neg sci nd M x) = Some f -> ParseFloat (shortest f neg sci nd M x k) = Some f.
Proof.
  intros Hf. induction k as [|k IH]; [done|]. cbn [shortest]. cbv zeta.
  repeat case_bool_decide; cbn [andb]; try done. destruct (Z.compare _ _); [destruct (Z.even _)|..]; done.
Qed.

(** Printing a float64 and reading it back. *)
Lemma formatFloat_value f : validFloat f = true -> finite f = true -> ParseFloat (formatFloat f) = Some f.
Proof.
  destruct f as [[]| | |neg m e]; try done. intros Hv _. cbn [formatFloat].
  pose proof (exactText_value neg) as H. destruct (exactDecimal (Zpos m) e) as [M x] eqn:E.
  apply shortest_value. specialize (H (fltb (S754_finite false m e) (decValue false 1 (-6)) || fleb (decValue false 1 21) (S754_finite false m e))
    (String.length (pretty (Z.to_N M))) m e Hv). by rewrite E in H.
Qed.

Lemma parseDigits_nonneg s acc n : 0 <= acc -> parseDigits s acc = Some n -> 0 <= n.
Proof.
  revert acc. induction s as [|a s IH]; intros acc Ha; cbn [parseDigits]; [by intros [= <-]|].
  unfold digitVal. destruct (_ && _) eqn:E; [|done]. apply IH. lia.
Qed.

(** What is read is a finite value of the format. *)
Lemma ParseFloat_finite s f : ParseFloat s = Some f -> validFloat f = true /\ finite f = true.
Proof.
  unfold ParseFloat. destruct (scanNumber s) as [d|]; [|done]. cbn [mbind option_bind].
  destruct (parseDigits (dc_int d ^^ dc_frac d) 0) as [m|] eqn:Hm; [|done]. cbn [mbind option_bind]. set (f' := decValue _ _ _).
  destruct (isInf f') eqn:Hi; [done|]. intros [= <-].
  assert (0 <= m) as H0 by (eapply parseDigits_nonneg; [|exact Hm]; lia).
  assert (validFloat f' = true /\ isNaN f' = false) as [H1 H2].
  { unfold f', decValue. destruct (Z.eqb_spec m 0); [done|].
    destruct (Z.leb_spec 0 (dc_exp d - go_len (dc_frac d))) as [Hx|Hx].
    - pose proof (Z.pow_pos_nonneg 10 _ ltac:(lia) Hx). split; [apply roundRatio_valid|apply roundRatio_nan]; nia.
    - pose proof (Z.pow_pos_nonneg 10 (- (dc_exp d - go_len (dc_frac d))) ltac:(lia) ltac:(lia)).
      split; [apply roundRatio_valid|apply roundRatio_nan]; lia. }
  split; [done|]. unfold finite. by rewrite H2, Hi.
Qed.

(** The text of an integer of machine width. *)
Lemma ParseFloat_int z : - 2 ^ 64 < z < 2 ^ 64 -> exists f, ParseFloat (fmt_d z) = Some f.
Proof.
  intros Hz. destruct (Z.eq_dec z 0) as [->|Hne]; [by eexists|].
  set (neg := z <? 0). assert (0 < Z.abs z) as Hp by lia.
  assert (fmt_d z = (if neg then "-" else "") ^^ (pretty (Z.to_N (Z.abs z)) ^^ ((if "" =s "" then "" else "." ^^ "") ^^ ""))) as ->.
  { unfold neg. change (("" =s "")) with true. cbv iota. change ("" ^^ "") with "". rewrite append_nil_r.
    destruct z as [|p|p]; [done|done|]. done. }
  destruct (pretty_first (Z.abs z) Hp) as (a & t & E & Ha).
  rewrite (ParseFloat_parts neg _ "" "" 0 (Z.abs z)); try done.
  - change (0 - go_len "") with 0. unfold decValue, inRange. rewrite (proj2 (Z.eqb_neq (Z.abs z) 0)) by lia.
    change (0 <=? 0) with true. cbv iota. rewrite Z.mul_1_r, roundRatio_small by lia. by eexists.
  - by rewrite E.
  - apply pretty_digits.
  - rewrite E. by apply leadingZero_first.
  - rewrite append_nil_r, parse_pretty. f_equal. lia.
Qed.

Lemma scanNumber_format f : validFloat f = true -> finite f = true -> is_Some (scanNumber (formatFloat f)).
Proof.
  intros Hv Hf. pose proof (formatFloat_value f Hv Hf) as H. unfold ParseFloat in H. by destruct (scanNumber _).
Qed.
