(* ===== verification/GoJson.v ===== *)
(** JSON texts as encoding/json reads and writes them: the scanner with its
    nesting limit, string escapes with HTML escaping, the replacement of invalid
    UTF-8, and the compact printer.  A parsed text keeps the literal of every
    string and number, as the decoder does. *)
From Stdlib Require Import Strings.Byte Strings.Ascii.
From S2P Require Import Prelude GoStrings GoText GoFloat GoNumber.

Local Open Scope list_scope.
Open Scope Z_scope.

Notation "a =b b" := (Byte.eqb a b) (at level 70, no associativity) : go_scope.

(** ** Values *)

(** [JStr] and the keys of [JObj] hold the bytes between the quotes. *)
Inductive JSON :=
  | JNull
  | JBool (b : bool)
  | JNum (lit : string)
  | JStr (raw : list byte)
  | JArr (l : list JSON)
  | JObj (fields : list (list byte * JSON)).

Section JSON_ind'.
Context (P : JSON -> Prop) (Hnull : P JNull) (Hbool : forall b, P (JBool b)) (Hnum : forall s, P (JNum s))
        (Hstr : forall s, P (JStr s)) (Harr : forall l, Forall P l -> P (JArr l))
        (Hobj : forall fs, Forall (fun kv => P kv.2) fs -> P (JObj fs)).

Fixpoint JSON_ind' (v : JSON) : P v :=
  match v with
  | JNull => Hnull
  | JBool b => Hbool b
  | JNum s => Hnum s
  | JStr s => Hstr s
  | JArr l => Harr l ((fix go l := match l return Forall P l with
                                   | [] => List.Forall_nil P
                                   | v :: l => List.Forall_cons P v l (JSON_ind' v) (go l)
                                   end) l)
  | JObj fs => Hobj fs ((fix go fs := match fs return Forall (fun kv => P kv.2) fs with
                                      | [] => List.Forall_nil _
                                      | kv :: fs => List.Forall_cons _ kv fs (JSON_ind' kv.2) (go fs)
                                      end) fs)
  end.
End JSON_ind'.

(** ** Printing *)

Definition quoted (raw : list byte) : list byte := x22 :: raw ++ [x22].

Fixpoint joinBytes (sep : byte) (l : list (list byte)) : list byte :=
  match l with
  | [] => []
  | [x] => x
  | x :: l => x ++ sep :: joinBytes sep l
  end.

Fixpoint jsonText (v : JSON) : list byte :=
  match v with
  | JNull => bytes_of "null"
  | JBool b => bytes_of (if b then "true" else "false")
  | JNum lit => bytes_of lit
  | JStr raw => quoted raw
  | JArr l => x5b :: joinBytes x2c (map jsonText l) ++ [x5d]
  | JObj fs => x7b :: joinBytes x2c (map (fun kv => quoted kv.1 ++ x3a :: jsonText kv.2) fs) ++ [x7d]
  end.

(** ** Scanning *)

Definition isSpaceByte (b : byte) : bool := (b =b x20) || (b =b x09) || (b =b x0a) || (b =b x0d).

Fixpoint skipSpace (l : list byte) : list byte :=
  match l with b :: r => if isSpaceByte b then skipSpace r else l | [] => [] end.

Definition hexByte (b : byte) : option Z :=
  let n := bz b in
  if (48 <=? n) && (n <=? 57) then Some (n - 48)
  else if (97 <=? n) && (n <=? 102) then Some (n - 87)
  else if (65 <=? n) && (n <=? 70) then Some (n - 55)
  else None.

(** The value of four hexadecimal digits. *)
Definition getu4 (a b c d : byte) : option Z :=
  match hexByte a, hexByte b, hexByte c, hexByte d with
  | Some a, Some b, Some c, Some d => Some (((a * 16 + b) * 16 + c) * 16 + d)
  | _, _, _, _ => None
  end.

(** The byte that a one-letter escape stands for. *)
Definition simpleEscape (b : byte) : option byte :=
  if b =b x22 then Some x22 else if b =b x5c then Some x5c else if b =b x2f then Some x2f
  else if b =b x62 then Some x08 else if b =b x66 then Some x0c else if b =b x6e then Some x0a
  else if b =b x72 then Some x0d else if b =b x74 then Some x09 else None.

(** A string literal after its opening quote: the bytes up to the closing
    quote, and the rest. *)
Fixpoint scanString (l : list byte) : option (list byte * list byte) :=
  match l with
  | [] => None
  | c :: r =>
      if c =b x22 then Some ([], r)
      else if c =b x5c then
        match r with
        | [] => None
        | d :: r =>
            match simpleEscape d with
            | Some _ => (fun x => (c :: d :: x.1, x.2)) <$> scanString r
            | None =>
                if d =b x75 then
                  match r with
                  | h1 :: h2 :: h3 :: h4 :: r =>
                      match getu4 h1 h2 h3 h4 with
                      | Some _ => (fun x => (c :: d :: h1 :: h2 :: h3 :: h4 :: x.1, x.2)) <$> scanString r
                      | None => None
                      end
                  | _ => None
                  end
                else None
            end
        end
      else if bz c <? 32 then None
      else (fun x => (c :: x.1, x.2)) <$> scanString r
  end.

Definition numByte (b : byte) : bool :=
  let n := bz b in ((48 <=? n) && (n <=? 57)) || (b =b x2d) || (b =b x2b) || (b =b x2e) || (b =b x65) || (b =b x45).

Fixpoint spanNum (l : list byte) : list byte * list byte :=
  match l with
  | b :: r => if numByte b then let '(x, y) := spanNum r in (b :: x, y) else ([], l)
  | [] => ([], [])
  end.

(** A number: no valid number is followed by another byte of a number, so the
    longest run of such bytes is the literal. *)
Definition scanNum (l : list byte) : option (JSON * list byte) :=
  let '(lit, rest) := spanNum l in
  match scanNumber (string_of lit) with Some _ => Some (JNum (string_of lit), rest) | None => None end.

Fixpoint startsWith (p l : list byte) : option (list byte) :=
  match p, l with
  | [], _ => Some l
  | a :: p, b :: l => if a =b b then startsWith p l else None
  | _ :: _, [] => None
  end.

Definition expectByte (b : byte) (l : list byte) : option (list byte) :=
  match skipSpace l with c :: r => if c =b b then Some r else None | [] => None end.

(** [maxNestingDepth] *)
Definition maxNestingDepth : nat := Z.to_nat 10000.

(** [depth] is how many more arrays and objects may be opened. *)
Fixpoint pValue (fuel depth : nat) (l : list byte) : option (JSON * list byte) :=
  match fuel with
  | O => None
  | S fuel =>
      match skipSpace l with
      | [] => None
      | c :: r =>
          if c =b x22 then (fun x => (JStr x.1, x.2)) <$> scanString r
          else if c =b x5b then
            match depth with
            | O => None
            | S depth => match expectByte x5d r with
                         | Some r => Some (JArr [], r)
                         | None => (fun x => (JArr x.1, x.2)) <$> pElems fuel depth r
                         end
            end
          else if c =b x7b then
            match depth with
            | O => None
            | S depth => match expectByte x7d r with
                         | Some r => Some (JObj [], r)
                         | None => (fun x => (JObj x.1, x.2)) <$> pMembers fuel depth r
                         end
            end
          else if c =b x6e then (fun r => (JNull, r)) <$> startsWith (bytes_of "null") (c :: r)
          else if c =b x74 then (fun r => (JBool true, r)) <$> startsWith (bytes_of "true") (c :: r)
          else if c =b x66 then (fun r => (JBool false, r)) <$> startsWith (bytes_of "false") (c :: r)
          else scanNum (c :: r)
      end
  end
with pElems (fuel depth : nat) (l : list byte) : option (list JSON * list byte) :=
  match fuel with
  | O => None
  | S fuel =>
      let! r := pValue fuel depth l in
      let '(v, l) := r in
      match expectByte x2c l with
      | Some l => (fun x => (v :: x.1, x.2)) <$> pElems fuel depth l
      | None => (fun l => ([v], l)) <$> expectByte x5d l
      end
  end
with pMembers (fuel depth : nat) (l : list byte) : option (list (list byte * JSON) * list byte) :=
  match fuel with
  | O => None
  | S fuel =>
      let! l := expectByte x22 l in
      let! r := scanString l in
      let '(key, l) := r in
      let! l := expectByte x3a l in
      let! r := pValue fuel depth l in
      let '(v, l) := r in
      match expectByte x2c l with
      | Some l => (fun x => ((key, v) :: x.1, x.2)) <$> pMembers fuel depth l
      | None => (fun l => ([(key, v)], l)) <$> expectByte x7d l
      end
  end.

(** Every byte costs at most two calls ([jsonParse_fuel]). *)
Definition jsonParse (l : list byte) : option JSON :=
  match pValue (2 * length l + 2) maxNestingDepth l with
  | Some (v, r) => match skipSpace r with [] => Some v | _ => None end
  | None => None
  end.

(** [json.Unmarshal]'s check of a text, by example. *)
Example parse_ex :
  jsonText <$> jsonParse (bytes_of " { } ") = Some (bytes_of "{}") /\
  jsonText <$> jsonParse (bytes_of "[1, -0.5e3 ,true,[ ],null]") = Some (bytes_of "[1,-0.5e3,true,[],null]") /\
  map (fun s => match jsonParse (bytes_of s) with Some _ => true | None => false end) [""; "[1,]"; "01"; "tru"; "[1 2]"; "{}x"; "1-2"]
  = [false; false; false; false; false; false; false].
Proof. vm_compute. done. Qed.

(** ** Reading what was printed *)

(** A literal the scanner takes whole. *)
Definition rawString (raw : list byte) : Prop := forall rest, scanString (raw ++ x22 :: rest) = Some (raw, rest).

Inductive wfJSON : nat -> JSON -> Prop :=
  | wf_null d : wfJSON d JNull
  | wf_bool d b : wfJSON d (JBool b)
  | wf_num d lit : is_Some (scanNumber lit) -> wfJSON d (JNum lit)
  | wf_str d raw : rawString raw -> wfJSON d (JStr raw)
  | wf_arr d l : Forall (wfJSON d) l -> wfJSON (S d) (JArr l)
  | wf_obj d fs : Forall (fun kv => rawString kv.1 /\ wfJSON d kv.2) fs -> wfJSON (S d) (JObj fs).

(** The number of calls that parse a value. *)
Fixpoint jsize (v : JSON) : nat :=
  match v with
  | JArr l => S (sum_list_with (fun v => S (jsize v)) l)
  | JObj fs => S (sum_list_with (fun kv => S (jsize kv.2)) fs)
  | _ => 1
  end.

(** What can follow a value. *)
Definition delim (rest : list byte) : bool := match rest with b :: _ => negb (numByte b) | [] => true end.

Lemma byte_eqb_refl b : (b =b b) = true.
Proof. by apply Byte.byte_dec_lb. Qed.

Lemma bytes_of_cons a s : bytes_of (String a s) = Ascii.byte_of_ascii a :: bytes_of s.
Proof. done. Qed.

Lemma digit_numByte a : isDigit a = true -> numByte (Ascii.byte_of_ascii a) = true.
Proof. destruct a as [[] [] [] [] [] [] [] []]; done. Qed.

Lemma digits_numBytes s : allChars isDigit s = true -> forallb numByte (bytes_of s) = true.
Proof.
  induction s as [|a s IH]; [done|]. cbn [allChars]. intros [Ha Hs]%andb_prop. rewrite bytes_of_cons. cbn [forallb].
  by rewrite digit_numByte, IH.
Qed.

Lemma spanDigits_split s d r : spanDigits s = (d, r) -> s = (d ^^ r)%go /\ allChars isDigit d = true.
Proof.
  revert d r. induction s as [|a s IH]; intros d r; cbn [spanDigits]; [by intros [= <- <-]|].
  destruct (isDigit a) eqn:Ha; [|by intros [= <- <-]]. destruct (spanDigits s) as [d' r'].
  destruct (IH d' r' eq_refl) as [-> Hd]. intros [= <- <-]. rewrite append_cons. cbn [allChars]. by rewrite Ha.
Qed.

Lemma digits1_split s d r : digits1 s = Some (d, r) -> s = (d ^^ r)%go /\ allChars isDigit d = true /\ d <> ""%string.
Proof.
  unfold digits1. destruct (spanDigits s) as [d' r'] eqn:E. apply spanDigits_split in E as [Hs Hd].
  destruct d'; [done|]. intros [= <- <-]. by split_and!.
Qed.

Lemma numBytes_append s t : forallb numByte (bytes_of (s ^^ t)%go) = forallb numByte (bytes_of s) && forallb numByte (bytes_of t).
Proof. by rewrite bytes_of_append, forallb_app. Qed.

Lemma scanExponent_bytes s x : scanExponent s = Some x -> forallb numByte (bytes_of s) = true.
Proof.
  destruct s as [|a s]; [done|]. cbn [scanExponent]. destruct (isE a) eqn:Ha; [|done]. rewrite bytes_of_cons. cbn [forallb].
  assert (numByte (Ascii.byte_of_ascii a) = true) as ->.
  { revert Ha. unfold isE. destruct a as [[] [] [] [] [] [] [] []]; done. }
  assert (forall neg s', match digits1 s' with Some (ds, ""%string) => (fun n => if (neg : bool) then - n else n) <$> parseDigits ds 0 | _ => None end = Some x ->
    forallb numByte (bytes_of s') = true) as H.
  { intros neg s' H. destruct (digits1 s') as [[d r]|] eqn:E; [|done]. apply digits1_split in E as (-> & Hd & _).
    destruct r; [|done]. rewrite append_nil_r. by apply digits_numBytes. }
  destruct s as [|b s]; [by intros ?%(H false)|].
  destruct (Ascii.eqb_spec b "-"%char) as [->|_]; [intros Hx; rewrite bytes_of_cons; cbn [forallb]; by rewrite (H true s Hx)|].
  destruct (Ascii.eqb_spec b "+"%char) as [->|_]; [intros Hx; rewrite bytes_of_cons; cbn [forallb]; by rewrite (H false s Hx)|].
  apply (H false).
Qed.

(** A number has a first byte, a digit or a minus, and only bytes of numbers. *)
Lemma scanNumber_bytes s d :
  scanNumber s = Some d -> forallb numByte (bytes_of s) = true /\
  exists a r, s = String a r /\ (isDigit a = true \/ a = "-"%char).
Proof.
  unfold scanNumber.
  assert (forall neg s', (let! r := digits1 s' in let '(i, s) := r in
    if leadingZero i then None else let! r := scanFraction s in let '(f, s) := r in
    let! x := scanExponent s in Some {| dc_neg := neg; dc_int := i; dc_frac := f; dc_exp := x |}) = Some d ->
    forallb numByte (bytes_of s') = true /\ exists a r, s' = String a r /\ isDigit a = true) as H.
  { intros neg s' H. destruct (digits1 s') as [[i r]|] eqn:E; [|done]. apply digits1_split in E as (-> & Hi & Hne).
    cbn [mbind option_bind] in H. destruct (leadingZero i); [done|].
    destruct (scanFraction r) as [[f r']|] eqn:Ef; [|done]. cbn [mbind option_bind] in H.
    destruct (scanExponent r') as [x|] eqn:Ex; [|done]. apply scanExponent_bytes in Ex.
    assert (forallb numByte (bytes_of r) = true) as Hr.
    { unfold scanFraction in Ef. destruct r as [|a r]; [done|].
      destruct (Ascii.eqb_spec a "."%char) as [->|_]; [|by injection Ef as <- <-].
      apply digits1_split in Ef as (-> & Hf & _). rewrite bytes_of_cons. cbn [forallb].
      by rewrite numBytes_append, (digits_numBytes _ Hf), Ex. }
    rewrite numBytes_append, (digits_numBytes _ Hi), Hr. split; [done|].
    destruct i as [|a i]; [done|]. cbn [allChars] in Hi. apply andb_prop in Hi as [Ha _]. exists a, (i ^^ r)%go. by rewrite append_cons. }
  destruct s as [|a s]; [by intros [? (? & ? & ? & ?)]%(H false)|].
  destruct (Ascii.eqb_spec a "-"%char) as [->|_].
  - intros [Hs _]%(H true). rewrite bytes_of_cons. cbn [forallb]. rewrite Hs. split; [done|]. exists "-"%char, s. auto.
  - intros [Hs (b & r & E & Hb)]%(H false). split; [done|]. exists b, r. auto.
Qed.

Lemma spanNum_append l rest : forallb numByte l = true -> delim rest = true -> spanNum (l ++ rest) = (l, rest).
Proof.
  intros Hl Hr. induction l as [|b l IH].
  - destruct rest as [|b rest]; [done|]. cbn in Hr |- *. by destruct (numByte b).
  - cbn [forallb] in Hl. apply andb_prop in Hl as [Hb Hl]. cbn [app spanNum]. by rewrite Hb, (IH Hl).
Qed.

Lemma startsWith_append p rest : startsWith p (p ++ rest) = Some rest.
Proof. induction p as [|b p IH]; [done|]. cbn [app startsWith]. by rewrite byte_eqb_refl. Qed.

(** The first byte of a value: no space, no closing bracket. *)
Definition valueHead (b : byte) : Prop := isSpaceByte b = false /\ (b =b x5d) = false /\ (b =b x7d) = false.

Lemma text_head d v : wfJSON d v -> exists b r, jsonText v = b :: r /\ valueHead b.
Proof.
  intros Hwf. destruct v as [|[]|lit|raw|l|fs]; try (eexists _, _; split; [reflexivity|done]).
  inversion Hwf as [| |? ? [dec Hs]| | |]; subst. destruct (scanNumber_bytes _ _ Hs) as [_ (a & r & -> & Ha)].
  cbn [jsonText]. rewrite bytes_of_cons. eexists _, _. split; [reflexivity|].
  destruct Ha as [Ha| ->]; [|done]. revert Ha. unfold valueHead. destruct a as [[] [] [] [] [] [] [] []]; done.
Qed.

Lemma skip_head b r : isSpaceByte b = false -> skipSpace (b :: r) = b :: r.
Proof. intros Hb. cbn [skipSpace]. by rewrite Hb. Qed.

Lemma expect_head b r : isSpaceByte b = false -> expectByte b (b :: r) = Some r.
Proof. intros Hb. unfold expectByte. rewrite skip_head by done. by rewrite byte_eqb_refl. Qed.

Lemma expect_other c b r : isSpaceByte b = false -> (b =b c) = false -> expectByte c (b :: r) = None.
Proof. intros Hb Hc. unfold expectByte. rewrite skip_head by done. by rewrite Hc. Qed.

Lemma join_cons sep x l rest :
  joinBytes sep (x :: l) ++ rest = x ++ (match l with [] => rest | _ => sep :: joinBytes sep l ++ rest end).
Proof. destruct l; [done|]. change (joinBytes sep (x :: ?y :: ?z)) with (x ++ sep :: joinBytes sep (y :: z)). by rewrite <- app_assoc. Qed.

Definition parses (d : nat) (v : JSON) : Prop := forall fuel rest,
  (jsize v <= fuel)%nat -> delim rest = true -> pValue fuel d (jsonText v ++ rest) = Some (v, rest).

Lemma elems_parse d l rest fuel :
  l <> [] -> Forall (parses d) l -> (sum_list_with (fun v => S (jsize v)) l <= fuel)%nat ->
  pElems fuel d (joinBytes x2c (map jsonText l) ++ x5d :: rest) = Some (l, rest).
Proof.
  intros Hne H. revert fuel Hne. induction H as [|v l Hv Hl IH]; intros fuel Hne Hf; [done|].
  cbn [sum_list_with] in Hf. destruct fuel as [|fuel]; [lia|]. cbn [map pElems]. rewrite join_cons.
  destruct l as [|v' l].
  - cbn [map]. rewrite Hv by (done || lia). cbn [mbind option_bind]. rewrite expect_other by done. by rewrite expect_head.
  - cbn [map]. rewrite Hv by (done || lia). cbn [mbind option_bind]. rewrite expect_head by done.
    change (jsonText v' :: map jsonText l) with (map jsonText (v' :: l)). rewrite IH by (done || lia). done.
Qed.

Lemma members_parse d fs rest fuel :
  fs <> [] -> Forall (fun kv => rawString kv.1 /\ parses d kv.2) fs -> (sum_list_with (fun kv => S (jsize kv.2)) fs <= fuel)%nat ->
  pMembers fuel d (joinBytes x2c (map (fun kv => quoted kv.1 ++ x3a :: jsonText kv.2) fs) ++ x7d :: rest) = Some (fs, rest).
Proof.
  intros Hne H. revert fuel Hne. induction H as [|[k v] fs [Hk Hv] Hl IH]; intros fuel Hne Hf; [done|].
  cbn [sum_list_with fst snd] in *. destruct fuel as [|fuel]; [lia|]. cbn [map pMembers fst snd]. rewrite join_cons.
  unfold quoted at 1. cbn [app]. rewrite expect_head by done. cbn [mbind option_bind].
  rewrite <- !app_assoc. cbn [app]. rewrite Hk. cbn [mbind option_bind]. rewrite expect_head by done. cbn [mbind option_bind].
  destruct fs as [|kv fs].
  - cbn [map]. rewrite Hv by (done || lia). cbn [mbind option_bind]. rewrite expect_other by done. by rewrite expect_head.
  - cbn [map]. rewrite Hv by (done || lia). cbn [mbind option_bind]. rewrite expect_head by done.
    match goal with |- context [joinBytes x2c (?a :: map ?f fs)] => change (a :: map f fs) with (map f (kv :: fs)) end.
    rewrite IH by (done || lia). done.
Qed.

Lemma value_parses v : forall d, wfJSON d v -> parses d v.
Proof.
  induction v as [|b|lit|raw|l IH|fs IH] using JSON_ind'; intros d Hwf fuel rest Hf Hr;
    (destruct fuel as [|fuel]; [cbn [jsize] in Hf; lia|]).
  - done.
  - by destruct b.
  - inversion Hwf as [| |? ? Hs| | |]; subst. destruct Hs as [dec Hs]. destruct (scanNumber_bytes _ _ Hs) as [Hb (a & r & -> & Ha)].
    cbn [jsonText pValue]. pose proof (spanNum_append _ _ Hb Hr) as Hspan. rewrite bytes_of_cons in *. cbn [app] in *.
    assert (scanNum (Ascii.byte_of_ascii a :: bytes_of r ++ rest) = Some (JNum (String a r), rest)) as Hscan.
    { unfold scanNum. rewrite Hspan, <- bytes_of_cons, string_of_bytes_of. by rewrite Hs. }
    destruct Ha as [Ha| ->]; [|exact Hscan].
    revert Hscan. generalize (bytes_of r ++ rest). intros l'.
    destruct a as [[] [] [] [] [] [] [] []]; try discriminate; intros <-; done.
  - inversion Hwf; subst. cbn [jsonText pValue]. unfold quoted. cbn [app]. rewrite skip_head by done.
    change (x22 =b x22) with true. cbv iota. rewrite <- app_assoc. cbn [app].
    match goal with H : rawString raw |- _ => by rewrite H end.
  - inversion Hwf; subst. match goal with H : Forall (wfJSON _) l |- _ => rename H into Hl end.
    cbn [jsonText pValue]. cbn [app]. rewrite skip_head by done. change (x5b =b x22) with false. change (x5b =b x5b) with true. cbv iota.
    rewrite <- app_assoc. cbn [app]. cbn [jsize] in Hf. destruct l as [|v l]; [cbn [map joinBytes app]; by rewrite expect_head|].
    assert (exists b r, joinBytes x2c (map jsonText (v :: l)) ++ x5d :: rest = b :: r /\ valueHead b) as (b & r & E & Hb).
    { apply Forall_cons in Hl as [Hv _]. destruct (text_head _ _ Hv) as (b & r & E & Hb).
      cbn [map]. rewrite join_cons, E. by eexists _, _. }
    rewrite E. destruct Hb as (Hb1 & Hb2 & Hb3). rewrite expect_other by done. rewrite <- E.
    rewrite elems_parse; [done|done| |lia]. eapply Forall_impl; [apply Forall_and; split; [exact IH|exact Hl]|]. cbn. intros x [Hx1 Hx2]. by apply Hx1.
  - inversion Hwf; subst. match goal with H : Forall _ fs |- _ => idtac end.
    match goal with H : Forall (fun kv => rawString kv.1 /\ wfJSON _ kv.2) fs |- _ => rename H into Hl end.
    cbn [jsonText pValue]. cbn [app]. rewrite skip_head by done. change (x7b =b x22) with false. change (x7b =b x5b) with false.
    change (x7b =b x7b) with true. cbv iota. rewrite <- app_assoc. cbn [app]. cbn [jsize] in Hf.
    destruct fs as [|kv fs]; [cbn [map joinBytes app]; by rewrite expect_head|].
    match goal with |- context [expectByte x7d ?t] => assert (exists r, t = x22 :: r) as [r E] end.
    { cbn [map]. rewrite join_cons. by eexists. }
    rewrite E. rewrite expect_other by done. rewrite <- E.
    rewrite members_parse; [done|done| |lia]. eapply Forall_impl; [apply Forall_and; split; [exact IH|exact Hl]|]. cbn. intros x [Hx1 [Hx2 Hx3]]. split; [done|]. by apply Hx1.
Qed.

Lemma join_length (l : list (list byte)) :
  length (joinBytes x2c l) = (sum_list_with (@length byte) l + (length l - 1))%nat.
Proof.
  induction l as [|x [|y l] IH]; [done|cbn; lia|].
  change (joinBytes x2c (x :: y :: l)) with (x ++ x2c :: joinBytes x2c (y :: l)). rewrite length_app. cbn [length] in *.
  rewrite IH. cbn [sum_list_with length]. lia.
Qed.

Lemma sum_bound {A} (f g : A -> nat) l :
  Forall (fun x => (f x <= 2 * g x)%nat) l -> (sum_list_with (fun x => S (f x)) l <= 2 * sum_list_with g l + length l)%nat.
Proof. induction 1 as [|x l Hx _ IH]; cbn [sum_list_with length]; lia. Qed.

Lemma sum_map {A} (f : A -> list byte) l : sum_list_with (@length byte) (map f l) = sum_list_with (fun x => length (f x)) l.
Proof. induction l as [|x l IH]; cbn [map sum_list_with]; [done|]. by rewrite IH. Qed.

(** The fuel of [jsonParse] is enough. *)
Lemma jsize_length d v : wfJSON d v -> (jsize v <= 2 * length (jsonText v))%nat.
Proof.
  revert d. induction v as [|[]|lit|raw|l IH|fs IH] using JSON_ind'; intros d Hwf; try (cbn; lia).
  - destruct (text_head d _ Hwf) as (b & r & -> & _). cbn. lia.
  - inversion Hwf; subst. cbn [jsize jsonText length]. rewrite length_app, join_length, sum_map, length_map. cbn [length].
    pose proof (sum_bound jsize (fun v => length (jsonText v)) l) as H. cbv beta in H.
    enough (Forall (fun v => (jsize v <= 2 * length (jsonText v))%nat) l) as HF by (specialize (H HF); destruct l; cbn [length] in *; lia).
    eapply Forall_impl; [apply Forall_and; split; [exact IH|eassumption]|]. cbn. intros x [Hx1 Hx2]. by eapply Hx1.
  - inversion Hwf; subst. cbn [jsize jsonText length]. rewrite length_app, join_length, sum_map, length_map. cbn [length].
    pose proof (sum_bound (fun kv : list byte * JSON => jsize kv.2) (fun kv => length (quoted kv.1 ++ x3a :: jsonText kv.2)) fs) as H. cbv beta in H.
    enough (Forall (fun kv : list byte * JSON => (jsize kv.2 <= 2 * length (quoted kv.1 ++ x3a :: jsonText kv.2))%nat) fs) as HF
      by (specialize (H HF); destruct fs; cbn [length] in *; lia).
    eapply Forall_impl; [apply Forall_and; split; [exact IH|eassumption]|]. cbn. intros x [Hx1 [_ Hx2]].
    rewrite length_app. cbn [length]. pose proof (Hx1 _ Hx2). lia.
Qed.

(** Parsing inverts printing. *)
Lemma jsonParse_text v : wfJSON maxNestingDepth v -> jsonParse (jsonText v) = Some v.
Proof.
  intros Hwf. unfold jsonParse. pose proof (value_parses v _ Hwf (2 * length (jsonText v) + 2)%nat [] ) as H.
  rewrite app_nil_r in H. by rewrite H by (done || (pose proof (jsize_length _ _ Hwf); lia)).
Qed.

(** *** What is parsed is well formed *)
Lemma scanString_raw l raw r : scanString l = Some (raw, r) -> rawString raw.
Proof.
  remember (length l) as n eqn:Hn. revert l raw r Hn. induction n as [n IH] using lt_wf_ind. intros l raw r -> H.
  destruct l as [|c l]; [done|]. cbn [scanString] in H.
  destruct (c =b x22) eqn:E1; [by injection H as <- <-|]. destruct (c =b x5c) eqn:E2.
  - apply Byte.byte_dec_bl in E2 as ->. destruct l as [|d l]; [done|]. destruct (simpleEscape d) eqn:Ed.
    + destruct (scanString l) as [[x y]|] eqn:Hx; [|done]. injection H as <- <-.
      pose proof (IH (length l) ltac:(cbn; lia) l x y eq_refl Hx) as Hr. intros rest. cbn [app scanString fst]. change (x5c =b x22) with false. change (x5c =b x5c) with true.
      cbv iota. by rewrite Ed, Hr.
    + destruct (d =b x75) eqn:Eu; [|done]. destruct l as [|h1 [|h2 [|h3 [|h4 l]]]]; try done.
      destruct (getu4 h1 h2 h3 h4) eqn:Eg; [|done]. destruct (scanString l) as [[x y]|] eqn:Hx; [|done]. injection H as <- <-.
      pose proof (IH (length l) ltac:(cbn; lia) l x y eq_refl Hx) as Hr. intros rest. cbn [app scanString fst]. change (x5c =b x22) with false. change (x5c =b x5c) with true.
      cbv iota. by rewrite Ed, Eu, Eg, Hr.
  - destruct (bz c <? 32) eqn:E3; [done|]. destruct (scanString l) as [[x y]|] eqn:Hx; [|done]. injection H as <- <-.
    pose proof (IH (length l) ltac:(cbn; lia) l x y eq_refl Hx) as Hr. intros rest. cbn [app scanString fst]. by rewrite E1, E2, E3, Hr.
Qed.

Lemma parse_wf fuel :
  (forall d l v r, pValue fuel d l = Some (v, r) -> wfJSON d v) /\
  (forall d l vs r, pElems fuel d l = Some (vs, r) -> Forall (wfJSON d) vs) /\
  (forall d l fs r, pMembers fuel d l = Some (fs, r) -> Forall (fun kv => rawString kv.1 /\ wfJSON d kv.2) fs).
Proof.
  induction fuel as [|fuel (IHv & IHe & IHm)]; [done|]. split_and!; intros d l; cbn [pValue pElems pMembers].
  - intros v r H. destruct (skipSpace l) as [|c l']; [done|]. destruct (c =b x22).
    { destruct (scanString l') as [[raw y]|] eqn:E; [|done]. injection H as <- <-. constructor. by eapply scanString_raw. }
    destruct (c =b x5b).
    { destruct d as [|d]; [done|]. destruct (expectByte x5d l'); [injection H as <- <-; by do 2 constructor|].
      destruct (pElems fuel d l') as [[x y]|] eqn:E; [|done]. injection H as <- <-. constructor. by eapply IHe. }
    destruct (c =b x7b).
    { destruct d as [|d]; [done|]. destruct (expectByte x7d l'); [injection H as <- <-; by do 2 constructor|].
      destruct (pMembers fuel d l') as [[x y]|] eqn:E; [|done]. injection H as <- <-. constructor. by eapply IHm. }
    destruct (c =b x6e); [destruct (startsWith _ _); [|done]; injection H as <- <-; constructor|].
    destruct (c =b x74); [destruct (startsWith _ _); [|done]; injection H as <- <-; constructor|].
    destruct (c =b x66); [destruct (startsWith _ _); [|done]; injection H as <- <-; constructor|].
    unfold scanNum in H. destruct (spanNum _) as [lit rest]. destruct (scanNumber (string_of lit)) eqn:E; [|done].
    injection H as <- <-. constructor. by rewrite E.
  - intros vs r H. destruct (pValue fuel d l) as [[v l1]|] eqn:Ev; [|done]. cbn [mbind option_bind] in H. apply IHv in Ev.
    destruct (expectByte x2c l1) as [l2|].
    + destruct (pElems fuel d l2) as [[x y]|] eqn:E; [|done]. injection H as <- <-. constructor; [done|by eapply IHe].
    + destruct (expectByte x5d l1); [|done]. injection H as <- <-. by repeat constructor.
  - intros fs r H. destruct (expectByte x22 l) as [l1|]; [|done]. cbn [mbind option_bind] in H.
    destruct (scanString l1) as [[key l2]|] eqn:Ek; [|done]. cbn [mbind option_bind] in H. apply scanString_raw in Ek.
    destruct (expectByte x3a l2) as [l3|]; [|done]. cbn [mbind option_bind] in H.
    destruct (pValue fuel d l3) as [[v l4]|] eqn:Ev; [|done]. cbn [mbind option_bind] in H. apply IHv in Ev.
    destruct (expectByte x2c l4) as [l5|].
    + destruct (pMembers fuel d l5) as [[x y]|] eqn:E; [|done]. injection H as <- <-. constructor; [done|by eapply IHm].
    + destruct (expectByte x7d l4); [|done]. injection H as <- <-. by repeat constructor.
Qed.

Lemma jsonParse_wf l v : jsonParse l = Some v -> wfJSON maxNestingDepth v.
Proof.
  unfold jsonParse. destruct (pValue _ _ l) as [[v' r]|] eqn:E; [|done]. destruct (skipSpace r); [|done].
  intros [= <-]. by eapply parse_wf.
Qed.

(** ** String literals *)

Definition runeError : list byte := [xef; xbf; xbd].

Definition hexNibble (z : Z) : byte := zb (if z <? 10 then 48 + z else 87 + z).

(** The bytes that need no escape with [escapeHTML]. *)
Definition htmlSafe (b : byte) : bool :=
  (32 <=? bz b) && (bz b <? 128) && negb ((b =b x22) || (b =b x26) || (b =b x3c) || (b =b x3e) || (b =b x5c)).

Definition escapeByte (b : byte) : list byte :=
  if (b =b x22) || (b =b x5c) then [x5c; b]
  else if b =b x08 then [x5c; x62] else if b =b x0c then [x5c; x66] else if b =b x0a then [x5c; x6e]
  else if b =b x0d then [x5c; x72] else if b =b x09 then [x5c; x74]
  else [x5c; x75; x30; x30; hexNibble (bz b / 16); hexNibble (bz b mod 16)].

(** U+2028 and U+2029, by the last digit of the code point. *)
Definition lineSeparator (c : byte) (rest : list byte) : option byte :=
  match rest with
  | d :: e :: _ => if (c =b xe2) && (d =b x80) then
                     if e =b xa8 then Some x38 else if e =b xa9 then Some x39 else None
                   else None
  | _ => None
  end.

(** [appendString]: [skip] bytes belong to the rune before, and are copied or
    were replaced. *)
Fixpoint escapeFrom (skip : nat) (copy : bool) (l : list byte) : list byte :=
  match l with
  | [] => []
  | c :: rest =>
      match skip with
      | S k => (if copy then [c] else []) ++ escapeFrom k copy rest
      | O =>
          if bz c <? 128 then (if htmlSafe c then [c] else escapeByte c) ++ escapeFrom 0 true rest
          else match runeSize c rest, lineSeparator c rest with
          | 1%nat, _ => bytes_of "\ufffd" ++ escapeFrom 0 true rest
          | _, Some digit => bytes_of "\u202" ++ digit :: escapeFrom 2 false rest
          | n, None => c :: escapeFrom (n - 1) true rest
          end
      end
  end.

(** [utf8.EncodeRune] of a code point that is no surrogate. *)
Definition encodeRune (r : Z) : list byte :=
  if r <? 128 then [zb r]
  else if r <? 2048 then [zb (192 + r / 64); zb (128 + r mod 64)]
  else if r <? 65536 then [zb (224 + r / 4096); zb (128 + r / 64 mod 64); zb (128 + r mod 64)]
  else [zb (240 + r / 262144); zb (128 + r / 4096 mod 64); zb (128 + r / 64 mod 64); zb (128 + r mod 64)].

Definition isHigh (r : Z) : bool := (55296 <=? r) && (r <? 56320).
Definition isLow (r : Z) : bool := (56320 <=? r) && (r <? 57344).

(** What a [\u] escape denotes, and how many bytes it takes: a surrogate pair
    takes both escapes, a lone surrogate is an error rune. *)
Definition unicodeEscape (r : Z) (rest : list byte) : list byte * nat :=
  if isHigh r || isLow r then
    match rest with
    | b :: u :: g1 :: g2 :: g3 :: g4 :: _ =>
        match getu4 g1 g2 g3 g4 with
        | Some r1 => if (b =b x5c) && (u =b x75) && isHigh r && isLow r1
                     then (encodeRune ((r - 55296) * 1024 + (r1 - 56320) + 65536), 11%nat)
                     else (runeError, 5%nat)
        | None => (runeError, 5%nat)
        end
    | _ => (runeError, 5%nat)
    end
  else (encodeRune r, 5%nat).

(** [unquoteBytes]; [None] does not arise on a scanned literal. *)
Fixpoint unquoteFrom (skip : nat) (copy : bool) (l : list byte) : option (list byte) :=
  match l with
  | [] => Some []
  | c :: rest =>
      match skip with
      | S k => (fun t => (if copy then [c] else []) ++ t) <$> unquoteFrom k copy rest
      | O =>
          if c =b x5c then
            match rest with
            | [] => None
            | d :: rest2 =>
                match simpleEscape d with
                | Some b => cons b <$> unquoteFrom 1 false rest
                | None =>
                    if d =b x75 then
                      match rest2 with
                      | h1 :: h2 :: h3 :: h4 :: rest3 =>
                          match getu4 h1 h2 h3 h4 with
                          | Some r => let '(bs, n) := unicodeEscape r rest3 in app bs <$> unquoteFrom n false rest
                          | None => None
                          end
                      | _ => None
                      end
                    else None
                end
            end
          else if (c =b x22) || (bz c <? 32) then None
          else if bz c <? 128 then cons c <$> unquoteFrom 0 true rest
          else match runeSize c rest with
          | 1%nat => app runeError <$> unquoteFrom 0 true rest
          | n => cons c <$> unquoteFrom (n - 1) true rest
          end
      end
  end.

(** Invalid UTF-8 replaced, byte by byte. *)
Fixpoint sanitizeFrom (skip : nat) (l : list byte) : list byte :=
  match l with
  | [] => []
  | c :: rest =>
      match skip with
      | S k => c :: sanitizeFrom k rest
      | O => if bz c <? 128 then c :: sanitizeFrom 0 rest
             else match runeSize c rest with
             | 1%nat => runeError ++ sanitizeFrom 0 rest
             | n => c :: sanitizeFrom (n - 1) rest
             end
      end
  end.

Definition encodeString (s : string) : list byte := escapeFrom 0 true (bytes_of s).
Definition unquote (raw : list byte) : option string := string_of <$> unquoteFrom 0 true raw.
Definition sanitize (s : string) : string := string_of (sanitizeFrom 0 (bytes_of s)).

Example string_ex :
  unquote (bytes_of "a\u0041\n\ud83d\ude00\ud83dx\/") = Some (string_of (bytes_of "aA" ++ [x0a; xf0; x9f; x98; x80] ++ runeError ++ bytes_of "x/")) /\
  encodeString (string_of [x3c; x22; x01; xe2; x80; xa8; xff]) = bytes_of "\u003c\" ++ [x22] ++ bytes_of "\u0001\u2028\ufffd".
Proof. vm_compute. done. Qed.

(** *** Lemmas *)
Lemma escape_skip k copy l : escapeFrom k copy l = (if copy then take k l else []) ++ escapeFrom 0 true (drop k l).
Proof.
  revert l. induction k as [|k IH]; intros [|c l]; try by destruct copy.
  cbn [escapeFrom take drop]. rewrite IH. by destruct copy.
Qed.

Lemma unquote_skip k copy l :
  unquoteFrom k copy l = app (if copy then take k l else []) <$> unquoteFrom 0 true (drop k l).
Proof.
  revert l. induction k as [|k IH]; intros [|c l].
  - by destruct copy.
  - destruct copy; change (take 0 (c :: l)) with (@nil byte); change (drop 0 (c :: l)) with (c :: l);
      cbn [unquoteFrom]; by destruct (if c =b x5c then _ else _).
  - by destruct copy.
  - cbn [unquoteFrom take drop]. rewrite IH. destruct (unquoteFrom 0 true (drop k l)); [|done]. by destruct copy.
Qed.

Lemma sanitize_skip k l : sanitizeFrom k l = take k l ++ sanitizeFrom 0 (drop k l).
Proof. revert l. induction k as [|k IH]; intros [|c l]; try done. cbn [sanitizeFrom take drop app]. by rewrite IH. Qed.

(** A rune of several bytes: it depends on these bytes only, none is ASCII, and
    there are that many. *)
Lemma runeSize_take c rest :
  runeSize c rest <> 1%nat ->
  let n := runeSize c rest in
  (forall more, runeSize c (take (n - 1) rest ++ more) = n) /\ Forall (fun b => 128 <= bz b) (take (n - 1) rest) /\
  (2 <= n)%nat /\ length (take (n - 1) rest) = (n - 1)%nat.
Proof.
  intros Hn n. revert Hn. subst n. unfold runeSize, utf8_cont. destruct (Z.ltb_spec (bz c) 128); [done|].
  destruct (utf8_first (bz c)) as [[[size lo] hi]|] eqn:Hf; [|done].
  assert (128 <= lo) as Hlo.
  { revert Hf. unfold utf8_first. repeat case_match; intros [= <- <- <-] || intros; try done; lia. }
  destruct size as [|[|[|[|[|size]]]]]; try done.
  - destruct rest as [|b1 rest]; [done|]. destruct (_ && _) eqn:E1; [|done]. intros _. cbn. rewrite take_0. cbn. rewrite E1.
    split_and!; [done| |lia|done]. repeat constructor. lia.
  - destruct rest as [|b1 [|b2 rest]]; [done..|]. destruct (_ && _ && _) eqn:E1; [|done]. intros _. cbn. rewrite take_0. cbn. rewrite E1.
    split_and!; [done| |lia|done]. repeat constructor; lia.
  - destruct rest as [|b1 [|b2 [|b3 rest]]]; [done..|]. destruct (_ && _ && _ && _) eqn:E1; [|done]. intros _. cbn. rewrite take_0. cbn. rewrite E1.
    split_and!; [done| |lia|done]. repeat constructor; lia.
Qed.

(** A list of bytes, by runes. *)
Lemma rune_ind (P : list byte -> Prop) :
  P [] ->
  (forall c rest, bz c < 128 -> P rest -> P (c :: rest)) ->
  (forall c rest, 128 <= bz c -> runeSize c rest = 1%nat -> P rest -> P (c :: rest)) ->
  (forall c r rest, 128 <= bz c -> (1 <= length r)%nat -> runeSize c (r ++ rest) = S (length r) ->
     (forall more, runeSize c (r ++ more) = S (length r)) -> Forall (fun b => 128 <= bz b) r -> P rest -> P (c :: r ++ rest)) ->
  forall l, P l.
Proof.
  intros Hnil Hascii Hbad Hrune l. remember (length l) as n eqn:Hn. revert l Hn.
  induction n as [n IH] using lt_wf_ind. intros [|c rest] ->; [done|].
  destruct (Z.lt_ge_cases (bz c) 128); [apply Hascii; [done|]; apply (IH (length rest)); [cbn; lia|done]|].
  destruct (decide (runeSize c rest = 1%nat)) as [H1|H1]; [apply Hbad; [done|done|]; apply (IH (length rest)); [cbn; lia|done]|].
  destruct (runeSize_take c rest H1) as (Hm & Hf & H2 & Hl). set (n := runeSize c rest) in *.
  rewrite <- (take_drop (n - 1) rest). apply Hrune; try done; [lia| | |].
  - rewrite Hl. rewrite Hm. lia.
  - intros more. rewrite Hm. lia.
  - apply (IH (length (drop (n - 1) rest))); [rewrite length_drop; cbn; lia|done].
Qed.

Lemma drop_rune {A} (r rest : list A) n : n = S (length r) -> drop (n - 1) (r ++ rest) = rest /\ take (n - 1) (r ++ rest) = r.
Proof. intros ->. replace (S (length r) - 1)%nat with (length r) by lia. by rewrite drop_app_length, take_app_length. Qed.

(** The three functions, rune by rune. *)
Lemma sanitize_rune c r rest :
  128 <= bz c -> (1 <= length r)%nat -> runeSize c (r ++ rest) = S (length r) ->
  sanitizeFrom 0 (c :: r ++ rest) = c :: r ++ sanitizeFrom 0 rest.
Proof.
  intros Hc Hr Hn. cbn [sanitizeFrom]. rewrite (proj2 (Z.ltb_ge _ _) Hc), Hn.
  destruct (drop_rune r rest _ Hn) as [Hd Ht]. rewrite Hn in Hd, Ht.
  destruct r as [|b r]; [cbn in Hr; lia|]. cbn [length] in *. rewrite sanitize_skip, Hd, Ht. done.
Qed.

Lemma unquote_rune c r rest :
  128 <= bz c -> (1 <= length r)%nat -> runeSize c (r ++ rest) = S (length r) ->
  unquoteFrom 0 true (c :: r ++ rest) = app (c :: r) <$> unquoteFrom 0 true rest.
Proof.
  intros Hc Hr Hn. cbn [unquoteFrom].
  destruct (c =b x5c) eqn:E1; [apply Byte.byte_dec_bl in E1 as ->; by vm_compute in Hc|].
  destruct (c =b x22) eqn:E2; [apply Byte.byte_dec_bl in E2 as ->; by vm_compute in Hc|].
  rewrite (proj2 (Z.ltb_ge _ 32)), (proj2 (Z.ltb_ge _ _) Hc), Hn by lia. cbn [orb].
  destruct (drop_rune r rest _ Hn) as [Hd Ht]. rewrite Hn in Hd, Ht.
  destruct r as [|b r]; [cbn in Hr; lia|]. cbn [length] in *. rewrite unquote_skip, Hd, Ht. by destruct (unquoteFrom 0 true rest).
Qed.

Lemma unquote_simple d b rest :
  simpleEscape d = Some b -> unquoteFrom 0 true (x5c :: d :: rest) = cons b <$> unquoteFrom 0 true rest.
Proof.
  intros Hd. cbn [unquoteFrom]. change (x5c =b x5c) with true. cbv iota. rewrite Hd.
  rewrite unquote_skip, drop_0. by destruct (unquoteFrom 0 true rest).
Qed.

Lemma unquote_u h1 h2 h3 h4 r rest :
  getu4 h1 h2 h3 h4 = Some r -> isHigh r || isLow r = false ->
  unquoteFrom 0 true (x5c :: x75 :: h1 :: h2 :: h3 :: h4 :: rest) = app (encodeRune r) <$> unquoteFrom 0 true rest.
Proof.
  intros Hg Hs. cbn [unquoteFrom]. change (x5c =b x5c) with true. change (simpleEscape x75) with (@None byte).
  change (x75 =b x75) with true. cbv iota. rewrite Hg. unfold unicodeEscape. rewrite Hs. cbv iota. rewrite unquote_skip, drop_0. by destruct (unquoteFrom 0 true rest).
Qed.

Lemma scan_simple d b rest : simpleEscape d = Some b -> rawString rest -> rawString (x5c :: d :: rest).
Proof.
  intros Hd Hr more. cbn [app scanString]. change (x5c =b x22) with false. change (x5c =b x5c) with true. cbv iota. by rewrite Hd, Hr.
Qed.

Lemma scan_u h1 h2 h3 h4 r rest :
  getu4 h1 h2 h3 h4 = Some r -> rawString rest -> rawString (x5c :: x75 :: h1 :: h2 :: h3 :: h4 :: rest).
Proof.
  intros Hg Hr more. cbn [app scanString]. change (x5c =b x22) with false. change (x5c =b x5c) with true.
  change (simpleEscape x75) with (@None byte). change (x75 =b x75) with true. cbv iota. by rewrite Hg, Hr.
Qed.

Lemma scan_plain c rest : bz c <? 32 = false -> (c =b x22) = false -> (c =b x5c) = false -> rawString rest -> rawString (c :: rest).
Proof. intros H1 H2 H3 Hr more. cbn [app scanString]. by rewrite H2, H3, H1, Hr. Qed.

(** An escape is a letter, or four digits. *)
Lemma escape_table c :
  bz c < 128 -> htmlSafe c = false ->
  (exists d, escapeByte c = [x5c; d] /\ simpleEscape d = Some c) \/
  (exists h1 h2 h3 h4 r, escapeByte c = [x5c; x75; h1; h2; h3; h4] /\ getu4 h1 h2 h3 h4 = Some r /\
     isHigh r || isLow r = false /\ encodeRune r = [c]).
Proof.
  intros Hc Hs. destruct c; try (vm_compute in Hs; discriminate); try (vm_compute in Hc; discriminate);
    first [left; eexists; split; [vm_compute; reflexivity|vm_compute; reflexivity]
          |right; do 5 eexists; split_and!; [vm_compute; reflexivity|vm_compute; reflexivity|vm_compute; reflexivity|vm_compute; reflexivity]].
Qed.

Lemma escapeByte_spec c rest :
  bz c < 128 -> htmlSafe c = false ->
  unquoteFrom 0 true (escapeByte c ++ rest) = cons c <$> unquoteFrom 0 true rest /\
  (rawString rest -> rawString (escapeByte c ++ rest)).
Proof.
  intros Hc Hs. destruct (escape_table c Hc Hs) as [(d & -> & Hd)|(h1 & h2 & h3 & h4 & r & -> & Hg & Hu & He)].
  - split; [by apply unquote_simple|by apply (scan_simple _ c)].
  - split; [by cbn [app]; rewrite (unquote_u _ _ _ _ r) by done; rewrite He|by apply (scan_u _ _ _ _ r)].
Qed.

(** The separators are runes of three bytes. *)
Lemma lineSeparator_spec c r rest digit :
  runeSize c (r ++ rest) = S (length r) -> lineSeparator c (r ++ rest) = Some digit ->
  exists x, getu4 x32 x30 x32 digit = Some x /\ encodeRune x = c :: r /\ isHigh x || isLow x = false /\ length r = 2%nat.
Proof.
  unfold lineSeparator. destruct (r ++ rest) as [|d [|e l]] eqn:E; try done.
  destruct (c =b xe2) eqn:Ec; [|done]. destruct (d =b x80) eqn:Ed; [|done]. cbn [andb].
  apply Byte.byte_dec_bl in Ec as ->. apply Byte.byte_dec_bl in Ed as ->.
  destruct (e =b xa8) eqn:Ee; [|destruct (e =b xa9) eqn:Ee2; [|done]]; (apply Byte.byte_dec_bl in Ee as -> || apply Byte.byte_dec_bl in Ee2 as ->);
    intros Hn [= <-]; change (runeSize xe2 _) with 3%nat in Hn; destruct r as [|r1 [|r2 [|r3 r]]]; try (cbn in Hn; lia);
    cbn in E; injection E as -> -> _; eexists; (split_and!; [vm_compute; reflexivity|vm_compute; reflexivity|vm_compute; reflexivity|done]).
Qed.

Lemma escape_rune c r rest :
  128 <= bz c -> (1 <= length r)%nat -> runeSize c (r ++ rest) = S (length r) ->
  escapeFrom 0 true (c :: r ++ rest) =
    match lineSeparator c (r ++ rest) with
    | Some digit => [x5c; x75; x32; x30; x32; digit] ++ escapeFrom 0 true rest
    | None => c :: r ++ escapeFrom 0 true rest
    end.
Proof.
  intros Hc Hr Hn. cbn [escapeFrom]. rewrite (proj2 (Z.ltb_ge _ _) Hc).
  destruct (lineSeparator c (r ++ rest)) as [digit|] eqn:Hl.
  - destruct (lineSeparator_spec _ _ _ _ Hn Hl) as (x & _ & _ & _ & H2). rewrite Hn, H2. cbn [escapeFrom].
    rewrite escape_skip. rewrite <- H2, drop_app_length. done.
  - rewrite Hn. destruct (drop_rune r rest _ Hn) as [Hd Ht]. rewrite Hn in Hd, Ht.
    destruct r as [|b r]; [cbn in Hr; lia|]. cbn [length] in *. rewrite escape_skip, Hd, Ht. done.
Qed.

(** What the decoder makes of an encoded string. *)
Lemma unquote_escape l : unquoteFrom 0 true (escapeFrom 0 true l) = Some (sanitizeFrom 0 l).
Proof.
  induction l as [|c rest Hc IH|c rest Hc Hn IH|c r rest Hc Hr Hn Hmore Hf IH] using rune_ind; [done|..].
  - cbn [escapeFrom sanitizeFrom]. rewrite (proj2 (Z.ltb_lt _ _) Hc). destruct (htmlSafe c) eqn:Hs.
    + cbn [app unquoteFrom]. unfold htmlSafe in Hs. apply andb_prop in Hs as [[H32 _]%andb_prop Hs].
      rewrite !negb_orb in Hs. repeat match goal with H : _ && _ = true |- _ => apply andb_prop in H as [? ?] end.
      repeat match goal with H : negb _ = true |- _ => apply negb_true_iff in H end.
      repeat match goal with H : (c =b _) = false |- _ => rewrite H end.
      rewrite (proj2 (Z.ltb_ge _ 32)), (proj2 (Z.ltb_lt _ _) Hc) by lia. by cbn [orb]; rewrite IH.
    + destruct (escapeByte_spec c (escapeFrom 0 true rest) Hc Hs) as [-> _]. by rewrite IH.
  - cbn [escapeFrom sanitizeFrom]. rewrite (proj2 (Z.ltb_ge _ _) Hc), Hn.
    change (bytes_of "\ufffd" ++ ?x) with (x5c :: x75 :: x66 :: x66 :: x66 :: x64 :: x).
    rewrite (unquote_u _ _ _ _ 65533) by (vm_compute; reflexivity). rewrite IH. done.
  - rewrite sanitize_rune, escape_rune by done. destruct (lineSeparator c (r ++ rest)) as [digit|] eqn:Hl.
    + destruct (lineSeparator_spec _ _ _ _ Hn Hl) as (x & Hg & He & Hu & _). cbn [app].
      rewrite (unquote_u _ _ _ _ x) by done. rewrite He, IH. done.
    + rewrite unquote_rune by done. rewrite IH. done.
Qed.

Lemma escape_raw l : rawString (escapeFrom 0 true l).
Proof.
  induction l as [|c rest Hc IH|c rest Hc Hn IH|c r rest Hc Hr Hn Hmore Hf IH] using rune_ind; [done|..].
  - cbn [escapeFrom]. rewrite (proj2 (Z.ltb_lt _ _) Hc). destruct (htmlSafe c) eqn:Hs.
    + unfold htmlSafe in Hs. apply andb_prop in Hs as [[H32 _]%andb_prop Hs].
      rewrite !negb_orb in Hs. repeat match goal with H : _ && _ = true |- _ => apply andb_prop in H as [? ?] end.
      repeat match goal with H : negb _ = true |- _ => apply negb_true_iff in H end.
      apply scan_plain; [apply Z.ltb_ge; lia|done|done|done].
    + by apply escapeByte_spec.
  - cbn [escapeFrom]. rewrite (proj2 (Z.ltb_ge _ _) Hc), Hn.
    change (bytes_of "\ufffd" ++ ?x) with (x5c :: x75 :: x66 :: x66 :: x66 :: x64 :: x). by apply (scan_u _ _ _ _ 65533).
  - rewrite escape_rune by done. assert (forall b t, 128 <= bz b -> rawString t -> rawString (b :: t)) as Hhigh.
    { intros b t Hb Ht. apply scan_plain; [apply Z.ltb_ge; lia| | |done]; destruct (_ =b _) eqn:E; try done;
        apply Byte.byte_dec_bl in E as ->; by vm_compute in Hb. }
    destruct (lineSeparator c (r ++ rest)) as [digit|] eqn:Hl.
    + destruct (lineSeparator_spec _ _ _ _ Hn Hl) as (x & Hg & _). by apply (scan_u _ _ _ _ x).
    + apply Hhigh; [done|]. clear -Hf IH Hhigh. induction Hf as [|b r Hb _ IHr]; [exact IH|]. by apply Hhigh.
Qed.

Lemma unquote_encode s : unquote (encodeString s) = Some (sanitize s).
Proof. unfold unquote, encodeString. by rewrite unquote_escape. Qed.

(** *** Replacing invalid UTF-8 *)
Lemma sanitize_ascii s : allChars (fun a => bz (Ascii.byte_of_ascii a) <? 128) s = true -> sanitize s = s.
Proof.
  intros H. unfold sanitize. rewrite <- (string_of_bytes_of s) at 2. f_equal.
  induction s as [|a s IH]; [done|]. cbn [allChars] in H. apply andb_prop in H as [Ha Hs].
  rewrite bytes_of_cons. cbn [sanitizeFrom]. by rewrite Ha, IH.
Qed.

Lemma sanitize_idChars id : allChars idChar id = true -> sanitize id = id.
Proof. intros H. apply sanitize_ascii. eapply allChars_impl; [|exact H]. intros a Ha. apply Z.ltb_lt. by apply idChar_ascii. Qed.

Lemma runeSize_error rest : runeSize xef (xbf :: xbd :: rest) = 3%nat.
Proof. done. Qed.

Lemma sanitize_again l : sanitizeFrom 0 (sanitizeFrom 0 l) = sanitizeFrom 0 l.
Proof.
  induction l as [|c rest Hc IH|c rest Hc Hn IH|c r rest Hc Hr Hn Hmore Hf IH] using rune_ind; [done|..].
  - cbn [sanitizeFrom]. rewrite (proj2 (Z.ltb_lt _ _) Hc). cbn [sanitizeFrom]. by rewrite (proj2 (Z.ltb_lt _ _) Hc), IH.
  - cbn [sanitizeFrom]. rewrite (proj2 (Z.ltb_ge _ _) Hc), Hn.
    change (runeError ++ ?x) with (xef :: [xbf; xbd] ++ x). rewrite sanitize_rune; [by rewrite IH|by vm_compute|cbn; lia|done].
  - rewrite sanitize_rune by done. rewrite sanitize_rune by done. by rewrite IH.
Qed.

Lemma runeCount_rune c r rest :
  (1 <= length r)%nat -> runeSize c (r ++ rest) = S (length r) ->
  runeCount (length (c :: r ++ rest)) (c :: r ++ rest) = 1 + runeCount (length rest) rest.
Proof.
  intros Hr Hn. cbn [length runeCount]. destruct (drop_rune r rest _ Hn) as [-> _].
  rewrite runeCount_fuel; [done|]. rewrite length_app. lia.
Qed.

Lemma sanitize_runes s : RuneCountInString (sanitize s) = RuneCountInString s.
Proof.
  unfold RuneCountInString, sanitize. rewrite bytes_of_string_of. generalize (bytes_of s). clear s.
  intros l. induction l as [|c rest Hc IH|c rest Hc Hn IH|c r rest Hc Hr Hn Hmore Hf IH] using rune_ind; [done|..].
  - cbn [sanitizeFrom]. rewrite (proj2 (Z.ltb_lt _ _) Hc). cbn [length runeCount].
    assert (forall t, runeSize c t = 1%nat) as H1 by (intros t; unfold runeSize; by rewrite (proj2 (Z.ltb_lt _ _) Hc)).
    rewrite !H1. change (drop (1 - 1) ?x) with x. by rewrite IH.
  - cbn [sanitizeFrom]. rewrite (proj2 (Z.ltb_ge _ _) Hc), Hn.
    change (runeError ++ ?x) with (xef :: [xbf; xbd] ++ x). rewrite runeCount_rune; [|cbn; lia|done].
    rewrite IH. cbn [length runeCount]. by rewrite Hn.
  - rewrite sanitize_rune by done. rewrite !runeCount_rune by done. by rewrite IH.
Qed.

Lemma sanitize_nonempty s : s <> ""%string -> sanitize s <> ""%string.
Proof.
  intros Hs Hn. apply Hs. assert (RuneCountInString s = 0) as H0 by by rewrite <- sanitize_runes, Hn.
  destruct s as [|a s]; [done|]. unfold RuneCountInString in H0. rewrite bytes_of_cons in H0. cbn [length runeCount] in H0.
  pose proof (runeCount_bounds (length (bytes_of s)) (drop (runeSize (byte_of_ascii a) (bytes_of s) - 1) (bytes_of s))). lia.
Qed.

(** ** Decoded text is valid UTF-8 *)

#[local] Ltac Zify.zify_post_hook ::= Z.to_euclidean_division_equations.

(** What a string starts with, and keeps when invalid UTF-8 is replaced. *)
Definition validRunes (bs : list byte) : Prop := forall rest, sanitizeFrom 0 (bs ++ rest) = bs ++ sanitizeFrom 0 rest.

Lemma valid_ascii c : bz c < 128 -> validRunes [c].
Proof. intros Hc rest. cbn [app sanitizeFrom]. by rewrite (proj2 (Z.ltb_lt _ _) Hc). Qed.

Lemma valid_rune c r :
  128 <= bz c -> (1 <= length r)%nat -> (forall rest, runeSize c (r ++ rest) = S (length r)) -> validRunes (c :: r).
Proof. intros Hc Hr Hn rest. cbn [app]. by rewrite sanitize_rune. Qed.

(** The entries of the table that concern an encoded rune. *)
Lemma first_spec c b1 :
  194 <= c <= 244 -> 128 <= b1 <= 191 -> (c = 224 -> 160 <= b1) -> (c = 237 -> b1 <= 159) -> (c = 240 -> 144 <= b1) -> (c = 244 -> b1 <= 143) ->
  exists lo hi, utf8_first c = Some (if c <=? 223 then 2%nat else if c <=? 239 then 3%nat else 4%nat, lo, hi) /\ lo <= b1 <= hi.
Proof.
  intros. unfold utf8_first. destruct (Z.ltb_spec c 194), (Z.leb_spec c 223), (Z.eqb_spec c 224), (Z.eqb_spec c 237),
    (Z.leb_spec c 239), (Z.eqb_spec c 240), (Z.leb_spec c 243), (Z.eqb_spec c 244); try lia; do 2 eexists; (split; [reflexivity|lia]).
Qed.

Lemma encodeRune_valid r : 0 <= r < 1114112 -> isHigh r || isLow r = false -> validRunes (encodeRune r).
Proof.
  unfold isHigh, isLow. intros Hr Hs. unfold encodeRune.
  destruct (Z.ltb_spec r 128). { apply valid_ascii. rewrite bz_zb; lia. }
  assert (forall c b1 rest, 194 <= bz c -> runeSize c (b1 :: rest) =
    match utf8_first (bz c) with
    | Some (size, lo, hi) => match size, b1 :: rest with
      | 2%nat, b1 :: _ => if (lo <=? bz b1) && (bz b1 <=? hi) then 2%nat else 1%nat
      | 3%nat, b1 :: b2 :: _ => if (lo <=? bz b1) && (bz b1 <=? hi) && utf8_cont b2 then 3%nat else 1%nat
      | 4%nat, b1 :: b2 :: b3 :: _ => if (lo <=? bz b1) && (bz b1 <=? hi) && utf8_cont b2 && utf8_cont b3 then 4%nat else 1%nat
      | _, _ => 1%nat end
    | None => 1%nat end) as Hsize.
  { intros c b1 rest Hc. unfold runeSize. destruct (Z.ltb_spec (bz c) 128); [lia|]. done. }
  destruct (Z.ltb_spec r 2048); [|destruct (Z.ltb_spec r 65536)].
  - apply valid_rune; [rewrite bz_zb; lia|cbn; lia|]. intros rest. cbn [app]. rewrite Hsize by (rewrite bz_zb; lia). rewrite !bz_zb by lia.
    destruct (first_spec (192 + r / 64) (128 + r mod 64)) as (lo & hi & -> & Hlo); [lia..|].
    replace (192 + r / 64 <=? 223) with true by lia. cbn [app]. by replace ((lo <=? _) && _) with true by lia.
  - apply valid_rune; [rewrite bz_zb; lia|cbn; lia|]. intros rest. cbn [app]. rewrite Hsize by (rewrite bz_zb; lia). rewrite !bz_zb by lia.
    destruct (first_spec (224 + r / 4096) (128 + r / 64 mod 64)) as (lo & hi & -> & Hlo); [lia..|].
    replace (224 + r / 4096 <=? 223) with false by lia. replace (224 + r / 4096 <=? 239) with true by lia. cbn [app]. unfold utf8_cont.
    rewrite !bz_zb by lia. by replace ((lo <=? _) && _ && _) with true by lia.
  - apply valid_rune; [rewrite bz_zb; lia|cbn; lia|]. intros rest. cbn [app]. rewrite Hsize by (rewrite bz_zb; lia). rewrite !bz_zb by lia.
    destruct (first_spec (240 + r / 262144) (128 + r / 4096 mod 64)) as (lo & hi & -> & Hlo); [lia..|].
    replace (240 + r / 262144 <=? 223) with false by lia. replace (240 + r / 262144 <=? 239) with false by lia. cbn [app]. unfold utf8_cont.
    rewrite !bz_zb by lia. by replace ((lo <=? _) && _ && _ && _) with true by lia.
Qed.

Lemma hexByte_range b n : hexByte b = Some n -> 0 <= n < 16.
Proof. unfold hexByte. repeat case_match; intros [= <-] || intros; try done; lia. Qed.

Lemma getu4_range a b c d r : getu4 a b c d = Some r -> 0 <= r < 65536.
Proof.
  unfold getu4. destruct (hexByte a) as [a'|] eqn:Ha, (hexByte b) as [b'|] eqn:Hb, (hexByte c) as [c'|] eqn:Hc, (hexByte d) as [d'|] eqn:Hd; try done.
  intros [= <-]. apply hexByte_range in Ha, Hb, Hc, Hd. lia.
Qed.

Lemma runeError_valid : validRunes runeError.
Proof. apply valid_rune; [by vm_compute|cbn; lia|done]. Qed.

(** What an escape stands for. *)
Lemma unicodeEscape_valid a b c d r rest : getu4 a b c d = Some r -> validRunes (unicodeEscape r rest).1.
Proof.
  intros Hr%getu4_range. unfold unicodeEscape. destruct (isHigh r || isLow r) eqn:Hs; [|apply encodeRune_valid; [lia|done]].
  destruct rest as [|x [|y [|g1 [|g2 [|g3 [|g4 rest]]]]]]; try exact runeError_valid.
  destruct (getu4 g1 g2 g3 g4) as [r1|]; [|exact runeError_valid]. destruct (_ && _ && _ && _) eqn:E; [|exact runeError_valid].
  unfold isHigh, isLow in *. apply encodeRune_valid; unfold isHigh, isLow; lia.
Qed.

Lemma app_fmap_Some {A} (x : list A) o y : app x <$> o = Some y -> exists z, o = Some z /\ y = x ++ z.
Proof. destruct o as [z|]; [|done]. intros [= <-]. by exists z. Qed.

Lemma simpleEscape_ascii d b : simpleEscape d = Some b -> bz b < 128.
Proof. unfold simpleEscape. repeat case_match; intros [= <-] || intros; try done. Qed.

(** What [unquoteFrom] returns keeps its text. *)
Lemma unquoteFrom_valid raw l : unquoteFrom 0 true raw = Some l -> sanitizeFrom 0 l = l.
Proof.
  remember (length raw) as n eqn:Hn. revert raw l Hn. induction n as [n IH] using lt_wf_ind. intros raw l -> H.
  assert (forall bs k rest, validRunes bs -> (length rest < length raw)%nat ->
    app bs <$> unquoteFrom k false rest = Some l -> sanitizeFrom 0 l = l) as Hstep.
  { intros bs k rest Hbs Hlen Hu. apply app_fmap_Some in Hu as (z & Hz & ->). rewrite unquote_skip in Hz.
    apply app_fmap_Some in Hz as (z' & Hz & ->). cbn [app]. rewrite Hbs. f_equal.
    eapply IH; [|reflexivity|exact Hz]. rewrite length_drop. lia. }
  assert (forall c rest, raw = c :: rest -> (length rest < length raw)%nat) as Hlen by (intros c rest ->; cbn; lia).
  destruct raw as [|c rest]; [by injection H as <-|]. specialize (Hlen _ _ eq_refl). cbn [unquoteFrom] in H.
  destruct (c =b x5c).
  { destruct rest as [|d rest2]; [done|]. destruct (simpleEscape d) as [b|] eqn:Hd.
    - apply (Hstep [b] 1%nat (d :: rest2)); [by eapply valid_ascii, simpleEscape_ascii|done|]. exact H.
    - destruct (d =b x75); [|done]. destruct rest2 as [|h1 [|h2 [|h3 [|h4 rest3]]]]; try done.
      destruct (getu4 h1 h2 h3 h4) as [r|] eqn:Hr; [|done]. pose proof (unicodeEscape_valid _ _ _ _ _ rest3 Hr) as Hv.
      destruct (unicodeEscape r rest3) as [bs k]. cbn [fst] in Hv. by eapply Hstep. }
  destruct (_ || _); [done|]. destruct (Z.ltb_spec (bz c) 128).
  { apply (Hstep [c] 0%nat rest); [by apply valid_ascii|done|]. rewrite unquote_skip. cbn [drop].
    rewrite drop_0. change (app [c]) with (cons c). rewrite <- H. by destruct (unquoteFrom 0 true rest). }
  destruct (decide (runeSize c rest = 1%nat)) as [H1|H1].
  { rewrite H1 in H. apply (Hstep runeError 0%nat rest); [apply runeError_valid|done|]. rewrite unquote_skip, drop_0.
    rewrite <- H. by destruct (unquoteFrom 0 true rest). }
  destruct (runeSize_take c rest H1) as (Hm & Hf & H2 & Hl). set (n := runeSize c rest) in *.
  apply (Hstep (c :: take (n - 1) rest) (n - 1)%nat rest); [|done|].
  - apply valid_rune; [lia|lia|]. intros more. rewrite Hm, Hl. lia.
  - rewrite unquote_skip. destruct n as [|[|n]]; [lia|lia|]. rewrite unquote_skip in H.
    rewrite <- H. by destruct (unquoteFrom 0 true (drop (S (S n) - 1) rest)).
Qed.

(** Text without invalid UTF-8. *)
Definition plainText (s : string) : Prop := sanitize s = s.

Lemma unquote_plain raw s : unquote raw = Some s -> plainText s.
Proof.
  unfold unquote, plainText, sanitize. destruct (unquoteFrom 0 true raw) as [l|] eqn:E; [|done]. intros [= <-].
  rewrite bytes_of_string_of. by rewrite (unquoteFrom_valid _ _ E).
Qed.

Lemma sanitize_plain s : plainText (sanitize s).
Proof. unfold plainText, sanitize. by rewrite bytes_of_string_of, sanitize_again. Qed.

(** ** The fuel is enough *)
Lemma skip_length l : (length (skipSpace l) <= length l)%nat.
Proof. induction l as [|b l IH]; [done|]. cbn [skipSpace]. destruct (isSpaceByte b); cbn [length]; lia. Qed.

Lemma expect_length b l r : expectByte b l = Some r -> (length r < length l)%nat.
Proof.
  unfold expectByte. pose proof (skip_length l). destruct (skipSpace l) as [|c l']; [done|]. destruct (c =b b); [|done].
  intros [= <-]. cbn [length] in *. lia.
Qed.

Lemma scanString_length l raw r : scanString l = Some (raw, r) -> (length r < length l)%nat.
Proof.
  remember (length l) as n eqn:Hn. revert l raw r Hn. induction n as [n IH] using lt_wf_ind. intros l raw r -> H.
  assert (forall f l' , (length l' < length l)%nat -> (fun x : list byte * list byte => (f x.1, x.2)) <$> scanString l' = Some (raw, r) ->
    (length r < length l)%nat) as Hrec.
  { intros f l' Hl Hs. destruct (scanString l') as [[raw' r']|] eqn:E; [|done]. injection Hs as _ <-.
    specialize (IH (length l') Hl l' raw' r' eq_refl E). lia. }
  destruct l as [|c l]; [done|]. cbn [scanString] in H. destruct (c =b x22); [injection H as <- <-; cbn; lia|].
  destruct (c =b x5c).
  - destruct l as [|d l]; [done|]. destruct (simpleEscape d).
    { apply (Hrec (fun x => c :: d :: x) l) in H; [done|cbn; lia]. }
    destruct (d =b x75); [|done]. destruct l as [|h1 [|h2 [|h3 [|h4 l]]]]; try done. destruct (getu4 h1 h2 h3 h4); [|done].
    apply (Hrec (fun x => c :: d :: h1 :: h2 :: h3 :: h4 :: x) l) in H; [done|cbn; lia].
  - destruct (bz c <? 32); [done|]. apply (Hrec (cons c) l) in H; [done|cbn; lia].
Qed.

Lemma startsWith_length p l r : startsWith p l = Some r -> (length p + length r = length l)%nat.
Proof.
  revert l. induction p as [|a p IH]; intros [|b l]; cbn [startsWith]; try done; [by intros [= <-]|by intros [= <-]|].
  destruct (a =b b); [|done]. intros H%IH. cbn [length]. lia.
Qed.

Lemma spanNum_length l : let '(x, y) := spanNum l in (length x + length y = length l)%nat.
Proof.
  induction l as [|b l IH]; [done|]. cbn [spanNum]. destruct (numByte b); [|done]. destruct (spanNum l) as [x y]. cbn [length]. lia.
Qed.

Lemma scanNum_length l v r : scanNum l = Some (v, r) -> (length r < length l)%nat.
Proof.
  unfold scanNum. pose proof (spanNum_length l) as Hl. destruct (spanNum l) as [[|b x] y]; [done|].
  destruct (scanNumber _); [|done]. intros [= <- <-]. cbn [length] in *. lia.
Qed.

(** Whatever is read takes at least one byte. *)
Lemma parse_shrinks fuel :
  (forall d l v r, pValue fuel d l = Some (v, r) -> (length r < length l)%nat) /\
  (forall d l vs r, pElems fuel d l = Some (vs, r) -> (length r < length l)%nat) /\
  (forall d l fs r, pMembers fuel d l = Some (fs, r) -> (length r < length l)%nat).
Proof.
  induction fuel as [|fuel (IHv & IHe & IHm)]; [by split_and!|]. split_and!; intros d l; cbn [pValue pElems pMembers].
  - intros v r H. pose proof (skip_length l) as Hl. destruct (skipSpace l) as [|c l']; [done|]. cbn [length] in Hl.
    destruct (c =b x22).
    { destruct (scanString l') as [[raw y]|] eqn:E; [|done]. injection H as <- <-. apply scanString_length in E. lia. }
    destruct (c =b x5b).
    { destruct d as [|d]; [done|]. destruct (expectByte x5d l') as [y|] eqn:E; [injection H as <- <-; apply expect_length in E; lia|].
      destruct (pElems fuel d l') as [[vs y]|] eqn:E2; [|done]. injection H as <- <-. apply IHe in E2. lia. }
    destruct (c =b x7b).
    { destruct d as [|d]; [done|]. destruct (expectByte x7d l') as [y|] eqn:E; [injection H as <- <-; apply expect_length in E; lia|].
      destruct (pMembers fuel d l') as [[vs y]|] eqn:E2; [|done]. injection H as <- <-. apply IHm in E2. lia. }
    repeat match type of H with (if ?b then _ else _) = _ => destruct b end;
      try (destruct (startsWith _ (c :: l')) as [y|] eqn:E; [|done]; injection H as <- <-; apply startsWith_length in E; cbn in E; lia).
    apply scanNum_length in H. cbn [length] in H. lia.
  - intros vs r H. destruct (pValue fuel d l) as [[v l1]|] eqn:E; [|done]. apply IHv in E. cbn [mbind option_bind] in H.
    destruct (expectByte x2c l1) as [l2|] eqn:E2.
    + destruct (pElems fuel d l2) as [[vs' y]|] eqn:E3; [|done]. injection H as <- <-. apply IHe in E3. apply expect_length in E2. lia.
    + destruct (expectByte x5d l1) as [y|] eqn:E3; [|done]. injection H as <- <-. apply expect_length in E3. lia.
  - intros fs r H. destruct (expectByte x22 l) as [l1|] eqn:E1; [|done]. cbn [mbind option_bind] in H. apply expect_length in E1.
    destruct (scanString l1) as [[key l2]|] eqn:E2; [|done]. cbn [mbind option_bind] in H. apply scanString_length in E2.
    destruct (expectByte x3a l2) as [l3|] eqn:E3; [|done]. cbn [mbind option_bind] in H. apply expect_length in E3.
    destruct (pValue fuel d l3) as [[v l4]|] eqn:E4; [|done]. cbn [mbind option_bind] in H. apply IHv in E4.
    destruct (expectByte x2c l4) as [l5|] eqn:E5.
    + destruct (pMembers fuel d l5) as [[fs' y]|] eqn:E6; [|done]. injection H as <- <-. apply IHm in E6. apply expect_length in E5. lia.
    + destruct (expectByte x7d l4) as [y|] eqn:E6; [|done]. injection H as <- <-. apply expect_length in E6. lia.
Qed.

(** Two calls per byte suffice: more fuel gives the same result. *)
Lemma parse_fuel f1 :
  (forall f2 d l, (2 * length l + 1 <= f1)%nat -> (f1 <= f2)%nat -> pValue f2 d l = pValue f1 d l) /\
  (forall f2 d l, (2 * length l + 2 <= f1)%nat -> (f1 <= f2)%nat -> pElems f2 d l = pElems f1 d l) /\
  (forall f2 d l, (2 * length l + 2 <= f1)%nat -> (f1 <= f2)%nat -> pMembers f2 d l = pMembers f1 d l).
Proof.
  induction f1 as [|f1 (IHv & IHe & IHm)]; [split_and!; intros; lia|].
  split_and!; intros [|f2] d l H1 H2; try lia; cbn [pValue pElems pMembers].
  - pose proof (skip_length l) as Hl. destruct (skipSpace l) as [|c l']; [done|]. cbn [length] in Hl.
    destruct d as [|d]; [done|]. by rewrite (IHe f2 d l'), (IHm f2 d l') by lia.
  - rewrite (IHv f2 d l) by lia. destruct (pValue f1 d l) as [[v l1]|] eqn:E; [|done]. apply parse_shrinks in E. cbn [mbind option_bind].
    destruct (expectByte x2c l1) as [l2|] eqn:E2; [|done]. apply expect_length in E2. by rewrite (IHe f2 d l2) by lia.
  - destruct (expectByte x22 l) as [l1|] eqn:E1; [|done]. cbn [mbind option_bind]. apply expect_length in E1.
    destruct (scanString l1) as [[key l2]|] eqn:E2; [|done]. cbn [mbind option_bind]. apply scanString_length in E2.
    destruct (expectByte x3a l2) as [l3|] eqn:E3; [|done]. cbn [mbind option_bind]. apply expect_length in E3.
    rewrite (IHv f2 d l3) by lia. destruct (pValue f1 d l3) as [[v l4]|] eqn:E4; [|done]. cbn [mbind option_bind]. apply parse_shrinks in E4.
    destruct (expectByte x2c l4) as [l5|] eqn:E5; [|done]. apply expect_length in E5. by rewrite (IHm f2 d l5) by lia.
Qed.

Lemma jsonParse_fuel fuel l :
  (2 * length l + 2 <= fuel)%nat -> pValue fuel maxNestingDepth l = pValue (2 * length l + 2) maxNestingDepth l.
Proof. intros H. apply parse_fuel; lia. Qed.
