(* ===== verification/GoStruct.v ===== *)
(** Structs as encoding/json writes and reads them by their tags: the object of
    the fields that are present, and the members of an object assigned to the
    fields they name. *)
From Stdlib Require Import Strings.Byte Strings.Ascii.
From S2P Require Import Prelude GoStrings GoText GoFloat GoNumber GoJson.

Local Open Scope string_scope.
Local Open Scope list_scope.
Open Scope Z_scope.

(** ** Encoding *)

Definition jsonString (s : string) : JSON := JStr (encodeString s).
Definition jsonStrings (l : list string) : JSON := JArr (map jsonString l).

(** Each value under its key, or the first error. *)
Definition jsonObject (entries : list (string * result JSON)) : result JSON :=
  JObj <$> sequence (map (fun kv => pair (encodeString kv.1) <$> kv.2) entries).

(** A field with [omitempty] is left out when it is empty. *)
Definition omitString (s : string) : option (result JSON) :=
  if s =s "" then None else Some (Ok (jsonString s)).
Definition omitStrings (l : list string) : option (result JSON) :=
  match l with [] => None | _ => Some (Ok (jsonStrings l)) end.

Definition present {A} (fields : list (string * option A)) : list (string * A) :=
  omap (fun f => pair f.1 <$> f.2) fields.

(** [json.Marshal] of a struct with these fields. *)
Definition structText (fields : list (string * option (result JSON))) : result string :=
  (fun v => string_of (jsonText v)) <$> jsonObject (present fields).

(** [appendIndent] with two spaces: every element and member on a line of its own,
    [depth] levels in. *)
Definition newLine (depth : nat) : list byte := x0a :: repeat x20 (2 * depth).

Fixpoint indentText (depth : nat) (v : JSON) {struct v} : list byte :=
  match v with
  | JArr ((_ :: _) as l) =>
      x5b :: joinBytes x2c (map (fun v => newLine (S depth) ++ indentText (S depth) v) l) ++ newLine depth ++ [x5d]
  | JObj ((_ :: _) as fs) =>
      x7b :: joinBytes x2c (map (fun kv => newLine (S depth) ++ quoted kv.1 ++ x3a :: x20 :: indentText (S depth) kv.2) fs)
        ++ newLine depth ++ [x7d]
  | v => jsonText v
  end.

(** [json.MarshalIndent] of a struct, without prefix. *)
Definition structIndented (fields : list (string * option (result JSON))) : result string :=
  (fun v => string_of (indentText 0 v)) <$> jsonObject (present fields).

(** [json.Marshal] of a list of strings; it does not fail. *)
Definition stringsText (l : list string) : string := string_of (jsonText (jsonStrings l)).

(** ** Decoding *)

(** [foldName], on what can match an ASCII name: the letters in upper case, the
    long s and the Kelvin sign as the letters they fold to. *)
Fixpoint foldName (l : list byte) : list byte :=
  match l with
  | [] => []
  | c :: r =>
      let fold1 := zb (if (97 <=? bz c) && (bz c <=? 122) then bz c - 32 else bz c) in
      match r with
      | d :: r2 =>
          if (c =b xc5) && (d =b xbf) then x53 :: foldName r2
          else match r2 with
               | f :: r3 => if (c =b xe2) && (d =b x84) && (f =b xaa) then x4b :: foldName r3 else fold1 :: foldName r
               | [] => fold1 :: foldName r
               end
      | [] => [fold1]
      end
  end.

Definition sameName (name : string) (key : list byte) : bool :=
  match unquote key with Some k => string_of (foldName (bytes_of k)) =s string_of (foldName (bytes_of name)) | None => false end.

(** The values that the object has for a field, in order. *)
Definition occurrences (name : string) (members : list (list byte * JSON)) : list JSON :=
  map snd (List.filter (fun kv => sameName name kv.1) members).

(** One value assigned to a field of a type that holds another: a null leaves
    strings, numbers and times as they are, and clears what can be nil. *)
Definition intoString (s : string) (v : JSON) : option string :=
  match v with JNull => Some s | JStr raw => unquote raw | _ => None end.

(** A slice with what its backing array still holds beyond its length. *)
Definition Slice : Type := list string * list string.

(** The elements are decoded into those that are there. *)
Fixpoint intoElems (old : list string) (l : list JSON) : option (list string) :=
  match l with
  | [] => Some []
  | v :: l => let! s := intoString (hd "" old) v in cons s <$> intoElems (tl old) l
  end.

Definition intoStrings (s : Slice) (v : JSON) : option Slice :=
  match v with
  | JNull | JArr [] => Some ([], [])
  | JArr l => (fun l' => (l', drop (length l') (s.1 ++ s.2))) <$> intoElems (s.1 ++ s.2) l
  | _ => None
  end.

Fixpoint foldField {A} (into : A -> JSON -> option A) (x : A) (occ : list JSON) : option A :=
  match occ with
  | [] => Some x
  | v :: occ => let! y := into x v in foldField into y occ
  end.

(** A value decoded into the struct [zero]: a null leaves it as it is. *)
Definition structValue {A} (zero : A) (decodeFields : list (list byte * JSON) -> option A) (v : JSON) : option A :=
  match v with JNull => Some zero | JObj fs => decodeFields fs | _ => None end.

(** [json.Unmarshal]: the whole text is checked before it is decoded.
    [decodeError] is the text of the error. *)
Definition structRead {A} (zero : A) (decodeFields : list (list byte * JSON) -> option A) (decodeError : string -> error)
    (data : string) : result A :=
  match jsonParse (bytes_of data) ≫= structValue zero decodeFields with
  | Some a => Ok a
  | None => Err (decodeError data)
  end.

Lemma structRead_ok {A} (zero : A) decodeFields decodeError data a :
  structRead zero decodeFields decodeError data = Ok a <->
  exists v, jsonParse (bytes_of data) = Some v /\ structValue zero decodeFields v = Some a.
Proof.
  unfold structRead. rewrite <- bind_Some. destruct (jsonParse (bytes_of data) ≫= _); split; congruence.
Qed.

(** ** Results in sequence *)
Lemma sequence_ok {A} (l : list (result A)) l' : sequence l = Ok l' <-> l = map Ok l'.
Proof.
  revert l'. induction l as [|[a|e] l IH]; intros l'; cbn [sequence].
  - split; [by intros [= <-]|by destruct l'].
  - unfold fmap, result_fmap. destruct (sequence l) as [l1|e] eqn:E.
    + split; [intros [= <-]; cbn; f_equal; by apply IH|]. destruct l' as [|a' l']; [done|]. intros [= -> H]. apply IH in H as [= ->]. done.
    + split; [done|]. destruct l' as [|a' l']; [done|]. intros [= -> H]. by apply IH in H.
  - split; [done|by destruct l'].
Qed.

Lemma sequence_all {A} (l : list (result A)) : Forall (fun r => is_ok r = true) l -> is_ok (sequence l) = true.
Proof. induction 1 as [|[a|e] l H _ IH]; try done. cbn. by destruct (sequence l). Qed.

Lemma result_fmap_ok {A B} (f : A -> B) r y : f <$> r = Ok y -> exists x, r = Ok x /\ y = f x.
Proof. destruct r as [x|e]; [|done]. intros [= <-]. by exists x. Qed.

Lemma result_fmap_is_ok {A B} (f : A -> B) (r : result A) : is_ok (f <$> r) = is_ok r.
Proof. by destruct r. Qed.

Lemma map_fixed {A} (f : A -> A) l : Forall (fun x => f x = x) l -> map f l = l.
Proof. induction 1 as [|x l Hx _ IH]; [done|]. cbn. by rewrite Hx, IH. Qed.

Lemma object_ok entries v :
  jsonObject entries = Ok v -> exists fs, map (fun kv => pair (encodeString kv.1) <$> kv.2) entries = map Ok fs /\ v = JObj fs.
Proof.
  unfold jsonObject. intros Hv. apply result_fmap_ok in Hv as (fs & Hfs%sequence_ok & ->). by exists fs.
Qed.

Lemma jsonString_wf d s : wfJSON d (jsonString s).
Proof. constructor. apply escape_raw. Qed.

(** ** The fields of an object *)

Definition nameOf (name : string) : string := string_of (foldName (bytes_of name)).

Lemma sameName_encoded name key : plainText key -> sameName name (encodeString key) = (nameOf key =s nameOf name).
Proof. intros Hk. unfold sameName. by rewrite unquote_encode, Hk. Qed.

Lemma occurrences_encoded name fields fs :
  Forall (fun f => plainText f.1) fields ->
  map (fun kv => pair (encodeString kv.1) <$> kv.2) fields = map Ok fs ->
  map Ok (occurrences name fs) = map snd (List.filter (fun f => nameOf f.1 =s nameOf name) fields).
Proof.
  intros Hp. revert fs. induction Hp as [|[k r] fields Hk _ IH]; intros [|[rk j] fs] Hfs; try done.
  cbn [map] in Hfs. injection Hfs as Hkv Hfs. apply result_fmap_ok in Hkv as (j' & Hj & [= -> ->]).
  cbn [fst snd] in *. subst r. specialize (IH fs Hfs). unfold occurrences in *. cbn [List.filter fst]. rewrite sameName_encoded by done.
  destruct (nameOf k =s nameOf name); cbn [map snd]; by rewrite IH.
Qed.

Lemma filter_present {A} (p : string -> bool) (l : list (string * option A)) :
  map snd (List.filter (fun f => p f.1) (present l)) = omap snd (List.filter (fun f => p f.1) l).
Proof.
  induction l as [|[k [x|]] l IH]; [done| |]; cbn; (destruct (p k); cbn; [|done]).
  - by f_equal.
  - done.
Qed.

Lemma filter_name {A} (l : list (string * A)) name x :
  NoDup (map (fun f => nameOf f.1) l) -> (name, x) ∈ l -> List.filter (fun f => nameOf f.1 =s nameOf name) l = [(name, x)].
Proof.
  induction l as [|[k y] l IH]; cbn [map]; [by intros _ ?%elem_of_nil|]. intros [Hk Hn]%NoDup_cons Hin. cbn [List.filter fst].
  apply elem_of_cons in Hin as [[= <- <-]|Hin].
  - rewrite String.eqb_refl. f_equal. clear IH Hn. induction l as [|[k' y'] l IHl]; [done|]. cbn [List.filter fst].
    destruct (String.eqb_spec (nameOf k') (nameOf name)) as [He|_].
    + destruct Hk. cbn [map fst]. rewrite He. left.
    + apply IHl. intros Hin. apply Hk. by right.
  - destruct (String.eqb_spec (nameOf k) (nameOf name)) as [He|_]; [|by apply IH]. destruct Hk. cbn [fst] in *. rewrite He.
    apply list_elem_of_In, in_map_iff. exists (name, x). split; [done|by apply list_elem_of_In].
Qed.

(** The levels of nesting left inside an object that is the value of a field. *)
Definition metaLevels : nat := (maxNestingDepth - 2)%nat.

Lemma nesting : maxNestingDepth = S (S metaLevels).
Proof. unfold metaLevels, maxNestingDepth. lia. Qed.

(** One field: the value is well-formed, and read into a field that holds [x0]
    it gives [y]. *)
Definition fieldReads {A} (into : A -> JSON -> option A) (x0 y : A) (x : option (result JSON)) : Prop :=
  match x with
  | Some (Ok j) => wfJSON (S metaLevels) j /\ into x0 j = Some y
  | Some (Err _) => True
  | None => x0 = y
  end.

Section Fields.
(** The fields of a struct, of different names, and what was written of them. *)
Context (fields : list (string * option (result JSON))).

Record fieldNamed : Prop := {
  fn_distinct : NoDup (map nameOf (map fst fields));
  fn_plain : Forall plainText (map fst fields);
}.

Definition writtenAs (fs : list (list byte * JSON)) : Prop :=
  map (fun kv => pair (encodeString kv.1) <$> kv.2) (present fields) = map Ok fs.

Lemma structText_fields data :
  structText fields = Ok data -> exists fs, writtenAs fs /\ data = string_of (jsonText (JObj fs)).
Proof. unfold structText. intros H. apply result_fmap_ok in H as (v & (fs & Hfs & ->)%object_ok & ->). by exists fs. Qed.

(** The values that the object has for a field: the one of that field. *)
Lemma field_value fs name x :
  fieldNamed -> writtenAs fs -> (name, x) ∈ fields -> map Ok (occurrences name fs) = option_list x.
Proof.
  intros [Hd Hp] Hfs Hin. rewrite (occurrences_encoded name (present fields)); [|clear Hd Hfs Hin|done].
  - rewrite (filter_present (fun k => nameOf k =s nameOf name)), (filter_name _ name x); [by destruct x| |done].
    rewrite <- (map_map fst nameOf). exact Hd.
  - apply (List.Forall_map fst) in Hp. induction Hp as [|[k [x'|]] l Hk _ IH]; [constructor|by constructor|done].
Qed.

Lemma field_decodes {A} (into : A -> JSON -> option A) fs name x x0 y :
  fieldNamed -> writtenAs fs -> (name, x) ∈ fields -> fieldReads into x0 y x -> foldField into x0 (occurrences name fs) = Some y.
Proof.
  intros Hn Hfs Hin Hr. pose proof (field_value _ _ _ Hn Hfs Hin) as Ho.
  destruct x as [[j|err]|]; cbn [option_list] in Ho.
  - destruct (occurrences name fs) as [|j' [|? ?]]; try done. injection Ho as ->. destruct Hr as [_ Hr]. cbn. by rewrite Hr.
  - by destruct (occurrences name fs).
  - destruct (occurrences name fs); [|done]. cbn in Hr. by rewrite Hr.
Qed.

Lemma fields_object_wf d fs :
  Forall (fun f => forall j, f.2 = Some (Ok j) -> wfJSON d j) fields -> writtenAs fs -> wfJSON (S d) (JObj fs).
Proof.
  intros Hwf Hfs. constructor. unfold writtenAs in Hfs. revert fs Hfs.
  induction Hwf as [|[k [r|]] l Hk _ IH]; intros fs Hfs; cbn in Hfs; [by destruct fs| |by apply IH].
  destruct fs as [|[rk j] fs]; [done|]. cbn [map] in Hfs. injection Hfs as Hkv Hfs. apply result_fmap_ok in Hkv as (j' & -> & [= -> ->]).
  constructor; [split; [apply escape_raw|by apply Hk]|]. by apply IH.
Qed.

(** A struct whose fields are well-formed is read back as what the decoder makes
    of the members. *)
Lemma struct_reads {A} (zero : A) decodeFields decodeError data a :
  Forall (fun f => forall j, f.2 = Some (Ok j) -> wfJSON (S metaLevels) j) fields ->
  (forall fs, writtenAs fs -> decodeFields fs = Some a) ->
  structText fields = Ok data -> structRead zero decodeFields decodeError data = Ok a.
Proof.
  intros Hwf Hd (fs & Hfs & ->)%structText_fields. pose proof (fields_object_wf _ _ Hwf Hfs) as Hw. rewrite <- nesting in Hw.
  pose proof (jsonParse_text _ Hw) as Hp. unfold structRead. rewrite bytes_of_string_of, Hp. cbn. by rewrite (Hd fs Hfs).
Qed.
End Fields.

Lemma fieldReads_wf {A} (into : A -> JSON -> option A) x0 y x :
  fieldReads into x0 y x -> forall j, x = Some (Ok j) -> wfJSON (S metaLevels) j.
Proof. intros Hr j ->. apply Hr. Qed.

(** Finds the field of a name in a list of fields. *)
Ltac in_fields := first [left | right; in_fields].

(** *** What is written into a field is read from it *)
Lemma string_reads s : fieldReads intoString "" (sanitize s) (Some (Ok (jsonString s))).
Proof. split; [apply jsonString_wf|]. apply unquote_encode. Qed.

Lemma omitString_reads s : fieldReads intoString "" (sanitize s) (omitString s).
Proof. unfold omitString. destruct (String.eqb_spec s "") as [->|_]; [done|apply string_reads]. Qed.

Lemma elems_read l : intoElems [] (map jsonString l) = Some (map sanitize l).
Proof.
  induction l as [|s l IH]; [done|]. cbn [map intoElems hd tl]. change (intoString "" (jsonString s)) with (unquote (encodeString s)).
  by rewrite unquote_encode, IH.
Qed.

Lemma omitStrings_reads l : fieldReads intoStrings ([], []) (map sanitize l, []) (omitStrings l).
Proof.
  destruct l as [|s l]; [done|]. cbn [omitStrings fieldReads]. split.
  - constructor. apply List.Forall_map, Forall_true. intros x. apply jsonString_wf.
  - unfold jsonStrings, intoStrings. cbn [map app fst snd]. change (jsonString s :: map jsonString l) with (map jsonString (s :: l)).
    rewrite elems_read. done.
Qed.

(** A list of strings is read back in valid UTF-8. *)
Lemma stringsText_reads l :
  exists v, jsonParse (bytes_of (stringsText l)) = Some v /\ intoStrings ([], []) v = Some (map sanitize l, []).
Proof.
  exists (jsonStrings l). split.
  - unfold stringsText. rewrite bytes_of_string_of. apply jsonParse_text. rewrite nesting. constructor.
    apply List.Forall_map, Forall_true. intros x. apply jsonString_wf.
  - pose proof (omitStrings_reads l) as H. by destruct l as [|s l]; [|destruct H].
Qed.

(** *** What was read from a field *)
Lemma foldField_inv {A} (into : A -> JSON -> option A) (P : A -> Prop) (Q : JSON -> Prop) x occ y :
  (forall x v y, P x -> Q v -> into x v = Some y -> P y) -> P x -> Forall Q occ -> foldField into x occ = Some y -> P y.
Proof.
  intros Hstep Hx Hocc. revert x Hx. induction Hocc as [|v occ Hv _ IH]; intros x Hx; cbn; [by intros [= <-]|].
  destruct (into x v) as [z|] eqn:E; [|done]. apply IH. by eapply Hstep.
Qed.

Lemma intoString_plain s v t : plainText s -> intoString s v = Some t -> plainText t.
Proof. destruct v; try done; cbn; [by intros ? [= <-]|]. intros _. apply unquote_plain. Qed.

Lemma intoElems_plain old l l' : Forall plainText old -> intoElems old l = Some l' -> Forall plainText l'.
Proof.
  revert old l'. induction l as [|v l IH]; intros old l' Ho; cbn [intoElems]; [intros [= <-]; constructor|].
  destruct (intoString (hd "" old) v) as [s|] eqn:Hs; [|done]. cbn [mbind option_bind].
  destruct (intoElems (tl old) l) as [l1|] eqn:Hl; [|done]. intros [= <-]. constructor.
  - eapply intoString_plain; [|exact Hs]. destruct Ho; [by vm_compute|done].
  - eapply IH; [|exact Hl]. by destruct Ho.
Qed.

Lemma intoStrings_plain s v t : Forall plainText (s.1 ++ s.2) -> intoStrings s v = Some t -> Forall plainText (t.1 ++ t.2).
Proof.
  intros Hs. unfold intoStrings. destruct v as [| | | |[|v l]|]; try done; [by intros [= <-]..|].
  destruct (intoElems (s.1 ++ s.2) (v :: l)) as [l'|] eqn:E; [|done]. intros [= <-]. cbn [fst snd]. apply Forall_app. split.
  - by eapply intoElems_plain.
  - by apply Forall_drop.
Qed.

Lemma occurrences_wf d name fs :
  Forall (fun kv => rawString kv.1 /\ wfJSON d kv.2) fs -> Forall (wfJSON d) (occurrences name fs).
Proof.
  intros Hfs. unfold occurrences. induction Hfs as [|kv fs [_ Hj] _ IH]; [constructor|]. cbn [List.filter].
  destruct (sameName name kv.1); [by constructor|done].
Qed.

Lemma Atoi_range s n : Atoi s = Some n -> in_i64 n.
Proof.
  unfold Atoi. repeat case_match; intros [= <-] || intros; try done; unfold in_i64; lia.
Qed.

(** *** Texts for examples *)

(** A text with an apostrophe for every quotation mark. *)
Fixpoint apostrophes (s : string) : string :=
  match s with
  | EmptyString => ""
  | String a s => String (if Ascii.eqb a "'"%char then Ascii.ascii_of_nat 34 else a) (apostrophes s)
  end.

Example indent_ex :
  indentText 0 (JObj [(encodeString "a", JArr [JNull; JArr []]); (encodeString "b", JObj [])])
  = joinBytes x0a (map (fun s => bytes_of (apostrophes s)) ["{"; "  'a': ["; "    null,"; "    []"; "  ],"; "  'b': {}"; "}"]).
Proof. vm_compute. reflexivity. Qed.
