(* ===== verification/GoUrl.v ===== *)
(** [net/url.Parse]: fragment, scheme, query, authority and path of a URL.  What
    the authority consists of, with its rules for literal addresses, is left to a
    parameter. *)
From Stdlib Require Import Strings.Byte Strings.Ascii.
From S2P Require Import Prelude GoStrings GoText GoJson.

Local Open Scope string_scope.
Local Open Scope list_scope.
Open Scope Z_scope.

(** The fields of [*url.URL] that are set by then; [HasUser] is [User != nil]. *)
Record URL := {
  Scheme : string;
  Opaque : string;
  HasUser : bool;
  Host : string;
  Path : string;
  RawQuery : string;
  Fragment : string;
}.

(** [strings.Cut] at a byte: the text after it when there is one. *)
Fixpoint Cut (s : string) (c : ascii) : string * option string :=
  match s with
  | EmptyString => ("", None)
  | String a s => if Ascii.eqb a c then ("", Some s) else let '(b, r) := Cut s c in (String a b, r)
  end.

Definition isControl (a : ascii) : bool := let n := bz (byte_of_ascii a) in (n <? 32) || (n =? 127).

Definition schemeLetter (a : ascii) : bool :=
  let n := bz (byte_of_ascii a) in ((65 <=? n) && (n <=? 90)) || ((97 <=? n) && (n <=? 122)).

(** The text up to the colon that ends a scheme, and the rest. *)
Fixpoint splitScheme (first : bool) (s : string) : option (string * string) :=
  match s with
  | EmptyString => None
  | String a s =>
      let continue := (fun r => (String a r.1, r.2)) <$> splitScheme false s in
      if schemeLetter a then continue
      else if isDigit a || existsb (Ascii.eqb a) ["+"; "-"; "."]%char then if first then None else continue
      else if Ascii.eqb a ":"%char then Some ("", s)
      else None
  end.

(** [getScheme]; [None] is the missing scheme. *)
Definition getScheme (s : string) : option (string * string) :=
  match splitScheme true s with
  | Some (EmptyString, _) => None
  | Some r => Some r
  | None => Some ("", s)
  end.

(** [unescape] of a path or a fragment. *)
Fixpoint unescape (s : string) : option string :=
  match s with
  | EmptyString => Some ""
  | String a s' =>
      if Ascii.eqb a "%"%char then
        match s' with
        | String h (String l s'') =>
            match hexByte (byte_of_ascii h), hexByte (byte_of_ascii l) with
            | Some h, Some l => String (ascii_of_byte (zb (h * 16 + l))) <$> unescape s''
            | _, _ => None
            end
        | _ => None
        end
      else String a <$> unescape s'
  end.

Section Parse.
(** Whether the authority has user information, and the host; [None] is an
    error. *)
Context (parseAuthority : string -> option (bool * string)).

(** [parse]; an error is [None]. *)
Definition parse (raw : string) : option URL :=
  if negb (allChars (fun a => negb (isControl a)) raw) then None
  else if raw =s "*" then
    Some {| Scheme := ""; Opaque := ""; HasUser := false; Host := ""; Path := "*"; RawQuery := ""; Fragment := "" |}
  else
    let! r := getScheme raw in
    let '(scheme, rest) := r in
    let scheme := lowerString scheme in
    let '(rest, query) := Cut rest "?"%char in
    let query := default "" query in
    if negb (HasPrefix rest "/") && negb (scheme =s "") then
      Some {| Scheme := scheme; Opaque := rest; HasUser := false; Host := ""; Path := ""; RawQuery := query; Fragment := "" |}
    else if negb (HasPrefix rest "/") && negb (noChar ":"%char (Cut rest "/"%char).1) then None
    else
      let! r := (if (negb (scheme =s "") || negb (HasPrefix rest "///")) && HasPrefix rest "//"
                 then let '(authority, path) := Cut (suffixString 2 rest) "/"%char in
                      let! r := parseAuthority authority in
                      Some (r.1, r.2, match path with Some p => String "/" p | None => "" end)
                 else Some (false, "", rest)) in
      let '(user, host, path) := r in
      let! path := unescape path in
      Some {| Scheme := scheme; Opaque := ""; HasUser := user; Host := host; Path := path; RawQuery := query; Fragment := "" |}.

Definition withFragment (f : string) (u : URL) : URL :=
  {| Scheme := Scheme u; Opaque := Opaque u; HasUser := HasUser u; Host := Host u; Path := Path u;
     RawQuery := RawQuery u; Fragment := f |}.

Definition Parse (raw : string) : option URL :=
  let '(u, frag) := Cut raw "#"%char in
  let! url := parse u in
  match default "" frag with
  | EmptyString => Some url
  | frag => (fun f => withFragment f url) <$> unescape frag
  end.
End Parse.

(** An authority that is a host of letters, digits, dots and a port. *)
Definition plainAuthority (a : string) : option (bool * string) :=
  if allChars (fun c => schemeLetter c || isDigit c || existsb (Ascii.eqb c) ["."; ":"; "-"]%char) a then Some (false, a) else None.

Example parse_url_ex :
  map (fun s => (fun u => (Scheme u, Host u, Path u, RawQuery u, Fragment u)) <$> Parse plainAuthority s)
    ["HTTP://10.0.0.5:80/a%20b?q=1#x"; "http://h?"; "http://h#"; "mailto:a"; ":a"; "1a:b"; "/p%2"; "http://h#/v1"]
  = [Some ("http", "10.0.0.5:80", "/a b", "q=1", "x"); Some ("http", "h", "", "", ""); Some ("http", "h", "", "", "");
     Some ("mailto", "", "", "", ""); None; None; None; Some ("http", "h", "", "", "/v1")].
Proof. vm_compute. reflexivity. Qed.

(** ** Lemmas *)
Lemma Cut_none s c : noChar c s = true -> Cut s c = (s, None).
Proof.
  unfold noChar. induction s as [|a s IH]; [done|]. cbn [allChars Cut]. intros [Ha Hs]%andb_prop.
  destruct (Ascii.eqb a c); [done|]. by rewrite IH.
Qed.

Lemma Cut_first s c t : noChar c s = true -> Cut (s ^^ String c t) c = (s, Some t).
Proof.
  unfold noChar. induction s as [|a s IH]; [change ("" ^^ String c t) with (String c t); cbn [Cut]; by rewrite Ascii.eqb_refl|]. rewrite append_cons. cbn [allChars Cut].
  intros [Ha Hs]%andb_prop. destruct (Ascii.eqb a c); [done|]. by rewrite IH.
Qed.

Lemma Cut_split s c b r :
  Cut s c = (b, r) -> noChar c b = true /\ s = b ^^ match r with Some r => String c r | None => "" end.
Proof.
  revert b. induction s as [|a s IH]; intros b; cbn [Cut]; [by intros [= <- <-]|].
  destruct (Ascii.eqb a c) eqn:Ha; [apply Ascii.eqb_eq in Ha as ->; by intros [= <- <-]|]. destruct (Cut s c) as [b' r'].
  intros [= <- <-]. destruct (IH b' eq_refl) as [Hb ->]. rewrite append_cons. split; [|done].
  unfold noChar in *. cbn [allChars]. by rewrite Ha.
Qed.

Lemma splitScheme_split first s x r :
  splitScheme first s = Some (x, r) -> s = x ^^ String ":" r /\ forall t, splitScheme first (x ^^ String ":" t) = Some (x, t).
Proof.
  revert first x. induction s as [|a s IH]; intros first x; cbn [splitScheme]; [done|].
  destruct (schemeLetter a) eqn:Hl.
  { destruct (splitScheme false s) as [[x' r']|] eqn:E; [|done]. intros [= <- <-]. destruct (IH _ _ E) as [-> Hx].
    split; [done|]. intros t. rewrite append_cons. cbn [splitScheme]. by rewrite Hl, Hx. }
  destruct (isDigit a || _) eqn:Hd.
  { destruct first; [done|]. destruct (splitScheme false s) as [[x' r']|] eqn:E; [|done]. intros [= <- <-].
    destruct (IH _ _ E) as [-> Hx]. split; [done|]. intros t. rewrite append_cons. cbn [splitScheme]. by rewrite Hl, Hd, Hx. }
  destruct (Ascii.eqb_spec a ":"%char) as [->|_]; [|done]. intros [= <- <-]. by split.
Qed.

Lemma splitScheme_noQuery first s x r : splitScheme first s = Some (x, r) -> noChar "?"%char x = true.
Proof.
  revert first x. induction s as [|a s IH]; intros first x; cbn [splitScheme]; [done|].
  assert (forall y, ((fun r => (String a r.1, r.2)) <$> splitScheme false s) = Some (y, r) -> Ascii.eqb a "?"%char = false -> noChar "?"%char y = true) as Hc.
  { intros y H Ha. destruct (splitScheme false s) as [[x' r']|] eqn:E; [|done]. injection H as <- <-.
    unfold noChar in *. cbn [allChars]. by rewrite Ha, (IH _ _ E). }
  destruct (schemeLetter a) eqn:Hl.
  { intros H. apply Hc; [done|]. destruct (Ascii.eqb_spec a "?"%char) as [->|]; done. }
  destruct (isDigit a || _) eqn:Hd.
  { destruct first; [done|]. intros H. apply Hc; [done|]. destruct (Ascii.eqb_spec a "?"%char) as [->|]; done. }
  destruct (Ascii.eqb a ":"%char); [|done]. by intros [= <- <-].
Qed.

(** Escapes take one or three characters. *)
Lemma unescape_ind (P : string -> Prop) :
  P "" -> (forall h l s, P s -> P (String "%" (String h (String l s)))) -> (forall a, P (String "%" (String a ""))) -> P "%" ->
  (forall a s, Ascii.eqb a "%"%char = false -> P s -> P (String a s)) -> forall s, P s.
Proof.
  intros H0 H3 H2 H1 Ha s. remember (String.length s) as n eqn:Hn. assert (String.length s <= n)%nat as Hlen by lia. clear Hn.
  revert s Hlen. induction n as [|n IH]; intros s Hlen; (destruct s as [|a s]; [done|cbn [String.length] in Hlen]); [lia|].
  destruct (Ascii.eqb a "%"%char) eqn:E; [|apply Ha; [done|apply IH; lia]]. apply Ascii.eqb_eq in E as ->.
  destruct s as [|h [|l s]]; [done..|]. apply H3, IH. cbn [String.length] in Hlen. lia.
Qed.

Lemma unescape_append s t a : unescape s = Some a -> unescape (s ^^ t) = (fun b => a ^^ b) <$> unescape t.
Proof.
  revert a. induction s as [|h l s IH|c| |c s Hc IH] using unescape_ind; intros a; rewrite ?append_cons.
  - intros [= <-]. change ("" ^^ t) with t. by destruct (unescape t).
  - cbn [unescape]. rewrite Ascii.eqb_refl. destruct (hexByte (byte_of_ascii h)); [|done]. destruct (hexByte (byte_of_ascii l)); [|done].
    destruct (unescape s) as [a'|]; [|done]. intros [= <-]. rewrite (IH a' eq_refl). by destruct (unescape t).
  - done.
  - done.
  - cbn [unescape]. rewrite Hc. destruct (unescape s) as [a'|]; [|done]. intros [= <-]. rewrite (IH a' eq_refl). by destruct (unescape t).
Qed.

Definition slashes (t : string) : bool := allChars (fun a => Ascii.eqb a "/"%char) t.

Lemma unescape_slashes t : slashes t = true -> unescape t = Some t.
Proof.
  unfold slashes. induction t as [|a t IH]; [done|]. cbn [allChars]. intros [->%Ascii.eqb_eq Ht]%andb_prop. cbn [unescape].
  by rewrite (IH Ht).
Qed.

(** A slash is no part of an escape. *)
Lemma unescape_before s t p :
  slashes t = true -> unescape (s ^^ t) = Some p -> exists a, unescape s = Some a /\ p = a ^^ t.
Proof.
  intros Ht. revert p. induction s as [|h l s IH|c| |c s Hc IH] using unescape_ind; intros p; rewrite ?append_cons.
  - change ("" ^^ t) with t. rewrite (unescape_slashes t Ht). intros [= <-]. by exists "".
  - cbn [unescape]. rewrite Ascii.eqb_refl. destruct (hexByte (byte_of_ascii h)); [|done]. destruct (hexByte (byte_of_ascii l)); [|done].
    destruct (unescape (s ^^ t)) as [p'|]; [|done]. intros [= <-]. destruct (IH p' eq_refl) as (a & -> & ->).
    eexists. split; [reflexivity|]. by rewrite append_cons.
  - destruct t as [|b t]; [done|]. unfold slashes in Ht. cbn [allChars] in Ht. apply andb_prop in Ht as [->%Ascii.eqb_eq _].
    change ("" ^^ String "/" t) with (String "/" t). cbn [unescape]. rewrite Ascii.eqb_refl. by destruct (hexByte (byte_of_ascii c)).
  - destruct t as [|b t]; [done|]. unfold slashes in Ht. cbn [allChars] in Ht. apply andb_prop in Ht as [->%Ascii.eqb_eq _].
    change ("" ^^ String "/" t) with (String "/" t). cbn [unescape]. rewrite Ascii.eqb_refl. by destruct t.
  - cbn [unescape]. rewrite Hc. destruct (unescape (s ^^ t)) as [p'|]; [|done]. intros [= <-]. destruct (IH p' eq_refl) as (a & -> & ->).
    eexists. split; [reflexivity|]. by rewrite append_cons.
Qed.

Lemma unescape_nonempty s : unescape s = Some "" -> s = "".
Proof.
  destruct s as [|a s]; [done|]. cbn [unescape]. destruct (Ascii.eqb a "%"%char); [|by destruct (unescape s)].
  destruct s as [|h [|l s]]; try done. destruct (hexByte _); [|done]. destruct (hexByte _); [|done]. by destruct (unescape s).
Qed.

(** A character is trimmed from the end. *)
Lemma TrimRight_append s t c :
  TrimRight (s ^^ t) c = if TrimRight t c =s "" then TrimRight s c else s ^^ TrimRight t c.
Proof.
  induction s as [|a s IH]; [change ("" ^^ t) with t; change ("" ^^ TrimRight t c) with (TrimRight t c); by destruct (String.eqb_spec (TrimRight t c) "") as [->|]|]. rewrite append_cons. cbn [TrimRight].
  rewrite IH. destruct (String.eqb_spec (TrimRight t c) "") as [_|Ht]; [done|].
  replace (s ^^ TrimRight t c =s "") with false; [done|]. symmetry. apply String.eqb_neq. destruct s; [done|]. by rewrite append_cons.
Qed.

Lemma TrimRight_none s c : noChar c s = true -> TrimRight s c = s.
Proof.
  unfold noChar. induction s as [|a s IH]; [done|]. cbn [allChars TrimRight]. intros [Ha Hs]%andb_prop. rewrite IH by done.
  destruct (Ascii.eqb a c); [done|]. by rewrite andb_false_r.
Qed.

Lemma TrimRight_split s c : exists t, s = TrimRight s c ^^ t /\ allChars (fun a => Ascii.eqb a c) t = true.
Proof.
  induction s as [|a s (t & Hs & Ht)]; [by exists ""|]. cbn [TrimRight].
  destruct (String.eqb_spec (TrimRight s c) "") as [E|_]; cbn [andb].
  - destruct (Ascii.eqb a c) eqn:Ha.
    + exists (String a t). rewrite E in Hs. cbn in Hs. subst s. split; [done|]. cbn [allChars]. by rewrite Ha.
    + exists t. split; [|done]. rewrite append_cons. by f_equal.
  - exists t. split; [|done]. rewrite append_cons. by f_equal.
Qed.

Lemma HasPrefix_split p s : HasPrefix s p = true -> exists t, s = p ^^ t.
Proof.
  unfold HasPrefix. revert s. induction p as [|a p IH]; intros s; [by exists s|]. destruct s as [|b s]; [done|].
  cbn [String.prefix]. destruct (Ascii.ascii_dec a b) as [->|]; [|done]. intros [t ->]%IH. by exists t.
Qed.

(** *** URLs with a scheme and an authority *)

Definition queryPart (q : option string) : string := match q with Some q => String "?" q | None => "" end.

Record absolute (raw x auth p : string) (q : option string) : Prop := {
  ab_text : raw = x ^^ String ":" (("//" ^^ auth ^^ p) ^^ queryPart q);
  ab_scheme : forall t, splitScheme true (x ^^ String ":" t) = Some (x, t);
  ab_named : x <> "";
  ab_auth : noChar "/"%char auth = true;
  ab_path : p = "" \/ HasPrefix p "/" = true;
  ab_noquery : noChar "?"%char ("//" ^^ auth ^^ p) = true;
  ab_control : allChars (fun a => negb (isControl a)) raw = true;
}.

Lemma Cut_query s q : noChar "?"%char s = true -> Cut (s ^^ queryPart q) "?"%char = (s, q).
Proof. intros Hs. destruct q as [q|]; cbn [queryPart]; [by apply Cut_first|]. rewrite append_nil_r. by apply Cut_none. Qed.

Lemma lower_nonempty s : s <> "" -> (lowerString s =s "") = false.
Proof. by destruct s. Qed.

Section Absolute.
Context (parseAuthority : string -> option (bool * string)).

Lemma parse_absolute raw x auth p q :
  absolute raw x auth p q ->
  parse parseAuthority raw =
    let! r := parseAuthority auth in
    let! path := unescape p in
    Some {| Scheme := lowerString x; Opaque := ""; HasUser := r.1; Host := r.2; Path := path; RawQuery := default "" q; Fragment := "" |}.
Proof.
  intros [Htext Hx Hn Ha Hp Hq Hc]. unfold parse. rewrite Hc. cbn [negb].
  destruct (String.eqb_spec raw "*") as [E|_].
  { exfalso. rewrite Htext in E. apply (f_equal String.length) in E. rewrite length_append in E.
    change (String.length (String ":" ?s)) with (S (String.length s)) in E. destruct x; [done|]. cbn [String.length] in E. lia. }
  unfold getScheme. rewrite Htext, Hx. destruct x as [|a x]; [done|]. cbn [mbind option_bind].
  rewrite (Cut_query _ q Hq), lower_nonempty by done. cbn [negb orb andb].
  assert (HasPrefix ("//" ^^ auth ^^ p) "//" = true) as -> by (rewrite append_assoc; apply HasPrefix_append).
  assert (HasPrefix ("//" ^^ auth ^^ p) "/" = true) as -> by done. cbn [negb andb].
  change (suffixString 2 ("//" ^^ auth ^^ p)) with (auth ^^ p).
  assert (Cut (auth ^^ p) "/"%char = (auth, match p with String _ p => Some p | "" => None end)) as ->.
  { destruct Hp as [->|[p' ->]%HasPrefix_split]; [rewrite append_nil_r; by apply Cut_none|by apply Cut_first]. }
  assert (match match p with String _ p => Some p | "" => None end with Some p => String "/" p | None => "" end = p) as ->
    by (by destruct Hp as [->|[p' ->]%HasPrefix_split]).
  destruct (parseAuthority auth) as [[u h]|]; [|done]. cbn. by destruct (unescape p).
Qed.

Lemma parse_absolute_inv raw u :
  parse parseAuthority raw = Some u -> Scheme u <> "" -> Host u <> "" -> exists x auth p q, absolute raw x auth p q.
Proof.
  unfold parse. destruct (allChars _ raw) eqn:Hc; [|done]. cbn [negb]. destruct (raw =s "*"); [by intros [= <-]|].
  unfold getScheme. destruct (splitScheme true raw) as [[x r]|] eqn:Hx.
  2:{ cbn. destruct (Cut raw "?"%char) as [rest q]. intros H Hs _. exfalso. revert H. cbn. rewrite andb_false_r.
      destruct (_ && _); [done|]. intros H. apply bind_Some in H as ([[us h] p] & _ & H). apply bind_Some in H as (? & _ & [= <-]). done. }
  destruct x as [|a x]; [done|]. set (x' := String a x) in *. cbn [mbind option_bind].
  destruct (splitScheme_split _ _ _ _ Hx) as [-> Hx']. destruct (Cut r "?"%char) as [rest q] eqn:Hq.
  apply Cut_split in Hq as [Hq Hr]. rewrite lower_nonempty by done. cbn [negb orb andb].
  destruct (HasPrefix rest "/") eqn:H1; cbn [negb andb]; [|by intros [= <-]].
  destruct (HasPrefix rest "//") eqn:H2.
  2:{ cbn. intros H _ Hh. apply bind_Some in H as (? & _ & [= <-]). done. }
  apply HasPrefix_split in H2 as [s ->]. change (suffixString 2 ("//" ^^ s)) with s.
  destruct (Cut s "/"%char) as [auth p] eqn:Ha. apply Cut_split in Ha as [Ha Hs]. intros _ _ _.
  exists x', auth, (match p with Some p => String "/" p | None => "" end), q. split; try done.
  - rewrite Hr, Hs, append_assoc. by destruct q.
  - destruct p as [p|]; [right; by destruct p|by left].
  - by rewrite append_assoc, <- Hs.
Qed.
End Absolute.

(** ** Query strings: [url.ParseQuery], [Values.Add], [Values.Get] and
    [Values.Encode] *)

(** The characters that a query component keeps. *)
Definition unreserved (a : ascii) : bool :=
  schemeLetter a || isDigit a || existsb (Ascii.eqb a) ["-"; "_"; "."; "~"]%char.

Definition escapeChar (a : ascii) : string :=
  if unreserved a then String a ""
  else if Ascii.eqb a " "%char then "+"
  else let n := bz (byte_of_ascii a) in "%" ^^ hexDigit true (n / 16) ^^ hexDigit true n.

Fixpoint QueryEscape (s : string) : string :=
  match s with EmptyString => "" | String a s => escapeChar a ^^ QueryEscape s end.

Fixpoint QueryUnescape (s : string) : option string :=
  match s with
  | EmptyString => Some ""
  | String a s' =>
      if Ascii.eqb a "%"%char then
        match s' with
        | String h (String l s'') =>
            match hexByte (byte_of_ascii h), hexByte (byte_of_ascii l) with
            | Some h, Some l => String (ascii_of_byte (zb (h * 16 + l))) <$> QueryUnescape s''
            | _, _ => None
            end
        | _ => None
        end
      else String (if Ascii.eqb a "+"%char then " "%char else a) <$> QueryUnescape s'
  end.

(** A [url.Values], by key. *)
Notation Values := (list (string * list string)) (only parsing).

Fixpoint Values_Add (m : Values) (key value : string) : Values :=
  match m with
  | [] => [(key, [value])]
  | (k, vs) :: m' =>
      match String.compare key k with
      | Eq => (k, vs ++ [value]) :: m'
      | Lt => (key, [value]) :: m
      | Gt => (k, vs) :: Values_Add m' key value
      end
  end.

Definition Values_Get (m : Values) (key : string) : string :=
  match find (fun kv => kv.1 =s key) m with Some (_, v :: _) => v | _ => "" end.

(** One part between ampersands; a malformed one is skipped. *)
Definition addPart (m : Values) (part : string) : Values :=
  if negb (noChar ";"%char part) || (part =s "") then m
  else
    let '(key, value) := Cut part "="%char in
    match QueryUnescape key, QueryUnescape (default "" value) with
    | Some key, Some value => Values_Add m key value
    | _, _ => m
    end.

(** [u.Query()] *)
Definition ParseQuery (query : string) : Values := foldl addPart [] (Split query "&"%char).

(** The keys in order, each with its values in order. *)
Definition Values_Encode (m : Values) : string :=
  String.concat "&" (concat (map (fun kv => map (fun v => QueryEscape kv.1 ^^ "=" ^^ QueryEscape v) kv.2) m)).

Example query_ex :
  Values_Encode (Values_Add (ParseQuery "b=2&a=%31&x;y&c=%zz&a=1+3") "a" "p q/&") = "a=1&a=1+3&a=p+q%2F%26&b=2".
Proof. vm_compute. reflexivity. Qed.

(** A component is read back, whatever its bytes. *)
Lemma escapeChar_read a t : QueryUnescape (escapeChar a ^^ t) = String a <$> QueryUnescape t.
Proof. destruct a as [[] [] [] [] [] [] [] []]; reflexivity. Qed.

Lemma QueryUnescape_Escape s : QueryUnescape (QueryEscape s) = Some s.
Proof. induction s as [|a s IH]; [done|]. cbn [QueryEscape]. by rewrite escapeChar_read, IH. Qed.

Lemma QueryEscape_noChar c s :
  (forall a, noChar c (escapeChar a) = true) -> noChar c (QueryEscape s) = true.
Proof. intros Hc. induction s as [|a s IH]; [done|]. cbn [QueryEscape]. by rewrite noChar_append, Hc, IH. Qed.

Lemma QueryEscape_marks s :
  noChar "&"%char (QueryEscape s) = true /\ noChar "="%char (QueryEscape s) = true /\ noChar ";"%char (QueryEscape s) = true.
Proof. split_and!; apply QueryEscape_noChar; intros [[] [] [] [] [] [] [] []]; reflexivity. Qed.

Lemma QueryEscape_plain s : allChars unreserved s = true -> QueryEscape s = s.
Proof.
  induction s as [|a s IH]; [done|]. cbn [allChars QueryEscape]. intros [Ha Hs]%andb_prop.
  unfold escapeChar. by rewrite Ha, (IH Hs).
Qed.

(** A part that was written is read back. *)
Lemma addPart_written m key value :
  addPart m (QueryEscape key ^^ "=" ^^ QueryEscape value) = Values_Add m key value.
Proof.
  unfold addPart. rewrite ?append_assoc. change ("=" ^^ QueryEscape value) with (String "=" (QueryEscape value)).
  destruct (QueryEscape_marks key) as (_ & K1 & K2), (QueryEscape_marks value) as (_ & _ & V2).
  assert (noChar ";"%char (QueryEscape key ^^ String "=" (QueryEscape value)) = true) as ->
    by (by rewrite noChar_append, K2).
  assert ((QueryEscape key ^^ String "=" (QueryEscape value) =s "") = false) as ->
    by (apply String.eqb_neq; intros E; apply (f_equal String.length) in E; rewrite length_append in E; cbn in E; lia).
  cbn [negb andb orb]. rewrite (Cut_first _ _ _ K1). rewrite QueryUnescape_Escape.
  change (default "" (Some (QueryEscape value))) with (QueryEscape value). by rewrite QueryUnescape_Escape.
Qed.
