(* ===== verification/GoTime.v ===== *)
(** Go's [time.Time] and [time.Duration].

    A [Time] is the number of nanoseconds since January 1 of year 1 UTC; the
    zero value is that instant, which is what [IsZero] tests.  A [Duration] is
    an int64 number of nanoseconds and [Sub] saturates, as in package time. *)
From S2P Require Import Prelude GoFloat.

Open Scope Z_scope.

Notation Time := Z (only parsing).
Notation Duration := Z (only parsing).

Definition zeroTime : Time := 0.
Definition IsZero (t : Time) : bool := t =? 0.
Definition Before (t u : Time) : bool := t <? u.

Definition Second : Duration := 1000000000.
Definition Millisecond : Duration := 1000000.

(** 1970-01-01T00:00:00Z. *)
Definition unixEpoch : Time := 62135596800 * Second.

Definition UnixNano (t : Time) : Z := i64 (t - unixEpoch).

(** [time.Unix(sec, nsec)]: [nsec] is normalised to [0, 1e9), and the seconds
    since year 1 are an int64. *)
Definition time_Unix (sec nsec : Z) : Time :=
  i64 (sec + nsec / Second + 62135596800) * Second + nsec mod Second.

(** [t.Sub(u)] *)
Definition Sub (t u : Time) : Duration := Z.max MinInt64 (Z.min MaxInt64 (t - u)).

(** [d.Seconds()]: whole seconds plus the remainder over 1e9, in float64. *)
Definition Seconds (d : Duration) : float64 :=
  fadd (f_of_Z (Z.quot d Second)) (fdiv (f_of_Z (Z.rem d Second)) (f_of_Z 1000000000)).

Lemma Sub_range t u : in_i64 (Sub t u).
Proof. unfold Sub. int_lits. lia. Qed.

Lemma Sub_small t u : in_i64 (t - u) -> Sub t u = t - u.
Proof. unfold Sub. int_lits. lia. Qed.

(** Saturation keeps the order: an elapsed time reaches an int64 bound exactly
    when the exact difference does. *)
Lemma Sub_ge t u d : MinInt64 < d <= MaxInt64 -> (d <= Sub t u <-> d <= t - u).
Proof. unfold Sub. int_lits. lia. Qed.

Lemma Sub_mono t t' u : t <= t' -> Sub t u <= Sub t' u.
Proof. unfold Sub. lia. Qed.

Lemma UnixNano_inj t u :
  in_i64 (t - unixEpoch) -> in_i64 (u - unixEpoch) -> UnixNano t = UnixNano u -> t = u.
Proof. unfold UnixNano. intros Ht Hu. rewrite !i64_small by done. lia. Qed.
