(* ===== verification/GoParse.v ===== *)
(** More of Go's standard library for the collectors: hexadecimal
    [strconv.ParseUint], [bufio.Scanner] over lines, [netip.Addr.String] and
    [time.ParseDuration]. *)
From S2P Require Import Prelude GoStrings GoText GoFloat GoTime.
From Stdlib Require Import Strings.Ascii.
From Stdlib Require Strings.String.

Local Open Scope string_scope.
Local Open Scope list_scope.
Open Scope Z_scope.

(** ** [strconv.ParseUint(s, 16, bits)]

    The program ignores the error and uses the value: 0 for a syntax error,
    the largest value for one out of range. *)
Definition hexVal (a : Ascii.ascii) : option Z :=
  let n := Z.of_nat (Ascii.nat_of_ascii a) in
  if (48 <=? n) && (n <=? 57) then Some (n - 48)
  else if (97 <=? n) && (n <=? 102) then Some (n - 87)
  else if (65 <=? n) && (n <=? 70) then Some (n - 55)
  else None.

Fixpoint parseHexFrom (max : Z) (s : string) (n : Z) : Z :=
  match s with
  | EmptyString => n
  | String a s =>
      match hexVal a with
      | None => 0
      | Some d => let n1 := n * 16 + d in if max <? n1 then max else parseHexFrom max s n1
      end
  end.

Definition ParseHex (bits : Z) (s : string) : Z :=
  if s =s "" then 0 else parseHexFrom (2 ^ bits - 1) s 0.

Example ParseHex_ex : map (ParseHex 16) ["0050"; "01bB"; "FFFFF"; "12g4"; ""; "10000z"] = [80; 443; 65535; 0; 0; 65535].
Proof. vm_compute. reflexivity. Qed.

(** ** [bufio.Scanner] with [ScanLines]

    The text is split at newlines, a trailing carriage return is dropped, the
    rest after the last newline is a line when it is not empty.  A line that
    does not fit the 64 KiB buffer ends the scan with [ErrTooLong]. *)
Definition MaxScanTokenSize : Z := 65536.
Definition ErrTooLong : error := ErrNew "bufio.Scanner: token too long".

Definition dropCR (s : string) : string :=
  match LastIndexByte s (ascii_of_nat 13) with
  | Some i => if (S i =? String.length s)%nat then prefixString i s else s
  | None => s
  end.

(** [readErr]: the error the reader ends with other than [io.EOF]. *)
Fixpoint scanFrom (lines : list string) (readErr : option error) : list string * option error :=
  match lines with
  | [] => ([], readErr)
  | l :: ls =>
      if match ls with [] => l =s "" | _ => false end then ([], readErr)
      else if MaxScanTokenSize <=? go_len l then ([], Some ErrTooLong)
      else let '(ts, e) := scanFrom ls readErr in (dropCR l :: ts, e)
  end.

Definition scanLines (data : string) (readErr : option error) : list string * option error :=
  scanFrom (Split data (ascii_of_nat 10)) readErr.

Example scanLines_ex :
  scanLines ("ab" ^^ string_of [x0d; x0a] ^^ string_of [x0a] ^^ "c") None = (["ab"; ""; "c"], None).
Proof. vm_compute. reflexivity. Qed.

(** ** [netip.AddrFrom16(ip).String()] *)

(** The eight 16-bit groups of 16 bytes. *)
Fixpoint v6groups (b : list byte) : list Z :=
  match b with
  | x :: y :: b => (bz x * 256 + bz y) :: v6groups b
  | _ => []
  end.

(** Lower-case hexadecimal without leading zeros. *)
Definition appendHex (x : Z) : string :=
  (if 4096 <=? x then hexDigit false (x / 4096) else "")
  ^^ (if 256 <=? x then hexDigit false (x / 256) else "")
  ^^ (if 16 <=? x then hexDigit false (x / 16) else "")
  ^^ hexDigit false x.

(** How many groups are zero from here on. *)
Fixpoint zeroRun (g : list Z) : nat :=
  match g with
  | 0 :: g => S (zeroRun g)
  | _ => 0%nat
  end.

(** The first longest run of at least two zero groups: its start and end;
    [i] is the index of the head of [g]. *)
Fixpoint longestZeros (g : list Z) (i : nat) (best : nat * nat) : nat * nat :=
  match g with
  | [] => best
  | _ :: g' =>
      let l := zeroRun g in
      longestZeros g' (S i)
        (if (2 <=? l)%nat && (best.2 - best.1 <? l)%nat then (i, (i + l)%nat) else best)
  end.

Definition is4In6 (b : list byte) : bool :=
  bool_decide (map bz (take 12 b) = [0; 0; 0; 0; 0; 0; 0; 0; 0; 0; 255; 255]).

Definition Addr16_String (b : list byte) : string :=
  if is4In6 b then "::ffff:" ^^ IPv4_String (drop 12 b)
  else
    let g := v6groups b in
    match longestZeros g 0 (0, 0)%nat with
    | (_, 0)%nat => String.concat ":" (map appendHex g)
    | (s, e) => String.concat ":" (map appendHex (take s g)) ^^ "::" ^^ String.concat ":" (map appendHex (drop e g))
    end.

Example addr_ex :
  map Addr16_String
    [ replicate 16 x00;
      replicate 15 x00 ++ [x01];
      [xfe; x80] ++ replicate 6 x00 ++ [x0a; xbc; x00; x00; x00; x00; x00; x01];
      replicate 10 x00 ++ [xff; xff; x0a; x00; x00; x01];
      [x20; x01; x0d; xb8; x00; x00; x00; x01; x00; x00; x00; x00; x00; x00; x00; x00] ]
  = ["::"; "::1"; "fe80::abc:0:0:1"; "::ffff:10.0.0.1"; "2001:db8:0:1::"].
Proof. vm_compute. reflexivity. Qed.

(** ** [time.ParseDuration]

    [None] is any of its errors. *)

(** Digits up to 2^63; [None] on overflow. *)
Fixpoint leadingInt (s : string) (x : Z) : option (Z * string) :=
  match s with
  | EmptyString => Some (x, s)
  | String a r =>
      match digitVal a with
      | None => Some (x, s)
      | Some d =>
          if 2 ^ 63 / 10 <? x then None
          else let x := x * 10 + d in if 2 ^ 63 <? x then None else leadingInt r x
      end
  end.

(** Digits after the point; those that would overflow are ignored. *)
Fixpoint leadingFraction (s : string) (x : Z) (scale : float64) (overflow : bool) : Z * float64 * string :=
  match s with
  | EmptyString => (x, scale, s)
  | String a r =>
      match digitVal a with
      | None => (x, scale, s)
      | Some d =>
          if overflow then leadingFraction r x scale true
          else if (2 ^ 63 - 1) / 10 <? x then leadingFraction r x scale true
          else let y := x * 10 + d in
               if 2 ^ 63 <? y then leadingFraction r x scale true
               else leadingFraction r y (fmul scale (f_of_Z 10)) false
      end
  end.

(** The unit: everything up to the next digit or point. *)
Fixpoint takeUnit (s : string) : string * string :=
  match s with
  | EmptyString => ("", "")
  | String a r =>
      if Ascii.eqb a "." || bool_decide (digitVal a <> None) then ("", s)
      else let '(u, rest) := takeUnit r in (String a u, rest)
  end.

Definition unitMap (u : string) : option Z :=
  if u =s "ns" then Some 1
  else if u =s "us" then Some 1000
  else if u =s string_of [xc2; xb5; x73] then Some 1000
  else if u =s string_of [xce; xbc; x73] then Some 1000
  else if u =s "ms" then Some 1000000
  else if u =s "s" then Some 1000000000
  else if u =s "m" then Some 60000000000
  else if u =s "h" then Some 3600000000000
  else None.

(** One turn of the loop: a number with its unit, as nanoseconds, and the
    rest of the text. *)
Definition parseTerm (s : string) : option (Z * string) :=
  match s with
  | EmptyString => None
  | String a _ =>
      if negb (Ascii.eqb a "." || bool_decide (digitVal a <> None)) then None
      else
        let! (v, s1) := leadingInt s 0 in
        let pre := negb (String.length s1 =? String.length s)%nat in
        let '(f, scale, s2, post) :=
          match s1 with
          | String b r =>
              if Ascii.eqb b "." then
                let '(f, scale, s2) := leadingFraction r 0 (f_of_Z 1) false in
                (f, scale, s2, negb (String.length s2 =? String.length r)%nat)
              else (0, f_of_Z 1, s1, false)
          | EmptyString => (0, f_of_Z 1, s1, false)
          end in
        if negb pre && negb post then None
        else
          let '(u, s3) := takeUnit s2 in
          if u =s "" then None
          else
            let! unit := unitMap u in
            if 2 ^ 63 / unit <? v then None
            else
              let v := u64 (v * unit) in
              if 0 <? f then
                let v := u64 (v + u64 (f_trunc (fmul (f_of_Z f) (fdiv (f_of_Z unit) scale)))) in
                if 2 ^ 63 <? v then None else Some (v, s3)
              else Some (v, s3)
  end.

(** [fuel] is the length of the text: every turn consumes some of it. *)
Fixpoint parseTerms (fuel : nat) (s : string) (d : Z) : option Z :=
  match s, fuel with
  | EmptyString, _ => Some d
  | _, O => None
  | _, S fuel =>
      let! (v, s) := parseTerm s in
      let d := u64 (d + v) in
      if 2 ^ 63 <? d then None else parseTerms fuel s d
  end.

Definition ParseDuration (s : string) : option Duration :=
  let '(neg, s) := match s with
                   | String a r => if Ascii.eqb a "-" then (true, r) else if Ascii.eqb a "+" then (false, r) else (false, s)
                   | EmptyString => (false, s)
                   end in
  if s =s "0" then Some 0
  else if s =s "" then None
  else
    let! d := parseTerms (String.length s) s 0 in
    if (neg : bool) then Some (i64 (- i64 d))
    else if 2 ^ 63 - 1 <? d then None else Some (i64 d).

Example ParseDuration_ex :
  map ParseDuration ["30s"; "1h15m30.918s"; "-1.5h"; "0"; "5"; "10x"; ".5s"; "1.s"; "."; "2562047h48m"; "+3us"; "1 s"; "-9223372036854775808ns"]
  = [Some 30000000000; Some 4530918000000; Some (-5400000000000); Some 0; None; None; Some 500000000; Some 1000000000;
     None; None; Some 3000; None; Some (- 2 ^ 63)].
Proof. vm_compute. reflexivity. Qed.

(** ** The fuel of [ParseDuration] *)
Lemma leadingInt_len s x v r : leadingInt s x = Some (v, r) -> (String.length r <= String.length s)%nat.
Proof.
  revert x. induction s as [|a s IH]; intros x; cbn [leadingInt]; [by intros [= _ <-]|].
  destruct (digitVal a); [|by intros [= _ <-]]. destruct (_ <? x); [done|]. cbv zeta.
  destruct (_ <? _); [done|]. intros H%IH. cbn [String.length]. lia.
Qed.

Lemma leadingFraction_len s x sc o v sc' r :
  leadingFraction s x sc o = (v, sc', r) -> (String.length r <= String.length s)%nat.
Proof.
  revert x sc o. induction s as [|a s IH]; intros x sc o; cbn [leadingFraction]; [by intros [= _ _ <-]|].
  destruct (digitVal a); [|by intros [= _ _ <-]]. cbv zeta. cbn [String.length].
  repeat (match goal with |- context [if ?b then _ else _] => destruct b end); intros H%IH; lia.
Qed.

Lemma takeUnit_len s u r : takeUnit s = (u, r) -> String.length s = (String.length u + String.length r)%nat.
Proof.
  revert u r. induction s as [|a s IH]; intros u r; cbn [takeUnit]; [by intros [= <- <-]|].
  destruct (_ || _); [by intros [= <- <-]|]. destruct (takeUnit s) as [u' r'] eqn:E. intros [= <- <-].
  cbn [String.length]. by rewrite (IH _ _ eq_refl).
Qed.

Lemma parseTerm_len s v r : parseTerm s = Some (v, r) -> (String.length r < String.length s)%nat.
Proof.
  unfold parseTerm. destruct s as [|a s0] eqn:Es; [done|]. rewrite <- Es. clear Es.
  destruct (negb _); [done|]. destruct (leadingInt s 0) as [[v1 s1]|] eqn:El; cbn [mbind option_bind]; [|done].
  apply leadingInt_len in El. cbv zeta.
  set (frac := match s1 with EmptyString => _ | _ => _ end).
  assert (forall f sc s2 post, frac = (f, sc, s2, post) -> (String.length s2 <= String.length s1)%nat) as Hfrac.
  { intros f sc s2 post. unfold frac. destruct s1 as [|b r1]; [by intros [= _ _ <- _]|].
    destruct (Ascii.eqb b "."); [|by intros [= _ _ <- _]].
    destruct (leadingFraction r1 0 (f_of_Z 1) false) as [[f' sc'] s2'] eqn:Ef. intros [= _ _ <- _].
    apply leadingFraction_len in Ef. cbn [String.length]. lia. }
  destruct frac as [[[f sc] s2] post]. specialize (Hfrac _ _ _ _ eq_refl).
  destruct (_ && _); [done|]. destruct (takeUnit s2) as [u s3] eqn:Eu. apply takeUnit_len in Eu.
  destruct u as [|c u]; [done|]. change (String c u =s "") with false. cbv iota.
  destruct (unitMap _) as [unit|]; cbn [mbind option_bind]; [|done]. cbn [String.length] in Eu.
  repeat (match goal with |- context [if ?b then _ else _] => destruct b end); try done; intros [= _ <-]; lia.
Qed.

(** The fuel is enough: more of it changes nothing. *)
Lemma parseTerms_fuel fuel s d :
  (String.length s <= fuel)%nat -> parseTerms fuel s d = parseTerms (String.length s) s d.
Proof.
  revert s d. induction fuel as [fuel IH] using lt_wf_ind. intros s d Hle.
  destruct s as [|a s]; [by destruct fuel|]. destruct fuel as [|fuel]; [cbn in Hle; lia|].
  cbn [String.length parseTerms] in *. destruct (parseTerm (String a s)) as [[v r]|] eqn:E; cbn [mbind option_bind]; [|done].
  apply parseTerm_len in E. cbn [String.length] in E. destruct (_ <? _); [done|].
  rewrite (IH fuel) by lia. rewrite (IH (String.length s)) by lia. done.
Qed.

(** ** Hexadecimal round trips *)

Definition isHex (a : Ascii.ascii) : bool := match hexVal a with Some _ => true | None => false end.

Lemma isHex_word s : allChars isHex s = true -> allChars wordChar s = true.
Proof. apply allChars_impl. intros a. destruct a as [[] [] [] [] [] [] [] []]; vm_compute; congruence. Qed.

Lemma isHex_noChar c s : isHex c = false -> allChars isHex s = true -> noChar c s = true.
Proof. intros Hc. apply allChars_impl. intros a Ha. destruct (Ascii.eqb_spec a c); [congruence|done]. Qed.

Lemma hexDigit_char u z : exists a, hexDigit u z = String a EmptyString /\ hexVal a = Some (z mod 16) /\ isHex a = true.
Proof.
  unfold hexDigit. pose proof (Z.mod_pos_bound z 16 ltac:(lia)) as Hm. revert Hm. generalize (z mod 16) as d. intros d Hd.
  assert (exists n, d = Z.of_nat n /\ (n < 16)%nat) as (n & -> & Hn) by (exists (Z.to_nat d); lia).
  rewrite Nat2Z.id. do 16 (destruct n as [|n]; [destruct u; eexists; vm_compute; done|]). lia.
Qed.

Lemma parseHex_digit max u z s n :
  parseHexFrom max (hexDigit u z ^^ s) n =
  (let n1 := n * 16 + z mod 16 in if max <? n1 then max else parseHexFrom max s n1).
Proof.
  destruct (hexDigit_char u z) as (a & -> & Hv & _).
  change (String a "" ^^ s) with (String a s). cbn [parseHexFrom]. by rewrite Hv.
Qed.

(** Two digits of a byte. *)
Definition HEX02 (b : byte) : string := hexDigit true (bz b / 16) ^^ hexDigit true (bz b).

Lemma parseHex_byte max b s n :
  0 <= n -> n * 256 + bz b <= max -> parseHexFrom max (HEX02 b ^^ s) n = parseHexFrom max s (n * 256 + bz b).
Proof.
  intros Hn Hm. pose proof (bz_range b) as Hb. unfold HEX02. rewrite append_assoc, parseHex_digit. cbv zeta.
  assert (bz b / 16 mod 16 = bz b / 16) as -> by (apply Z.mod_small; split; [apply Z.div_pos|apply Z.div_lt_upper_bound]; lia).
  pose proof (Z.div_mod (bz b) 16 ltac:(lia)). pose proof (Z.mod_pos_bound (bz b) 16 ltac:(lia)).
  destruct (Z.ltb_spec max (n * 16 + bz b / 16)); [lia|]. rewrite parseHex_digit. cbv zeta.
  destruct (Z.ltb_spec max ((n * 16 + bz b / 16) * 16 + bz b mod 16)); [lia|]. f_equal. lia.
Qed.

Lemma HEX02_shape b : String.length (HEX02 b) = 2%nat /\ allChars isHex (HEX02 b) = true.
Proof.
  unfold HEX02. destruct (hexDigit_char true (bz b / 16)) as (a & -> & _ & Ha), (hexDigit_char true (bz b)) as (a' & -> & _ & Ha').
  rewrite length_append, allChars_append. cbn [allChars String.length]. by rewrite Ha, Ha'.
Qed.

(** A 32-bit word of memory printed as a number on a little-endian machine. *)
Definition wordHex (b0 b1 b2 b3 : byte) : string := HEX02 b3 ^^ HEX02 b2 ^^ HEX02 b1 ^^ HEX02 b0.

Lemma wordHex_shape b0 b1 b2 b3 :
  String.length (wordHex b0 b1 b2 b3) = 8%nat /\ allChars isHex (wordHex b0 b1 b2 b3) = true.
Proof.
  unfold wordHex. rewrite !length_append, !allChars_append.
  destruct (HEX02_shape b0) as [-> ->], (HEX02_shape b1) as [-> ->], (HEX02_shape b2) as [-> ->], (HEX02_shape b3) as [-> ->].
  done.
Qed.

Lemma ParseHex_word b0 b1 b2 b3 :
  ParseHex 32 (wordHex b0 b1 b2 b3) = ((bz b3 * 256 + bz b2) * 256 + bz b1) * 256 + bz b0.
Proof.
  pose proof (bz_range b0). pose proof (bz_range b1). pose proof (bz_range b2). pose proof (bz_range b3).
  destruct (wordHex_shape b0 b1 b2 b3) as [Hl _]. unfold ParseHex.
  destruct (wordHex b0 b1 b2 b3 =s "") eqn:E; [apply String.eqb_eq in E; rewrite E in Hl; done|].
  change (2 ^ 32 - 1) with 4294967295. unfold wordHex. rewrite !append_assoc, <- (append_nil_r (HEX02 b0)).
  rewrite !parseHex_byte by lia. done.
Qed.

(** [%04X] of a port is read back. *)
Lemma ParseHex_HEX04 p : in_u16 p -> ParseHex 16 (HEX04 p) = p.
Proof.
  intros [Hp1 Hp2]. change (2 ^ 16) with 65536 in Hp2. unfold ParseHex.
  assert ((HEX04 p =s "") = false) as ->.
  { unfold HEX04. by destruct (hexDigit_char true (p / 4096)) as (a & -> & _). }
  change (2 ^ 16 - 1) with 65535. unfold HEX04.
  rewrite !append_assoc, <- (append_nil_r (hexDigit true p)).
  assert (0 <= p / 4096 < 16) by (split; [apply Z.div_pos|apply Z.div_lt_upper_bound]; lia).
  assert (((p / 4096 mod 16 * 16 + p / 256 mod 16) * 16 + p / 16 mod 16) * 16 + p mod 16 = p) as Hsum.
  { rewrite (Z.mod_small (p / 4096)) by lia.
    replace (p / 4096) with (p / 16 / 16 / 16) by (rewrite !Z.div_div by lia; done).
    replace (p / 256) with (p / 16 / 16) by (rewrite Z.div_div by lia; done).
    pose proof (Z.div_mod p 16 ltac:(lia)). pose proof (Z.div_mod (p / 16) 16 ltac:(lia)).
    pose proof (Z.div_mod (p / 16 / 16) 16 ltac:(lia)). lia. }
  pose proof (Z.mod_pos_bound (p / 4096) 16 ltac:(lia)). pose proof (Z.mod_pos_bound (p / 256) 16 ltac:(lia)).
  pose proof (Z.mod_pos_bound (p / 16) 16 ltac:(lia)). pose proof (Z.mod_pos_bound p 16 ltac:(lia)).
  do 4 (rewrite parseHex_digit; cbv zeta; match goal with |- context [?a <? ?b] => destruct (Z.ltb_spec a b); [lia|] end).
  cbn [parseHexFrom]. lia.
Qed.

Lemma HEX04_shape p : String.length (HEX04 p) = 4%nat /\ allChars isHex (HEX04 p) = true.
Proof.
  unfold HEX04.
  destruct (hexDigit_char true (p / 4096)) as (a & -> & _ & Ha), (hexDigit_char true (p / 256)) as (b & -> & _ & Hb),
    (hexDigit_char true (p / 16)) as (c & -> & _ & Hc), (hexDigit_char true p) as (d & -> & _ & Hd).
  rewrite !length_append, !allChars_append. cbn [allChars String.length]. by rewrite Ha, Hb, Hc, Hd.
Qed.

(** *** Scanning lines *)
Lemma dropCR_id s : noChar (ascii_of_nat 13) s = true -> dropCR s = s.
Proof. intros H. unfold dropCR. by rewrite LastIndexByte_none. Qed.

Lemma scanLines_unlines ls :
  Forall (fun l => noChar (ascii_of_nat 10) l = true /\ noChar (ascii_of_nat 13) l = true /\ go_len l < MaxScanTokenSize) ls ->
  scanLines (unlines (ascii_of_nat 10) ls) None = (ls, None).
Proof.
  intros H. unfold scanLines. rewrite Split_unlines by (eapply Forall_impl; [exact H|by intros ? [? _]]).
  induction H as [|l ls (H1 & H2 & H3) _ IH]; [done|]. cbn [app scanFrom].
  assert (match ls ++ [""] with [] => l =s "" | _ => false end = false) as -> by (by destruct ls).
  destruct (Z.leb_spec MaxScanTokenSize (go_len l)); [lia|]. rewrite IH. by rewrite dropCR_id.
Qed.
