(* ===== verification/GoDate.v ===== *)
(** The calendar of package time: dates of day numbers and back, and the layout
    [2006-01-02 15:04:05] in which the event store keeps times.

    A day number counts days since January 1 of year 1. *)
From S2P Require Import Prelude GoStrings GoText.

Local Open Scope string_scope.
Open Scope Z_scope.

(** ** Dates *)

Definition isLeap (year : Z) : bool :=
  (year mod 4 =? 0) && (negb (year mod 100 =? 0) || (year mod 400 =? 0)).

(** [daysBefore[m]]: days of a common year before month [m + 1]. *)
Definition daysBefore (m : Z) : Z :=
  nth (Z.to_nat m) [0; 31; 59; 90; 120; 151; 181; 212; 243; 273; 304; 334; 365] 365.

Definition daysIn (month year : Z) : Z :=
  if (month =? 2) && isLeap year then 29 else daysBefore month - daysBefore (month - 1).

(** Day number of January 1. *)
Definition yearStart (year : Z) : Z :=
  365 * (year - 1) + (year - 1) / 4 - (year - 1) / 100 + (year - 1) / 400.

Definition dateDays (year month day : Z) : Z :=
  yearStart year + daysBefore (month - 1) + (if isLeap year && (3 <=? month) then 1 else 0) + day - 1.

(** Month and day of a day of the year. *)
Definition monthDay (leap : bool) (yday : Z) : Z * Z :=
  if leap && (yday =? 59) then (2, 29)
  else
    let day := if leap && (59 <? yday) then yday - 1 else yday in
    let month := day / 31 in
    let end_ := daysBefore (month + 1) in
    if end_ <=? day then (month + 2, day - end_ + 1) else (month + 1, day - daysBefore month + 1).

(** [absDate]: the 400, 100, 4 and 1 year cycles, then the month. *)
Definition civil (days : Z) : Z * Z * Z :=
  let n400 := days / 146097 in
  let d := days mod 146097 in
  let n100 := d / 36524 - d / 36524 / 4 in
  let d := d - 36524 * n100 in
  let n4 := d / 1461 in
  let d := d - 1461 * n4 in
  let n1 := d / 365 - d / 365 / 4 in
  let yday := d - 365 * n1 in
  let year := 400 * n400 + 100 * n100 + 4 * n4 + n1 + 1 in
  let '(month, day) := monthDay (isLeap year) yday in
  (year, month, day).

Definition validDate (year month day : Z) : Prop :=
  1 <= month <= 12 /\ 1 <= day <= daysIn month year.

(** ** The layout *)

Definition digit (n : Z) : string := String (Ascii.ascii_of_nat (Z.to_nat (48 + n mod 10))) "".

(** The last [k] decimal digits. *)
Fixpoint pad (k : nat) (n : Z) : string :=
  match k with O => "" | S k => pad k (n / 10) ^^ digit n end.

(** [t.UTC().Format("2006-01-02 15:04:05")], from the seconds since year 1 of a
    time in years 0 to 9999. *)
Definition formatSeconds (sec : Z) : string :=
  let '(year, month, day) := civil (sec / 86400) in
  let s := sec mod 86400 in
  pad 4 year ^^ ("-" ^^ (pad 2 month ^^ ("-" ^^ (pad 2 day ^^ (" " ^^
  (pad 2 (s / 3600) ^^ (":" ^^ (pad 2 (s / 60 mod 60) ^^ (":" ^^ pad 2 (s mod 60)))))))))).

Example format_ex :
  formatSeconds (dateDays 2024 2 29 * 86400 + 86399) = "2024-02-29 23:59:59" /\
  civil (dateDays 1999 12 31 + 1) = (2000, 1, 1) /\ dateDays 1970 1 1 * 86400 = 62135596800.
Proof. repeat split; vm_compute; reflexivity. Qed.

(** ** Lemmas *)

#[local] Ltac Zify.zify_post_hook ::= Z.to_euclidean_division_equations.

Lemma monthDay_table :
  forallb (fun leap : bool => forallb (fun n =>
    let y := Z.of_nat n in let '(m, d) := monthDay leap y in
    (negb leap && (y =? 365)) ||
    ((1 <=? m) && (m <=? 12) && (1 <=? d) &&
     (d <=? (if (m =? 2) && leap then 29 else daysBefore m - daysBefore (m - 1))) &&
     (daysBefore (m - 1) + (if leap && (3 <=? m) then 1 else 0) + d - 1 =? y))) (seq 0 366)) [false; true] = true.
Proof. vm_compute. reflexivity. Qed.

Lemma monthDay_spec leap yday :
  0 <= yday < (if leap : bool then 366 else 365) ->
  let '(m, d) := monthDay leap yday in
  1 <= m <= 12 /\ 1 <= d <= (if (m =? 2) && leap then 29 else daysBefore m - daysBefore (m - 1)) /\
  daysBefore (m - 1) + (if leap && (3 <=? m) then 1 else 0) + d - 1 = yday.
Proof.
  intros Hy. pose proof monthDay_table as H.
  rewrite forallb_forall in H. specialize (H leap). rewrite forallb_forall in H.
  specialize (H ltac:(destruct leap; cbn; auto) (Z.to_nat yday)).
  rewrite Z2Nat.id in H by lia.
  specialize (H ltac:(apply in_seq; destruct leap; lia)). cbv zeta in H.
  destruct (monthDay leap yday) as [m d].
  assert (negb leap && (yday =? 365) = false) as E by (destruct leap; [done|]; cbn; lia).
  rewrite E in H. cbn [orb] in H. lia.
Qed.

(** The year cycles: which year a day number falls in, and where. *)
Lemma civil_year days :
  let n400 := days / 146097 in
  let d := days mod 146097 in
  let n100 := d / 36524 - d / 36524 / 4 in
  let d1 := d - 36524 * n100 in
  let n4 := d1 / 1461 in
  let d2 := d1 - 1461 * n4 in
  let n1 := d2 / 365 - d2 / 365 / 4 in
  let year := 400 * n400 + 100 * n100 + 4 * n4 + n1 + 1 in
  0 <= d2 - 365 * n1 < (if isLeap year then 366 else 365) /\ yearStart year + (d2 - 365 * n1) = days.
Proof.
  intros n400 d n100 d1 n4 d2 n1 year.
  assert (0 <= d < 146097 /\ days = 146097 * n400 + d) as [Hd Hdays] by (unfold n400, d; lia).
  assert (0 <= n100 <= 3 /\ 0 <= d1 < 36525 /\ (n100 < 3 -> d1 < 36524)) as (H100 & Hd1 & Hd1') by (unfold n100, d1; lia).
  assert (0 <= n4 <= 24 /\ 0 <= d2 < 1461 /\ (n4 = 24 -> n100 < 3 -> d2 < 1460)) as (H4 & Hd2 & Hd2') by (unfold n4, d2; lia).
  assert (0 <= n1 <= 3 /\ 0 <= d2 - 365 * n1 < 366 /\ (n1 < 3 -> d2 - 365 * n1 < 365)) as (H1 & Hy & Hy') by (unfold n1; lia).
  assert (d = 36524 * n100 + 1461 * n4 + d2) as Hdd by (unfold d2, d1; lia).
  clearbody n1 d2 n4 d1 n100 d n400.
  assert ((year - 1) / 4 = 100 * n400 + 25 * n100 + n4) as E4 by (unfold year; lia).
  assert ((year - 1) / 100 = 4 * n400 + n100) as E100 by (unfold year; lia).
  assert ((year - 1) / 400 = n400) as E400 by (unfold year; lia).
  split; [|unfold yearStart; rewrite E4, E100, E400; unfold year; lia].
  assert (year mod 4 = (n1 + 1) mod 4) as M4 by (unfold year; lia).
  assert (year mod 100 = (4 * n4 + n1 + 1) mod 100) as M100 by (unfold year; lia).
  assert (year mod 400 = (100 * n100 + 4 * n4 + n1 + 1) mod 400) as M400 by (unfold year; lia).
  unfold isLeap. rewrite M4, M100, M400. clear - Hy Hy' Hd2' H1 H4 H100.
  assert (n1 < 3 \/ n1 = 3) as [Hn| ->] by lia; [destruct (_ && _); lia|].
  change ((3 + 1) mod 4) with 0. cbn [Z.eqb andb].
  destruct (Z.eq_dec n4 24) as [->|Hn4].
  - destruct (Z.eq_dec n100 3) as [->|Hn];
      [match goal with |- context [if ?b then _ else _] => change b with true end; lia|].
    destruct (_ || _); lia.
  - replace ((4 * n4 + 3 + 1) mod 100 =? 0) with false by lia. cbn. lia.
Qed.

(** [civil] gives a date of the calendar, and the right one. *)
Lemma civil_spec days :
  let '(y, m, d) := civil days in validDate y m d /\ dateDays y m d = days.
Proof.
  pose proof (civil_year days) as H. unfold civil. cbv zeta in *. destruct H as [Hr Hs].
  set (yday := days mod 146097 - _ - _ - _) in *. set (year := 400 * (days / 146097) + _ + _ + _ + 1) in *.
  apply monthDay_spec in Hr. destruct (monthDay (isLeap year) yday) as [m d]. destruct Hr as (Hm & Hd & Hy).
  split; [split; [exact Hm|exact Hd]|]. unfold dateDays. lia.
Qed.

Lemma yearStart_next y : yearStart (y + 1) = yearStart y + (if isLeap y then 366 else 365).
Proof.
  unfold yearStart, isLeap.
  assert (y / 4 = (y - 1) / 4 + (if y mod 4 =? 0 then 1 else 0)) as E4 by (destruct (Z.eqb_spec (y mod 4) 0); lia).
  assert (y / 100 = (y - 1) / 100 + (if y mod 100 =? 0 then 1 else 0)) as E100 by (destruct (Z.eqb_spec (y mod 100) 0); lia).
  assert (y / 400 = (y - 1) / 400 + (if y mod 400 =? 0 then 1 else 0)) as E400 by (destruct (Z.eqb_spec (y mod 400) 0); lia).
  replace (y + 1 - 1) with y by lia. rewrite E4, E100, E400.
  assert (y mod 100 = 0 -> y mod 4 = 0) by lia. assert (y mod 400 = 0 -> y mod 100 = 0) by lia.
  clear E4 E100 E400.
  destruct (Z.eqb_spec (y mod 4) 0), (Z.eqb_spec (y mod 100) 0), (Z.eqb_spec (y mod 400) 0); cbn [negb andb orb]; try tauto; lia.
Qed.

Lemma yearStart_mono y y' : y <= y' -> yearStart y <= yearStart y'.
Proof. unfold yearStart. lia. Qed.

Lemma month_table :
  forallb (fun leap : bool => forallb (fun n => let m := Z.of_nat n in
    daysBefore (m - 1) + (if leap && (3 <=? m) then 1 else 0)
      + (if (m =? 2) && leap then 29 else daysBefore m - daysBefore (m - 1)) =?
    daysBefore m + (if leap && (3 <=? m + 1) then 1 else 0)) (seq 1 12)) [false; true] = true.
Proof. vm_compute. reflexivity. Qed.

Lemma daysIn_bounds year m : 1 <= m <= 12 -> 28 <= daysIn m year <= 31.
Proof.
  intros Hm. unfold daysIn. destruct (_ && _); [lia|].
  assert (m = 1 \/ m = 2 \/ m = 3 \/ m = 4 \/ m = 5 \/ m = 6 \/ m = 7 \/ m = 8 \/ m = 9 \/ m = 10 \/ m = 11 \/ m = 12) as Hc by lia.
  repeat destruct Hc as [->|Hc]; subst; vm_compute; split; congruence.
Qed.

(** The first day of a month, counted in the year. *)
Definition monthStart (leap : bool) (m : Z) : Z := daysBefore (m - 1) + (if leap && (3 <=? m) then 1 else 0).

Lemma monthStart_next year m :
  1 <= m <= 12 -> monthStart (isLeap year) (m + 1) = monthStart (isLeap year) m + daysIn m year.
Proof.
  intros Hm. pose proof month_table as H. rewrite forallb_forall in H. specialize (H (isLeap year)).
  rewrite forallb_forall in H. specialize (H ltac:(destruct (isLeap year); cbn; auto) (Z.to_nat m)).
  specialize (H ltac:(apply in_seq; lia)). cbv zeta in H. rewrite Z2Nat.id in H by lia.
  unfold monthStart, daysIn. replace (m + 1 - 1) with m by lia. lia.
Qed.

Lemma monthStart_mono year m m' :
  1 <= m < m' -> m' <= 13 -> monthStart (isLeap year) m + daysIn m year <= monthStart (isLeap year) m'.
Proof.
  intros Hm Hm'. replace m' with (m + 1 + Z.of_nat (Z.to_nat (m' - m - 1))) by lia.
  assert (m + 1 + Z.of_nat (Z.to_nat (m' - m - 1)) <= 13) as Hk by lia.
  induction (Z.to_nat (m' - m - 1)) as [|k IH].
  - rewrite Z.add_0_r, monthStart_next by lia. lia.
  - replace (m + 1 + Z.of_nat (S k)) with (m + 1 + Z.of_nat k + 1) by lia.
    rewrite monthStart_next by lia. pose proof (daysIn_bounds year (m + 1 + Z.of_nat k)). specialize (IH ltac:(lia)). lia.
Qed.

Lemma dateDays_month year m d : dateDays year m d = yearStart year + monthStart (isLeap year) m + d - 1.
Proof. unfold dateDays, monthStart. lia. Qed.

(** A valid date lies in its year. *)
Lemma dateDays_year year m d :
  validDate year m d -> yearStart year <= dateDays year m d < yearStart (year + 1).
Proof.
  intros [Hm Hd]. rewrite dateDays_month, yearStart_next.
  assert (monthStart (isLeap year) 1 = 0) as H1 by (by destruct (isLeap year)).
  assert (monthStart (isLeap year) 13 = if isLeap year then 366 else 365) as H13 by (by destruct (isLeap year)).
  pose proof (monthStart_mono year m 13 ltac:(lia) ltac:(lia)).
  assert (0 <= monthStart (isLeap year) m).
  { destruct (Z.eq_dec m 1) as [->|]; [lia|]. pose proof (monthStart_mono year 1 m ltac:(lia) ltac:(lia)).
    pose proof (daysIn_bounds year 1). lia. }
  lia.
Qed.

Definition dateCompare (a b : Z * Z * Z) : comparison :=
  let '(y, m, d) := a in let '(y', m', d') := b in
  match y ?= y' with Eq => match m ?= m' with Eq => d ?= d' | c => c end | c => c end.

(** Day numbers are ordered as their dates are. *)
Lemma dateDays_compare y m d y' m' d' :
  validDate y m d -> validDate y' m' d' ->
  dateCompare (y, m, d) (y', m', d') = (dateDays y m d ?= dateDays y' m' d').
Proof.
  intros H H'. unfold dateCompare.
  pose proof (dateDays_year _ _ _ H). pose proof (dateDays_year _ _ _ H').
  destruct (Z.compare_spec y y') as [->|Hlt|Hlt].
  - rewrite !dateDays_month. destruct H as [Hm Hd], H' as [Hm' Hd'].
    destruct (Z.compare_spec m m') as [->|Hlt|Hlt].
    + destruct (Z.compare_spec d d'), (Z.compare_spec (yearStart y' + monthStart (isLeap y') m' + d - 1)
        (yearStart y' + monthStart (isLeap y') m' + d' - 1)); (done || lia).
    + pose proof (monthStart_mono y' m m' ltac:(lia) ltac:(lia)). symmetry. apply Z.compare_lt_iff. lia.
    + pose proof (monthStart_mono y' m' m ltac:(lia) ltac:(lia)). symmetry. apply Z.compare_gt_iff. lia.
  - pose proof (yearStart_mono (y + 1) y' ltac:(lia)). symmetry. apply Z.compare_lt_iff. lia.
  - pose proof (yearStart_mono (y' + 1) y ltac:(lia)). symmetry. apply Z.compare_gt_iff. lia.
Qed.

Lemma civil_compare a b : dateCompare (civil a) (civil b) = (a ?= b).
Proof.
  pose proof (civil_spec a) as Ha. pose proof (civil_spec b) as Hb.
  destruct (civil a) as [[y m] d], (civil b) as [[y' m'] d']. destruct Ha as [Ha Ea], Hb as [Hb Eb].
  rewrite dateDays_compare by done. by rewrite Ea, Eb.
Qed.

(** *** Texts compare as times *)

Definition thenCompare (c d : comparison) : comparison := match c with Eq => d | c => c end.

Lemma digit_table :
  forallb (fun a => forallb (fun b =>
    match Ascii.compare (Ascii.ascii_of_nat (48 + a)) (Ascii.ascii_of_nat (48 + b)), Nat.compare a b with
    | Eq, Eq | Lt, Lt | Gt, Gt => true | _, _ => false end) (seq 0 10)) (seq 0 10) = true.
Proof. vm_compute. reflexivity. Qed.

Lemma digit_compare a b s t :
  String.compare (digit a ^^ s) (digit b ^^ t) = thenCompare (a mod 10 ?= b mod 10) (String.compare s t).
Proof.
  unfold digit. change (String ?c "" ^^ ?u) with (String c u). cbn [String.compare].
  pose proof digit_table as H. rewrite forallb_forall in H. specialize (H (Z.to_nat (a mod 10)) ltac:(apply in_seq; lia)).
  rewrite forallb_forall in H. specialize (H (Z.to_nat (b mod 10)) ltac:(apply in_seq; lia)). cbn beta in H.
  rewrite !Z2Nat.inj_add by lia. change (Z.to_nat 48) with 48%nat.
  rewrite <- (Z2Nat.id (a mod 10)) at 2 by lia. rewrite <- (Z2Nat.id (b mod 10)) at 2 by lia.
  rewrite Nat2Z.inj_compare.
  destruct (Ascii.compare _ _), (Nat.compare _ _); done.
Qed.

Lemma pad_compare k a b s t :
  0 <= a < 10 ^ Z.of_nat k -> 0 <= b < 10 ^ Z.of_nat k ->
  String.compare (pad k a ^^ s) (pad k b ^^ t) = thenCompare (a ?= b) (String.compare s t).
Proof.
  revert a b s t. induction k as [|k IH]; intros a b s t Ha Hb.
  - change (10 ^ Z.of_nat 0) with 1 in *. replace a with 0 by lia. by replace b with 0 by lia.
  - rewrite Nat2Z.inj_succ, Z.pow_succ_r in Ha, Hb by lia. cbn [pad]. rewrite !append_assoc, IH, digit_compare by lia.
    destruct (Z.compare_spec (a / 10) (b / 10)), (Z.compare_spec (a mod 10) (b mod 10)), (Z.compare_spec a b);
      cbn; (done || lia).
Qed.

Lemma sep_compare c s t : String.compare (String c "" ^^ s) (String c "" ^^ t) = String.compare s t.
Proof.
  change (String c "" ^^ ?u) with (String c u). cbn [String.compare].
  unfold Ascii.compare. by rewrite N.compare_refl.
Qed.

Lemma civil_range days :
  -366 <= days < yearStart 10000 -> let '(y, m, d) := civil days in 0 <= y <= 9999 /\ 1 <= m <= 12 /\ 1 <= d <= 31.
Proof.
  intros H. pose proof (civil_spec days) as Hs. destruct (civil days) as [[y m] d]. destruct Hs as [Hv He].
  pose proof (dateDays_year _ _ _ Hv). destruct Hv as [Hm Hd].
  assert (yearStart 0 = -366) by done.
  assert (0 <= y). { destruct (Z.le_gt_cases 0 y); [done|]. pose proof (yearStart_mono (y + 1) 0 ltac:(lia)). lia. }
  assert (y <= 9999). { destruct (Z.le_gt_cases y 9999); [done|]. pose proof (yearStart_mono 10000 y ltac:(lia)). lia. }
  split_and!; try lia. pose proof (daysIn_bounds y m Hm). lia.
Qed.

(** The canonical texts of two times compare as the times do. *)
Lemma formatSeconds_compare s t :
  -366 * 86400 <= s < yearStart 10000 * 86400 -> -366 * 86400 <= t < yearStart 10000 * 86400 ->
  String.compare (formatSeconds s) (formatSeconds t) = (s ?= t).
Proof.
  intros Hs Ht. unfold formatSeconds.
  pose proof (civil_range (s / 86400) ltac:(lia)) as Rs. pose proof (civil_range (t / 86400) ltac:(lia)) as Rt.
  pose proof (civil_compare (s / 86400) (t / 86400)) as Hc.
  destruct (civil (s / 86400)) as [[y m] d], (civil (t / 86400)) as [[y' m'] d'].
  rewrite <- (append_nil_r (pad 2 (s mod 86400 mod 60))), <- (append_nil_r (pad 2 (t mod 86400 mod 60))).
  rewrite pad_compare, sep_compare by (change (10 ^ Z.of_nat 4) with 10000; lia).
  rewrite pad_compare, sep_compare by (change (10 ^ Z.of_nat 2) with 100; lia).
  rewrite pad_compare, sep_compare by (change (10 ^ Z.of_nat 2) with 100; lia).
  rewrite pad_compare, sep_compare by (change (10 ^ Z.of_nat 2) with 100; lia).
  rewrite pad_compare, sep_compare by (change (10 ^ Z.of_nat 2) with 100; lia).
  rewrite pad_compare by (change (10 ^ Z.of_nat 2) with 100; lia).
  unfold dateCompare in Hc.
  assert (thenCompare (y ?= y') (thenCompare (m ?= m') (d ?= d')) = (s / 86400 ?= t / 86400)) as Hday
    by (rewrite <- Hc; by destruct (y ?= y'), (m ?= m')).
  clear Hc Rs Rt.
  assert (forall c1 c2 c3 c4, thenCompare c1 (thenCompare c2 (thenCompare c3 c4)) = thenCompare (thenCompare c1 (thenCompare c2 c3)) c4) as Hassoc
    by (intros [] [] [] []; done).
  rewrite Hassoc, Hday. change (String.compare "" "") with Eq.
  destruct (Z.compare_spec (s / 86400) (t / 86400)), (Z.compare_spec (s mod 86400 / 3600) (t mod 86400 / 3600)),
    (Z.compare_spec (s mod 86400 / 60 mod 60) (t mod 86400 / 60 mod 60)), (Z.compare_spec (s mod 86400 mod 60) (t mod 86400 mod 60)),
    (Z.compare_spec s t); cbn; (done || lia).
Qed.
