(* ===== verification/Events.v ===== *)
(** The canonical event (pkg/events/canonical.go): the data every component
    exchanges, and [Validate], the schema check of the ingest API, the worker
    and the detection engine.  [uuid.Parse] is third-party code and a
    parameter. *)
From S2P Require Import Prelude GoStrings GoFloat GoTime.

Open Scope Z_scope.

(** The dynamic values the program stores in [map[string]interface{}];
    [VStruct] is a (pointer to a) struct with its fields, [VMap] a nested map
    by its entries, [VNil] the nil interface. *)
Inductive MetaValue : Type :=
  | VNil
  | VStr (s : string)
  | VInt (z : Z)
  | VUint8 (z : Z)
  | VUint16 (z : Z)
  | VUint32 (z : Z)
  | VInt64 (z : Z)
  | VBool (b : bool)
  | VFloat (f : float64)
  | VStrings (l : list string)
  | VList (l : list MetaValue)
  | VMap (entries : list (string * MetaValue))
  | VStruct (name : string) (fields : list (string * MetaValue)).

Notation MetaMap := (gmap string MetaValue).

Record CanonicalEvent := {
  EventID : string;
  TenantID : string;
  SiteID : string;
  AssetID : string;
  SensorID : string;
  OccurredAt : Time;
  ReceivedAt : Time;
  SeqNo : Z;
  Source : string;
  Category : string;
  Severity : string;
  Confidence : option float64;
  Protocol : string;
  Src : string;
  Dst : string;
  Action : string;
  Metadata : option MetaMap;
  RuleID : string;
  RuleVersion : string;
  AttckEnterprise : list string;
  AttckICS : list string;
  QualityFlags : list string;
  SchemaVersion : string;
}.

Definition CurrentSchemaVersion : string := "1.0.0".

(** Assignments to single fields. *)
Definition setSeqNo (n : Z) (e : CanonicalEvent) : CanonicalEvent := {|
  EventID := EventID e; TenantID := TenantID e; SiteID := SiteID e; AssetID := AssetID e;
  SensorID := SensorID e; OccurredAt := OccurredAt e; ReceivedAt := ReceivedAt e; SeqNo := n;
  Source := Source e; Category := Category e; Severity := Severity e; Confidence := Confidence e;
  Protocol := Protocol e; Src := Src e; Dst := Dst e; Action := Action e; Metadata := Metadata e;
  RuleID := RuleID e; RuleVersion := RuleVersion e; AttckEnterprise := AttckEnterprise e;
  AttckICS := AttckICS e; QualityFlags := QualityFlags e; SchemaVersion := SchemaVersion e |}.

Definition setReceivedAt (t : Time) (e : CanonicalEvent) : CanonicalEvent := {|
  EventID := EventID e; TenantID := TenantID e; SiteID := SiteID e; AssetID := AssetID e;
  SensorID := SensorID e; OccurredAt := OccurredAt e; ReceivedAt := t; SeqNo := SeqNo e;
  Source := Source e; Category := Category e; Severity := Severity e; Confidence := Confidence e;
  Protocol := Protocol e; Src := Src e; Dst := Dst e; Action := Action e; Metadata := Metadata e;
  RuleID := RuleID e; RuleVersion := RuleVersion e; AttckEnterprise := AttckEnterprise e;
  AttckICS := AttckICS e; QualityFlags := QualityFlags e; SchemaVersion := SchemaVersion e |}.

Definition setIdentity (tenant site asset : string) (e : CanonicalEvent) : CanonicalEvent := {|
  EventID := EventID e; TenantID := tenant; SiteID := site; AssetID := asset;
  SensorID := SensorID e; OccurredAt := OccurredAt e; ReceivedAt := ReceivedAt e; SeqNo := SeqNo e;
  Source := Source e; Category := Category e; Severity := Severity e; Confidence := Confidence e;
  Protocol := Protocol e; Src := Src e; Dst := Dst e; Action := Action e; Metadata := Metadata e;
  RuleID := RuleID e; RuleVersion := RuleVersion e; AttckEnterprise := AttckEnterprise e;
  AttckICS := AttckICS e; QualityFlags := QualityFlags e; SchemaVersion := SchemaVersion e |}.

Definition knownSeverity (s : string) : bool :=
  existsb (fun t => s =s t) ["DEBUG"; "INFO"; "WARNING"; "CRITICAL"; "FATAL"]%string.

(** The table of length-limited fields walked by [Validate]. *)
Definition limitedFields (e : CanonicalEvent) : list (string * string * Z) :=
  [ ("asset_id", AssetID e, 128); ("sensor_id", SensorID e, 128);
    ("source", Source e, 255); ("category", Category e, 255);
    ("protocol", Protocol e, 128); ("src", Src e, 255);
    ("dst", Dst e, 255); ("action", Action e, 128);
    ("rule_id", RuleID e, 255); ("rule_version", RuleVersion e, 64) ]%string.

Fixpoint checkLimits (fields : list (string * string * Z)) : option error :=
  match fields with
  | [] => None
  | (name, value, limit) :: fields =>
      if limit <? RuneCountInString value
      then Some (ErrNew (name ^^ " exceeds maximum length of " ^^ fmt_d limit))
      else checkLimits fields
  end.

(** [tenant == "" || !re.MatchString(tenant) || len(tenant) > 128] *)
Definition badIdentifier (s : string) : bool :=
  (s =s "") || negb (idPattern s) || (128 <? go_len s).

Definition badConfidence (f : float64) : bool :=
  isNaN f || isInf f || fltb f fzero || fltb (f_of_Z 100) f.

Section Validate.
(** [uuid.Parse] of github.com/google/uuid: the error it returns, if any. *)
Context (uuid_Parse : string -> option error).

Definition Event_Validate (e : CanonicalEvent) : option error :=
  match uuid_Parse (EventID e) with
  | Some err => Some (ErrWrap ("invalid event_id: " ^^ error_Error err) [err])
  | None =>
    if IsZero (OccurredAt e) then Some (ErrNew "occurred_at is required")
    else if Source e =s "" then Some (ErrNew "source is required")
    else if Category e =s "" then Some (ErrNew "category is required")
    else if badIdentifier (TenantID e) then Some (ErrNew "invalid tenant_id")
    else if badIdentifier (SiteID e) then Some (ErrNew "invalid site_id")
    else if SeqNo e <? 0 then Some (ErrNew "seq_no cannot be negative")
    else if negb (knownSeverity (Severity e)) then Some (ErrNew ("invalid severity: " ^^ Severity e))
    else match checkLimits (limitedFields e) with
    | Some err => Some err
    | None =>
      if match Confidence e with Some f => badConfidence f | None => false end
      then Some (ErrNew "confidence must be between 0 and 100")
      else if negb (SchemaVersion e =s CurrentSchemaVersion)
      then Some (ErrNew ("unsupported schema_version: " ^^ SchemaVersion e ^^ " (expected "
                         ^^ CurrentSchemaVersion ^^ ")"))
      else None
    end
  end.
End Validate.

(** ** The specification of a valid event *)

Definition validIdentifier (s : string) : Prop :=
  s <> ""%string /\ allChars idChar s = true /\ go_len s <= 128.

Record WellFormedEvent (e : CanonicalEvent) : Prop := {
  wf_time : OccurredAt e <> zeroTime;
  wf_source : Source e <> ""%string;
  wf_category : Category e <> ""%string;
  wf_tenant : validIdentifier (TenantID e);
  wf_site : validIdentifier (SiteID e);
  wf_seq : 0 <= SeqNo e;
  wf_severity : Severity e ∈ ["DEBUG"; "INFO"; "WARNING"; "CRITICAL"; "FATAL"]%string;
  wf_limits : Forall (fun f => RuneCountInString f.1.2 <= f.2) (limitedFields e);
  wf_confidence : forall f, Confidence e = Some f ->
    isNaN f = false /\ isInf f = false /\ fleb fzero f = true /\ fleb f (f_of_Z 100) = true;
  wf_schema : SchemaVersion e = CurrentSchemaVersion;
}.

(** ** Lemmas *)
Lemma badIdentifier_spec s : badIdentifier s = false <-> validIdentifier s.
Proof.
  unfold badIdentifier, validIdentifier, idPattern.
  destruct (String.eqb_spec s ""), (allChars idChar s), (Z.ltb_spec 128 (go_len s)); cbn;
    split; try done; try (intros (? & ? & ?); try done; lia); intros _; split_and!; done.
Qed.

Lemma checkLimits_spec fields :
  checkLimits fields = None <-> Forall (fun f => RuneCountInString f.1.2 <= f.2) fields.
Proof.
  induction fields as [|[[n v] l] fields IH]; cbn [checkLimits].
  - split; [constructor|done].
  - rewrite Forall_cons, <- IH. cbn [fst snd].
    destruct (Z.ltb_spec l (RuneCountInString v)).
    + split; [done|intros [? _]; lia].
    + split; [done|by intros [_ ?]].
Qed.

Lemma knownSeverity_spec s :
  knownSeverity s = true <-> s ∈ ["DEBUG"; "INFO"; "WARNING"; "CRITICAL"; "FATAL"]%string.
Proof.
  unfold knownSeverity. rewrite existsb_exists, list_elem_of_In. split.
  - intros (t & Ht & He). apply String.eqb_eq in He as ->. done.
  - intros H. exists s. by rewrite String.eqb_refl.
Qed.

Lemma badConfidence_spec f :
  badConfidence f = false <->
  isNaN f = false /\ isInf f = false /\ fleb fzero f = true /\ fleb f (f_of_Z 100) = true.
Proof.
  unfold badConfidence. rewrite !orb_false_iff. destruct (isNaN f) eqn:Hn; [naive_solver|].
  rewrite (fleb_negb fzero f), (fleb_negb f (f_of_Z 100)), !negb_true_iff by done. tauto.
Qed.

Lemma Validate_wf uuid_Parse e :
  Event_Validate uuid_Parse e = None -> uuid_Parse (EventID e) = None /\ WellFormedEvent e.
Proof.
  unfold Event_Validate, IsZero. destruct (uuid_Parse (EventID e)); [done|].
  intros H. split; [done|].
  destruct (Z.eqb_spec (OccurredAt e) 0), (String.eqb_spec (Source e) ""),
    (String.eqb_spec (Category e) ""); try done.
  destruct (badIdentifier (TenantID e)) eqn:Ht; [done|].
  destruct (badIdentifier (SiteID e)) eqn:Hsi; [done|].
  destruct (Z.ltb_spec (SeqNo e) 0); [done|].
  destruct (knownSeverity (Severity e)) eqn:Hsev; [|done]. cbn [negb] in H.
  destruct (checkLimits _) eqn:Hl; [done|].
  destruct (match Confidence e with Some f => badConfidence f | None => false end) eqn:Hc; [done|].
  destruct (String.eqb_spec (SchemaVersion e) CurrentSchemaVersion); [|done].
  constructor; try done.
  - by apply badIdentifier_spec.
  - by apply badIdentifier_spec.
  - by apply knownSeverity_spec.
  - by apply checkLimits_spec.
  - intros f Hf. rewrite Hf in Hc. by apply badConfidence_spec.
Qed.

Lemma Validate_complete uuid_Parse e :
  uuid_Parse (EventID e) = None -> WellFormedEvent e -> Event_Validate uuid_Parse e = None.
Proof.
  intros Hid [Htime Hsrc Hcat Hten Hsite Hseq Hsev Hlim Hconf Hsch].
  unfold Event_Validate, IsZero. rewrite Hid.
  rewrite (proj2 (Z.eqb_neq (OccurredAt e) 0) Htime), (proj2 (String.eqb_neq _ _) Hsrc), (proj2 (String.eqb_neq _ _) Hcat).
  rewrite (proj2 (badIdentifier_spec _) Hten), (proj2 (badIdentifier_spec _) Hsite).
  rewrite (proj2 (Z.ltb_ge _ _) Hseq), (proj2 (knownSeverity_spec _) Hsev), (proj2 (checkLimits_spec _) Hlim), Hsch.
  cbn [negb]. destruct (Confidence e) as [f|]; [|done].
  by rewrite (proj2 (badConfidence_spec f) (Hconf f eq_refl)).
Qed.

(** The VARCHAR columns of server/migrations/001_initial_events.sql, with the
    event field each one receives. *)
Definition varcharColumns (e : CanonicalEvent) : list (string * string * Z) :=
  [ ("tenant_id", TenantID e, 128); ("site_id", SiteID e, 128); ("asset_id", AssetID e, 128);
    ("sensor_id", SensorID e, 128); ("source", Source e, 255); ("category", Category e, 255);
    ("severity", Severity e, 32); ("protocol", Protocol e, 128); ("src", Src e, 255);
    ("dst", Dst e, 255); ("action", Action e, 128); ("rule_id", RuleID e, 255);
    ("rule_version", RuleVersion e, 64); ("schema_version", SchemaVersion e, 32) ]%string.

Lemma fits_schema uuid_Parse e :
  Event_Validate uuid_Parse e = None ->
  Forall (fun c => RuneCountInString c.1.2 <= c.2) (varcharColumns e).
Proof.
  intros Hv. destruct (Validate_wf _ _ Hv) as [_ [_ _ _ Ht Hs _ Hsev Hl _ Hsch]].
  assert (forall s, validIdentifier s -> RuneCountInString s <= 128) as Hid.
  { intros s (_ & Hc & Hlen). by rewrite runeCount_ascii. }
  assert (RuneCountInString (Severity e) <= 32) as Hsv.
  { apply list_elem_of_In in Hsev. cbn [In] in Hsev.
    by repeat destruct Hsev as [<-|Hsev]. }
  unfold limitedFields in Hl. unfold varcharColumns.
  repeat match goal with H : Forall _ (_ :: _) |- _ => apply Forall_cons in H as [? H] end.
  rewrite !Forall_cons. cbn [fst snd] in *. rewrite Hsch. split_and!; auto; done.
Qed.

(** ** Properties *)

(** Validate accepts exactly the well-formed events: a parseable event id,
    required fields present, identifiers of 1 to 128 letters, digits or
    hyphens, a known severity, every limited field within its column width, a
    confidence in [0, 100] and the current schema version. *)
Theorem Validate_accepts_iff uuid_Parse e :
  Event_Validate uuid_Parse e = None <-> uuid_Parse (EventID e) = None /\ WellFormedEvent e.
Proof. split; [apply Validate_wf | intros [? ?]; by apply Validate_complete]. Qed.

(** A validated event fits the PostgreSQL schema: none of its text fields
    has more characters than the VARCHAR column it is inserted into, so the
    worker cannot retry an event for a width violation. *)
Theorem validated_event_fits_schema uuid_Parse e :
  Event_Validate uuid_Parse e = None ->
  Forall (fun c => RuneCountInString c.1.2 <= c.2) (varcharColumns e).
Proof. apply fits_schema. Qed.

(** An event as a collector emits it, for the witnesses. *)
Definition sampleEvent (id : string) (sev : string) : CanonicalEvent := {|
  EventID := id; TenantID := "tenant-1"; SiteID := "site-1"; AssetID := ""; SensorID := "";
  OccurredAt := time_Unix 1700000000 0; ReceivedAt := zeroTime; SeqNo := 0;
  Source := "agent"; Category := "process"; Severity := sev; Confidence := None;
  Protocol := ""; Src := ""; Dst := ""; Action := "PROCESS_START"; Metadata := None;
  RuleID := ""; RuleVersion := ""; AttckEnterprise := []; AttckICS := []; QualityFlags := [];
  SchemaVersion := CurrentSchemaVersion |}.

Lemma validated_event_fits_schema_witness :
  Forall (fun c => RuneCountInString c.1.2 <= c.2) (varcharColumns (sampleEvent "id-1" "INFO")).
Proof.
  apply (validated_event_fits_schema (fun _ => None) (sampleEvent "id-1" "INFO")).
  vm_compute. reflexivity.
Defined.
