(* ===== verification/Governor.v ===== *)
(** The resource governor (agent/internal/governor/types.go, governor.go): the
    hysteresis state machine that maps resource signals to an operating state.

    A [Governor] is the struct of the source; [Governor_Evaluate] is one call
    of [Evaluate], which reads the clock once and returns the transitions
    passed to the callback.  States and network states are Go strings with
    named constants, so [stateSeverity] keeps its default case. *)
From S2P Require Import Prelude GoFloat GoTime.

Open Scope Z_scope.

Notation HostResourceState := string (only parsing).
Definition StateNormal : HostResourceState := "NORMAL".
Definition StateResourceSaver : HostResourceState := "RESOURCE-SAVER".
Definition StateEmergency : HostResourceState := "EMERGENCY".

Notation NetworkState := string (only parsing).
Definition NetworkUnknown : NetworkState := "UNKNOWN".
Definition NetworkOnline : NetworkState := "ONLINE".
Definition NetworkOffline : NetworkState := "OFFLINE".

Record ResourceSignals := {
  CPUUtilizationPercent : float64;
  MemoryRSSBytes : Z;
  StoragePressure : float64;
  QueueSaturation : float64;
  Signals_NetworkState : NetworkState;
}.

Record Config := {
  CPUSaverThreshold : float64;
  CPUEmergencyThreshold : float64;
  CPURecoveryMargin : float64;
  MemorySaverBytes : Z;
  MemoryEmergencyBytes : Z;
  MemoryRecoveryMarginBytes : Z;
  StorageSaverRatio : float64;
  StorageEmergencyRatio : float64;
  StorageRecoveryMarginRatio : float64;
  QueueSaverRatio : float64;
  QueueEmergencyRatio : float64;
  QueueRecoveryMarginRatio : float64;
  RecoveryDuration : Duration;
}.

Record Transition := {
  PreviousState : HostResourceState;
  NewState : HostResourceState;
  Transition_Reason : string;
  ObservedAt : Time;
  Transition_Signals : ResourceSignals;
}.

(** The governor's fields; [hasCallback] says whether [onTransition] is
    non-nil. *)
Record Governor := {
  config : Config;
  currentState : HostResourceState;
  recoveryStartTime : Time;
  hasCallback : bool;
}.

Definition stateSeverity (s : HostResourceState) : Z :=
  if s =s StateNormal then 0
  else if s =s StateResourceSaver then 1
  else if s =s StateEmergency then 2
  else -1.

Definition validateConfig (c : Config) : option error :=
  let hundred := f_of_Z 100 in
  let one := f_of_Z 1 in
  if fltb (CPUSaverThreshold c) fzero || fltb hundred (CPUSaverThreshold c)
  then Some (ErrNew "invalid CPUSaverThreshold")
  else if fleb (CPUEmergencyThreshold c) (CPUSaverThreshold c) || fltb hundred (CPUEmergencyThreshold c)
  then Some (ErrNew "invalid CPUEmergencyThreshold")
  else if fltb (CPURecoveryMargin c) fzero || fleb (CPUSaverThreshold c) (CPURecoveryMargin c)
  then Some (ErrNew "invalid CPURecoveryMargin")
  else if MemoryEmergencyBytes c <=? MemorySaverBytes c
  then Some (ErrNew "invalid Memory limits")
  else if MemorySaverBytes c <=? MemoryRecoveryMarginBytes c
  then Some (ErrNew "invalid MemoryRecoveryMarginBytes")
  else if fltb (StorageSaverRatio c) fzero || fltb one (StorageSaverRatio c)
  then Some (ErrNew "invalid StorageSaverRatio")
  else if fleb (StorageEmergencyRatio c) (StorageSaverRatio c) || fltb one (StorageEmergencyRatio c)
  then Some (ErrNew "invalid StorageEmergencyRatio")
  else if fltb (StorageRecoveryMarginRatio c) fzero || fleb (StorageSaverRatio c) (StorageRecoveryMarginRatio c)
  then Some (ErrNew "invalid StorageRecoveryMarginRatio")
  else if fltb (QueueSaverRatio c) fzero || fltb one (QueueSaverRatio c)
  then Some (ErrNew "invalid QueueSaverRatio")
  else if fleb (QueueEmergencyRatio c) (QueueSaverRatio c) || fltb one (QueueEmergencyRatio c)
  then Some (ErrNew "invalid QueueEmergencyRatio")
  else if fltb (QueueRecoveryMarginRatio c) fzero || fleb (QueueSaverRatio c) (QueueRecoveryMarginRatio c)
  then Some (ErrNew "invalid QueueRecoveryMarginRatio")
  else if RecoveryDuration c <=? 0
  then Some (ErrNew "invalid RecoveryDuration")
  else None.

Definition NewGovernor (cfg : Config) (onTransition : bool) : result Governor :=
  match validateConfig cfg with
  | Some err => Err err
  | None => Ok {| config := cfg; currentState := StateNormal;
                  recoveryStartTime := zeroTime; hasCallback := onTransition |}
  end.

Definition validateSignals (s : ResourceSignals) : option error :=
  let one := f_of_Z 1 in
  if isNaN (CPUUtilizationPercent s) || fltb (CPUUtilizationPercent s) fzero
  then Some (ErrNew "CPU utilization must be a valid non-negative number")
  else if isNaN (StoragePressure s) || fltb (StoragePressure s) fzero || fltb one (StoragePressure s)
  then Some (ErrNew "StoragePressure must be in [0, 1]")
  else if isNaN (QueueSaturation s) || fltb (QueueSaturation s) fzero || fltb one (QueueSaturation s)
  then Some (ErrNew "QueueSaturation must be in [0, 1]")
  else None.

(** The three-way decision shared by both evaluators is written out in each,
    as in the source. *)
Definition evalFloat64 (val saverThresh emergThresh margin : float64)
    (current : HostResourceState) (name : string) : HostResourceState * string :=
  let effEmerg := if current =s StateEmergency then fsub emergThresh margin else emergThresh in
  let effSaver := if (current =s StateEmergency) || (current =s StateResourceSaver)
                  then fsub saverThresh margin else saverThresh in
  if fleb effEmerg val then (StateEmergency, name ^^ " exceeded emergency threshold")
  else if fleb effSaver val then (StateResourceSaver, name ^^ " exceeded saver threshold")
  else (StateNormal, name ^^ " healthy").

Definition evalUint64 (val saverThresh emergThresh margin : Z)
    (current : HostResourceState) (name : string) : HostResourceState * string :=
  let effEmerg := if (current =s StateEmergency) && (margin <? emergThresh)
                  then u64 (emergThresh - margin) else emergThresh in
  let effSaver := if ((current =s StateEmergency) || (current =s StateResourceSaver)) && (margin <? saverThresh)
                  then u64 (saverThresh - margin) else saverThresh in
  if effEmerg <=? val then (StateEmergency, name ^^ " exceeded emergency threshold")
  else if effSaver <=? val then (StateResourceSaver, name ^^ " exceeded saver threshold")
  else (StateNormal, name ^^ " healthy").

(** The loop that keeps the first state of the highest severity. *)
Fixpoint maxSeverity (acc : HostResourceState * string)
    (states : list (HostResourceState * string)) : HostResourceState * string :=
  match states with
  | [] => acc
  | st :: states =>
      maxSeverity (if stateSeverity acc.1 <? stateSeverity st.1 then st else acc) states
  end.

Definition dimensionStates (c : Config) (current : HostResourceState) (s : ResourceSignals)
    : list (HostResourceState * string) :=
  [ evalFloat64 (CPUUtilizationPercent s) (CPUSaverThreshold c) (CPUEmergencyThreshold c)
      (CPURecoveryMargin c) current "CPU";
    evalUint64 (MemoryRSSBytes s) (MemorySaverBytes c) (MemoryEmergencyBytes c)
      (MemoryRecoveryMarginBytes c) current "Memory";
    evalFloat64 (StoragePressure s) (StorageSaverRatio c) (StorageEmergencyRatio c)
      (StorageRecoveryMarginRatio c) current "Storage";
    evalFloat64 (QueueSaturation s) (QueueSaverRatio c) (QueueEmergencyRatio c)
      (QueueRecoveryMarginRatio c) current "Queue" ].

Definition computeTargetState (g : Governor) (signals : ResourceSignals) : HostResourceState * string :=
  match validateSignals signals with
  | Some err => (StateEmergency, "Invalid signal (fail-safe): " ^^ error_Error err)
  | None => maxSeverity (StateNormal, "Healthy"%string)
              (dimensionStates (config g) (currentState g) signals)
  end.

Definition Governor_transition (g : Governor) (newState : HostResourceState) (reason : string)
    (now : Time) (sigs : ResourceSignals) : Governor * list Transition :=
  ( {| config := config g; currentState := newState;
       recoveryStartTime := zeroTime; hasCallback := hasCallback g |},
    if hasCallback g
    then [ {| PreviousState := currentState g; NewState := newState;
              Transition_Reason := reason; ObservedAt := now; Transition_Signals := sigs |} ]
    else [] ).

Definition setRecoveryStart (g : Governor) (t : Time) : Governor :=
  {| config := config g; currentState := currentState g;
     recoveryStartTime := t; hasCallback := hasCallback g |}.

Definition Governor_Evaluate (g : Governor) (now : Time) (signals : ResourceSignals)
    : Governor * list Transition :=
  let '(targetState, reason) := computeTargetState g signals in
  if stateSeverity (currentState g) <? stateSeverity targetState then
    Governor_transition g targetState reason now signals
  else if stateSeverity targetState <? stateSeverity (currentState g) then
    if IsZero (recoveryStartTime g) then (setRecoveryStart g now, [])
    else if RecoveryDuration (config g) <=? Sub now (recoveryStartTime g) then
      Governor_transition g targetState ("Recovery duration met: " ^^ reason) now signals
    else (g, [])
  else (setRecoveryStart g zeroTime, []).

(** *** Runs: the clock reading and signals of each call, oldest first. *)

Definition Sample := (Time * ResourceSignals)%type.

Definition Governor_step (g : Governor) (x : Sample) : Governor := (Governor_Evaluate g x.1 x.2).1.

Definition Governor_run (g : Governor) (h : list Sample) : Governor := foldl Governor_step g h.

Fixpoint Governor_emits (g : Governor) (h : list Sample) : list Transition :=
  match h with
  | [] => []
  | x :: h => (Governor_Evaluate g x.1 x.2).2 ++ Governor_emits (Governor_step g x) h
  end.

(** The three operating states. *)
Definition operating (s : HostResourceState) : Prop :=
  s = StateNormal \/ s = StateResourceSaver \/ s = StateEmergency.

(** [s2] is at least as loaded as [s1] in every dimension. *)
Definition signals_le (s1 s2 : ResourceSignals) : Prop :=
  fleb (CPUUtilizationPercent s1) (CPUUtilizationPercent s2) = true /\
  MemoryRSSBytes s1 <= MemoryRSSBytes s2 /\
  fleb (StoragePressure s1) (StoragePressure s2) = true /\
  fleb (QueueSaturation s1) (QueueSaturation s2) = true.

(** The evaluation [x] asks governor state [s] for a lower state. *)
Definition wants_recovery (g : Governor) (x : Sample) : Prop :=
  stateSeverity (computeTargetState g x.2).1 < stateSeverity (currentState g).

(** ** Lemmas *)

Create HintDb governor.

Lemma severity_range s : -1 <= stateSeverity s <= 2.
Proof. unfold stateSeverity. repeat case_match; lia. Qed.

Lemma severity_operating s : operating s -> 0 <= stateSeverity s.
Proof. by intros [->|[->| ->]]. Qed.

Lemma severity_inj s t :
  operating s -> operating t -> stateSeverity s = stateSeverity t -> s = t.
Proof. by intros [->|[->| ->]] [->|[->| ->]]. Qed.

Lemma evalFloat64_operating v a b m c n : operating (evalFloat64 v a b m c n).1.
Proof. unfold evalFloat64, operating. repeat case_match; simpl; tauto. Qed.

Lemma evalUint64_operating v a b m c n : operating (evalUint64 v a b m c n).1.
Proof. unfold evalUint64, operating. repeat case_match; simpl; tauto. Qed.

#[export] Hint Resolve evalFloat64_operating evalUint64_operating : governor.

(** Forget how the effective thresholds were computed. *)
Ltac gen_thresholds es ee :=
  cbv zeta;
  match goal with
  | |- context [if _ ?e ?v then _ else if _ ?s ?v then _ else _] =>
      generalize s; intros es; generalize e; intros ee
  end.

Lemma evalFloat64_mono v v' a b m c n :
  fleb v v' = true ->
  stateSeverity (evalFloat64 v a b m c n).1 <= stateSeverity (evalFloat64 v' a b m c n).1.
Proof.
  intros Hv. unfold evalFloat64. gen_thresholds es ee.
  destruct (fleb ee v) eqn:E1; [rewrite (fleb_trans _ _ _ E1 Hv); done|].
  destruct (fleb es v) eqn:E2; [rewrite (fleb_trans _ _ _ E2 Hv)|];
    repeat case_match; simpl; done.
Qed.

Lemma evalUint64_mono v v' a b m c n :
  v <= v' ->
  stateSeverity (evalUint64 v a b m c n).1 <= stateSeverity (evalUint64 v' a b m c n).1.
Proof.
  intros Hv. unfold evalUint64. gen_thresholds es ee.
  destruct (Z.leb_spec ee v), (Z.leb_spec ee v'), (Z.leb_spec es v), (Z.leb_spec es v');
    simpl; try lia; done.
Qed.

Lemma maxSeverity_severity acc l :
  stateSeverity (maxSeverity acc l).1
  = foldl Z.max (stateSeverity acc.1) (map (fun st => stateSeverity st.1) l).
Proof.
  revert acc. induction l as [|st l IH]; intros acc; [done|]. simpl. rewrite IH.
  f_equal. destruct (Z.ltb_spec (stateSeverity acc.1) (stateSeverity st.1)); lia.
Qed.

Lemma maxSeverity_operating acc l :
  operating acc.1 -> Forall (fun st => operating st.1) l -> operating (maxSeverity acc l).1.
Proof.
  intros Hacc Hl. revert acc Hacc. induction Hl as [|st l Hst _ IH]; intros acc Hacc; [done|].
  simpl. apply IH. by case_match.
Qed.

Lemma foldl_max_mono a a' l l' :
  a <= a' -> Forall2 Z.le l l' -> foldl Z.max a l <= foldl Z.max a' l'.
Proof.
  intros Ha Hl. revert a a' Ha. induction Hl as [|x x' l l' Hx _ IH]; intros a a' Ha; [done|].
  simpl. apply IH. lia.
Qed.

Lemma computeTargetState_operating g s : operating (computeTargetState g s).1.
Proof.
  unfold computeTargetState. destruct (validateSignals s); [by right; right|].
  apply maxSeverity_operating; [by left|].
  unfold dimensionStates. rewrite !Forall_cons, Forall_nil. auto 10 with governor.
Qed.

Lemma computeTargetState_ext g g' s :
  config g = config g' -> currentState g = currentState g' ->
  computeTargetState g s = computeTargetState g' s.
Proof. unfold computeTargetState. by intros -> ->. Qed.

#[export] Hint Resolve computeTargetState_operating severity_operating : governor.

(** One evaluation, by the three branches of the source. *)
Lemma Evaluate_inv g now s :
  let target := (computeTargetState g s).1 in
  let g' := (Governor_Evaluate g now s).1 in
  let out := (Governor_Evaluate g now s).2 in
  config g' = config g /\ hasCallback g' = hasCallback g /\
  ((currentState g' = target /\ recoveryStartTime g' = zeroTime /\
    out = (if hasCallback g then out else []) /\
    (exists reason, hasCallback g = true ->
       out = [Build_Transition (currentState g) target reason now s]) /\
    (stateSeverity (currentState g) < stateSeverity target \/
     (stateSeverity target < stateSeverity (currentState g) /\ recoveryStartTime g <> zeroTime /\
      RecoveryDuration (config g) <= Sub now (recoveryStartTime g))))
   \/ (currentState g' = currentState g /\ out = [] /\
       ((stateSeverity target < stateSeverity (currentState g) /\
         recoveryStartTime g = zeroTime /\ recoveryStartTime g' = now)
        \/ (stateSeverity target < stateSeverity (currentState g) /\
            recoveryStartTime g <> zeroTime /\ recoveryStartTime g' = recoveryStartTime g /\
            Sub now (recoveryStartTime g) < RecoveryDuration (config g))
        \/ (stateSeverity target = stateSeverity (currentState g) /\ recoveryStartTime g' = zeroTime)))).
Proof.
  unfold Governor_Evaluate, Governor_transition, IsZero, zeroTime.
  destruct (computeTargetState g s) as [target reason]; simpl.
  destruct (Z.ltb_spec (stateSeverity (currentState g)) (stateSeverity target)); simpl.
  { split_and!; [done..|]. left. split_and!; try done; [by destruct (hasCallback g)| |by left].
    exists reason. by intros ->. }
  destruct (Z.ltb_spec (stateSeverity target) (stateSeverity (currentState g))); simpl.
  2:{ split_and!; [done..|]. right. split_and!; [done..|]. right. right. split; [lia|done]. }
  destruct (Z.eqb_spec (recoveryStartTime g) 0); simpl.
  { split_and!; [done..|]. right. split_and!; [done..|]. left. done. }
  destruct (Z.leb_spec (RecoveryDuration (config g)) (Sub now (recoveryStartTime g))); simpl.
  - split_and!; [done..|]. left. split_and!; try done; [by destruct (hasCallback g)| |by right].
    exists ("Recovery duration met: " ^^ reason). by intros ->.
  - split_and!; [done..|]. right. split_and!; [done..|]. right. left. done.
Qed.

Lemma run_snoc g h x : Governor_run g (h ++ [x]) = Governor_step (Governor_run g h) x.
Proof. unfold Governor_run. by rewrite foldl_app. Qed.

Lemma step_config g x : config (Governor_step g x) = config g.
Proof. unfold Governor_step. by destruct (Evaluate_inv g x.1 x.2). Qed.

Lemma run_config g h : config (Governor_run g h) = config g.
Proof.
  induction h as [|x h IH] using rev_ind; [done|]. by rewrite run_snoc, step_config.
Qed.

Lemma step_operating g x : operating (currentState g) -> operating (currentState (Governor_step g x)).
Proof.
  intros Hg. unfold Governor_step.
  destruct (Evaluate_inv g x.1 x.2) as (_ & _ & [(-> & _)|(-> & _)]); auto with governor.
Qed.

(** The recovery timer of a run, when it is set, dates from an evaluation after
    which every one asked for a lower state and the state did not move. *)
Definition recovering (g0 : Governor) (h : list Sample) (g : Governor) (y : Sample) (h1 h2 : list Sample) : Prop :=
  h = h1 ++ y :: h2 /\ y.1 = recoveryStartTime g /\
  Forall (wants_recovery g) (y :: h2) /\
  forall k, (k <= S (length h2))%nat ->
    currentState (Governor_run g0 (h1 ++ take k (y :: h2))) = currentState g.

Lemma wants_recovery_ext g g' y :
  config g = config g' -> currentState g = currentState g' -> wants_recovery g y -> wants_recovery g' y.
Proof. unfold wants_recovery. intros Hc Hs. by rewrite (computeTargetState_ext g g'), Hs. Qed.

Lemma recovering_extend g0 h g g' y h1 h2 x :
  g = Governor_run g0 h -> g' = Governor_step g x ->
  recovering g0 h g y h1 h2 -> wants_recovery g x ->
  currentState g' = currentState g -> recoveryStartTime g' = recoveryStartTime g ->
  recovering g0 (h ++ [x]) g' y h1 (h2 ++ [x]).
Proof.
  intros Hg Hg' (Hh & Hy & HF & Hk) Hx Hcur Hrec.
  assert (config g = config g') as Hcfg by (by rewrite Hg', step_config).
  split_and!.
  - by rewrite Hh, <- app_assoc.
  - congruence.
  - change (y :: h2 ++ [x]) with ((y :: h2) ++ [x]).
    apply (Forall_impl (wants_recovery g)); [|by eauto using wants_recovery_ext].
    apply Forall_app. by split; [|constructor].
  - intros k Hle. rewrite length_app in Hle. simpl in Hle.
    change (y :: h2 ++ [x]) with ((y :: h2) ++ [x]).
    destruct (decide (k <= S (length h2))%nat).
    + rewrite take_app_le by (simpl; lia). rewrite Hk by done. done.
    + rewrite take_ge by (rewrite length_app; simpl; lia).
      rewrite app_assoc, <- Hh, run_snoc, <- Hg, <- Hg'. done.
Qed.

Lemma run_recovering g0 h :
  recoveryStartTime g0 = zeroTime ->
  recoveryStartTime (Governor_run g0 h) <> zeroTime ->
  exists y h1 h2, recovering g0 h (Governor_run g0 h) y h1 h2.
Proof.
  intros H0. induction h as [|x h IH] using rev_ind; [done|]. rewrite run_snoc.
  set (g := Governor_run g0 h) in *. intros Hnz.
  destruct (Evaluate_inv g x.1 x.2) as (Hcfg & _ & Hc).
  change (Governor_Evaluate g x.1 x.2).1 with (Governor_step g x) in *.
  destruct Hc as [(_ & Hz & _)|(Hcur & _ & [(Hw & Hr & Hr')|[(Hw & Hr & Hr' & _)|(_ & Hr)]])];
    [by rewrite Hz in Hnz| | |by rewrite Hr in Hnz].
  - exists x, h, []. split_and!; [done|by rewrite Hr'| |].
    + constructor; [|done]. by eapply wants_recovery_ext; [..|exact Hw].
    + intros k Hk. destruct k as [|k]; [by rewrite app_nil_r|].
      rewrite take_ge by (simpl; lia). by rewrite run_snoc.
  - rewrite Hr' in Hnz. destruct (IH Hnz) as (y & h1 & h2 & Hrec).
    exists y, h1, (h2 ++ [x]). by eapply recovering_extend; eauto.
Qed.

(** ** Properties *)

(** The thresholds of the production endpoint (agent/cmd/endpoint/main.go). *)
Definition endpointGovernorConfig : Config := {|
  CPUSaverThreshold := f_of_Z 80; CPUEmergencyThreshold := f_of_Z 90; CPURecoveryMargin := f_of_Z 5;
  MemorySaverBytes := 200 * 1024 * 1024; MemoryEmergencyBytes := 300 * 1024 * 1024;
  MemoryRecoveryMarginBytes := 10 * 1024 * 1024;
  StorageSaverRatio := f_lit 7 10; StorageEmergencyRatio := f_lit 9 10;
  StorageRecoveryMarginRatio := f_lit 5 100;
  QueueSaverRatio := f_lit 7 10; QueueEmergencyRatio := f_lit 9 10;
  QueueRecoveryMarginRatio := f_lit 5 100;
  RecoveryDuration := 30 * Second |}.

(** Concrete signals for the witnesses. *)
Definition signals_cpu (pct : Z) : ResourceSignals := {|
  CPUUtilizationPercent := f_of_Z pct; MemoryRSSBytes := 1000;
  StoragePressure := f_lit 1 10; QueueSaturation := f_lit 1 10;
  Signals_NetworkState := NetworkOnline |}.

Definition endpointGovernor (s : HostResourceState) : Governor := {|
  config := endpointGovernorConfig; currentState := s;
  recoveryStartTime := zeroTime; hasCallback := true |}.

(** C22: Recovery is never premature.  In any run of a governor whose recovery
    timer starts unset, when an evaluation lowers the operating state then the
    history ends with a block of evaluations that all asked for a lower state,
    during which the state did not move, and whose first clock reading lies at
    least RecoveryDuration before the lowering one. *)
Theorem governor_recovery_sustained g0 h x :
  recoveryStartTime g0 = zeroTime ->
  0 < RecoveryDuration (config g0) <= MaxInt64 ->
  let g := Governor_run g0 h in
  stateSeverity (currentState (Governor_step g x)) < stateSeverity (currentState g) ->
  exists y h1 h2,
    h = h1 ++ y :: h2 /\
    Forall (wants_recovery g) (y :: h2 ++ [x]) /\
    (forall k, (k <= S (length h2))%nat ->
       currentState (Governor_run g0 (h1 ++ take k (y :: h2))) = currentState g) /\
    RecoveryDuration (config g0) <= x.1 - y.1.
Proof.
  intros H0 Hd g Hlow. destruct (Evaluate_inv g x.1 x.2) as (_ & _ & Hc).
  change (Governor_Evaluate g x.1 x.2).1 with (Governor_step g x) in *.
  destruct Hc as [(Heq & _ & _ & _ & [Hup|(Hw & Hnz & Hel)])|(Heq & _)]; [rewrite Heq in Hlow; lia| |rewrite Heq in Hlow; lia].
  destruct (run_recovering g0 h H0 Hnz) as (y & h1 & h2 & -> & Hy & HF & Hk).
  exists y, h1, h2. split_and!; [done| |done|].
  - change (y :: h2 ++ [x]) with ((y :: h2) ++ [x]). apply Forall_app. split; [done|]. by constructor.
  - unfold g in Hel. rewrite run_config, <- Hy in Hel. apply Sub_ge in Hel; [done|]. int_lits. lia.
Qed.

Lemma governor_recovery_sustained_witness :
  let g0 := endpointGovernor StateEmergency in
  let h := [(100 * Second, signals_cpu 20); (110 * Second, signals_cpu 30)] in
  exists y h1 h2,
    h = h1 ++ y :: h2 /\
    Forall (wants_recovery (Governor_run g0 h)) (y :: h2 ++ [(130 * Second, signals_cpu 20)]) /\
    (forall k, (k <= S (length h2))%nat ->
       currentState (Governor_run g0 (h1 ++ take k (y :: h2))) = currentState (Governor_run g0 h)) /\
    30 * Second <= 130 * Second - y.1.
Proof.
  apply (governor_recovery_sustained (endpointGovernor StateEmergency)
    [(100 * Second, signals_cpu 20); (110 * Second, signals_cpu 30)] (130 * Second, signals_cpu 20)).
  - reflexivity.
  - vm_compute. split; congruence.
  - vm_compute. reflexivity.
Defined.

(** *** What the governor promises, in terms of the readings alone *)

(** A reading between 0 and 1, NaN excluded (every comparison with NaN is
    false). *)
Definition inUnit (f : float64) : Prop := fleb fzero f = true /\ fleb f (f_of_Z 1) = true.

(** Signals that can be acted on: the CPU share is a number that is not
    negative, storage pressure and queue saturation are fractions. *)
Definition readable (s : ResourceSignals) : Prop :=
  fleb fzero (CPUUtilizationPercent s) = true /\ inUnit (StoragePressure s) /\ inUnit (QueueSaturation s).

(** Some dimension reads at or above its configured threshold. *)
Definition reachesEmergency (c : Config) (s : ResourceSignals) : Prop :=
  fleb (CPUEmergencyThreshold c) (CPUUtilizationPercent s) = true \/
  MemoryEmergencyBytes c <= MemoryRSSBytes s \/
  fleb (StorageEmergencyRatio c) (StoragePressure s) = true \/
  fleb (QueueEmergencyRatio c) (QueueSaturation s) = true.

Definition reachesSaver (c : Config) (s : ResourceSignals) : Prop :=
  fleb (CPUSaverThreshold c) (CPUUtilizationPercent s) = true \/
  MemorySaverBytes c <= MemoryRSSBytes s \/
  fleb (StorageSaverRatio c) (StoragePressure s) = true \/
  fleb (QueueSaverRatio c) (QueueSaturation s) = true.

(** Subtracting the recovery margin does not raise a threshold. *)
Definition lowers (margin thresh : float64) : Prop := fleb (fsub thresh margin) thresh = true.

Definition marginsLower (c : Config) : Prop :=
  lowers (CPURecoveryMargin c) (CPUSaverThreshold c) /\ lowers (CPURecoveryMargin c) (CPUEmergencyThreshold c) /\
  in_u64 (MemorySaverBytes c) /\ in_u64 (MemoryEmergencyBytes c) /\ in_u64 (MemoryRecoveryMarginBytes c) /\
  lowers (StorageRecoveryMarginRatio c) (StorageSaverRatio c) /\
  lowers (StorageRecoveryMarginRatio c) (StorageEmergencyRatio c) /\
  lowers (QueueRecoveryMarginRatio c) (QueueSaverRatio c) /\
  lowers (QueueRecoveryMarginRatio c) (QueueEmergencyRatio c).

#[export] Instance marginsLower_dec c : Decision (marginsLower c).
Proof. unfold marginsLower, lowers, in_u64. apply _. Defined.

Lemma evalFloat64_reaches v a b m c n :
  lowers m a -> lowers m b ->
  (fleb b v = true -> (evalFloat64 v a b m c n).1 = StateEmergency) /\
  (fleb a v = true -> 1 <= stateSeverity (evalFloat64 v a b m c n).1).
Proof.
  unfold lowers, evalFloat64. intros Ha Hb.
  assert (forall x t, fleb (fsub t m) t = true -> fleb t v = true ->
    fleb (if x : bool then fsub t m else t) v = true) as Hw
    by (intros [] t Ht Hv; [by eapply fleb_trans|done]).
  split; intros Hv; [by rewrite (Hw _ b Hb Hv)|].
  case_match; [done|]. by rewrite (Hw _ a Ha Hv).
Qed.

Lemma evalUint64_reaches v a b m c n :
  in_u64 a -> in_u64 b -> in_u64 m ->
  (b <= v -> (evalUint64 v a b m c n).1 = StateEmergency) /\
  (a <= v -> 1 <= stateSeverity (evalUint64 v a b m c n).1).
Proof.
  unfold evalUint64. intros Ha Hb Hm.
  assert (forall x t, in_u64 t -> (if x && (m <? t) then u64 (t - m) else t) <= t) as Hw.
  { intros [] t Ht; cbn [andb]; [|lia]. destruct (Z.ltb_spec m t); [|lia].
    rewrite u64_small by (int_lits; lia). int_lits; lia. }
  pose proof (Hw (c =s StateEmergency) b Hb) as Hwb.
  pose proof (Hw ((c =s StateEmergency) || (c =s StateResourceSaver)) a Ha) as Hwa.
  split; intros Hv; (destruct (Z.leb_spec (if (c =s StateEmergency) && (m <? b) then u64 (b - m) else b) v);
    [done|try lia]).
  destruct (Z.leb_spec (if ((c =s StateEmergency) || (c =s StateResourceSaver)) && (m <? a) then u64 (a - m) else a) v);
    [done|lia].
Qed.

(** In NORMAL no margin applies, and the classification is exact. *)
Lemma evalFloat64_normal v a b m n :
  stateSeverity (evalFloat64 v a b m StateNormal n).1
  = if fleb b v then 2 else if fleb a v then 1 else 0.
Proof. unfold evalFloat64. cbn. by destruct (fleb b v), (fleb a v). Qed.

Lemma evalUint64_normal v a b m n :
  stateSeverity (evalUint64 v a b m StateNormal n).1
  = if b <=? v then 2 else if a <=? v then 1 else 0.
Proof. unfold evalUint64. cbn. by destruct (b <=? v), (a <=? v). Qed.

Lemma readable_iff s : readable s <-> validateSignals s = None.
Proof.
  assert (forall f, isNaN f || fltb f fzero = negb (fleb fzero f)) as Hz.
  { intros f. destruct (isNaN f) eqn:E; [by apply isNaN_true in E as ->|].
    rewrite fleb_negb by done. by rewrite negb_involutive. }
  assert (forall f, isNaN f || fltb f fzero || fltb (f_of_Z 1) f = negb (fleb fzero f && fleb f (f_of_Z 1))) as Hu.
  { intros f. rewrite Hz. destruct (isNaN f) eqn:E; [by apply isNaN_true in E as ->|].
    rewrite (fleb_negb f (f_of_Z 1)) by done. by rewrite negb_andb, negb_involutive. }
  unfold readable, inUnit, validateSignals. rewrite Hz, !Hu.
  destruct (fleb fzero (CPUUtilizationPercent s)), (fleb fzero (StoragePressure s)),
    (fleb (StoragePressure s) (f_of_Z 1)), (fleb fzero (QueueSaturation s)),
    (fleb (QueueSaturation s) (f_of_Z 1)); cbn; split; try done; intros; by destruct_and?.
Qed.

Lemma foldl_max_ge a l : a <= foldl Z.max a l /\ Forall (fun x => x <= foldl Z.max a l) l.
Proof.
  revert a. induction l as [|x l IH]; intros a; cbn; [split; [lia|constructor]|].
  destruct (IH (Z.max a x)) as [H1 H2]. split; [lia|]. constructor; [lia|done].
Qed.

(** The target is at least as severe as each dimension. *)
Lemma target_dimensions g s :
  Forall (fun st => stateSeverity st.1 <= stateSeverity (computeTargetState g s).1)
    (dimensionStates (config g) (currentState g) s).
Proof.
  unfold computeTargetState. destruct (validateSignals s).
  - apply Forall_forall. intros st _. cbn [fst]. apply severity_range.
  - rewrite maxSeverity_severity.
    match goal with |- context [foldl Z.max ?a ?l] => destruct (foldl_max_ge a l) as [_ Hf] end.
    by rewrite Forall_map in Hf.
Qed.

Lemma target_reaches g s :
  marginsLower (config g) ->
  (reachesEmergency (config g) s -> stateSeverity (computeTargetState g s).1 = 2) /\
  (reachesSaver (config g) s -> 1 <= stateSeverity (computeTargetState g s).1).
Proof.
  intros (C1 & C2 & M1 & M2 & M3 & S1 & S2 & Q1 & Q2). pose proof (target_dimensions g s) as Ht.
  pose proof (severity_range (computeTargetState g s).1) as Hr.
  unfold dimensionStates in Ht. rewrite !Forall_cons in Ht. destruct Ht as (Tc & Tm & Ts & Tq & _).
  pose proof (evalFloat64_reaches (CPUUtilizationPercent s) _ _ _ (currentState g) "CPU" C1 C2) as [Ec Sc].
  pose proof (evalUint64_reaches (MemoryRSSBytes s) _ _ _ (currentState g) "Memory" M1 M2 M3) as [Em Sm].
  pose proof (evalFloat64_reaches (StoragePressure s) _ _ _ (currentState g) "Storage" S1 S2) as [Es Ss].
  pose proof (evalFloat64_reaches (QueueSaturation s) _ _ _ (currentState g) "Queue" Q1 Q2) as [Eq Sq].
  split.
  - intros [H|[H|[H|H]]]; [rewrite (Ec H) in Tc|rewrite (Em H) in Tm|rewrite (Es H) in Ts|rewrite (Eq H) in Tq];
      change (stateSeverity StateEmergency) with 2 in *; lia.
  - intros [H|[H|[H|H]]]; [specialize (Sc H)|specialize (Sm H)|specialize (Ss H)|specialize (Sq H)]; lia.
Qed.

(** From NORMAL with readable signals, the target's severity is decided by the
    configured thresholds alone. *)
Lemma target_normal g s :
  currentState g = StateNormal -> readable s ->
  (stateSeverity (computeTargetState g s).1 = 2 <-> reachesEmergency (config g) s) /\
  (1 <= stateSeverity (computeTargetState g s).1 <-> reachesEmergency (config g) s \/ reachesSaver (config g) s).
Proof.
  intros Hn Hr%readable_iff. unfold computeTargetState. rewrite Hr, maxSeverity_severity, Hn.
  unfold dimensionStates. cbn [map foldl]. rewrite !evalFloat64_normal, evalUint64_normal.
  change (stateSeverity (StateNormal, "Healthy"%string).1) with 0. unfold reachesEmergency, reachesSaver.
  rewrite <- !Z.leb_le.
  destruct (fleb (CPUEmergencyThreshold _) _), (fleb (CPUSaverThreshold _) _), (MemoryEmergencyBytes _ <=? _),
    (MemorySaverBytes _ <=? _), (fleb (StorageEmergencyRatio _) _), (fleb (StorageSaverRatio _) _),
    (fleb (QueueEmergencyRatio _) _), (fleb (QueueSaverRatio _) _); vm_compute; intuition (try discriminate; try congruence).
Qed.

(** C21: The governor fails safe and reacts at once.  Whatever operating
    state it is in, one evaluation puts it in EMERGENCY when a signal is not
    readable (NaN, negative, or a ratio above 1) and when any of the four
    dimensions reads at or above its emergency threshold, and leaves it at
    RESOURCE-SAVER or above when any reads at or above its saver threshold.
    It does not overreact either: in NORMAL, with readable signals, the new
    state is EMERGENCY only if an emergency threshold is reached and NORMAL if
    no threshold is.  The hypothesis on the configuration is that no recovery
    margin raises a threshold (a NaN margin, which validateConfig lets
    through, would). *)
Theorem governor_fail_safe g now s :
  operating (currentState g) -> marginsLower (config g) ->
  let g' := (Governor_Evaluate g now s).1 in
  operating (currentState g') /\
  (~ readable s -> currentState g' = StateEmergency) /\
  (reachesEmergency (config g) s -> currentState g' = StateEmergency) /\
  (reachesSaver (config g) s -> currentState g' <> StateNormal) /\
  (currentState g = StateNormal -> readable s ->
     (currentState g' = StateEmergency -> reachesEmergency (config g) s) /\
     (currentState g' <> StateNormal -> reachesEmergency (config g) s \/ reachesSaver (config g) s)).
Proof.
  intros Hop Hm g'. subst g'. destruct (Evaluate_inv g now s) as (_ & _ & Hc).
  pose proof (step_operating g (now, s) Hop) as Hop'. unfold Governor_step in Hop'. cbn [fst snd] in Hop'.
  pose proof (computeTargetState_operating g s) as Hot. destruct (target_reaches g s Hm) as [He Hs].
  set (st' := currentState (Governor_Evaluate g now s).1) in *.
  assert (stateSeverity (computeTargetState g s).1 <= stateSeverity st') as Hle.
  { destruct Hc as [(-> & _)|(-> & _ & [?|[?|?]])]; lia. }
  assert (stateSeverity (computeTargetState g s).1 = 2 -> st' = StateEmergency) as H2.
  { intros E. pose proof (severity_range st'). apply severity_inj; [done|by right; right|].
    change (stateSeverity StateEmergency) with 2. lia. }
  split_and!; [done| |by intros ?%He%H2| |].
  - intros Hr. apply H2. rewrite readable_iff in Hr. unfold computeTargetState. by destruct (validateSignals s).
  - intros Hr%Hs E. rewrite E in Hle. change (stateSeverity StateNormal) with 0 in Hle. lia.
  - intros Hn Hr. destruct (target_normal g s Hn Hr) as [T1 T2].
    assert (st' = (computeTargetState g s).1) as Hst.
    { destruct Hc as [(-> & _)|(-> & _ & [(? & _)|[(? & _)|(E & _)]])]; [done|..];
        rewrite Hn in *; change (stateSeverity StateNormal) with 0 in *.
      1-2: pose proof (severity_operating _ Hot); lia.
      symmetry. apply severity_inj; [done|by left|done]. }
    rewrite Hst. split; [intros E; apply T1; by rewrite E|]. intros E. apply T2.
    destruct Hot as [Ht|[Ht|Ht]]; rewrite Ht in *; [done|vm_compute; discriminate..].
Qed.

(** A NaN processor share is an emergency; a saturated queue is one too, also
    while the endpoint is in RESOURCE-SAVER; 82 % of a processor is not. *)
Lemma governor_fail_safe_witness :
  let nan := {| CPUUtilizationPercent := fNaN; MemoryRSSBytes := 1000; StoragePressure := fzero;
                QueueSaturation := fzero; Signals_NetworkState := NetworkOffline |} in
  let full := {| CPUUtilizationPercent := fzero; MemoryRSSBytes := 1000; StoragePressure := fzero;
                 QueueSaturation := f_lit 95 100; Signals_NetworkState := NetworkOffline |} in
  currentState (Governor_Evaluate (endpointGovernor StateNormal) (5 * Second) nan).1 = StateEmergency /\
  currentState (Governor_Evaluate (endpointGovernor StateResourceSaver) (5 * Second) full).1 = StateEmergency /\
  currentState (Governor_Evaluate (endpointGovernor StateNormal) (5 * Second) (signals_cpu 82)).1 <> StateNormal.
Proof.
  intros nan full.
  assert (marginsLower endpointGovernorConfig) as Hm by (vm_compute; repeat split; congruence).
  split; [|split].
  - refine (proj1 (proj2 (governor_fail_safe (endpointGovernor StateNormal) (5 * Second) nan
      (or_introl eq_refl) Hm)) _).
    intros [H _]. vm_compute in H. discriminate.
  - refine (proj1 (proj2 (proj2 (governor_fail_safe (endpointGovernor StateResourceSaver) (5 * Second) full
      (or_intror (or_introl eq_refl)) Hm))) _).
    right. right. right. vm_compute. reflexivity.
  - refine (proj1 (proj2 (proj2 (proj2 (governor_fail_safe (endpointGovernor StateNormal) (5 * Second)
      (signals_cpu 82) (or_introl eq_refl) Hm)))) _).
    left. vm_compute. reflexivity.
Defined.

(** The target state is monotone in load: raising any of the four signals,
    from valid ones, never lowers the severity of the target. *)
Theorem governor_target_monotone g s1 s2 :
  validateSignals s1 = None -> signals_le s1 s2 ->
  stateSeverity (computeTargetState g s1).1 <= stateSeverity (computeTargetState g s2).1.
Proof.
  intros Hv (Hcpu & Hmem & Hst & Hq). unfold computeTargetState. rewrite Hv.
  destruct (validateSignals s2); [apply severity_range|].
  rewrite !maxSeverity_severity. apply foldl_max_mono; [done|].
  unfold dimensionStates. cbn [map].
  repeat (apply Forall2_cons; split; [first [by apply evalFloat64_mono | by apply evalUint64_mono]|]).
  by apply Forall2_nil.
Qed.

Lemma governor_target_monotone_witness :
  stateSeverity (computeTargetState (endpointGovernor StateNormal) (signals_cpu 50)).1
  <= stateSeverity (computeTargetState (endpointGovernor StateNormal) (signals_cpu 95)).1.
Proof.
  apply (governor_target_monotone (endpointGovernor StateNormal) (signals_cpu 50) (signals_cpu 95)).
  - vm_compute. reflexivity.
  - unfold signals_le. vm_compute. repeat split; congruence.
Defined.

(** While every sample of [x :: h] asks for recovery and the state has not
    moved, the timer of the run is the clock reading of [x]. *)
Lemma recovery_timer_runs g x h :
  recoveryStartTime g = zeroTime -> x.1 <> zeroTime ->
  Forall (wants_recovery g) (x :: h) ->
  (exists k, (k <= S (length h))%nat /\
     stateSeverity (currentState (Governor_run g (take k (x :: h)))) < stateSeverity (currentState g))
  \/ (currentState (Governor_run g (x :: h)) = currentState g /\
      recoveryStartTime (Governor_run g (x :: h)) = x.1).
Proof.
  intros H0 Hx. induction h as [|z h IH] using rev_ind; intros HF.
  - right. apply Forall_cons in HF as [Hw _]. unfold wants_recovery in Hw. cbn [Governor_run foldl].
    destruct (Evaluate_inv g x.1 x.2) as (_ & _ & Hc).
    change (Governor_Evaluate g x.1 x.2).1 with (Governor_step g x) in *.
    destruct Hc as [(_ & _ & _ & _ & [?|(_ & ? & _)])|(-> & _ & [(_ & _ & ->)|[(_ & ? & _)|(? & _)]])];
      try lia; try done.
  - change (x :: h ++ [z]) with ((x :: h) ++ [z]) in *. apply Forall_app in HF as [HF Hz].
    apply Forall_cons in Hz as [Hz _].
    destruct (IH HF) as [(k & Hk & Hlow)|[Hcur Hrec]].
    { left. exists k. split; [rewrite length_app; simpl; lia|].
      rewrite take_app_le by (simpl; lia). done. }
    set (g1 := Governor_run g (x :: h)) in *. rewrite run_snoc. fold g1.
    assert (wants_recovery g1 z) as Hw.
    { eapply wants_recovery_ext; [..|exact Hz]; [unfold g1; by rewrite run_config|done]. }
    unfold wants_recovery in Hw.
    destruct (Evaluate_inv g1 z.1 z.2) as (_ & _ & Hc).
    change (Governor_Evaluate g1 z.1 z.2).1 with (Governor_step g1 z) in *.
    destruct Hc as [(Heq & _)|(Heq & _ & [(_ & ? & _)|[(_ & _ & Hr & _)|(? & _)]])];
      [|congruence| |lia].
    + left. exists (S (length (h ++ [z]))). split; [lia|].
      change (x :: h ++ [z]) with ((x :: h) ++ [z]).
      rewrite take_ge by (rewrite !length_app; simpl; lia).
      rewrite run_snoc. fold g1. rewrite Heq, <- Hcur. lia.
    + right. rewrite Heq, Hr. done.
Qed.

(** Sustained relief leads to recovery.  If the recovery timer is unset and
    every evaluation of a history asks for a lower state, the first at a
    non-zero clock reading and the last at least RecoveryDuration later, then
    at some point of that history the governor does lower its state. *)
Theorem governor_recovers g x h y :
  recoveryStartTime g = zeroTime -> x.1 <> zeroTime ->
  Forall (wants_recovery g) (x :: h ++ [y]) ->
  0 < RecoveryDuration (config g) <= MaxInt64 ->
  RecoveryDuration (config g) <= y.1 - x.1 ->
  exists k, stateSeverity (currentState (Governor_run g (take k (x :: h ++ [y]))))
            < stateSeverity (currentState g).
Proof.
  intros H0 Hx HF Hd Hel. change (x :: h ++ [y]) with ((x :: h) ++ [y]) in *.
  apply Forall_app in HF as [HF Hy]. apply Forall_cons in Hy as [Hy _].
  destruct (recovery_timer_runs g x h H0 Hx HF) as [(k & Hk & Hlow)|[Hcur Hrec]].
  { exists k. rewrite take_app_le by (simpl; lia). done. }
  exists (length ((x :: h) ++ [y])). rewrite take_ge by lia. rewrite run_snoc.
  set (g1 := Governor_run g (x :: h)) in *.
  assert (config g1 = config g) as Hcfg by apply run_config.
  assert (wants_recovery g1 y) as Hw by (eapply wants_recovery_ext; [..|exact Hy]; done).
  unfold wants_recovery in Hw.
  destruct (Evaluate_inv g1 y.1 y.2) as (_ & _ & Hc).
  change (Governor_Evaluate g1 y.1 y.2).1 with (Governor_step g1 y) in *.
  destruct Hc as [(-> & _)|(_ & _ & [(_ & ? & _)|[(_ & _ & _ & Hlt)|(? & _)]])];
    [rewrite <- Hcur; exact Hw|congruence| |lia].
  rewrite Hrec, Hcfg in Hlt. apply Sub_ge in Hel; [lia|]. int_lits. lia.
Qed.

Lemma governor_recovers_witness :
  let g := endpointGovernor StateEmergency in
  exists k, stateSeverity (currentState (Governor_run g
              (take k [(100 * Second, signals_cpu 20); (115 * Second, signals_cpu 82); (131 * Second, signals_cpu 20)])))
            < stateSeverity (currentState g).
Proof.
  apply (governor_recovers (endpointGovernor StateEmergency) (100 * Second, signals_cpu 20)
    [(115 * Second, signals_cpu 82)] (131 * Second, signals_cpu 20)).
  - reflexivity.
  - vm_compute. congruence.
  - repeat constructor; vm_compute; reflexivity.
  - vm_compute. split; congruence.
  - vm_compute. congruence.
Defined.

(** A list of transitions leads from [s] to [t], each starting where the
    previous one ended and changing the state. *)
Fixpoint linked (s : HostResourceState) (trs : list Transition) (t : HostResourceState) : Prop :=
  match trs with
  | [] => s = t
  | tr :: trs => PreviousState tr = s /\ NewState tr <> s /\ linked (NewState tr) trs t
  end.

Lemma linked_app s trs1 trs2 t u : linked s trs1 t -> linked t trs2 u -> linked s (trs1 ++ trs2) u.
Proof.
  revert s. induction trs1 as [|tr trs1 IH]; simpl; intros s; [by intros ->|].
  intros (? & ? & ?) ?. auto.
Qed.

Lemma Evaluate_linked g now s :
  hasCallback g = true ->
  linked (currentState g) (Governor_Evaluate g now s).2 (currentState (Governor_Evaluate g now s).1).
Proof.
  intros Hcb. destruct (Evaluate_inv g now s) as (_ & _ & Hc).
  destruct Hc as [(-> & _ & _ & (reason & Hout) & Hsev)|(-> & -> & _)]; [|done].
  rewrite Hout by done. simpl. split_and!; try done.
  intros Heq. rewrite Heq in Hsev. lia.
Qed.

(** The callback sees every state change: the transitions emitted over a run
    form an unbroken chain from the first state to the last. *)
Lemma Evaluate_emits_linked g h :
  hasCallback g = true ->
  linked (currentState g) (Governor_emits g h) (currentState (Governor_run g h)).
Proof.
  revert g. induction h as [|x h IH]; intros g Hcb; [done|]. simpl.
  apply (linked_app _ _ _ (currentState (Governor_step g x))).
  - by apply Evaluate_linked.
  - apply IH. unfold Governor_step. by destruct (Evaluate_inv g x.1 x.2) as (_ & -> & _).
Qed.

(** The memory hysteresis never wraps and only widens: from a more severe
    state the same reading is classified at least as severely, for all uint64
    thresholds and margins. *)
Theorem memory_hysteresis_widens v saver emerg margin c1 c2 name :
  in_u64 saver -> in_u64 emerg -> in_u64 margin ->
  operating c1 -> operating c2 -> stateSeverity c1 <= stateSeverity c2 ->
  stateSeverity (evalUint64 v saver emerg margin c1 name).1
  <= stateSeverity (evalUint64 v saver emerg margin c2 name).1.
Proof.
  intros Hs He Hm H1 H2 Hle. unfold evalUint64.
  assert (forall a, in_u64 a -> margin < a -> u64 (a - margin) = a - margin) as Hw
    by (intros; apply u64_small; int_lits; lia).
  destruct (Z.ltb_spec margin emerg); [rewrite (Hw emerg) by done|];
  (destruct (Z.ltb_spec margin saver); [rewrite (Hw saver) by done|]);
  destruct H1 as [->|[->| ->]], H2 as [->|[->| ->]]; try (vm_compute in Hle; congruence);
  cbn [String.eqb Ascii.eqb Bool.eqb andb orb StateNormal StateResourceSaver StateEmergency];
  repeat match goal with |- context [?a <=? ?b] => destruct (Z.leb_spec a b) end;
  cbn [fst]; try (vm_compute; congruence); int_lits; lia.
Qed.

Lemma memory_hysteresis_widens_witness :
  stateSeverity (evalUint64 195 200 300 10 StateNormal "Memory").1
  <= stateSeverity (evalUint64 195 200 300 10 StateResourceSaver "Memory").1.
Proof.
  apply memory_hysteresis_widens; try (vm_compute; split; congruence).
  - left. reflexivity.
  - right. left. reflexivity.
  - vm_compute. congruence.
Defined.

(** A configuration whose CPU thresholds are NaN. *)
Definition nanCPUConfig : Config := {|
  CPUSaverThreshold := fNaN; CPUEmergencyThreshold := fNaN; CPURecoveryMargin := fzero;
  MemorySaverBytes := 100; MemoryEmergencyBytes := 200; MemoryRecoveryMarginBytes := 10;
  StorageSaverRatio := f_lit 7 10; StorageEmergencyRatio := f_lit 9 10;
  StorageRecoveryMarginRatio := f_lit 5 100;
  QueueSaverRatio := f_lit 7 10; QueueEmergencyRatio := f_lit 9 10;
  QueueRecoveryMarginRatio := f_lit 5 100;
  RecoveryDuration := 30 * Second |}.

(** validateConfig does not reject NaN thresholds, and a governor built
    with them classifies every CPU reading as NORMAL: the CPU dimension is
    silently disabled (validateSignals does test for NaN). *)
Theorem validateConfig_accepts_nan :
  validateConfig nanCPUConfig = None /\
  forall v current, evalFloat64 v (CPUSaverThreshold nanCPUConfig) (CPUEmergencyThreshold nanCPUConfig)
    (CPURecoveryMargin nanCPUConfig) current "CPU" = (StateNormal, "CPU healthy"%string).
Proof.
  split; [vm_compute; reflexivity|]. intros v current. unfold evalFloat64, nanCPUConfig. simpl.
  repeat case_match; simplify_eq; rewrite ?fleb_nan_l in *; try done.
Qed.
