(* ===== verification/Metrics.v ===== *)
(** The governor's telemetry registry (agent/internal/governor/metrics.go):
    the last measurements, the per-category event counters (uint64, wrapping)
    and the mirror of the governor's state kept by [RecordTransition]. *)
From S2P Require Import Prelude GoFloat GoTime Governor.

Open Scope Z_scope.

(** A measurement that may be unavailable: types.go's [ValidFloat64] and
    [ValidUint64]. *)
Record ValidFloat64 := { vf_Value : float64; vf_Valid : bool }.
Record ValidUint64 := { vu_Value : Z; vu_Valid : bool }.

Definition invalidFloat64 : ValidFloat64 := {| vf_Value := fzero; vf_Valid := false |}.
Definition invalidUint64 : ValidUint64 := {| vu_Value := 0; vu_Valid := false |}.

Notation EventPriority := string (only parsing).
Notation DropReason := string (only parsing).
Notation EventSource := string (only parsing).

Record EventCategory := {
  Priority : EventPriority;
  Category_Reason : DropReason;
  Category_Source : EventSource;
}.

#[export] Instance EventCategory_eq_dec : EqDecision EventCategory.
Proof. solve_decision. Defined.
#[export] Instance EventCategory_countable : Countable EventCategory.
Proof.
  apply (inj_countable'
    (fun c => (Priority c, Category_Reason c, Category_Source c))
    (fun '(p, r, s) => {| Priority := p; Category_Reason := r; Category_Source := s |})).
  by intros [].
Defined.

Record GovernorMetrics := {
  agentCPUPercent : ValidFloat64;
  agentRSSBytes : ValidUint64;
  queueDepthCount : ValidUint64;
  queueOldestEventAgeSec : ValidFloat64;
  queueSaturationPercent : ValidFloat64;
  queueCapacityCount : ValidUint64;
  diskStorageUsedBytes : ValidUint64;
  diskWritePressureBytesPerSec : ValidFloat64;
  eventsAggregatedTotal : gmap EventCategory Z;
  eventsDroppedTotal : gmap EventCategory Z;
  metrics_currentState : HostResourceState;
  totalStateTransitions : Z;
  currentEmergencyStart : Time;
  lastTransitionTimestamp : Time;
}.

Definition NewGovernorMetrics : GovernorMetrics := {|
  agentCPUPercent := invalidFloat64; agentRSSBytes := invalidUint64;
  queueDepthCount := invalidUint64; queueOldestEventAgeSec := invalidFloat64;
  queueSaturationPercent := invalidFloat64; queueCapacityCount := invalidUint64;
  diskStorageUsedBytes := invalidUint64; diskWritePressureBytesPerSec := invalidFloat64;
  eventsAggregatedTotal := ∅; eventsDroppedTotal := ∅;
  metrics_currentState := StateNormal; totalStateTransitions := 0;
  currentEmergencyStart := zeroTime; lastTransitionTimestamp := zeroTime |}.

Definition UpdateCPU (m : GovernorMetrics) (v : ValidFloat64) : GovernorMetrics * option error :=
  if vf_Valid v && (isNaN (vf_Value v) || fltb (vf_Value v) fzero || fltb (f_of_Z 100) (vf_Value v))
  then (m, Some (ErrNew "invalid CPU measurement"))
  else ({| agentCPUPercent := v; agentRSSBytes := agentRSSBytes m;
           queueDepthCount := queueDepthCount m; queueOldestEventAgeSec := queueOldestEventAgeSec m;
           queueSaturationPercent := queueSaturationPercent m; queueCapacityCount := queueCapacityCount m;
           diskStorageUsedBytes := diskStorageUsedBytes m;
           diskWritePressureBytesPerSec := diskWritePressureBytesPerSec m;
           eventsAggregatedTotal := eventsAggregatedTotal m; eventsDroppedTotal := eventsDroppedTotal m;
           metrics_currentState := metrics_currentState m;
           totalStateTransitions := totalStateTransitions m;
           currentEmergencyStart := currentEmergencyStart m;
           lastTransitionTimestamp := lastTransitionTimestamp m |}, None).

Definition UpdateMemory (m : GovernorMetrics) (v : ValidUint64) : GovernorMetrics :=
  {| agentCPUPercent := agentCPUPercent m; agentRSSBytes := v;
     queueDepthCount := queueDepthCount m; queueOldestEventAgeSec := queueOldestEventAgeSec m;
     queueSaturationPercent := queueSaturationPercent m; queueCapacityCount := queueCapacityCount m;
     diskStorageUsedBytes := diskStorageUsedBytes m;
     diskWritePressureBytesPerSec := diskWritePressureBytesPerSec m;
     eventsAggregatedTotal := eventsAggregatedTotal m; eventsDroppedTotal := eventsDroppedTotal m;
     metrics_currentState := metrics_currentState m;
     totalStateTransitions := totalStateTransitions m;
     currentEmergencyStart := currentEmergencyStart m;
     lastTransitionTimestamp := lastTransitionTimestamp m |}.

(** The saturation stored by [UpdateQueue]. *)
Definition queueSaturation (depth capacity : ValidUint64) : ValidFloat64 :=
  if vu_Valid depth && vu_Valid capacity
  then {| vf_Value := fdiv (f_of_Z (vu_Value depth)) (f_of_Z (vu_Value capacity)); vf_Valid := true |}
  else invalidFloat64.

Definition UpdateQueue (m : GovernorMetrics) (depth capacity : ValidUint64) (oldestAge : ValidFloat64)
    : GovernorMetrics * option error :=
  if vu_Valid depth && vu_Valid capacity && (vu_Value capacity <? vu_Value depth)
  then (m, Some (ErrNew "depth cannot exceed capacity"))
  else if vu_Valid capacity && (vu_Value capacity =? 0)
  then (m, Some (ErrNew "capacity must be > 0 for saturation calculation"))
  else if vf_Valid oldestAge && (isNaN (vf_Value oldestAge) || fltb (vf_Value oldestAge) fzero)
  then (m, Some (ErrNew "invalid oldest age"))
  else ({| agentCPUPercent := agentCPUPercent m; agentRSSBytes := agentRSSBytes m;
           queueDepthCount := depth; queueOldestEventAgeSec := oldestAge;
           queueSaturationPercent := queueSaturation depth capacity; queueCapacityCount := capacity;
           diskStorageUsedBytes := diskStorageUsedBytes m;
           diskWritePressureBytesPerSec := diskWritePressureBytesPerSec m;
           eventsAggregatedTotal := eventsAggregatedTotal m; eventsDroppedTotal := eventsDroppedTotal m;
           metrics_currentState := metrics_currentState m;
           totalStateTransitions := totalStateTransitions m;
           currentEmergencyStart := currentEmergencyStart m;
           lastTransitionTimestamp := lastTransitionTimestamp m |}, None).

Definition UpdateDisk (m : GovernorMetrics) (used : ValidUint64) (writePressure : ValidFloat64)
    : GovernorMetrics * option error :=
  if vf_Valid writePressure && (isNaN (vf_Value writePressure) || fltb (vf_Value writePressure) fzero)
  then (m, Some (ErrNew "invalid disk write pressure"))
  else ({| agentCPUPercent := agentCPUPercent m; agentRSSBytes := agentRSSBytes m;
           queueDepthCount := queueDepthCount m; queueOldestEventAgeSec := queueOldestEventAgeSec m;
           queueSaturationPercent := queueSaturationPercent m; queueCapacityCount := queueCapacityCount m;
           diskStorageUsedBytes := used; diskWritePressureBytesPerSec := writePressure;
           eventsAggregatedTotal := eventsAggregatedTotal m; eventsDroppedTotal := eventsDroppedTotal m;
           metrics_currentState := metrics_currentState m;
           totalStateTransitions := totalStateTransitions m;
           currentEmergencyStart := currentEmergencyStart m;
           lastTransitionTimestamp := lastTransitionTimestamp m |}, None).

Definition RecordTransition (m : GovernorMetrics) (tr : Transition) : GovernorMetrics :=
  {| agentCPUPercent := agentCPUPercent m; agentRSSBytes := agentRSSBytes m;
     queueDepthCount := queueDepthCount m; queueOldestEventAgeSec := queueOldestEventAgeSec m;
     queueSaturationPercent := queueSaturationPercent m; queueCapacityCount := queueCapacityCount m;
     diskStorageUsedBytes := diskStorageUsedBytes m;
     diskWritePressureBytesPerSec := diskWritePressureBytesPerSec m;
     eventsAggregatedTotal := eventsAggregatedTotal m; eventsDroppedTotal := eventsDroppedTotal m;
     metrics_currentState := NewState tr;
     totalStateTransitions := u64 (totalStateTransitions m + 1);
     currentEmergencyStart :=
       if NewState tr =s StateEmergency
       then if IsZero (currentEmergencyStart m) then ObservedAt tr else currentEmergencyStart m
       else zeroTime;
     lastTransitionTimestamp := ObservedAt tr |}.

(** [counter[cat]++] on a Go map: an absent key reads as zero. *)
Definition bumpCounter (counters : gmap EventCategory Z) (cat : EventCategory) : gmap EventCategory Z :=
  <[cat := u64 (default 0 (counters !! cat) + 1)]> counters.

Definition IncrementAggregated (m : GovernorMetrics) (cat : EventCategory) : GovernorMetrics :=
  {| agentCPUPercent := agentCPUPercent m; agentRSSBytes := agentRSSBytes m;
     queueDepthCount := queueDepthCount m; queueOldestEventAgeSec := queueOldestEventAgeSec m;
     queueSaturationPercent := queueSaturationPercent m; queueCapacityCount := queueCapacityCount m;
     diskStorageUsedBytes := diskStorageUsedBytes m;
     diskWritePressureBytesPerSec := diskWritePressureBytesPerSec m;
     eventsAggregatedTotal := bumpCounter (eventsAggregatedTotal m) cat;
     eventsDroppedTotal := eventsDroppedTotal m;
     metrics_currentState := metrics_currentState m;
     totalStateTransitions := totalStateTransitions m;
     currentEmergencyStart := currentEmergencyStart m;
     lastTransitionTimestamp := lastTransitionTimestamp m |}.

Definition IncrementDropped (m : GovernorMetrics) (cat : EventCategory) : GovernorMetrics :=
  {| agentCPUPercent := agentCPUPercent m; agentRSSBytes := agentRSSBytes m;
     queueDepthCount := queueDepthCount m; queueOldestEventAgeSec := queueOldestEventAgeSec m;
     queueSaturationPercent := queueSaturationPercent m; queueCapacityCount := queueCapacityCount m;
     diskStorageUsedBytes := diskStorageUsedBytes m;
     diskWritePressureBytesPerSec := diskWritePressureBytesPerSec m;
     eventsAggregatedTotal := eventsAggregatedTotal m;
     eventsDroppedTotal := bumpCounter (eventsDroppedTotal m) cat;
     metrics_currentState := metrics_currentState m;
     totalStateTransitions := totalStateTransitions m;
     currentEmergencyStart := currentEmergencyStart m;
     lastTransitionTimestamp := lastTransitionTimestamp m |}.

Record MetricsSnapshot := {
  AgentCPUPercent : ValidFloat64;
  AgentRSSBytes : ValidUint64;
  QueueDepthCount : ValidUint64;
  QueueOldestEventAgeSeconds : ValidFloat64;
  QueueSaturationPercent : ValidFloat64;
  QueueCapacityCount : ValidUint64;
  DiskStorageUsedBytes : ValidUint64;
  DiskWritePressureBytesSec : ValidFloat64;
  EventsAggregatedTotal : gmap EventCategory Z;
  EventsDroppedTotal : gmap EventCategory Z;
  Snapshot_GovernorState : HostResourceState;
  TotalStateTransitions : Z;
  TimeInEmergencyModeSeconds : float64;
  LastTransitionTimestamp : Time;
}.

Definition Metrics_Snapshot (m : GovernorMetrics) (now : Time) : MetricsSnapshot := {|
  AgentCPUPercent := agentCPUPercent m;
  AgentRSSBytes := agentRSSBytes m;
  QueueDepthCount := queueDepthCount m;
  QueueOldestEventAgeSeconds := queueOldestEventAgeSec m;
  QueueSaturationPercent := queueSaturationPercent m;
  QueueCapacityCount := queueCapacityCount m;
  DiskStorageUsedBytes := diskStorageUsedBytes m;
  DiskWritePressureBytesSec := diskWritePressureBytesPerSec m;
  EventsAggregatedTotal := eventsAggregatedTotal m;
  EventsDroppedTotal := eventsDroppedTotal m;
  Snapshot_GovernorState := metrics_currentState m;
  TotalStateTransitions := totalStateTransitions m;
  LastTransitionTimestamp := lastTransitionTimestamp m;
  TimeInEmergencyModeSeconds :=
    if negb (IsZero (currentEmergencyStart m)) && (metrics_currentState m =s StateEmergency)
    then Seconds (Sub now (currentEmergencyStart m))
    else fzero |}.

(** ** Lemmas *)
Lemma bumpCounter_lookup counters cat cat' :
  bumpCounter counters cat !! cat' =
    if decide (cat = cat') then Some (u64 (default 0 (counters !! cat) + 1)) else counters !! cat'.
Proof. unfold bumpCounter. rewrite lookup_insert. done. Qed.

Lemma u64_succ z : u64 (u64 z + 1) = u64 (z + 1).
Proof. unfold u64, wrapU. by rewrite Zplus_mod_idemp_l. Qed.

(** What the registry says after recording a linked chain of transitions. *)
Definition mirrors (m : GovernorMetrics) (trs : list Transition) (s : HostResourceState) : Prop :=
  metrics_currentState m = s /\
  totalStateTransitions m = u64 (Z.of_nat (length trs)) /\
  (s <> StateEmergency -> currentEmergencyStart m = zeroTime) /\
  (s = StateEmergency ->
     exists trs0 tr, trs = trs0 ++ [tr] /\ NewState tr = StateEmergency /\
       currentEmergencyStart m = ObservedAt tr /\ lastTransitionTimestamp m = ObservedAt tr).

Lemma mirrors_record m trs s tr :
  mirrors m trs s -> PreviousState tr = s -> NewState tr <> s ->
  mirrors (RecordTransition m tr) (trs ++ [tr]) (NewState tr).
Proof.
  intros (Hs & Ht & Hz & He) Hp Hn. unfold mirrors, RecordTransition. cbn.
  split_and!; [done| | |].
  - rewrite Ht, length_app, Nat2Z.inj_add. apply u64_succ.
  - intros Hne. by destruct (String.eqb_spec (NewState tr) StateEmergency).
  - intros Heq. rewrite Heq. cbn. exists trs, tr. rewrite Hz by congruence. done.
Qed.

Lemma mirrors_foldl m trs0 trs s t :
  mirrors m trs0 s -> linked s trs t -> mirrors (foldl RecordTransition m trs) (trs0 ++ trs) t.
Proof.
  revert m trs0 s. induction trs as [|tr trs IH]; intros m trs0 s Hm Hl; simpl in *.
  - subst. by rewrite app_nil_r.
  - destruct Hl as (Hp & Hn & Hl). rewrite cons_middle, app_assoc.
    eapply IH; [|exact Hl]. by eapply mirrors_record.
Qed.

Lemma mirrors_new : mirrors NewGovernorMetrics [] StateNormal.
Proof. unfold mirrors, NewGovernorMetrics. cbn. split_and!; done. Qed.

(** ** Properties *)

(** The registry mirrors the governor it is wired to: after any run of a
    fresh governor whose callback is RecordTransition, the registry's state is
    the governor's, the transition counter is the number of state changes
    modulo 2^64, and the emergency clock is unset outside EMERGENCY and equals
    the time of the last transition in EMERGENCY. *)
Theorem metrics_mirror_governor cfg g h :
  NewGovernor cfg true = Ok g ->
  mirrors (foldl RecordTransition NewGovernorMetrics (Governor_emits g h))
          (Governor_emits g h) (currentState (Governor_run g h)).
Proof.
  unfold NewGovernor. destruct (validateConfig cfg); [done|]. intros [= <-].
  eapply (mirrors_foldl _ [] _ StateNormal); [apply mirrors_new|].
  match goal with |- linked _ (Governor_emits ?g _) _ => by apply (Evaluate_emits_linked g) end.
Qed.

Lemma metrics_mirror_governor_witness :
  exists g,
    NewGovernor endpointGovernorConfig true = Ok g /\
    let h := [(1 * Second, signals_cpu 95); (2 * Second, signals_cpu 10); (40 * Second, signals_cpu 10);
              (50 * Second, signals_cpu 99)] in
    mirrors (foldl RecordTransition NewGovernorMetrics (Governor_emits g h)) (Governor_emits g h) StateEmergency.
Proof.
  exists (endpointGovernor StateNormal). split; [vm_compute; reflexivity|].
  apply (metrics_mirror_governor endpointGovernorConfig (endpointGovernor StateNormal)
    [(1 * Second, signals_cpu 95); (2 * Second, signals_cpu 10); (40 * Second, signals_cpu 10);
     (50 * Second, signals_cpu 99)]).
  vm_compute. reflexivity.
Defined.

(** UpdateQueue accepts exactly the consistent readings: it stores all
    three values and the saturation when depth does not exceed a positive
    capacity (where they are known) and the age is a non-negative number, and
    otherwise it returns an error and leaves the registry untouched. *)
Theorem UpdateQueue_spec m depth capacity age :
  let consistent :=
    (vu_Valid depth = true -> vu_Valid capacity = true -> vu_Value depth <= vu_Value capacity) /\
    (vu_Valid capacity = true -> vu_Value capacity <> 0) /\
    (vf_Valid age = true -> isNaN (vf_Value age) = false /\ fltb (vf_Value age) fzero = false) in
  let '(m', err) := UpdateQueue m depth capacity age in
  (err = None /\ consistent /\ queueDepthCount m' = depth /\ queueCapacityCount m' = capacity /\
     queueOldestEventAgeSec m' = age /\ queueSaturationPercent m' = queueSaturation depth capacity)
  \/ (err <> None /\ ~ consistent /\ m' = m).
Proof.
  cbv zeta. unfold UpdateQueue.
  destruct (vu_Valid depth) eqn:Hd, (vu_Valid capacity) eqn:Hc; cbn [andb];
  (destruct (Z.ltb_spec (vu_Value capacity) (vu_Value depth)));
  (destruct (Z.eqb_spec (vu_Value capacity) 0));
  destruct (vf_Valid age) eqn:Ha; cbn [andb];
  try (destruct (isNaN (vf_Value age)), (fltb (vf_Value age) fzero); cbn [orb]);
  solve [ left; split_and!; cbn; try done; intros; lia
        | right; split_and!; try done; intros (H1 & H2 & H3);
          first [ by specialize (H2 eq_refl) | specialize (H1 eq_refl eq_refl); lia
                | by destruct (H3 eq_refl) ] ].
Qed.
