(* ===== verification/Coordinator.v ===== *)
(** The resource coordinator (agent/internal/governor/coordinator.go): one
    on-demand step that samples the operating system, resolves which
    measurements are usable, feeds the metrics registry and, when ready,
    evaluates the governor.

    The provider's answers are inputs of the step.  Transitions emitted by the
    governor are returned; the endpoint's callback records them in the
    registry (see [metrics_mirror_governor]). *)
From S2P Require Import Prelude GoFloat GoTime Governor Metrics.

Open Scope Z_scope.

Definition ErrMissingStorageBudget : string := "storage budget is unconfigured or unresolved".
Definition ErrInvalidQueueCapacity : string := "queue capacity must be greater than zero".
Definition ErrQueueDepthExceedsCap : string := "queue depth cannot exceed capacity".
Definition ErrUnavailableRSS : string := "process memory RSS measurement unavailable".

Record CoordinatorConfig := { StorageBudgetBytes : Z }.

Record RuntimeSignals := {
  QueueDepth : ValidUint64;
  QueueCapacity : ValidUint64;
  QueueOldestAgeSec : ValidFloat64;
  Runtime_NetworkState : NetworkState;
}.

Record StepResult := {
  Ready : bool;
  Evaluated : bool;
  Step_Signals : ResourceSignals;
  Step_GovernorState : HostResourceState;
  StorageBlocked : bool;
  Step_Error : option error;
}.

(** The zero value [StepResult{}]. *)
Definition zeroStepResult : StepResult := {|
  Ready := false; Evaluated := false;
  Step_Signals := {| CPUUtilizationPercent := fzero; MemoryRSSBytes := 0; StoragePressure := fzero;
                     QueueSaturation := fzero; Signals_NetworkState := ""%string |};
  Step_GovernorState := ""%string; StorageBlocked := false; Step_Error := None |}.

(** What the three Sample calls of an OSResourceProvider return. *)
Record ProviderSamples := {
  rawCPU : ValidFloat64; cpuErr : option error;
  rawMem : ValidUint64; memErr : option error;
  rawUsedBytes : ValidUint64; rawWriteBytesSec : ValidFloat64; storageErr : option error;
}.

(** [governor] and [metrics] are nil-able pointers in the source. *)
Record Coordinator := {
  coord_governor : option Governor;
  coord_metrics : option GovernorMetrics;
  coord_config : CoordinatorConfig;
  cpuInitDone : bool;
}.

(** [NewCoordinator]: the provider must not be nil. *)
Definition NewCoordinator (hasProvider : bool) (gov : option Governor)
    (metrics : option GovernorMetrics) (cfg : CoordinatorConfig) : result Coordinator :=
  if negb hasProvider then Err (ErrNew "provider must not be nil")
  else Ok {| coord_governor := gov; coord_metrics := metrics; coord_config := cfg; cpuInitDone := false |}.

Definition CalculateStoragePressure (usedBytes : ValidUint64) (budgetBytes : Z)
    : ValidFloat64 * option error :=
  if budgetBytes =? 0 then (invalidFloat64, Some (ErrNew ErrMissingStorageBudget))
  else if negb (vu_Valid usedBytes) then (invalidFloat64, None)
  else
    let ratio := fdiv (f_of_Z (vu_Value usedBytes)) (f_of_Z budgetBytes) in
    let ratio := if fltb (f_of_Z 1) ratio then f_of_Z 1 else ratio in
    ({| vf_Value := ratio; vf_Valid := true |}, None).

Definition CalculateQueueSaturation (depth capacity : ValidUint64) : ValidFloat64 * option error :=
  if negb (vu_Valid capacity) || (vu_Value capacity =? 0)
  then (invalidFloat64, Some (ErrNew ErrInvalidQueueCapacity))
  else if negb (vu_Valid depth) then (invalidFloat64, None)
  else if vu_Value capacity <? vu_Value depth then (invalidFloat64, Some (ErrNew ErrQueueDepthExceedsCap))
  else ({| vf_Value := fdiv (f_of_Z (vu_Value depth)) (f_of_Z (vu_Value capacity)); vf_Valid := true |}, None).

(** *** The phases of [Step] *)

(** Phase 2: the CPU measurement.  Returns the metric, the value for the
    signals, whether this is the warm-up sample, the new [cpuInitDone] and the
    error so far. *)
Definition resolveCPU (initDone : bool) (raw : ValidFloat64) (err : option error)
    : ValidFloat64 * float64 * bool * bool * option error :=
  match err with
  | Some _ => (invalidFloat64, fNaN, false, initDone, errors_Join None err)
  | None =>
      if negb initDone then
        if negb (vf_Valid raw) then (invalidFloat64, fNaN, true, true, None)
        else (raw, vf_Value raw, false, true, None)
      else if vf_Valid raw then (raw, vf_Value raw, false, initDone, None)
      else (invalidFloat64, fNaN, false, initDone, None)
  end.

(** Phase 3: the RSS measurement; returns metric, value, [memInvalid], error. *)
Definition resolveMemory (raw : ValidUint64) (err : option error) (stepErr : option error)
    : ValidUint64 * Z * bool * option error :=
  match err with
  | Some _ => (invalidUint64, 0, true, errors_Join stepErr err)
  | None =>
      if negb (vu_Valid raw)
      then (invalidUint64, 0, true, errors_Join stepErr (Some (ErrNew ErrUnavailableRSS)))
      else (raw, vu_Value raw, false, stepErr)
  end.

(** Phase 4: storage metrics and pressure; returns the two metrics, the
    pressure for the signals, [StorageBlocked] and the error. *)
Definition resolveStorage (used : ValidUint64) (write : ValidFloat64) (err : option error)
    (budget : Z) (stepErr : option error)
    : ValidUint64 * ValidFloat64 * float64 * bool * option error :=
  let '(used', write', stepErr) :=
    match err with
    | Some _ => (invalidUint64, invalidFloat64, errors_Join stepErr err)
    | None => (used, write, stepErr)
    end in
  let '(pressure, spErr) := CalculateStoragePressure used' budget in
  match spErr with
  | Some _ => (used', write', fNaN, true, errors_Join stepErr spErr)
  | None => (used', write', if vf_Valid pressure then vf_Value pressure else fNaN, false, stepErr)
  end.

(** Phase 5: the queue saturation for the signals. *)
Definition resolveQueue (depth capacity : ValidUint64) (stepErr : option error)
    : float64 * option error :=
  let '(sat, qErr) := CalculateQueueSaturation depth capacity in
  match qErr with
  | Some _ => (fNaN, errors_Join stepErr qErr)
  | None => (if vf_Valid sat then vf_Value sat else fNaN, stepErr)
  end.

(** [if err := ...; err != nil { stepErr = errors.Join(stepErr, err) }] *)
Definition joinIf (stepErr err : option error) : option error :=
  match err with Some _ => errors_Join stepErr err | None => stepErr end.

(** Phase 6: feed the registry, if there is one. *)
Definition feedMetrics (metrics : option GovernorMetrics) (cpu : ValidFloat64) (mem : ValidUint64)
    (used : ValidUint64) (write : ValidFloat64) (depth capacity : ValidUint64) (age : ValidFloat64)
    (stepErr : option error) : option GovernorMetrics * option error :=
  match metrics with
  | None => (None, stepErr)
  | Some m =>
      let '(m, e1) := UpdateCPU m cpu in
      let stepErr := joinIf stepErr e1 in
      let m := UpdateMemory m mem in
      let '(m, e2) := UpdateDisk m used write in
      let stepErr := joinIf stepErr e2 in
      let '(m, e3) := UpdateQueue m depth capacity age in
      (Some m, joinIf stepErr e3)
  end.

(** [Step]: [ctxErr] is [ctx.Err()] when the context is done; [now] is the
    governor's clock reading. *)
Definition Coordinator_Step (c : Coordinator) (ctxErr : option error) (p : ProviderSamples)
    (rs : RuntimeSignals) (now : Time)
    : Coordinator * StepResult * option error * list Transition :=
  match ctxErr with
  | Some e => (c, zeroStepResult, Some e, [])
  | None =>
      let '(cpuMetric, cpuVal, cpuWarmup, initDone, stepErr) := resolveCPU (cpuInitDone c) (rawCPU p) (cpuErr p) in
      let '(memMetric, memVal, memInvalid, stepErr) := resolveMemory (rawMem p) (memErr p) stepErr in
      let '(usedMetric, writeMetric, storageVal, blocked, stepErr) :=
        resolveStorage (rawUsedBytes p) (rawWriteBytesSec p) (storageErr p)
          (StorageBudgetBytes (coord_config c)) stepErr in
      let '(queueVal, stepErr) := resolveQueue (QueueDepth rs) (QueueCapacity rs) stepErr in
      let '(metrics, stepErr) :=
        feedMetrics (coord_metrics c) cpuMetric memMetric usedMetric writeMetric
          (QueueDepth rs) (QueueCapacity rs) (QueueOldestAgeSec rs) stepErr in
      let netState := if Runtime_NetworkState rs =s "" then NetworkUnknown else Runtime_NetworkState rs in
      let signals := {| CPUUtilizationPercent := cpuVal; MemoryRSSBytes := memVal;
                        StoragePressure := storageVal; QueueSaturation := queueVal;
                        Signals_NetworkState := netState |} in
      let govState := match coord_governor c with Some g => currentState g | None => ""%string end in
      let c' g := {| coord_governor := g; coord_metrics := metrics;
                     coord_config := coord_config c; cpuInitDone := initDone |} in
      let result ready evaluated state :=
        {| Ready := ready; Evaluated := evaluated; Step_Signals := signals;
           Step_GovernorState := state; StorageBlocked := blocked; Step_Error := stepErr |} in
      if cpuWarmup || negb initDone || memInvalid
      then (c' (coord_governor c), result false false govState, stepErr, [])
      else if blocked
      then (c' (coord_governor c), result true false govState, stepErr, [])
      else
        match coord_governor c with
        | None => (c' None, result true false govState, stepErr, [])
        | Some g =>
            let '(g', trs) := Governor_Evaluate g now signals in
            (c' (Some g'), result true true (currentState g'), stepErr, trs)
        end
  end.

(** ** Lemmas *)
Lemma CalculateStoragePressure_blocked used budget :
  (CalculateStoragePressure used budget).2 <> None <-> budget = 0.
Proof.
  unfold CalculateStoragePressure. destruct (Z.eqb_spec budget 0); [done|].
  by case_match.
Qed.

Lemma resolveStorage_blocked used write err budget e :
  (resolveStorage used write err budget e).1.2 = (budget =? 0).
Proof.
  unfold resolveStorage. destruct err; case_match; cbn;
  match goal with H : CalculateStoragePressure ?u _ = (_, ?o) |- _ =>
    pose proof (CalculateStoragePressure_blocked u budget) as Hb; rewrite H in Hb; cbn in Hb;
    destruct o, (Z.eqb_spec budget 0) end; cbn; try done; naive_solver.
Qed.

Lemma resolveStorage_nan used write err budget e :
  err <> None \/ vu_Valid used = false -> (resolveStorage used write err budget e).1.1.2 = fNaN.
Proof.
  intros H. unfold resolveStorage, CalculateStoragePressure.
  destruct err, (budget =? 0), (vu_Valid used) eqn:Hv; cbn; rewrite ?Hv; cbn; try done;
    destruct H; done.
Qed.

Lemma resolveQueue_nan depth capacity e :
  vu_Valid depth = false \/ vu_Valid capacity = false \/ vu_Value capacity = 0 \/
    vu_Value capacity < vu_Value depth ->
  (resolveQueue depth capacity e).1 = fNaN.
Proof.
  unfold resolveQueue, CalculateQueueSaturation. intros H.
  destruct (vu_Valid capacity), (Z.eqb_spec (vu_Value capacity) 0), (vu_Valid depth),
    (Z.ltb_spec (vu_Value capacity) (vu_Value depth)); cbn; try done.
  destruct H as [?|[?|[?|?]]]; [done..|lia].
Qed.

Lemma resolveMemory_invalid raw err e :
  (resolveMemory raw err e).1.2 = negb (bool_decide (err = None) && vu_Valid raw).
Proof. unfold resolveMemory. destruct err; [done|]. by destruct (vu_Valid raw). Qed.

Lemma resolveCPU_warm done raw err :
  let r := resolveCPU done raw err in
  (r.1.1.2 || negb r.1.2)
  = negb (done || (bool_decide (err = None) && vf_Valid raw)).
Proof. unfold resolveCPU. destruct done, err, (vf_Valid raw); done. Qed.

Lemma resolveCPU_done done raw err :
  (resolveCPU done raw err).1.2 = (done || bool_decide (err = None)).
Proof. unfold resolveCPU. destruct done, err, (vf_Valid raw); done. Qed.

Lemma resolveCPU_nan done raw err :
  err <> None \/ vf_Valid raw = false -> (resolveCPU done raw err).1.1.1.2 = fNaN.
Proof. unfold resolveCPU. intros [?|?]; destruct done, err, (vf_Valid raw); done. Qed.

Lemma validateSignals_nan s :
  CPUUtilizationPercent s = fNaN \/ StoragePressure s = fNaN \/ QueueSaturation s = fNaN ->
  validateSignals s <> None.
Proof.
  unfold validateSignals. intros [-> |[-> | ->]]; cbn; repeat case_match; done.
Qed.

(** When a step evaluates: the readiness condition as a boolean. *)
Definition stepReady (c : Coordinator) (p : ProviderSamples) : bool :=
  (cpuInitDone c || (bool_decide (cpuErr p = None) && vf_Valid (rawCPU p)))
  && (bool_decide (memErr p = None) && vu_Valid (rawMem p)).

(** One step with a live context, abstracting the registry and the errors. *)
Lemma Step_inv c p rs now :
  let s := Coordinator_Step c None p rs now in
  let c' := s.1.1.1 in let r := s.1.1.2 in let trs := s.2 in
  let budget := StorageBudgetBytes (coord_config c) in
  coord_config c' = coord_config c /\
  cpuInitDone c' = (cpuInitDone c || bool_decide (cpuErr p = None)) /\
  Ready r = stepReady c p /\ StorageBlocked r = (budget =? 0) /\
  Step_Error r = s.1.2 /\
  (cpuErr p <> None \/ vf_Valid (rawCPU p) = false -> CPUUtilizationPercent (Step_Signals r) = fNaN) /\
  (storageErr p <> None \/ vu_Valid (rawUsedBytes p) = false -> StoragePressure (Step_Signals r) = fNaN) /\
  (vu_Valid (QueueDepth rs) = false \/ vu_Valid (QueueCapacity rs) = false \/
     vu_Value (QueueCapacity rs) = 0 \/ vu_Value (QueueCapacity rs) < vu_Value (QueueDepth rs) ->
     QueueSaturation (Step_Signals r) = fNaN) /\
  match coord_governor c with
  | Some g =>
      if stepReady c p && negb (budget =? 0)
      then Evaluated r = true /\ coord_governor c' = Some (Governor_Evaluate g now (Step_Signals r)).1 /\
           trs = (Governor_Evaluate g now (Step_Signals r)).2 /\
           Step_GovernorState r = currentState (Governor_Evaluate g now (Step_Signals r)).1
      else Evaluated r = false /\ coord_governor c' = Some g /\ trs = [] /\ Step_GovernorState r = currentState g
  | None => Evaluated r = false /\ coord_governor c' = None /\ trs = [] /\ Step_GovernorState r = ""%string
  end.
Proof.
  unfold Coordinator_Step, stepReady.
  pose proof (resolveCPU_warm (cpuInitDone c) (rawCPU p) (cpuErr p)) as Hwarm.
  pose proof (resolveCPU_done (cpuInitDone c) (rawCPU p) (cpuErr p)) as Hdone.
  pose proof (resolveCPU_nan (cpuInitDone c) (rawCPU p) (cpuErr p)) as Hcnan.
  destruct (resolveCPU _ _ _) as [[[[cpuM cpuV] warm] done] e1]. cbn in Hwarm, Hdone, Hcnan.
  pose proof (resolveMemory_invalid (rawMem p) (memErr p) e1) as Hmem.
  destruct (resolveMemory _ _ _) as [[[memM memV] inval] e2]. cbn in Hmem.
  pose proof (resolveStorage_blocked (rawUsedBytes p) (rawWriteBytesSec p) (storageErr p) (StorageBudgetBytes (coord_config c)) e2) as Hblk.
  pose proof (resolveStorage_nan (rawUsedBytes p) (rawWriteBytesSec p) (storageErr p) (StorageBudgetBytes (coord_config c)) e2) as Hsnan.
  destruct (resolveStorage _ _ _ _ _) as [[[[um wm] sv] blk] e3]. cbn in Hblk, Hsnan.
  pose proof (resolveQueue_nan (QueueDepth rs) (QueueCapacity rs) e3) as Hqnan.
  destruct (resolveQueue _ _ _) as [qv e4]. cbn in Hqnan.
  destruct (feedMetrics _ _ _ _ _ _ _ _ _) as [ms e5].
  rewrite Hwarm, Hmem, <- negb_andb.
  destruct ((cpuInitDone c || _) && _) eqn:Hr; cbn.
  2:{ split_and!; try done. by destruct (coord_governor c). }
  rewrite Hblk. destruct (StorageBudgetBytes (coord_config c) =? 0); cbn.
  { split_and!; try done. by destruct (coord_governor c). }
  destruct (coord_governor c) as [g|]; [|by split_and!].
  destruct (Governor_Evaluate _ _ _) as [g' trs] eqn:HE. cbn. rewrite HE. cbn. by split_and!.
Qed.

(** ** Properties *)

(** A step evaluates the governor exactly when its context is live, a
    governor is installed, the RSS measurement is usable, the CPU baseline is
    established and a storage budget is configured; a step that does not
    evaluate leaves the governor untouched and emits no transition. *)
Theorem Step_evaluates_iff c ctxErr p rs now :
  let '(c', r, _, trs) := Coordinator_Step c ctxErr p rs now in
  (Evaluated r = true <->
     ctxErr = None /\ coord_governor c <> None /\
     memErr p = None /\ vu_Valid (rawMem p) = true /\
     StorageBudgetBytes (coord_config c) <> 0 /\
     (cpuInitDone c = true \/ (cpuErr p = None /\ vf_Valid (rawCPU p) = true))) /\
  (Evaluated r = false -> coord_governor c' = coord_governor c /\ trs = []).
Proof.
  destruct ctxErr as [e|]; [cbn; split; [|done]; split; [done|naive_solver]|].
  pose proof (Step_inv c p rs now) as (_ & _ & _ & _ & _ & _ & _ & _ & Hm).
  destruct (Coordinator_Step c None p rs now) as [[[c' r] e] trs]. cbn in Hm.
  unfold stepReady in Hm. destruct (coord_governor c) as [g|].
  2:{ destruct Hm as (-> & -> & -> & _). split; [|done]. split; [done|naive_solver]. }
  destruct (Z.eqb_spec (StorageBudgetBytes (coord_config c)) 0); cbn in Hm;
  [rewrite andb_false_r in Hm; destruct Hm as (-> & -> & -> & _); split; [|done]; split; [done|naive_solver]|].
  rewrite andb_true_r in Hm.
  destruct (cpuInitDone c), (vf_Valid (rawCPU p)), (vu_Valid (rawMem p)); cbn in Hm;
  repeat case_bool_decide; cbn in Hm;
  destruct Hm as (-> & Hg & Ht & _); (split; [split; [intros ?; try done|]|try done]; naive_solver).
Qed.

(** Missing telemetry is never read as a healthy system: when a step
    evaluates the governor and the CPU, storage or queue measurement is
    unavailable, failed or inconsistent, the resulting state is EMERGENCY. *)
Theorem Step_fail_safe c g p rs now :
  coord_governor c = Some g -> operating (currentState g) ->
  let '(c', r, _, _) := Coordinator_Step c None p rs now in
  Evaluated r = true ->
  (cpuErr p <> None \/ vf_Valid (rawCPU p) = false \/
   storageErr p <> None \/ vu_Valid (rawUsedBytes p) = false \/
   vu_Valid (QueueDepth rs) = false \/ vu_Valid (QueueCapacity rs) = false \/
   vu_Value (QueueCapacity rs) = 0 \/ vu_Value (QueueCapacity rs) < vu_Value (QueueDepth rs)) ->
  Step_GovernorState r = StateEmergency.
Proof.
  intros Hg Hop.
  pose proof (Step_inv c p rs now) as (_ & _ & _ & _ & _ & Hcpu & Hst & Hq & Hm).
  destruct (Coordinator_Step c None p rs now) as [[[c' r] e] trs]. cbn in *.
  intros Hev Hbad. rewrite Hg in Hm.
  destruct (_ && _) in Hm; destruct Hm as (Hev' & _ & _ & ->); [|congruence].
  assert (validateSignals (Step_Signals r) <> None) as Hv.
  { apply validateSignals_nan. destruct Hbad as [?|[?|[?|[?|?]]]]; auto. }
  assert (computeTargetState g (Step_Signals r) =
          (StateEmergency, (computeTargetState g (Step_Signals r)).2)) as Ht.
  { unfold computeTargetState. by destruct (validateSignals (Step_Signals r)). }
  destruct (Evaluate_inv g now (Step_Signals r)) as (_ & _ & Hc). rewrite Ht in Hc. cbn in Hc.
  change (stateSeverity StateEmergency) with 2 in Hc. pose proof (severity_range (currentState g)).
  destruct Hc as [(? & _)|(Heq & _ & [(? & _)|[(? & _)|(Hs & _)]])]; [done|lia|lia|].
  rewrite Heq. apply severity_inj; [done|by right; right|done].
Qed.

(** A step with the context live and a healthy system, for the witnesses. *)
Definition sampleCoordinator (budget : Z) : Coordinator := {|
  coord_governor := Some (endpointGovernor StateNormal); coord_metrics := Some NewGovernorMetrics;
  coord_config := {| StorageBudgetBytes := budget |}; cpuInitDone := true |}.

Definition sampleRuntime (depth capacity : Z) : RuntimeSignals := {|
  QueueDepth := {| vu_Value := depth; vu_Valid := true |};
  QueueCapacity := {| vu_Value := capacity; vu_Valid := true |};
  QueueOldestAgeSec := invalidFloat64; Runtime_NetworkState := ""%string |}.

Definition sampleProvider (cpu : ValidFloat64) : ProviderSamples := {|
  rawCPU := cpu; cpuErr := None; rawMem := {| vu_Value := 4096; vu_Valid := true |}; memErr := None;
  rawUsedBytes := {| vu_Value := 100; vu_Valid := true |}; rawWriteBytesSec := invalidFloat64; storageErr := None |}.

Lemma Step_fail_safe_witness :
  Step_GovernorState
    (Coordinator_Step (sampleCoordinator 1000) None (sampleProvider invalidFloat64) (sampleRuntime 3 200) (7 * Second)).1.1.2
  = StateEmergency.
Proof.
  refine (Step_fail_safe (sampleCoordinator 1000) (endpointGovernor StateNormal)
    (sampleProvider invalidFloat64) (sampleRuntime 3 200) (7 * Second) eq_refl _ _ _).
  - left. reflexivity.
  - vm_compute. reflexivity.
  - right. left. reflexivity.
Defined.

(** The inputs of successive steps. *)
Definition StepInput := (option error * ProviderSamples * RuntimeSignals * Time)%type.

Definition Coordinator_step1 (c : Coordinator) (i : StepInput) : Coordinator :=
  let '(ctxErr, p, rs, now) := i in (Coordinator_Step c ctxErr p rs now).1.1.1.

Definition Coordinator_run (c : Coordinator) (inputs : list StepInput) : Coordinator :=
  foldl Coordinator_step1 c inputs.

Lemma coordinator_inert c inputs :
  StorageBudgetBytes (coord_config c) = 0 ->
  coord_governor (Coordinator_run c inputs) = coord_governor c.
Proof.
  revert c. induction inputs as [|[[[ctxErr p] rs] now] inputs IH]; intros c H0; [done|].
  unfold Coordinator_run. cbn [foldl]. fold (Coordinator_run (Coordinator_step1 c (ctxErr, p, rs, now)) inputs).
  assert (coord_config (Coordinator_step1 c (ctxErr, p, rs, now)) = coord_config c
          /\ coord_governor (Coordinator_step1 c (ctxErr, p, rs, now)) = coord_governor c) as [Hcfg Hgov].
  { unfold Coordinator_step1. destruct ctxErr as [e|]; [done|].
    pose proof (Step_inv c p rs now) as (Hc & _ & _ & _ & _ & _ & _ & _ & Hm).
    split; [done|]. rewrite H0 in Hm. change (0 =? 0) with true in Hm. rewrite andb_false_r in Hm.
    destruct (coord_governor c); by destruct Hm as (_ & -> & _). }
  rewrite IH; congruence.
Qed.

(** Without a storage budget (the production wiring passes 0) no sequence of
    steps, whatever the provider reports, ever changes the governor: storage
    pressure stays unresolved rather than being assumed. *)
Theorem coordinator_unbudgeted_inert c inputs :
  StorageBudgetBytes (coord_config c) = 0 ->
  coord_governor (Coordinator_run c inputs) = coord_governor c.
Proof. apply coordinator_inert. Qed.

Lemma coordinator_unbudgeted_inert_witness :
  coord_governor (Coordinator_run (sampleCoordinator 0)
    [(None, sampleProvider invalidFloat64, sampleRuntime 3 200, 7 * Second);
     (None, sampleProvider {| vf_Value := f_of_Z 99; vf_Valid := true |}, sampleRuntime 199 200, 9 * Second)])
  = Some (endpointGovernor StateNormal).
Proof. apply (coordinator_unbudgeted_inert (sampleCoordinator 0)). reflexivity. Defined.
