(* ===== verification/PassiveModel.v ===== *)
(** The data model of the passive network sensor
    (agent/internal/collectors/passivenetwork/model.go): raw and normalized
    observations, confidence levels and quality flags. *)
From S2P Require Import Prelude GoStrings GoTime Events.

Open Scope Z_scope.

Notation ConfidenceLevel := string (only parsing).
Definition ConfidenceKnown : ConfidenceLevel := "known".
Definition ConfidenceInferred : ConfidenceLevel := "inferred".
Definition ConfidenceUnknown : ConfidenceLevel := "unknown".
Definition ConfidenceUnsupported : ConfidenceLevel := "unsupported".

Definition QualityMalformedFrame : string := "MALFORMED_FRAME".
Definition QualityTruncatedPacket : string := "TRUNCATED_PACKET".
Definition QualityUnsupportedProtocol : string := "UNSUPPORTED_PROTOCOL".

Record RawObservation := {
  raw_Data : bytes;
  raw_Timestamp : Time;
  raw_Interface : string;
  raw_LinkType : string;
}.

(** [obs_Metadata] is a Go map: [None] is nil, and assigning into it panics. *)
Record NormalizedObservation := {
  ObservedAt : Time;
  obs_Interface : string;
  SrcMAC : string;
  DstMAC : string;
  SrcIP : string;
  DstIP : string;
  SrcPort : Z;
  DstPort : Z;
  TransportProtocol : string;
  VLANID : option Z;
  ProtocolHint : string;
  obs_Confidence : ConfidenceLevel;
  PayloadLength : Z;
  obs_Metadata : option MetaMap;
  obs_QualityFlags : list string;
}.

(** Field assignments, one per group the decoders write together. *)
Definition setMACs (src dst : string) (o : NormalizedObservation) : NormalizedObservation := {|
  ObservedAt := ObservedAt o; obs_Interface := obs_Interface o; SrcMAC := src; DstMAC := dst;
  SrcIP := SrcIP o; DstIP := DstIP o; SrcPort := SrcPort o; DstPort := DstPort o;
  TransportProtocol := TransportProtocol o; VLANID := VLANID o; ProtocolHint := ProtocolHint o;
  obs_Confidence := obs_Confidence o; PayloadLength := PayloadLength o;
  obs_Metadata := obs_Metadata o; obs_QualityFlags := obs_QualityFlags o |}.

Definition setIPs (src dst : string) (o : NormalizedObservation) : NormalizedObservation := {|
  ObservedAt := ObservedAt o; obs_Interface := obs_Interface o; SrcMAC := SrcMAC o; DstMAC := DstMAC o;
  SrcIP := src; DstIP := dst; SrcPort := SrcPort o; DstPort := DstPort o;
  TransportProtocol := TransportProtocol o; VLANID := VLANID o; ProtocolHint := ProtocolHint o;
  obs_Confidence := obs_Confidence o; PayloadLength := PayloadLength o;
  obs_Metadata := obs_Metadata o; obs_QualityFlags := obs_QualityFlags o |}.

Definition setPorts (src dst : Z) (o : NormalizedObservation) : NormalizedObservation := {|
  ObservedAt := ObservedAt o; obs_Interface := obs_Interface o; SrcMAC := SrcMAC o; DstMAC := DstMAC o;
  SrcIP := SrcIP o; DstIP := DstIP o; SrcPort := src; DstPort := dst;
  TransportProtocol := TransportProtocol o; VLANID := VLANID o; ProtocolHint := ProtocolHint o;
  obs_Confidence := obs_Confidence o; PayloadLength := PayloadLength o;
  obs_Metadata := obs_Metadata o; obs_QualityFlags := obs_QualityFlags o |}.

Definition setTransport (t : string) (o : NormalizedObservation) : NormalizedObservation := {|
  ObservedAt := ObservedAt o; obs_Interface := obs_Interface o; SrcMAC := SrcMAC o; DstMAC := DstMAC o;
  SrcIP := SrcIP o; DstIP := DstIP o; SrcPort := SrcPort o; DstPort := DstPort o;
  TransportProtocol := t; VLANID := VLANID o; ProtocolHint := ProtocolHint o;
  obs_Confidence := obs_Confidence o; PayloadLength := PayloadLength o;
  obs_Metadata := obs_Metadata o; obs_QualityFlags := obs_QualityFlags o |}.

Definition setVLAN (v : Z) (o : NormalizedObservation) : NormalizedObservation := {|
  ObservedAt := ObservedAt o; obs_Interface := obs_Interface o; SrcMAC := SrcMAC o; DstMAC := DstMAC o;
  SrcIP := SrcIP o; DstIP := DstIP o; SrcPort := SrcPort o; DstPort := DstPort o;
  TransportProtocol := TransportProtocol o; VLANID := Some v; ProtocolHint := ProtocolHint o;
  obs_Confidence := obs_Confidence o; PayloadLength := PayloadLength o;
  obs_Metadata := obs_Metadata o; obs_QualityFlags := obs_QualityFlags o |}.

Definition setHint (h : string) (o : NormalizedObservation) : NormalizedObservation := {|
  ObservedAt := ObservedAt o; obs_Interface := obs_Interface o; SrcMAC := SrcMAC o; DstMAC := DstMAC o;
  SrcIP := SrcIP o; DstIP := DstIP o; SrcPort := SrcPort o; DstPort := DstPort o;
  TransportProtocol := TransportProtocol o; VLANID := VLANID o; ProtocolHint := h;
  obs_Confidence := obs_Confidence o; PayloadLength := PayloadLength o;
  obs_Metadata := obs_Metadata o; obs_QualityFlags := obs_QualityFlags o |}.

Definition setConfidence (c : ConfidenceLevel) (o : NormalizedObservation) : NormalizedObservation := {|
  ObservedAt := ObservedAt o; obs_Interface := obs_Interface o; SrcMAC := SrcMAC o; DstMAC := DstMAC o;
  SrcIP := SrcIP o; DstIP := DstIP o; SrcPort := SrcPort o; DstPort := DstPort o;
  TransportProtocol := TransportProtocol o; VLANID := VLANID o; ProtocolHint := ProtocolHint o;
  obs_Confidence := c; PayloadLength := PayloadLength o;
  obs_Metadata := obs_Metadata o; obs_QualityFlags := obs_QualityFlags o |}.

Definition setPayloadLength (n : Z) (o : NormalizedObservation) : NormalizedObservation := {|
  ObservedAt := ObservedAt o; obs_Interface := obs_Interface o; SrcMAC := SrcMAC o; DstMAC := DstMAC o;
  SrcIP := SrcIP o; DstIP := DstIP o; SrcPort := SrcPort o; DstPort := DstPort o;
  TransportProtocol := TransportProtocol o; VLANID := VLANID o; ProtocolHint := ProtocolHint o;
  obs_Confidence := obs_Confidence o; PayloadLength := n;
  obs_Metadata := obs_Metadata o; obs_QualityFlags := obs_QualityFlags o |}.

Definition setMetadata (m : option MetaMap) (o : NormalizedObservation) : NormalizedObservation := {|
  ObservedAt := ObservedAt o; obs_Interface := obs_Interface o; SrcMAC := SrcMAC o; DstMAC := DstMAC o;
  SrcIP := SrcIP o; DstIP := DstIP o; SrcPort := SrcPort o; DstPort := DstPort o;
  TransportProtocol := TransportProtocol o; VLANID := VLANID o; ProtocolHint := ProtocolHint o;
  obs_Confidence := obs_Confidence o; PayloadLength := PayloadLength o;
  obs_Metadata := m; obs_QualityFlags := obs_QualityFlags o |}.

(** [obs.QualityFlags = append(obs.QualityFlags, flags...)] *)
Definition addFlags (fs : list string) (o : NormalizedObservation) : NormalizedObservation := {|
  ObservedAt := ObservedAt o; obs_Interface := obs_Interface o; SrcMAC := SrcMAC o; DstMAC := DstMAC o;
  SrcIP := SrcIP o; DstIP := DstIP o; SrcPort := SrcPort o; DstPort := DstPort o;
  TransportProtocol := TransportProtocol o; VLANID := VLANID o; ProtocolHint := ProtocolHint o;
  obs_Confidence := obs_Confidence o; PayloadLength := PayloadLength o;
  obs_Metadata := obs_Metadata o; obs_QualityFlags := obs_QualityFlags o ++ fs |}.

(** [obs.Metadata[key] = v]: a panic on a nil map. *)
Definition putMeta (key : string) (v : MetaValue) (o : NormalizedObservation) : option NormalizedObservation :=
  let! m := obs_Metadata o in
  Some (setMetadata (Some (<[key := v]> m)) o).
