(* ===== verification/Modbus.v ===== *)
(** Passive Modbus/TCP decoding
    (agent/internal/collectors/passivenetwork/modbus.go).

    The decoder runs in the option monad: [None] would be a Go run-time panic
    (index or slice out of range).  [decode_total] shows there is none. *)
From S2P Require Import Prelude GoStrings GoTime Events PassiveModel.

Open Scope Z_scope.

Definition QualityModbusInvalidMBAP : string := "MODBUS_INVALID_MBAP".
Definition QualityModbusTruncatedPayload : string := "MODBUS_TRUNCATED_PAYLOAD".
Definition QualityModbusUnsupportedFunction : string := "MODBUS_UNSUPPORTED_FUNCTION".

Definition ModbusFuncReadCoils : Z := 1.
Definition ModbusFuncReadDiscreteInputs : Z := 2.
Definition ModbusFuncReadHoldingRegisters : Z := 3.
Definition ModbusFuncReadInputRegisters : Z := 4.
Definition ModbusFuncWriteSingleCoil : Z := 5.
Definition ModbusFuncWriteSingleRegister : Z := 6.
Definition ModbusFuncWriteMultipleCoils : Z := 15.
Definition ModbusFuncWriteMultipleRegisters : Z := 16.

Record ModbusEvidence := {
  TransactionID : Z;
  ProtocolID : Z;
  Length : Z;
  UnitID : Z;
  FunctionCode : Z;
  FunctionName : string;
  IsException : bool;
  ExceptionCode : option Z;
  Direction : string;
  StartingAddress : option Z;
  Quantity : option Z;
}.

Definition FunctionNameFromCode (fc : Z) : string * bool :=
  if fc =? ModbusFuncReadCoils then ("read_coils"%string, true)
  else if fc =? ModbusFuncReadDiscreteInputs then ("read_discrete_inputs"%string, true)
  else if fc =? ModbusFuncReadHoldingRegisters then ("read_holding_registers"%string, true)
  else if fc =? ModbusFuncReadInputRegisters then ("read_input_registers"%string, true)
  else if fc =? ModbusFuncWriteSingleCoil then ("write_single_coil"%string, true)
  else if fc =? ModbusFuncWriteSingleRegister then ("write_single_register"%string, true)
  else if fc =? ModbusFuncWriteMultipleCoils then ("write_multiple_coils"%string, true)
  else if fc =? ModbusFuncWriteMultipleRegisters then ("write_multiple_registers"%string, true)
  else ("unsupported_fc_" ^^ fmt_d fc, false).

(** The direction heuristic on the ports; [None] is a nil observation. *)
Definition portDirection (obs : option NormalizedObservation) : string :=
  match obs with
  | None => "unknown"
  | Some o =>
      if (DstPort o =? 502) && negb (SrcPort o =? 502) then "request"
      else if (SrcPort o =? 502) && negb (DstPort o =? 502) then "response"
      else "unknown"
  end.

Definition Decoded := (option ModbusEvidence * ConfidenceLevel * list string)%type.

(** Address and quantity of a request, when four bytes of PDU are there. *)
Definition decodeAddressQuantity (pdu : bytes) : option (option Z * option Z * list string) :=
  if (4 <=? length pdu)%nat then
    let! startAddr := be16 pdu 0 in
    let! qty := be16 pdu 2 in
    Some (Some startAddr, Some qty, [])
  else Some (None, None, [QualityModbusTruncatedPayload]).

Definition decodeAddress (pdu : bytes) : option (option Z * option Z * list string) :=
  if (4 <=? length pdu)%nat then
    let! addr := be16 pdu 0 in
    Some (Some addr, None, [])
  else Some (None, None, [QualityModbusTruncatedPayload]).

(** The function-specific switch: starting address, quantity, new flags. *)
Definition decodePDU (rawFC : Z) (direction : string) (pdu : bytes)
    : option (option Z * option Z * list string) :=
  if (rawFC =? ModbusFuncReadCoils) || (rawFC =? ModbusFuncReadDiscreteInputs)
     || (rawFC =? ModbusFuncReadHoldingRegisters) || (rawFC =? ModbusFuncReadInputRegisters)
  then if direction =s "request" then decodeAddressQuantity pdu else Some (None, None, [])
  else if (rawFC =? ModbusFuncWriteSingleCoil) || (rawFC =? ModbusFuncWriteSingleRegister)
  then decodeAddress pdu
  else if (rawFC =? ModbusFuncWriteMultipleCoils) || (rawFC =? ModbusFuncWriteMultipleRegisters)
  then if direction =s "request" then decodeAddressQuantity pdu else Some (None, None, [])
  else Some (None, None, []).

Definition DecodeModbusTCP (obs : option NormalizedObservation) (payload : bytes) : option Decoded :=
  if (length payload <? 7)%nat then Some (None, ConfidenceInferred, [QualityModbusTruncatedPayload])
  else
    let! txID := be16 payload 0 in
    let! protoID := be16 payload 2 in
    let! mbapLen := be16 payload 4 in
    let! unitID := payload !! 6%nat in
    if negb (protoID =? 0) then Some (None, ConfidenceInferred, [QualityModbusInvalidMBAP])
    else if mbapLen <? 2 then Some (None, ConfidenceInferred, [QualityModbusInvalidMBAP])
    else if (length payload <? 8)%nat then Some (None, ConfidenceInferred, [QualityModbusTruncatedPayload])
    else
      let! rawFCb := payload !! 7%nat in
      let rawFC := bz rawFCb in
      let direction := portDirection obs in
      if 128 <=? rawFC then
        let origFC := Z.land rawFC 127 in
        let name := (FunctionNameFromCode origFC).1 ^^ "_exception" in
        let! exc := (if (9 <=? length payload)%nat
                     then let! b := payload !! 8%nat in Some (Some (bz b), [])
                     else Some (None, [QualityModbusTruncatedPayload])) in
        Some (Some {| TransactionID := txID; ProtocolID := protoID; Length := mbapLen;
                      UnitID := bz unitID; FunctionCode := rawFC; FunctionName := name;
                      IsException := true; ExceptionCode := exc.1; Direction := "response";
                      StartingAddress := None; Quantity := None |},
              ConfidenceKnown, exc.2)
      else
        let '(name, supported) := FunctionNameFromCode rawFC in
        let evidence addr qty :=
          {| TransactionID := txID; ProtocolID := protoID; Length := mbapLen;
             UnitID := bz unitID; FunctionCode := rawFC; FunctionName := name;
             IsException := false; ExceptionCode := None; Direction := direction;
             StartingAddress := addr; Quantity := qty |} in
        if negb supported
        then Some (Some (evidence None None), ConfidenceKnown, [QualityModbusUnsupportedFunction])
        else
          let! pduPayload := go_slice_from payload 8 in
          let! r := decodePDU rawFC direction pduPayload in
          let '(addr, qty, flags) := r in
          Some (Some (evidence addr qty), ConfidenceKnown, flags).

(** ** The wire format, as the Modbus messaging specification lays it out:
    a frame is the MBAP header, a function code and the PDU data. *)
Record Frame := {
  f_tx : Z;
  f_proto : Z;
  f_len : Z;
  f_unit : Z;
  f_fc : Z;
  f_data : bytes;
}.

Definition wf_frame (f : Frame) : Prop :=
  in_u16 (f_tx f) /\ in_u16 (f_proto f) /\ in_u16 (f_len f) /\ in_u8 (f_unit f) /\ in_u8 (f_fc f).

Definition encode_frame (f : Frame) : bytes :=
  put_be16 (f_tx f) ++ put_be16 (f_proto f) ++ put_be16 (f_len f) ++ zb (f_unit f) :: zb (f_fc f) :: f_data f.

(** ** Lemmas *)
Lemma some_bind {A B} (o : option A) (k : A -> option B) :
  is_Some o -> (forall a, o = Some a -> is_Some (k a)) -> is_Some (mbind k o).
Proof. intros [a ->] H. by apply H. Qed.

Lemma lookup_some {A} (l : list A) i : (i < length l)%nat -> is_Some (l !! i).
Proof. apply lookup_lt_is_Some_2. Qed.

Lemma be16_is_Some s i : (i + 2 <= length s)%nat -> is_Some (be16 s i).
Proof. intros H. destruct (be16_some s i H). eauto. Qed.

Lemma go_slice_is_Some {A} (s : list A) lo hi : (lo <= hi <= length s)%nat -> is_Some (go_slice s lo hi).
Proof. intros H. unfold go_slice. rewrite decide_True by done. eauto. Qed.

Create HintDb go_bounds.
#[export] Hint Resolve some_bind lookup_some be16_is_Some go_slice_is_Some : go_bounds.

(** Discharge a bounds-checked read: walk the binds, close the bounds by lia. *)
Ltac bounds :=
  repeat match goal with
  | |- is_Some (Some _) => eexists; reflexivity
  | |- is_Some (mbind _ _) => apply some_bind; [|intros ? ?]
  | |- is_Some (be16 _ _) => apply be16_is_Some
  | |- is_Some (_ !! _) => apply lookup_some
  | |- is_Some (go_slice _ _ _) => apply go_slice_is_Some
  | |- is_Some (go_slice_from _ _) => apply go_slice_is_Some
  | |- is_Some (if ?b then _ else _) => destruct b eqn:?
  | |- is_Some (let '(_, _) := ?p in _) => destruct p
  | H : (_ <? _)%nat = false |- _ => apply Nat.ltb_ge in H
  | H : (_ <=? _)%nat = true |- _ => apply Nat.leb_le in H
  | H : (_ <? _)%nat = true |- _ => apply Nat.ltb_lt in H
  | H : (_ <=? _)%nat = false |- _ => apply Nat.leb_gt in H
  end; try lia.

Lemma decodePDU_some fc dir pdu : is_Some (decodePDU fc dir pdu).
Proof. unfold decodePDU, decodeAddressQuantity, decodeAddress. bounds. Qed.

Lemma decode_some obs payload : is_Some (DecodeModbusTCP obs payload).
Proof.
  unfold DecodeModbusTCP. cbv zeta. bounds. apply decodePDU_some.
Qed.

(** The eight header bytes of an encoded frame, as the decoder reads them. *)
Lemma encode_length f : length (encode_frame f) = (8 + length (f_data f))%nat.
Proof. unfold encode_frame. rewrite !length_app. reflexivity. Qed.

Lemma encode_header f :
  wf_frame f ->
  be16 (encode_frame f) 0 = Some (f_tx f) /\
  be16 (encode_frame f) 2 = Some (f_proto f) /\
  be16 (encode_frame f) 4 = Some (f_len f) /\
  encode_frame f !! 6%nat = Some (zb (f_unit f)) /\
  encode_frame f !! 7%nat = Some (zb (f_fc f)) /\
  (forall i, encode_frame f !! (8 + i)%nat = f_data f !! i) /\
  go_slice_from (encode_frame f) 8 = Some (f_data f).
Proof.
  intros (H1 & H2 & H3 & _). unfold encode_frame.
  set (rest := zb (f_unit f) :: zb (f_fc f) :: f_data f). split_and!.
  - by apply (be16_put []).
  - by apply (be16_put (put_be16 (f_tx f))).
  - rewrite app_assoc. by apply (be16_put (put_be16 (f_tx f) ++ put_be16 (f_proto f))).
  - done.
  - done.
  - done.
  - unfold go_slice_from, go_slice. rewrite decide_True by (rewrite !length_app; simpl; lia).
    f_equal. apply take_ge. rewrite !length_app. simpl. lia.
Qed.

(** Inversion of the decoder: without evidence the confidence is inferred; with
    evidence the framing checks passed. *)
Lemma decode_inv obs payload ev conf flags :
  DecodeModbusTCP obs payload = Some (ev, conf, flags) ->
  (ev = None /\ conf = ConfidenceInferred) \/
  (ev <> None /\ conf = ConfidenceKnown /\ (8 <= length payload)%nat /\ be16 payload 2 = Some 0 /\
   exists len, be16 payload 4 = Some len /\ 2 <= len).
Proof.
  unfold DecodeModbusTCP. cbv zeta.
  destruct (Nat.ltb_spec (length payload) 7); [intros [= <- <- <-]; by left|].
  destruct (be16 payload 0); [|done]. destruct (be16 payload 2) as [proto|]; [|done].
  destruct (be16 payload 4) as [len|]; [|done]. destruct (payload !! 6%nat); [|done]. cbn [mbind option_bind].
  destruct (Z.eqb_spec proto 0) as [->|]; [|intros [= <- <- <-]; by left]. cbn [negb].
  destruct (Z.ltb_spec len 2); [intros [= <- <- <-]; by left|].
  destruct (Nat.ltb_spec (length payload) 8); [intros [= <- <- <-]; by left|].
  intros Hd. assert (ev <> None /\ conf = ConfidenceKnown) as [? ->].
  { destruct (payload !! 7%nat) as [fc|]; [|done]. cbn [mbind option_bind] in Hd.
    destruct (128 <=? bz fc); [by destruct (9 <=? length payload)%nat, (payload !! 8%nat); simplify_eq/=|].
    destruct (FunctionNameFromCode (bz fc)) as [name sup]. destruct (negb sup); [by simplify_eq|].
    destruct (go_slice_from payload 8); [|done]. cbn [mbind option_bind] in Hd.
    destruct (decodePDU _ _ _) as [[[]]|]; [|done]. by simplify_eq/=. }
  right. split_and!; try done. exists len. split; [done|lia].
Qed.

(** ** Properties *)

(** The Modbus decoder never panics: every index and slice expression it
    evaluates is in range, for any payload and any observation. *)
Theorem decode_total obs payload : exists d, DecodeModbusTCP obs payload = Some d.
Proof. destruct (decode_some obs payload) as [d ->]. by exists d. Qed.

(** Known confidence needs framing evidence: the decoder reports it exactly
    when it returns evidence, and then the payload has at least eight bytes, a
    zero protocol identifier and an MBAP length of at least two.  In particular
    port 502 alone never yields more than an inference. *)
Theorem known_needs_framing obs payload ev conf flags :
  DecodeModbusTCP obs payload = Some (ev, conf, flags) ->
  (conf = ConfidenceKnown <-> ev <> None) /\
  (conf = ConfidenceKnown \/ conf = ConfidenceInferred) /\
  (conf = ConfidenceKnown ->
     (8 <= length payload)%nat /\ be16 payload 2 = Some 0 /\
     exists len, be16 payload 4 = Some len /\ 2 <= len).
Proof.
  intros [[-> ->]|(Hev & -> & Hframe)]%decode_inv.
  - split_and!; [done|by right|done].
  - split_and!; [done|by left|done].
Qed.

Lemma known_needs_framing_witness :
  (8 <= length (encode_frame {| f_tx := 1; f_proto := 0; f_len := 6; f_unit := 17; f_fc := 3;
                                f_data := [x00; x6b; x00; x03] |}))%nat.
Proof.
  eapply (known_needs_framing None
    (encode_frame {| f_tx := 1; f_proto := 0; f_len := 6; f_unit := 17; f_fc := 3; f_data := [x00; x6b; x00; x03] |})).
  - vm_compute. reflexivity.
  - reflexivity.
Defined.

(** C32: Decoding inverts the Modbus wire format: for every well-formed frame
    with protocol identifier 0 and length field at least 2, decoding its
    encoding yields known evidence whose transaction, length, unit and function
    code are the frame's; function codes with bit 7 set are exceptions whose
    code is the first data byte; and in a request to port 502 a supported read
    or multiple-write carries the address and quantity of its first four data
    bytes. *)
Theorem decode_encode obs f :
  wf_frame f -> f_proto f = 0 -> 2 <= f_len f ->
  exists ev flags,
    DecodeModbusTCP obs (encode_frame f) = Some (Some ev, ConfidenceKnown, flags) /\
    TransactionID ev = f_tx f /\ ProtocolID ev = 0 /\ Length ev = f_len f /\
    UnitID ev = f_unit f /\ FunctionCode ev = f_fc f /\
    IsException ev = (128 <=? f_fc f) /\
    (128 <= f_fc f -> Direction ev = "response"%string /\ ExceptionCode ev = bz <$> f_data f !! 0%nat) /\
    (f_fc f < 128 -> Direction ev = portDirection obs /\ ExceptionCode ev = None) /\
    (f_fc f ∈ [1; 2; 3; 4; 15; 16] -> portDirection obs = "request"%string ->
       (4 <= length (f_data f))%nat ->
       StartingAddress ev = be16 (f_data f) 0 /\ Quantity ev = be16 (f_data f) 2 /\ flags = []).
Proof.
  intros Hwf H0 Hlen. pose proof Hwf as (_ & _ & _ & Hu & Hfc).
  destruct (encode_header f Hwf) as (E0 & E2 & E4 & E6 & E7 & Edata & Eslice).
  unfold DecodeModbusTCP. cbv zeta. rewrite encode_length, E0, E2, E4, E6, E7, Eslice, H0. cbn [Nat.ltb Nat.leb Nat.add mbind option_bind].
  rewrite (proj2 (Z.ltb_ge _ _) Hlen). cbn [Z.eqb negb].
  rewrite !bz_zb by (int_lits; lia).
  destruct (Z.leb_spec 128 (f_fc f)).
  - change (encode_frame f !! 8%nat) with (encode_frame f !! (8 + 0)%nat). rewrite Edata.
    destruct (f_data f) as [|b data] eqn:Hd; cbn [length Nat.leb lookup list_lookup mbind option_bind].
    + eexists _, _. split; [reflexivity|]. cbn. split_and!; try done; intros Hc; [lia|].
      repeat (apply list_elem_of_In in Hc; cbn in Hc); lia.
    + eexists _, _. split; [reflexivity|]. cbn. split_and!; try done; intros Hc; [lia|].
      apply list_elem_of_In in Hc. cbn in Hc. lia.
  - destruct (FunctionNameFromCode (f_fc f)) as [name sup] eqn:Hname. destruct sup; cbn [negb].
    + destruct (decodePDU_some (f_fc f) (portDirection obs) (f_data f)) as [[[addr qty] flags] Hp].
      rewrite Hp. eexists _, flags. split; [reflexivity|]. cbn. split_and!; try done; [lia|].
      intros Hc Hdir Hl. rewrite Hdir in Hp. unfold decodePDU, decodeAddressQuantity in Hp.
      rewrite (proj2 (Nat.leb_le _ _) Hl) in Hp.
      destruct (be16_some (f_data f) 0) as [a Ha]; [lia|].
      destruct (be16_some (f_data f) 2) as [q Hq]; [lia|]. rewrite Ha, Hq in *.
      apply list_elem_of_In in Hc. cbn in Hc.
      destruct Hc as [Hc|[Hc|[Hc|[Hc|[Hc|[Hc|[]]]]]]]; rewrite <- Hc in Hp; cbn in Hp; by simplify_eq.
    + eexists _, _. split; [reflexivity|]. cbn. split_and!; try done; [lia|].
      intros Hc. apply list_elem_of_In in Hc. cbn in Hc.
      destruct Hc as [Hc|[Hc|[Hc|[Hc|[Hc|[Hc|[]]]]]]]; rewrite <- Hc in Hname; by cbv in Hname.
Qed.

Lemma decode_encode_witness :
  exists ev flags,
    DecodeModbusTCP None (encode_frame {| f_tx := 258; f_proto := 0; f_len := 3; f_unit := 17; f_fc := 131; f_data := [x02] |})
      = Some (Some ev, ConfidenceKnown, flags) /\ ExceptionCode ev = Some 2.
Proof.
  destruct (decode_encode None {| f_tx := 258; f_proto := 0; f_len := 3; f_unit := 17; f_fc := 131; f_data := [x02] |})
    as (ev & flags & H & _ & _ & _ & _ & _ & _ & Hexc & _).
  - unfold wf_frame. int_lits. cbn. lia.
  - reflexivity.
  - cbn. lia.
  - exists ev, flags. split; [exact H|]. apply Hexc. cbn. lia.
Defined.
