(* ===== verification/Normalizer.v ===== *)
(** Layer 2-4 normalization of captured frames
    (agent/internal/collectors/passivenetwork/normalizer.go): Ethernet II with
    an optional 802.1Q tag, ARP, IPv4, TCP, UDP and ICMP.

    As in [Modbus], the option monad models run-time panics.  A nil payload
    and an empty one are the same list. *)
From S2P Require Import Prelude GoStrings GoTime Events PassiveModel Modbus.

Open Scope Z_scope.

Notation Normalized := (NormalizedObservation * bytes)%type.

(** [obs.QualityFlags = append(..., flag); obs.Confidence = Unsupported;
    return obs, nil] *)
Definition reject (flag : string) (obs : NormalizedObservation) : option Normalized :=
  Some (setConfidence ConfidenceUnsupported (addFlags [flag] obs), []).

Definition decodeTCP (l4 : bytes) (obs : NormalizedObservation) : option Normalized :=
  if (length l4 <? 20)%nat then reject QualityTruncatedPacket obs
  else
    let obs := setTransport "TCP" obs in
    let! sport := be16 l4 0 in
    let! dport := be16 l4 2 in
    let obs := setPorts sport dport obs in
    let! b12 := l4 !! 12%nat in
    let dataOffset := Z.shiftr (bz b12) 4 * 4 in
    if (dataOffset <? 20) || (Z.of_nat (length l4) <? dataOffset)
    then reject QualityMalformedFrame obs
    else
      let! payload := go_slice_from l4 (Z.to_nat dataOffset) in
      Some (setPayloadLength (Z.of_nat (length payload)) (setConfidence ConfidenceKnown obs), payload).

Definition decodeUDP (l4 : bytes) (obs : NormalizedObservation) : option Normalized :=
  if (length l4 <? 8)%nat then reject QualityTruncatedPacket obs
  else
    let obs := setTransport "UDP" obs in
    let! sport := be16 l4 0 in
    let! dport := be16 l4 2 in
    let obs := setConfidence ConfidenceKnown (setPorts sport dport obs) in
    let! payload := go_slice_from l4 8 in
    Some (setPayloadLength (Z.of_nat (length payload)) obs, payload).

Definition decodeICMP (l4 : bytes) (obs : NormalizedObservation) : option Normalized :=
  if (length l4 <? 4)%nat then reject QualityTruncatedPacket obs
  else
    let obs := setConfidence ConfidenceKnown (setTransport "ICMP" obs) in
    let! b0 := l4 !! 0%nat in
    let! obs := putMeta "icmp_type" (VInt (bz b0)) obs in
    let! b1 := l4 !! 1%nat in
    let! obs := putMeta "icmp_code" (VInt (bz b1)) obs in
    Some (setPayloadLength (Z.of_nat (length l4)) obs, l4).

Definition decodeIPv4 (data : bytes) (offset : nat) (obs : NormalizedObservation) : option Normalized :=
  if (length data <? offset + 20)%nat then reject QualityTruncatedPacket obs
  else
    let! b0 := data !! offset in
    let ver := Z.shiftr (bz b0) 4 in
    if negb (ver =? 4) then reject QualityMalformedFrame obs
    else
      let ihl := Z.land (bz b0) 15 * 4 in
      if (ihl <? 20) || (Z.of_nat (length data) <? Z.of_nat offset + ihl)
      then reject QualityMalformedFrame obs
      else
        let! protocolB := data !! (offset + 9)%nat in
        let protocol := bz protocolB in
        let! src := go_slice data (offset + 12) (offset + 16) in
        let! dst := go_slice data (offset + 16) (offset + 20) in
        let obs := setIPs (IPv4_String src) (IPv4_String dst) obs in
        let! l4Data := go_slice_from data (offset + Z.to_nat ihl) in
        if protocol =? 6 then decodeTCP l4Data obs
        else if protocol =? 17 then decodeUDP l4Data obs
        else if protocol =? 1 then decodeICMP l4Data obs
        else
          Some (addFlags [QualityUnsupportedProtocol]
                  (setConfidence ConfidenceUnsupported (setTransport ("IP_" ^^ fmt_d protocol) obs)), []).

Definition decodeARP (data : bytes) (offset : nat) (obs : NormalizedObservation) : option Normalized :=
  if (length data <? offset + 28)%nat then reject QualityTruncatedPacket obs
  else
    let! htype := be16 data offset in
    let! ptype := be16 data (offset + 2) in
    let! hlen := data !! (offset + 4)%nat in
    let! plen := data !! (offset + 5)%nat in
    let! oper := be16 data (offset + 6) in
    if negb (htype =? 1) || negb (ptype =? 2048) || negb (bz hlen =? 6) || negb (bz plen =? 4)
    then
      Some (addFlags [QualityUnsupportedProtocol]
              (setConfidence ConfidenceUnsupported (setTransport "ARP" obs)), [])
    else
      let! sha := go_slice data (offset + 8) (offset + 14) in
      let! spa := go_slice data (offset + 14) (offset + 18) in
      let! tha := go_slice data (offset + 18) (offset + 24) in
      let! tpa := go_slice data (offset + 24) (offset + 28) in
      let obs := setConfidence ConfidenceKnown (setTransport "ARP" obs) in
      let obs := setMACs (HardwareAddr_String sha) (HardwareAddr_String tha) obs in
      let obs := setIPs (IPv4_String spa) (IPv4_String tpa) obs in
      let op := if oper =? 1 then "request"%string
                else if oper =? 2 then "reply"%string
                else "opcode_" ^^ fmt_d oper in
      let! obs := putMeta "arp_operation" (VStr op) obs in
      Some (obs, []).

(** Routing on the EtherType. *)
Definition routeEtherType (etherType : Z) (data : bytes) (offset : nat) (obs : NormalizedObservation)
    : option Normalized :=
  if etherType =? 2054 then decodeARP data offset obs
  else if etherType =? 2048 then decodeIPv4 data offset obs
  else
    Some (addFlags [QualityUnsupportedProtocol]
            (setConfidence ConfidenceUnsupported (setTransport ("ETH_0x" ^^ HEX04 etherType) obs)), []).

Definition initialObservation (raw : RawObservation) : NormalizedObservation := {|
  ObservedAt := raw_Timestamp raw; obs_Interface := raw_Interface raw;
  SrcMAC := ""; DstMAC := ""; SrcIP := ""; DstIP := ""; SrcPort := 0; DstPort := 0;
  TransportProtocol := ""; VLANID := None; ProtocolHint := "unknown";
  obs_Confidence := ConfidenceUnknown; PayloadLength := 0;
  obs_Metadata := Some ∅; obs_QualityFlags := [] |}.

Definition NormalizeRawObservation (raw : RawObservation) : option Normalized :=
  let obs := initialObservation raw in
  let data := raw_Data raw in
  if (length data =? 0)%nat then reject QualityTruncatedPacket obs
  else if raw_LinkType raw =s "raw_ip" then routeEtherType 2048 data 0 obs
  else if (length data <? 14)%nat then reject QualityTruncatedPacket obs
  else
    let! dst := go_slice data 0 6 in
    let! src := go_slice data 6 12 in
    let obs := setMACs (HardwareAddr_String src) (HardwareAddr_String dst) obs in
    let! etherType := be16 data 12 in
    if etherType =? 33024 then
      if (length data <? 14 + 4)%nat then reject QualityTruncatedPacket obs
      else
        let! tci := be16 data 14 in
        let vlanID := Z.land tci 4095 in
        let obs := setVLAN vlanID obs in
        let! etherType := be16 data 16 in
        routeEtherType etherType data 18 obs
    else routeEtherType etherType data 14 obs.

(** ** Lemmas *)
Lemma reject_some flag obs : is_Some (reject flag obs).
Proof. by eexists. Qed.

Lemma putMeta_some k v obs : is_Some (obs_Metadata obs) -> is_Some (putMeta k v obs).
Proof. intros [m Hm]. unfold putMeta. rewrite Hm. by eexists. Qed.

Lemma putMeta_meta k v obs obs' : putMeta k v obs = Some obs' -> is_Some (obs_Metadata obs').
Proof. unfold putMeta. destruct (obs_Metadata obs); [|done]. intros [= <-]. by eexists. Qed.

#[export] Hint Resolve reject_some putMeta_some putMeta_meta : go_bounds.

Lemma decodeTCP_some l4 obs : is_Some (decodeTCP l4 obs).
Proof. unfold decodeTCP. cbv zeta. bounds; auto with go_bounds. Qed.

Lemma decodeUDP_some l4 obs : is_Some (decodeUDP l4 obs).
Proof. unfold decodeUDP. cbv zeta. bounds; auto with go_bounds. Qed.

Lemma decodeICMP_some l4 obs : is_Some (obs_Metadata obs) -> is_Some (decodeICMP l4 obs).
Proof. intros H. unfold decodeICMP. cbv zeta. bounds; eauto with go_bounds. Qed.

#[export] Hint Resolve decodeTCP_some decodeUDP_some decodeICMP_some : go_bounds.

Lemma decodeIPv4_some data off obs : is_Some (obs_Metadata obs) -> is_Some (decodeIPv4 data off obs).
Proof.
  intros H. unfold decodeIPv4. cbv zeta. bounds; auto with go_bounds.
Qed.

Lemma decodeARP_some data off obs : is_Some (obs_Metadata obs) -> is_Some (decodeARP data off obs).
Proof. intros H. unfold decodeARP. cbv zeta. bounds; eauto with go_bounds. Qed.

#[export] Hint Resolve decodeIPv4_some decodeARP_some : go_bounds.

Lemma routeEtherType_some t data off obs :
  is_Some (obs_Metadata obs) -> is_Some (routeEtherType t data off obs).
Proof. intros H. unfold routeEtherType. bounds; auto with go_bounds. Qed.

#[export] Hint Resolve routeEtherType_some : go_bounds.

Lemma normalize_some raw : is_Some (NormalizeRawObservation raw).
Proof.
  unfold NormalizeRawObservation. cbv zeta.
  assert (is_Some (obs_Metadata (initialObservation raw))) by by eexists.
  bounds; auto with go_bounds.
Qed.

(** *** Well-formed frames, in terms of their bytes alone *)

Definition byteAt (b : bytes) (i : nat) : Z := match b !! i with Some x => bz x | None => 0 end.
Definition wordAt (b : bytes) (i : nat) : Z := byteAt b i * 256 + byteAt b (S i).
Definition field (b : bytes) (at_ n : nat) : bytes := take n (drop at_ b).

(** What precedes the packet: nothing on a raw IP link, an Ethernet header, or
    one with an 802.1Q tag; and the type of the packet. *)
Definition linkLength (raw : RawObservation) : nat :=
  if raw_LinkType raw =s "raw_ip" then 0
  else if wordAt (raw_Data raw) 12 =? 33024 then 18 else 14.

Definition packetType (raw : RawObservation) : Z :=
  if raw_LinkType raw =s "raw_ip" then 2048 else wordAt (raw_Data raw) (linkLength raw - 2).

Definition packet (raw : RawObservation) : bytes := drop (linkLength raw) (raw_Data raw).

(** An IPv4 header: version 4, and a header length that the packet holds. *)
Definition ipv4HeaderLength (p : bytes) : Z := 4 * (byteAt p 0 mod 16).
Definition ipv4Valid (p : bytes) : Prop :=
  byteAt p 0 / 16 = 4 /\ 20 <= ipv4HeaderLength p <= Z.of_nat (length p) /\ (20 <= length p)%nat.
Definition segment (p : bytes) : bytes := drop (Z.to_nat (ipv4HeaderLength p)) p.

(** A TCP header: a data offset that the segment holds. *)
Definition tcpHeaderLength (s : bytes) : Z := 4 * (byteAt s 12 / 16).
Definition tcpValid (s : bytes) : Prop :=
  20 <= tcpHeaderLength s <= Z.of_nat (length s) /\ (20 <= length s)%nat.

(** ARP for IPv4 over Ethernet. *)
Definition arpValid (p : bytes) : Prop :=
  wordAt p 0 = 1 /\ wordAt p 2 = 2048 /\ byteAt p 4 = 6 /\ byteAt p 5 = 4 /\ (28 <= length p)%nat.

#[export] Instance ipv4Valid_dec p : Decision (ipv4Valid p).
Proof. unfold ipv4Valid. apply _. Defined.
#[export] Instance tcpValid_dec s : Decision (tcpValid s).
Proof. unfold tcpValid. apply _. Defined.
#[export] Instance arpValid_dec p : Decision (arpValid p).
Proof. unfold arpValid. apply _. Defined.

(** The transport and the payload of a segment, when it is well formed. *)
Definition segmentTraffic (protocol : Z) (s : bytes) : option (string * bytes) :=
  if protocol =? 6 then if decide (tcpValid s) then Some ("TCP"%string, drop (Z.to_nat (tcpHeaderLength s)) s) else None
  else if protocol =? 17 then if decide (8 <= length s)%nat then Some ("UDP"%string, drop 8 s) else None
  else if protocol =? 1 then if decide (4 <= length s)%nat then Some ("ICMP"%string, s) else None
  else None.

Definition packetTraffic (etherType : Z) (p : bytes) : option (string * bytes) :=
  if etherType =? 2054 then if decide (arpValid p) then Some ("ARP"%string, []) else None
  else if etherType =? 2048 then if decide (ipv4Valid p) then segmentTraffic (byteAt p 9) (segment p) else None
  else None.

Definition traffic (raw : RawObservation) : option (string * bytes) :=
  if decide (linkLength raw <= length (raw_Data raw))%nat then packetTraffic (packetType raw) (packet raw) else None.

Definition rejectionFlags : list string :=
  [QualityTruncatedPacket; QualityMalformedFrame; QualityUnsupportedProtocol].

(** The outcome of a frame that is not well formed, from an observation [obs]. *)
Definition rejected (obs o : NormalizedObservation) (payload : bytes) : Prop :=
  obs_Confidence o = ConfidenceUnsupported /\
  (exists f, f ∈ rejectionFlags /\ obs_QualityFlags o = obs_QualityFlags obs ++ [f]) /\
  payload = [] /\ PayloadLength o = PayloadLength obs.

(** The outcome of one that is: the same flags, known confidence. *)
Definition accepted (obs o : NormalizedObservation) (t : string) (body payload : bytes) : Prop :=
  obs_Confidence o = ConfidenceKnown /\ obs_QualityFlags o = obs_QualityFlags obs /\
  TransportProtocol o = t /\ payload = body /\ VLANID o = VLANID obs.

Lemma byteAt_lookup b i x : b !! i = Some x -> byteAt b i = bz x.
Proof. unfold byteAt. by intros ->. Qed.

Lemma byteAt_drop b n i : byteAt (drop n b) i = byteAt b (n + i).
Proof. unfold byteAt. by rewrite lookup_drop. Qed.

Lemma wordAt_drop b n i : wordAt (drop n b) i = wordAt b (n + i).
Proof. unfold wordAt. rewrite !byteAt_drop. by rewrite Nat.add_succ_r. Qed.

Lemma field_drop b n i k : field (drop n b) i k = field b (n + i) k.
Proof. unfold field. by rewrite drop_drop. Qed.

Lemma be16_wordAt b i w : be16 b i = Some w -> w = wordAt b i.
Proof.
  unfold be16, wordAt. intros H. destruct (b !! i) as [x|] eqn:Hx; [cbn [mbind option_bind] in H|done].
  destruct (b !! S i) as [y|] eqn:Hy; [cbn [mbind option_bind] in H|done]. injection H as <-.
  rewrite (byteAt_lookup _ _ _ Hx), (byteAt_lookup _ _ _ Hy). by rewrite lor_shiftl_add by apply bz_range.
Qed.

Lemma go_slice_field {A} (b l : list A) lo hi : go_slice b lo hi = Some l -> l = take (hi - lo) (drop lo b).
Proof. unfold go_slice. case_decide; [|done]. by intros [= <-]. Qed.

Lemma go_slice_from_drop {A} (b l : list A) lo : go_slice_from b lo = Some l -> l = drop lo b.
Proof. unfold go_slice_from. intros ->%go_slice_field. rewrite take_ge; [done|]. by rewrite length_drop. Qed.

Lemma high_nibble x : Z.shiftr (bz x) 4 = bz x / 16.
Proof. by rewrite Z.shiftr_div_pow2 by lia. Qed.

Lemma low_nibble x : Z.land (bz x) 15 = bz x mod 16.
Proof. change 15 with (Z.ones 4). by rewrite Z.land_ones by lia. Qed.

Lemma putMeta_frame k v obs obs' : putMeta k v obs = Some obs' -> exists m, obs' = setMetadata m obs.
Proof. unfold putMeta. destruct (obs_Metadata obs); [|done]. cbn. intros [= <-]. by eexists. Qed.

(** Open the binds and tests of a decoder that returned. *)
Ltac decoded :=
  repeat match goal with
  | H : mbind _ ?o = Some _ |- _ => destruct o eqn:?; [cbn [mbind option_bind] in H|discriminate H]
  | H : (if ?b then _ else _) = Some _ |- _ => destruct b eqn:?
  | H : reject _ _ = Some _ |- _ => unfold reject in H
  | H : Some _ = Some _ |- _ => injection H as H
  | H : (_, _) = (_, _) |- _ => injection H as ? ?
  end; subst.

(** State what was read in terms of the bytes. *)
Ltac in_bytes :=
  repeat match goal with
  | H : be16 _ _ = Some _ |- _ => apply be16_wordAt in H
  | H : go_slice_from _ _ = Some _ |- _ => apply go_slice_from_drop in H
  | H : go_slice _ _ _ = Some _ |- _ => apply go_slice_field in H
  | H : _ !! _ = Some ?x |- _ => is_var x; apply byteAt_lookup in H
  | H : putMeta _ _ _ = Some _ |- _ => apply putMeta_frame in H as [? ->]
  | H : (_ || _) = false |- _ => apply orb_false_elim in H as [? ?]
  end; subst; rewrite ?high_nibble, ?low_nibble in *;
  repeat match goal with
  | H : _ = bz ?x |- _ => is_var x; rewrite <- H in *; clear H x
  end.

Ltac reject_flag := unfold rejectionFlags; set_solver.

(** The tests of a rejecting branch contradict well-formedness. *)
Ltac refused :=
  case_decide as Hvalid; [exfalso|cbn; split_and!; try done; eexists; split; [|reflexivity]; reject_flag].

Lemma decodeTCP_spec l4 obs o p :
  decodeTCP l4 obs = Some (o, p) ->
  match segmentTraffic 6 l4 with
  | Some (t, body) => accepted obs o t body p /\ o = setPayloadLength (Z.of_nat (length body))
      (setConfidence ConfidenceKnown (setPorts (wordAt l4 0) (wordAt l4 2) (setTransport t obs)))
  | None => rejected obs o p
  end.
Proof.
  unfold decodeTCP, segmentTraffic, tcpValid, tcpHeaderLength. cbv zeta. cbn [Z.eqb Pos.eqb]. intros H. decoded; in_bytes.
  - refused. rewrite Nat.ltb_lt in *. lia.
  - refused. rewrite orb_true_iff, !Z.ltb_lt in *. lia.
  - rewrite Nat.ltb_ge in *. rewrite !Z.ltb_ge in *. rewrite decide_True by lia.
    rewrite (Z.mul_comm (byteAt l4 12 / 16)). by split_and!.
Qed.

Lemma decodeUDP_spec l4 obs o p :
  decodeUDP l4 obs = Some (o, p) ->
  match segmentTraffic 17 l4 with
  | Some (t, body) => accepted obs o t body p /\ o = setPayloadLength (Z.of_nat (length body))
      (setConfidence ConfidenceKnown (setPorts (wordAt l4 0) (wordAt l4 2) (setTransport t obs)))
  | None => rejected obs o p
  end.
Proof.
  unfold decodeUDP, segmentTraffic. cbv zeta. cbn [Z.eqb Pos.eqb]. intros H. decoded; in_bytes.
  - refused. rewrite Nat.ltb_lt in *. lia.
  - rewrite Nat.ltb_ge in *. rewrite decide_True by lia. by split_and!.
Qed.

Lemma decodeICMP_spec l4 obs o p :
  decodeICMP l4 obs = Some (o, p) ->
  match segmentTraffic 1 l4 with
  | Some (t, body) => accepted obs o t body p /\ exists m m', o = setPayloadLength (Z.of_nat (length body))
      (setMetadata m (setMetadata m' (setConfidence ConfidenceKnown (setTransport t obs))))
  | None => rejected obs o p
  end.
Proof.
  unfold decodeICMP, segmentTraffic. cbv zeta. cbn [Z.eqb Pos.eqb]. intros H. decoded; in_bytes.
  - refused. rewrite Nat.ltb_lt in *. lia.
  - rewrite Nat.ltb_ge in *. rewrite decide_True by lia. split; [by split_and!|]. by eexists _, _.
Qed.

(** What an accepted segment says of its addresses and ports. *)
Definition segmentFields (p : bytes) (obs o : NormalizedObservation) : Prop :=
  SrcMAC o = SrcMAC obs /\ DstMAC o = DstMAC obs /\
  SrcIP o = IPv4_String (field p 12 4) /\ DstIP o = IPv4_String (field p 16 4) /\
  (TransportProtocol o <> "ICMP"%string -> SrcPort o = wordAt (segment p) 0 /\ DstPort o = wordAt (segment p) 2).

Lemma decodeIPv4_spec data off obs o p :
  decodeIPv4 data off obs = Some (o, p) -> (off <= length data)%nat ->
  match packetTraffic 2048 (drop off data) with
  | Some (t, body) => accepted obs o t body p /\ PayloadLength o = Z.of_nat (length body) /\
      segmentFields (drop off data) obs o
  | None => rejected obs o p
  end.
Proof.
  unfold decodeIPv4, packetTraffic, segmentFields. cbv zeta. cbn [Z.eqb Pos.eqb]. intros H Hoff.
  assert (forall q : bytes, q = drop off data ->
    length data = (off + length q)%nat /\ forall i, byteAt data (off + i) = byteAt q i) as Hq.
  { intros q ->. rewrite length_drop. split; [lia|]. intros i. by rewrite byteAt_drop. }
  assert (forall i n, take n (drop (off + i) data) = field (drop off data) i n) as Hf.
  { intros i n. unfold field. by rewrite drop_drop. }
  destruct (Hq _ eq_refl) as [Hl Hb]. pose proof (Hb 0%nat) as Hb0. rewrite Nat.add_0_r in Hb0.
  assert (forall n, drop (off + n) data = drop n (drop off data)) as Hd by (intros n; by rewrite drop_drop).
  remember (drop off data) as q eqn:Eq. clear Eq Hq. unfold ipv4Valid, segment, ipv4HeaderLength.
  decoded; in_bytes; rewrite ?Hb, ?Hb0, ?Hl, ?Hd in *.
  1: { refused. rewrite Nat.ltb_lt in *. lia. }
  1: { refused. rewrite negb_true_iff, Z.eqb_neq in *. lia. }
  1: { refused. rewrite orb_true_iff, !Z.ltb_lt in *. lia. }
  all: rewrite Nat.ltb_ge in *; rewrite ?negb_false_iff, ?Z.eqb_eq, ?Z.ltb_ge in *;
    rewrite decide_True by lia;
    replace (off + 16 - (off + 12))%nat with 4%nat in * by lia;
    replace (off + 20 - (off + 16))%nat with 4%nat in * by lia;
    rewrite ?(Z.mul_comm (byteAt q 0 mod 16) 4) in *.
  - match goal with H : byteAt q 9 = 6 |- _ => rewrite H end. apply decodeTCP_spec in H.
    destruct (segmentTraffic _ _) as [[t body]|]; [|exact H]. destruct H as [Ha ->]. by split_and!.
  - match goal with H : byteAt q 9 = 17 |- _ => rewrite H end. apply decodeUDP_spec in H.
    destruct (segmentTraffic _ _) as [[t body]|]; [|exact H]. destruct H as [Ha ->]. by split_and!.
  - match goal with H : byteAt q 9 = 1 |- _ => rewrite H end. apply decodeICMP_spec in H.
    destruct (segmentTraffic 1 _) as [[t body]|] eqn:Ht; [|exact H]. destruct H as (Ha & m & m' & ->).
    split_and!; try done. unfold segmentTraffic in Ht. cbn in Ht. case_decide; [|done]. by injection Ht as <- <-.
  - unfold segmentTraffic. rewrite !Z.eqb_neq in *. destruct (Z.eqb_spec (byteAt q 9) 6); [lia|].
    destruct (Z.eqb_spec (byteAt q 9) 17); [lia|]. destruct (Z.eqb_spec (byteAt q 9) 1); [lia|].
    cbn. split_and!; try done. eexists. split; [|reflexivity]. reject_flag.
Qed.

Lemma decodeARP_spec data off obs o p :
  decodeARP data off obs = Some (o, p) -> (off <= length data)%nat ->
  let q := drop off data in
  match packetTraffic 2054 q with
  | Some (t, body) => accepted obs o t body p /\ PayloadLength o = PayloadLength obs /\ body = [] /\
      SrcMAC o = HardwareAddr_String (field q 8 6) /\ DstMAC o = HardwareAddr_String (field q 18 6) /\
      SrcIP o = IPv4_String (field q 14 4) /\ DstIP o = IPv4_String (field q 24 4)
  | None => rejected obs o p
  end.
Proof.
  unfold decodeARP, packetTraffic. cbv zeta. cbn [Z.eqb Pos.eqb]. intros H Hoff.
  assert (length data = (off + length (drop off data))%nat) as Hl by (rewrite length_drop; lia).
  pose proof (byteAt_drop data off) as Hb. pose proof (wordAt_drop data off) as Hw.
  pose proof (Hw 0%nat) as Hw0. rewrite Nat.add_0_r in Hw0.
  assert (forall i n, take n (drop (off + i) data) = field (drop off data) i n) as Hf.
  { intros i n. unfold field. by rewrite drop_drop. }
  unfold arpValid. decoded; in_bytes; rewrite <- ?Hw, <- ?Hw0, <- ?Hb in *.
  - refused. rewrite Nat.ltb_lt in *. lia.
  - refused. rewrite !orb_true_iff, !negb_true_iff, !Z.eqb_neq in *. lia.
  - repeat match goal with H : _ || _ = false |- _ => apply orb_false_elim in H as [? ?] end.
    rewrite !negb_false_iff, !Z.eqb_eq, Nat.ltb_ge in *. rewrite decide_True by lia.
    replace (off + 14 - (off + 8))%nat with 6%nat by lia. replace (off + 18 - (off + 14))%nat with 4%nat by lia.
    replace (off + 24 - (off + 18))%nat with 6%nat by lia. replace (off + 28 - (off + 24))%nat with 4%nat by lia.
    rewrite !Hf. by split_and!.
Qed.

(** What an accepted frame says, from its bytes. *)
Definition frameFields (raw : RawObservation) (o : NormalizedObservation) : Prop :=
  let p := packet raw in
  VLANID o = (if (raw_LinkType raw =s "raw_ip") || negb (wordAt (raw_Data raw) 12 =? 33024) then None
              else Some (wordAt (raw_Data raw) 14 mod 4096)) /\
  if packetType raw =? 2054 then
    SrcMAC o = HardwareAddr_String (field p 8 6) /\ DstMAC o = HardwareAddr_String (field p 18 6) /\
    SrcIP o = IPv4_String (field p 14 4) /\ DstIP o = IPv4_String (field p 24 4)
  else
    (if raw_LinkType raw =s "raw_ip" then SrcMAC o = ""%string /\ DstMAC o = ""%string
     else SrcMAC o = HardwareAddr_String (field (raw_Data raw) 6 6) /\
          DstMAC o = HardwareAddr_String (field (raw_Data raw) 0 6)) /\
    SrcIP o = IPv4_String (field p 12 4) /\ DstIP o = IPv4_String (field p 16 4) /\
    (TransportProtocol o <> "ICMP"%string -> SrcPort o = wordAt (segment p) 0 /\ DstPort o = wordAt (segment p) 2).

Lemma routeEtherType_spec t data off obs o p :
  routeEtherType t data off obs = Some (o, p) -> (off <= length data)%nat -> PayloadLength obs = 0 ->
  let q := drop off data in
  match packetTraffic t q with
  | Some (tr, body) => accepted obs o tr body p /\ PayloadLength o = Z.of_nat (length body) /\
      if t =? 2054 then
        SrcMAC o = HardwareAddr_String (field q 8 6) /\ DstMAC o = HardwareAddr_String (field q 18 6) /\
        SrcIP o = IPv4_String (field q 14 4) /\ DstIP o = IPv4_String (field q 24 4)
      else segmentFields q obs o
  | None => rejected obs o p
  end.
Proof.
  unfold routeEtherType. intros H Hoff H0. cbv zeta.
  destruct (Z.eqb_spec t 2054) as [->|]; [|destruct (Z.eqb_spec t 2048) as [->|]].
  - apply decodeARP_spec in H; [|done]. cbv zeta in H. destruct (packetTraffic _ _) as [[tr body]|]; [|done].
    destruct H as (? & Hp & -> & ?). split; [done|split; [|done]]. by rewrite Hp, H0.
  - by apply decodeIPv4_spec in H.
  - unfold packetTraffic. destruct (Z.eqb_spec t 2054); [done|]. destruct (Z.eqb_spec t 2048); [done|].
    injection H as <- <-. cbn. split_and!; try done. eexists. split; [|reflexivity]. reject_flag.
Qed.

Lemma rejected_reject flag obs o p :
  flag ∈ rejectionFlags -> reject flag obs = Some (o, p) -> rejected obs o p.
Proof. intros Hf [= <- <-]. cbn. split_and!; try done. by exists flag. Qed.

(** Every way the normalizer can end. *)
Lemma normalize_spec raw o p :
  NormalizeRawObservation raw = Some (o, p) ->
  match traffic raw with
  | Some (t, body) => obs_Confidence o = ConfidenceKnown /\ obs_QualityFlags o = [] /\ TransportProtocol o = t /\
      p = body /\ PayloadLength o = Z.of_nat (length body) /\ frameFields raw o
  | None => rejected (initialObservation raw) o p
  end.
Proof.
  unfold NormalizeRawObservation. cbv zeta. intros H. unfold traffic, frameFields, packetType, packet, linkLength.
  destruct (raw_LinkType raw =s "raw_ip").
  { rewrite drop_0, decide_True by lia. destruct (Nat.eqb_spec (length (raw_Data raw)) 0) as [E|_].
    - apply rejected_reject in H; [|reject_flag]. apply nil_length_inv in E. by rewrite E.
    - apply routeEtherType_spec in H; [|lia|done]. cbv zeta in H. rewrite drop_0 in H.
      destruct (packetTraffic _ _) as [[t body]|]; [|exact H].
      destruct H as ((? & ? & ? & ? & ?) & ? & Hs & Hd & ?). cbn [orb negb Z.eqb]. by split_and!. }
  set (data := raw_Data raw) in *. cbn [orb].
  destruct (Nat.ltb_spec (length data) 14) as [Hl|Hl].
  { assert (rejected (initialObservation raw) o p) as Hr.
    { destruct (length data =? 0)%nat; apply rejected_reject in H; try done; reject_flag. }
    destruct (wordAt data 12 =? 33024); rewrite decide_False by lia; exact Hr. }
  destruct (Nat.eqb_spec (length data) 0); [lia|].
  destruct (go_slice data 0 6) as [dst|] eqn:E1; [cbn [mbind option_bind] in H|discriminate].
  destruct (go_slice data 6 12) as [src|] eqn:E2; [cbn [mbind option_bind] in H|discriminate].
  destruct (be16 data 12) as [et|] eqn:E3; [cbn [mbind option_bind] in H|discriminate].
  apply go_slice_field in E1 as ->. apply go_slice_field in E2 as ->. apply be16_wordAt in E3 as ->.
  destruct (wordAt data 12 =? 33024); cbn [negb].
  - destruct (Nat.ltb_spec (length data) (14 + 4)) as [Hl'|Hl'].
    { rewrite decide_False by lia. apply rejected_reject in H; [exact H|reject_flag]. }
    destruct (be16 data 14) as [tci|] eqn:E4; [cbn [mbind option_bind] in H|discriminate].
    destruct (be16 data 16) as [et|] eqn:E5; [cbn [mbind option_bind] in H|discriminate].
    apply be16_wordAt in E4 as ->. apply be16_wordAt in E5 as ->. rewrite decide_True by lia.
    apply routeEtherType_spec in H; [|lia|done]. cbv zeta in H. change (18 - 2)%nat with 16%nat.
    destruct (packetTraffic _ _) as [[t body]|]; [|exact H].
    destruct H as ((? & ? & ? & ? & Hv) & ? & Hx). split_and!; try done.
    + rewrite Hv. cbn. f_equal. change 4095 with (Z.ones 12). by rewrite Z.land_ones by lia.
    + destruct (_ =? 2054); [exact Hx|]. destruct Hx as (Hs & Hd & Hx).
      split; [split; [exact Hs|exact Hd]|exact Hx].
  - rewrite decide_True by lia. apply routeEtherType_spec in H; [|lia|done]. cbv zeta in H. change (14 - 2)%nat with 12%nat.
    destruct (packetTraffic _ _) as [[t body]|]; [|exact H].
    destruct H as ((? & ? & ? & ? & Hv) & ? & Hx). split_and!; try done.
    destruct (_ =? 2054); [exact Hx|]. destruct Hx as (Hs & Hd & Hx).
      split; [split; [exact Hs|exact Hd]|exact Hx].
Qed.

Lemma traffic_suffix raw t body : traffic raw = Some (t, body) -> body `suffix_of` raw_Data raw.
Proof.
  assert (forall n (l : bytes), drop n l `suffix_of` l) as Hd by (intros n l; exists (take n l); by rewrite take_drop).
  unfold traffic, packetTraffic, segmentTraffic, packet, segment. repeat case_match; intros [= <- <-];
    try apply suffix_nil; rewrite ?drop_drop; apply Hd.
Qed.

(** *** The wire formats decoded

    A TCP segment with a 20-byte header, an IPv4 header without options, and
    an Ethernet header with an optional 802.1Q tag; the bytes the normalizer
    does not look at are arbitrary. *)
Definition tcp_segment (sport dport : Z) (seqack flags : bytes) (payload : bytes) : bytes :=
  put_be16 sport ++ put_be16 dport ++ seqack ++ x50 :: flags ++ payload.

Definition ipv4_packet (proto : byte) (h1 ck src dst : bytes) (l4 : bytes) : bytes :=
  x45 :: h1 ++ proto :: ck ++ src ++ dst ++ l4.

Definition ethernet_header (dst src : bytes) (vlan : option Z) : bytes :=
  dst ++ src ++ match vlan with
                | None => []
                | Some tci => [x81; x00] ++ put_be16 tci
                end ++ [x08; x00].

Lemma be16_put_value z : in_u16 z -> Z.lor (Z.shiftl (bz (zb (Z.shiftr z 8))) 8) (bz (zb z)) = z.
Proof. intros Hz. pose proof (be16_put [] z [] Hz) as H. cbv [be16 put_be16 app length lookup list_lookup mbind option_bind] in H. by injection H. Qed.

Lemma decodeTCP_segment sport dport seqack flags payload obs :
  in_u16 sport -> in_u16 dport -> length seqack = 8%nat -> length flags = 7%nat ->
  decodeTCP (tcp_segment sport dport seqack flags payload) obs =
    Some (setPayloadLength (Z.of_nat (length payload))
            (setConfidence ConfidenceKnown (setPorts sport dport (setTransport "TCP" obs))), payload).
Proof.
  intros Hs Hd Hl1 Hl2. unfold decodeTCP, tcp_segment.
  assert (length (put_be16 sport ++ put_be16 dport ++ seqack ++ x50 :: flags ++ payload)
          = (20 + length payload)%nat) as Hlen.
  { rewrite !length_app. cbn [length]. rewrite length_app, Hl1, Hl2. cbn. lia. }
  rewrite Hlen. cbn [Nat.ltb Nat.leb Nat.add].
  replace (be16 _ 0) with (Some sport) by (symmetry; by apply (be16_put [])).
  replace (be16 _ 2) with (Some dport) by (symmetry; by apply (be16_put (put_be16 sport))).
  explode seqack. explode flags. cbn -[go_slice_from Z.of_nat Z.ltb].
  replace (Z.of_nat _ <? 20) with false by (symmetry; apply Z.ltb_ge; lia). cbn -[go_slice_from Z.of_nat].
  match goal with |- context [go_slice_from ?l ?n] =>
    change l with (take 20 l ++ payload); change n with (length (take 20 l)) end.
  by rewrite go_slice_from_app.
Qed.

Lemma decodeIPv4_tcp pre h1 ck src dst l4 obs :
  length h1 = 8%nat -> length ck = 2%nat -> length src = 4%nat -> length dst = 4%nat ->
  decodeIPv4 (pre ++ ipv4_packet x06 h1 ck src dst l4) (length pre) obs =
    decodeTCP l4 (setIPs (IPv4_String src) (IPv4_String dst) obs).
Proof.
  intros H1 H2 H3 H4. unfold decodeIPv4.
  rewrite length_app. unfold ipv4_packet.
  explode h1. explode ck. explode src. explode dst.
  match goal with |- context [Nat.ltb ?a ?b] =>
    replace (Nat.ltb a b) with false by (symmetry; apply Nat.ltb_ge; cbn [length app]; lia) end.
  replace (_ !! length pre) with (Some x45) by (symmetry; by apply list_lookup_middle).
  rewrite !lookup_skip, !go_slice_skip. cbn [mbind option_bind].
  change (negb (Z.shiftr (bz x45) 4 =? 4)) with false.
  change (Z.land (bz x45) 15 * 4) with 20. change (20 <? 20) with false.
  match goal with |- context [Z.ltb ?a ?b] =>
    replace (Z.ltb a b) with false by (symmetry; apply Z.ltb_ge; cbn [length app]; lia) end.
  cbn -[go_slice_from].
  rewrite go_slice_from_skip.
  match goal with |- context [go_slice_from ?l ?n] =>
    change l with (take 20 l ++ l4); change n with (length (take 20 l)) end.
  by rewrite go_slice_from_app.
Qed.

(** The observation of a TCP frame: every field the frame determines. *)
Definition tcpObservation (raw : RawObservation) (dst src : bytes) (vlan : option Z) (sip dip : bytes)
    (sport dport : Z) (payload : bytes) : NormalizedObservation := {|
  ObservedAt := raw_Timestamp raw; obs_Interface := raw_Interface raw;
  SrcMAC := HardwareAddr_String src; DstMAC := HardwareAddr_String dst;
  SrcIP := IPv4_String sip; DstIP := IPv4_String dip;
  SrcPort := sport; DstPort := dport; TransportProtocol := "TCP";
  VLANID := (fun tci => Z.land tci 4095) <$> vlan;
  ProtocolHint := "unknown"; obs_Confidence := ConfidenceKnown;
  PayloadLength := Z.of_nat (length payload); obs_Metadata := Some ∅; obs_QualityFlags := [] |}.

Lemma ethernet_header_length dst src vlan :
  length dst = 6%nat -> length src = 6%nat ->
  length (ethernet_header dst src vlan) = match vlan with None => 14%nat | Some _ => 18%nat end.
Proof. intros H1 H2. unfold ethernet_header. rewrite !length_app, H1, H2. by destruct vlan. Qed.

(** The Ethernet layer: addresses, the tag, and the offset of the packet. *)
Lemma normalize_ethernet raw dst src vlan pkt :
  raw_Data raw = ethernet_header dst src vlan ++ pkt ->
  (raw_LinkType raw =s "raw_ip") = false ->
  length dst = 6%nat -> length src = 6%nat ->
  (forall tci, vlan = Some tci -> in_u16 tci) ->
  let obs := setMACs (HardwareAddr_String src) (HardwareAddr_String dst) (initialObservation raw) in
  NormalizeRawObservation raw =
    decodeIPv4 (raw_Data raw) (length (ethernet_header dst src vlan))
      match vlan with None => obs | Some tci => setVLAN (Z.land tci 4095) obs end.
Proof.
  intros Hd Hlink H1 H2 Hv obs. subst obs. unfold NormalizeRawObservation. rewrite Hlink, Hd.
  rewrite (ethernet_header_length _ _ _ H1 H2), length_app, (ethernet_header_length _ _ _ H1 H2).
  unfold ethernet_header. explode dst. explode src.
  destruct vlan as [tci|]; cbn -[HardwareAddr_String decodeIPv4 bz zb].
  - rewrite (be16_put_value tci) by auto. reflexivity.
  - reflexivity.
Qed.

(** ** Properties *)

(** C31: The normalizer is total and evidence-preserving.  For every captured
    frame it returns without panicking, and the observation is known evidence
    exactly when the frame is well formed: its link header is complete, an ARP
    packet is one for IPv4 over Ethernet, an IPv4 packet has version 4, a header
    length of at least 20 bytes that it holds and TCP, UDP or ICMP inside, a TCP
    segment a data offset of at least 20 bytes that it holds.  Then it has no
    quality flag, the frame's transport, addresses, tag and ports, and the
    payload is the bytes after the last header.  Every other frame, malformed,
    truncated or of another protocol, is a rejection carrying exactly one
    quality flag, no payload and a zero payload length.  (The total length and
    the fragment offset of an IPv4 header are not among the fields checked.) *)
Theorem normalize_evidence_preserving raw :
  exists obs payload,
    NormalizeRawObservation raw = Some (obs, payload) /\ payload `suffix_of` raw_Data raw /\
    match traffic raw with
    | Some (transport, body) =>
        obs_Confidence obs = ConfidenceKnown /\ obs_QualityFlags obs = [] /\ TransportProtocol obs = transport /\
        payload = body /\ PayloadLength obs = Z.of_nat (length body) /\ frameFields raw obs
    | None =>
        obs_Confidence obs = ConfidenceUnsupported /\ (exists f, f ∈ rejectionFlags /\ obs_QualityFlags obs = [f]) /\
        payload = [] /\ PayloadLength obs = 0
    end.
Proof.
  destruct (normalize_some raw) as [[obs payload] H]. exists obs, payload.
  split; [done|]. apply normalize_spec in H. pose proof (traffic_suffix raw) as Hs.
  destruct (traffic raw) as [[t body]|].
  - split; [|exact H]. destruct H as (_ & _ & _ & -> & _). by eapply Hs.
  - split; [|exact H]. destruct H as (_ & _ & -> & _). apply suffix_nil.
Qed.

(** Normalization inverts the wire format: an Ethernet frame, with or
    without an 802.1Q tag, carrying an option-less IPv4/TCP packet normalizes
    to exactly its MAC and IP addresses, VLAN id, ports and TCP payload, with
    known confidence. *)
Theorem normalize_tcp_frame raw dst src vlan h1 ck sip dip sport dport seqack flags payload :
  raw_Data raw = ethernet_header dst src vlan ++
    ipv4_packet x06 h1 ck sip dip (tcp_segment sport dport seqack flags payload) ->
  raw_LinkType raw <> "raw_ip"%string ->
  length dst = 6%nat -> length src = 6%nat -> (forall tci, vlan = Some tci -> in_u16 tci) ->
  length h1 = 8%nat -> length ck = 2%nat -> length sip = 4%nat -> length dip = 4%nat ->
  in_u16 sport -> in_u16 dport -> length seqack = 8%nat -> length flags = 7%nat ->
  NormalizeRawObservation raw = Some (tcpObservation raw dst src vlan sip dip sport dport payload, payload).
Proof.
  intros Hd Hlink Hdst Hsrc Hv H1 Hck Hs Hdi Hsp Hdp Hq Hf.
  apply String.eqb_neq in Hlink.
  rewrite (normalize_ethernet raw dst src vlan _ Hd Hlink) by done. rewrite Hd.
  rewrite decodeIPv4_tcp, decodeTCP_segment by done. by destruct vlan.
Qed.

Lemma normalize_tcp_frame_witness :
  let mac := replicate 6 x00 in
  let raw := {| raw_Data := ethernet_header mac mac (Some 4096) ++
                  ipv4_packet x06 (replicate 8 x00) [x00; x00] [x0a; x00; x00; x01] [x0a; x00; x00; x02]
                    (tcp_segment 50000 502 (replicate 8 x00) (replicate 7 x00) [x01; x02]);
                raw_Timestamp := 5; raw_Interface := "eth0"; raw_LinkType := "ethernet" |} in
  NormalizeRawObservation raw =
    Some (tcpObservation raw mac mac (Some 4096) [x0a; x00; x00; x01] [x0a; x00; x00; x02] 50000 502 [x01; x02],
          [x01; x02]).
Proof.
  intros mac raw.
  apply (normalize_tcp_frame raw mac mac (Some 4096) (replicate 8 x00) [x00; x00] [x0a; x00; x00; x01]
           [x0a; x00; x00; x02] 50000 502 (replicate 8 x00) (replicate 7 x00) [x01; x02]);
    try reflexivity; try (split; [discriminate|reflexivity]).
  - discriminate.
  - intros tci [= <-]. split; [discriminate|reflexivity].
Defined.

(** A minimum-size Ethernet frame: a TCP segment without data (IPv4 total
    length 40) padded with six zero bytes to 60 bytes. *)
Definition paddedAck : RawObservation := {|
  raw_Data := ethernet_header (replicate 6 x00) (replicate 6 x00) None ++
    ipv4_packet x06 ([x00; x00; x28] ++ replicate 5 x00) [x00; x00] [x0a; x00; x00; x01] [x0a; x00; x00; x02]
      (tcp_segment 50000 502 (replicate 8 x00) (replicate 7 x00) []) ++ replicate 6 x00;
  raw_Timestamp := 5; raw_Interface := "eth0"; raw_LinkType := "ethernet" |}.

(** The IPv4 total length is not consulted, so Ethernet padding is reported
    as application payload: a data-less TCP segment in a 60-byte frame yields a
    known observation with a payload of six bytes. *)
Theorem padding_reported_as_payload :
  length (raw_Data paddedAck) = 60%nat /\
  be16 (raw_Data paddedAck) 16 = Some 40 /\
  exists obs, NormalizeRawObservation paddedAck = Some (obs, replicate 6 x00) /\
    obs_Confidence obs = ConfidenceKnown /\ PayloadLength obs = 6.
Proof.
  split_and!; [vm_compute; reflexivity..|].
  eexists. split; [vm_compute; reflexivity|]. split; reflexivity.
Qed.

(** A middle fragment of a larger datagram (fragment offset 185), whose bytes
    are no TCP header. *)
Definition middleFragment : RawObservation := {|
  raw_Data := ethernet_header (replicate 6 x00) (replicate 6 x00) None ++
    ipv4_packet x06 ([x00; x00; x3c; x00; x01; x20; xb9] ++ [x40]) [x00; x00] [x0a; x00; x00; x01] [x0a; x00; x00; x02]
      (replicate 12 x41 ++ x50 :: replicate 27 x41);
  raw_Timestamp := 5; raw_Interface := "eth0"; raw_LinkType := "ethernet" |}.

(** The fragment offset is not consulted either: data from the middle of a
    stream is reported as a known TCP segment between the ports it spells. *)
Theorem fragment_reported_as_segment :
  byteAt (packet middleFragment) 6 mod 32 * 256 + byteAt (packet middleFragment) 7 = 185 /\
  exists obs, NormalizeRawObservation middleFragment = Some (obs, replicate 20 x41) /\
    obs_Confidence obs = ConfidenceKnown /\ SrcPort obs = 16705 /\ DstPort obs = 16705.
Proof.
  split; [vm_compute; reflexivity|]. eexists. split; [vm_compute; reflexivity|]. by split.
Qed.
