(* ===== verification/Protocols.v ===== *)
(** Protocol identification
    (agent/internal/collectors/passivenetwork/protocols.go): port-based hints,
    and Modbus evidence recorded in the observation's metadata. *)
From S2P Require Import Prelude GoStrings GoTime Events PassiveModel Modbus.

Open Scope Z_scope.

(** The struct behind [obs.Metadata["protocol_evidence"]], with its JSON names. *)
Definition evidenceValue (ev : ModbusEvidence) : MetaValue :=
  VStruct "ModbusEvidence"
    ([ ("transaction_id"%string, VUint16 (TransactionID ev)); ("protocol_id"%string, VUint16 (ProtocolID ev));
       ("length"%string, VUint16 (Length ev)); ("unit_id"%string, VUint8 (UnitID ev));
       ("function_code"%string, VUint8 (FunctionCode ev)); ("function_name"%string, VStr (FunctionName ev));
       ("is_exception"%string, VBool (IsException ev)) ]
     ++ match ExceptionCode ev with Some c => [("exception_code"%string, VUint8 c)] | None => [] end
     ++ [ ("direction"%string, VStr (Direction ev)) ]
     ++ match StartingAddress ev with Some a => [("starting_address"%string, VUint16 a)] | None => [] end
     ++ match Quantity ev with Some q => [("quantity"%string, VUint16 q)] | None => [] end).

(** The assignments of the evidence block, in source order. *)
Definition evidenceEntries (ev : ModbusEvidence) : list (string * MetaValue) :=
  ([ ("protocol_evidence"%string, evidenceValue ev);
     ("modbus_transaction_id"%string, VUint16 (TransactionID ev));
     ("modbus_protocol_id"%string, VUint16 (ProtocolID ev));
     ("modbus_length"%string, VUint16 (Length ev));
     ("modbus_unit_id"%string, VUint8 (UnitID ev));
     ("modbus_function_code"%string, VUint8 (FunctionCode ev));
     ("modbus_function_name"%string, VStr (FunctionName ev));
     ("modbus_direction"%string, VStr (Direction ev));
     ("modbus_is_exception"%string, VBool (IsException ev)) ]
   ++ match StartingAddress ev with Some a => [("modbus_starting_address"%string, VUint16 a)] | None => [] end
   ++ match Quantity ev with Some q => [("modbus_quantity"%string, VUint16 q)] | None => [] end
   ++ match ExceptionCode ev with Some c => [("modbus_exception_code"%string, VUint8 c)] | None => [] end).

Fixpoint putEntries (kvs : list (string * MetaValue)) (o : NormalizedObservation) : option NormalizedObservation :=
  match kvs with
  | [] => Some o
  | (k, v) :: kvs => let! o := putMeta k v o in putEntries kvs o
  end.

Definition recordEvidence (ev : ModbusEvidence) (o : NormalizedObservation) : option NormalizedObservation :=
  let o := match obs_Metadata o with None => setMetadata (Some ∅) o | Some _ => o end in
  putEntries (evidenceEntries ev) o.

Definition portIs (p : Z) (o : NormalizedObservation) : bool := (SrcPort o =? p) || (DstPort o =? p).

(** The result is the mutated observation, the hint and its confidence. *)
Definition Identify (obs : option NormalizedObservation) (payload : bytes)
    : option (option NormalizedObservation * string * ConfidenceLevel) :=
  match obs with
  | None => Some (None, "unknown"%string, ConfidenceUnknown)
  | Some o =>
      if TransportProtocol o =s "TCP" then
        if portIs 502 o then
          let! d := DecodeModbusTCP obs payload in
          let '(evidence, conf, flags) := d in
          let o := addFlags flags o in
          let! o := match evidence with Some ev => recordEvidence ev o | None => Some o end in
          Some (Some o, "modbus"%string, conf)
        else if portIs 20000 o then Some (Some o, "dnp3"%string, ConfidenceInferred)
        else if portIs 44818 o then Some (Some o, "ethernet_ip"%string, ConfidenceInferred)
        else if portIs 102 o then Some (Some o, "s7"%string, ConfidenceInferred)
        else Some (Some o, "unknown"%string, ConfidenceUnknown)
      else if TransportProtocol o =s "UDP" then
        if portIs 20000 o then Some (Some o, "dnp3"%string, ConfidenceInferred)
        else if portIs 2222 o then Some (Some o, "ethernet_ip"%string, ConfidenceInferred)
        else Some (Some o, "unknown"%string, ConfidenceUnknown)
      else Some (Some o, "unknown"%string, ConfidenceUnknown)
  end.

(** ** Lemmas *)
Lemma putEntries_spec kvs o m :
  obs_Metadata o = Some m ->
  exists m', putEntries kvs o = Some (setMetadata (Some m') o) /\
    (forall k, k ∉ map fst kvs -> m' !! k = m !! k).
Proof.
  revert o m. induction kvs as [|[k v] kvs IH]; intros o m Hm; cbn [putEntries].
  - exists m. split; [|done]. f_equal. destruct o. cbn in *. by subst.
  - unfold putMeta at 1. rewrite Hm. cbn [mbind option_bind].
    destruct (IH (setMetadata (Some (<[k:=v]> m)) o) (<[k:=v]> m) eq_refl) as (m' & Hp & Hl).
    exists m'. rewrite Hp. split; [by destruct o|]. cbn. intros k' Hk.
    rewrite Hl by set_solver. rewrite lookup_insert_ne by set_solver. done.
Qed.

Lemma recordEvidence_spec ev o :
  exists m', recordEvidence ev o = Some (setMetadata (Some m') o).
Proof.
  unfold recordEvidence. destruct (obs_Metadata o) as [m|] eqn:Hm.
  - destruct (putEntries_spec (evidenceEntries ev) o m Hm) as (m' & -> & _). by exists m'.
  - destruct (putEntries_spec (evidenceEntries ev) (setMetadata (Some ∅) o) ∅ eq_refl) as (m' & -> & _).
    exists m'. by destruct o.
Qed.

Definition knownHints : list string := ["modbus"; "dnp3"; "ethernet_ip"; "s7"; "unknown"]%string.

Lemma identify_inv o payload :
  exists o' hint conf,
    Identify (Some o) payload = Some (Some o', hint, conf) /\
    (exists m fl, o' = setMetadata m (addFlags fl o)) /\
    hint ∈ knownHints /\
    (conf = ConfidenceKnown ->
       hint = "modbus"%string /\ TransportProtocol o = "TCP"%string /\ portIs 502 o = true /\
       exists ev flags, DecodeModbusTCP (Some o) payload = Some (Some ev, ConfidenceKnown, flags)).
Proof.
  unfold Identify.
  assert (exists m fl, o = setMetadata m (addFlags fl o)) as Hid.
  { exists (obs_Metadata o), []. destruct o. unfold setMetadata, addFlags. cbn. by rewrite (right_id_L [] (++)). }
  destruct (String.eqb_spec (TransportProtocol o) "TCP") as [Htcp|_].
  2:{ repeat case_match; eexists _, _, _; (split; [reflexivity|]); split_and!; try done; unfold knownHints; set_solver. }
  destruct (portIs 502 o) eqn:Hp.
  2:{ repeat case_match; eexists _, _, _; (split; [reflexivity|]); split_and!; try done; unfold knownHints; set_solver. }
  destruct (decode_some (Some o) payload) as [[[ev conf] flags] Hd]. rewrite Hd. cbn [mbind option_bind].
  destruct ev as [ev|].
  - destruct (recordEvidence_spec ev (addFlags flags o)) as [m' ->]. cbn [mbind option_bind].
    eexists _, _, _. split; [reflexivity|]. split_and!; [by eexists _, _|unfold knownHints; set_solver|].
    intros ->. split_and!; try done. by exists ev, flags.
  - eexists _, _, _. split; [reflexivity|]. split_and!; [exists (obs_Metadata o), flags; by destruct o|unfold knownHints; set_solver|].
    intros ->. by apply decode_inv in Hd as [[_ ?]|[? _]].
Qed.

(** ** Properties *)

(** Port numbers alone never establish a protocol.  Identification never
    panics; a hint is known only for TCP port 502 traffic whose payload decoded
    to Modbus evidence; and identification leaves every address, port, VLAN
    and length field of the observation as it was. *)
Theorem identify_spec o payload :
  exists o' hint conf,
    Identify (Some o) payload = Some (Some o', hint, conf) /\
    (conf = ConfidenceKnown ->
       hint = "modbus"%string /\ TransportProtocol o = "TCP"%string /\ portIs 502 o = true /\
       exists ev flags, DecodeModbusTCP (Some o) payload = Some (Some ev, ConfidenceKnown, flags)) /\
    (exists m fl, o' = setMetadata m (addFlags fl o)).
Proof.
  destruct (identify_inv o payload) as (o' & hint & conf & ? & ? & _ & ?). by exists o', hint, conf.
Qed.
