(* ===== verification/Config.v ===== *)
(** The agent configuration (agent/internal/config/config.go): the settings, their
    JSON form and their validation. *)
From S2P Require Import Prelude GoStrings GoText GoJson GoStruct GoUrl.
From S2P Require Events.

Local Open Scope string_scope.
Local Open Scope list_scope.
Open Scope Z_scope.

Record Config := {
  APIAddr : string;
  TenantID : string;
  SiteID : string;
  ProcessInterval : string;
  InventoryInterval : string;
  NetworkInterval : string;
  MonitorPaths : list string;
}.

(** The struct tags. *)
Definition configFields (c : Config) : list (string * option (result JSON)) :=
  [ ("api_addr", Some (Ok (jsonString (APIAddr c)))); ("tenant_id", Some (Ok (jsonString (TenantID c))));
    ("site_id", Some (Ok (jsonString (SiteID c)))); ("process_interval", omitString (ProcessInterval c));
    ("inventory_interval", omitString (InventoryInterval c)); ("network_interval", omitString (NetworkInterval c));
    ("monitor_paths", omitStrings (MonitorPaths c)) ].

Definition emptyConfig : Config := {|
  APIAddr := ""; TenantID := ""; SiteID := ""; ProcessInterval := ""; InventoryInterval := "";
  NetworkInterval := ""; MonitorPaths := [] |}.

Definition decodeConfig (fs : list (list byte * JSON)) : option Config :=
  let str name := foldField intoString "" (occurrences name fs) in
  let! api_addr := str "api_addr" in
  let! tenant_id := str "tenant_id" in
  let! site_id := str "site_id" in
  let! process_interval := str "process_interval" in
  let! inventory_interval := str "inventory_interval" in
  let! network_interval := str "network_interval" in
  let! monitor_paths := foldField intoStrings ([], []) (occurrences "monitor_paths" fs) in
  Some {| APIAddr := api_addr; TenantID := tenant_id; SiteID := site_id; ProcessInterval := process_interval;
          InventoryInterval := inventory_interval; NetworkInterval := network_interval; MonitorPaths := monitor_paths.1 |}.

Section Validate.
(** The parser of the authority of a URL. *)
Context (parseAuthority : string -> option (bool * string)).

Definition badURL (addr : string) : bool :=
  match Parse parseAuthority addr with
  | None => true
  | Some parsed =>
      (negb (Scheme parsed =s "http") && negb (Scheme parsed =s "https"))
      || (Host parsed =s "") || HasUser parsed
      || negb (RawQuery parsed =s "") || negb (Fragment parsed =s "")
  end.

(** The loop over the two identifiers. *)
Fixpoint checkIdentifiers (ids : list (string * string)) : option error :=
  match ids with
  | [] => None
  | (name, value) :: ids =>
      if (128 <? go_len value) || negb (idPattern value)
      then Some (ErrNew (name ^^ " must be 1-128 letters, digits, or hyphens"))
      else checkIdentifiers ids
  end.

Definition Config_Validate (c : Config) : option error :=
  if APIAddr c =s "" then Some (ErrNew "api_addr is required")
  else if TenantID c =s "" then Some (ErrNew "tenant_id is required")
  else if SiteID c =s "" then Some (ErrNew "site_id is required")
  else if badURL (APIAddr c)
  then Some (ErrNew "api_addr must be a valid http(s) base URL without credentials, query, or fragment")
  else checkIdentifiers [("tenant_id"%string, TenantID c); ("site_id"%string, SiteID c)].

(** What [os.ReadFile] gave is an input; [decodeError] is the text of an error of
    [json.Unmarshal]. *)
Definition Load (decodeError : string -> error) (file : result string) : result Config :=
  match file with
  | Err e => Err e
  | Ok data =>
      match structRead emptyConfig decodeConfig decodeError data with
      | Err e => Err e
      | Ok cfg => match Config_Validate cfg with Some e => Err e | None => Ok cfg end
      end
  end.
End Validate.

(** ** Lemmas *)
Lemma checkIdentifiers_spec ids :
  Forall (fun i => i.2 <> ""%string) ids ->
  checkIdentifiers ids = None -> Forall (fun i => Events.validIdentifier i.2) ids.
Proof.
  induction ids as [|[n v] ids IH]; intros Hne H; [constructor|].
  apply Forall_cons in Hne as [Hv Hne]. cbn [checkIdentifiers fst snd] in *.
  destruct (128 <? go_len v) eqn:Hl; [done|]. unfold idPattern in H.
  destruct (allChars idChar v) eqn:Hc; [|by rewrite andb_false_r in H].
  rewrite (proj2 (String.eqb_neq v "") Hv) in H. cbn in H.
  constructor; [|by apply IH]. cbn. split_and!; [done|done|lia].
Qed.

(** A configuration that passed validation identifies its tenant and site the
    way the event schema requires. *)
Lemma Validate_identifiers parseAuthority c :
  Config_Validate parseAuthority c = None ->
  Events.validIdentifier (TenantID c) /\ Events.validIdentifier (SiteID c).
Proof.
  unfold Config_Validate. destruct (APIAddr c =s ""); [done|].
  destruct (String.eqb_spec (TenantID c) ""); [done|].
  destruct (String.eqb_spec (SiteID c) ""); [done|].
  destruct (badURL parseAuthority (APIAddr c)); [done|]. intros H.
  apply checkIdentifiers_spec in H; [|by repeat constructor].
  apply Forall_cons in H as [? H]. by apply Forall_cons in H as [? _].
Qed.

(** What comes back of a configuration: its text without invalid UTF-8. *)
Definition plainConfig (c : Config) : Config := {|
  APIAddr := sanitize (APIAddr c); TenantID := sanitize (TenantID c); SiteID := sanitize (SiteID c);
  ProcessInterval := sanitize (ProcessInterval c); InventoryInterval := sanitize (InventoryInterval c);
  NetworkInterval := sanitize (NetworkInterval c); MonitorPaths := map sanitize (MonitorPaths c) |}.

Lemma configFields_named c : fieldNamed (configFields c).
Proof.
  split; [|repeat (constructor; [vm_compute; reflexivity|]); constructor].
  apply (bool_decide_unpack (NoDup (map nameOf (map fst (configFields emptyConfig))))). vm_compute. exact I.
Qed.

Lemma configFields_wf c : Forall (fun f => forall j, f.2 = Some (Ok j) -> wfJSON (S metaLevels) j) (configFields c).
Proof.
  unfold configFields. repeat apply List.Forall_cons; cbn [snd]; try apply List.Forall_nil;
    first [eapply fieldReads_wf, string_reads|eapply fieldReads_wf, omitString_reads|eapply fieldReads_wf, omitStrings_reads].
Qed.

Lemma config_decodes c fs : writtenAs (configFields c) fs -> decodeConfig fs = Some (plainConfig c).
Proof.
  intros Hfs. unfold decodeConfig. pose proof (configFields_named c) as Hn.
  repeat match goal with
  | |- context [foldField intoString "" (occurrences ?n fs)] =>
      rewrite (field_decodes (configFields c) intoString fs n _ "" _ Hn Hfs ltac:(in_fields)) by first [apply string_reads|apply omitString_reads]
  | |- context [foldField intoStrings ([], []) (occurrences ?n fs)] =>
      rewrite (field_decodes (configFields c) intoStrings fs n _ ([], []) _ Hn Hfs ltac:(in_fields)) by apply omitStrings_reads
  end.
  reflexivity.
Qed.

(** The file that the struct tags write of a configuration loads as it, exactly
    when it is valid. *)
Lemma Load_written parseAuthority decodeError c data :
  structText (configFields c) = Ok data ->
  Load parseAuthority decodeError (Ok data) =
    match Config_Validate parseAuthority (plainConfig c) with Some e => Err e | None => Ok (plainConfig c) end.
Proof.
  intros H. unfold Load. rewrite (struct_reads (configFields c) emptyConfig decodeConfig decodeError data (plainConfig c)); try done.
  - apply configFields_wf.
  - intros fs. apply config_decodes.
Qed.

(** What was loaded is valid, and its text is valid UTF-8. *)
Lemma Load_valid parseAuthority decodeError file c :
  Load parseAuthority decodeError file = Ok c ->
  Config_Validate parseAuthority c = None /\ Forall plainText (MonitorPaths c) /\ plainText (APIAddr c).
Proof.
  unfold Load. destruct file as [data|]; [|done].
  destruct (structRead emptyConfig decodeConfig decodeError data) as [cfg|] eqn:E; [|done].
  destruct (Config_Validate parseAuthority cfg) eqn:Hcfg; [done|]. intros [= <-]. split; [done|].
  apply structRead_ok in E as (v & _ & E). destruct v; try done; [injection E as <-; by split; [constructor|vm_compute]|].
  cbn [structValue] in E. unfold decodeConfig in E.
  apply bind_Some in E as (addr & Ha & E). do 5 apply bind_Some in E as (? & _ & E).
  apply bind_Some in E as ([paths st] & Hs & [= <-]).
  apply (foldField_inv _ (fun s => Forall plainText (s.1 ++ s.2)) (fun _ => True)) in Hs;
    [|intros ? ? ? Hx _; by apply intoStrings_plain|constructor|by apply Forall_true].
  apply (foldField_inv _ plainText (fun _ => True)) in Ha;
    [|intros ? ? ? Hx _; by apply intoString_plain|by vm_compute|by apply Forall_true].
  split; [|done]. by apply Forall_app in Hs as [? _].
Qed.

(** A configuration of one plant, for the witnesses. *)
Definition lanConfig : Config := {|
  APIAddr := "http://10.0.0.5:8081"%string; TenantID := "plant-7"%string; SiteID := "line-2"%string;
  ProcessInterval := ""%string; InventoryInterval := ""%string; NetworkInterval := "90s"%string;
  MonitorPaths := [] |}.

(** A file as an installer writes it: the names in any case, a field given twice,
    one unknown. *)
Example load_ex :
  Load plainAuthority ErrNew (Ok (apostrophes (
    "{ 'tenant_id': 'old', 'API_ADDR': 'http://10.0.0.5:8081', 'Tenant_ID': 'plant-7', " ^^
    "'site_id': 'line-2', 'network_interval': '90s', 'retries': [1, 2] }"))) = Ok lanConfig.
Proof. vm_compute. reflexivity. Qed.
