(* ===== verification/PassiveCollector.v ===== *)
(** The passive network collector
    (agent/internal/collectors/passivenetwork/collector.go) and the replay
    adapter (adapter.go): one raw observation to one canonical event, the
    start/stop protocol, and the two goroutines that move observations through
    the bounded channel. *)
From S2P Require Import Prelude GoStrings GoTime Events PassiveModel Modbus Normalizer Protocols.
From S2P Require Config.

Open Scope Z_scope.

(** ** One observation *)

(** [ProtocolIdentifier.Identify]: the mutated observation, the hint and its
    confidence; [None] is a panic. *)
Notation ProtocolIdentifier :=
  (NormalizedObservation -> bytes -> option (NormalizedObservation * string * ConfidenceLevel)).

Definition DefaultProtocolIdentifier : ProtocolIdentifier := fun obs payload =>
  let! r := Identify (Some obs) payload in
  match r with
  | (Some obs, hint, conf) => Some (obs, hint, conf)
  | (None, _, _) => None
  end.

Definition configured (dflt s : string) : string := if s =s "" then dflt else s.

(** The tenant and site the event is attributed to. *)
Definition eventTenant (cfg : option Config.Config) : string :=
  match cfg with None => "default-tenant" | Some c => configured "default-tenant" (Config.TenantID c) end.
Definition eventSite (cfg : option Config.Config) : string :=
  match cfg with None => "default-site" | Some c => configured "default-site" (Config.SiteID c) end.

(** [obs.SrcIP] when known, else the MAC address. *)
Definition endpointOf (ip mac : string) : string :=
  if negb (ip =s "") then ip else if negb (mac =s "") then mac else "".

Definition observationMetadata (obs : NormalizedObservation) : MetaMap :=
  let m : MetaMap := ∅ in
  let m := <[ "interface"%string := VStr (obs_Interface obs) ]> m in
  let m := <[ "src_mac"%string := VStr (SrcMAC obs) ]> m in
  let m := <[ "dst_mac"%string := VStr (DstMAC obs) ]> m in
  let m := <[ "src_port"%string := VUint16 (SrcPort obs) ]> m in
  let m := <[ "dst_port"%string := VUint16 (DstPort obs) ]> m in
  let m := <[ "transport_protocol"%string := VStr (TransportProtocol obs) ]> m in
  let m := <[ "confidence"%string := VStr (obs_Confidence obs) ]> m in
  let m := <[ "protocol_hint"%string := VStr (ProtocolHint obs) ]> m in
  let m := <[ "payload_length"%string := VInt (PayloadLength obs) ]> m in
  let m := match VLANID obs with Some v => <[ "vlan_id"%string := VUint16 v ]> m | None => m end in
  (* for k, v := range obs.Metadata { ev.Metadata[k] = v } *)
  match obs_Metadata obs with Some om => om ∪ m | None => m end.

Definition observationEvent (cfg : option Config.Config) (eventID : string) (now : Time)
    (obs : NormalizedObservation) : CanonicalEvent := {|
  EventID := eventID;
  TenantID := eventTenant cfg;
  SiteID := eventSite cfg;
  AssetID := ""; SensorID := "";
  OccurredAt := ObservedAt obs;
  ReceivedAt := now;
  SeqNo := 0;
  Source := "passive_network";
  Category := "network";
  Severity := if negb (length (obs_QualityFlags obs) =? 0)%nat then "WARNING" else "INFO";
  Confidence := None;
  Protocol := if (ProtocolHint obs =s "unknown") && negb (TransportProtocol obs =s "")
              then TransportProtocol obs else ProtocolHint obs;
  Src := endpointOf (SrcIP obs) (SrcMAC obs);
  Dst := endpointOf (DstIP obs) (DstMAC obs);
  Action := "";
  Metadata := Some (observationMetadata obs);
  RuleID := ""; RuleVersion := ""; AttckEnterprise := []; AttckICS := [];
  QualityFlags := obs_QualityFlags obs;
  SchemaVersion := CurrentSchemaVersion |}.

(** [processRaw] up to the final send; [eventID] is [uuid.New().String()] and
    [now] is [time.Now().UTC()]. *)
Definition rawEvent (identifier : ProtocolIdentifier) (cfg : option Config.Config)
    (eventID : string) (now : Time) (raw : RawObservation) : option CanonicalEvent :=
  let! n := NormalizeRawObservation raw in
  let! r := identifier n.1 n.2 in
  let '(obs, hint, conf) := r in
  let obs := setHint hint obs in
  let obs := if negb (conf =s ConfidenceUnknown) then setConfidence conf obs else obs in
  Some (observationEvent cfg eventID now obs).

(** ** The pipeline

    The replay goroutine, the bounded channel and the collector goroutine.
    [select] may take any ready case, so a cancelled context does not prevent
    a send or a receive that is ready.  [Collector.dropPolicy] has no place in
    the model because the code stores it and never reads it. *)
Record Pipeline := {
  p_fixtures : list RawObservation;          (* not yet offered by the adapter *)
  p_adapter : bool;                          (* the adapter goroutine runs *)
  p_rawCh : list RawObservation;
  p_runner : bool;                           (* the collector goroutine runs *)
  p_pending : option (RawObservation * CanonicalEvent);  (* blocked in [out <- ev] *)
  p_out : list (RawObservation * CanonicalEvent);        (* delivered, oldest first *)
  p_cancelled : bool;
  p_dropCount : Z;
  p_processCount : Z;
}.

Definition DefaultBufferCapacity : nat := 100.

Definition initialPipeline (fixtures : list RawObservation) : Pipeline := {|
  p_fixtures := fixtures; p_adapter := true; p_rawCh := []; p_runner := true;
  p_pending := None; p_out := []; p_cancelled := false; p_dropCount := 0; p_processCount := 0 |}.

Section Steps.
Context (identifier : ProtocolIdentifier) (cfg : option Config.Config)
        (bufferCap : nat).

Inductive pstep : Pipeline -> Pipeline -> Prop :=
(* case out <- obs, in the adapter *)
| step_offer f fs ch out pend run c d n :
    (length ch < bufferCap)%nat ->
    pstep {| p_fixtures := f :: fs; p_adapter := true; p_rawCh := ch; p_runner := run; p_pending := pend;
             p_out := out; p_cancelled := c; p_dropCount := d; p_processCount := n |}
          {| p_fixtures := fs; p_adapter := true; p_rawCh := ch ++ [f]; p_runner := run; p_pending := pend;
             p_out := out; p_cancelled := c; p_dropCount := d; p_processCount := n |}
(* the range loop ends, or case <-runCtx.Done() *)
| step_adapter_exit fs ch out pend run c d n :
    fs = [] \/ c = true ->
    pstep {| p_fixtures := fs; p_adapter := true; p_rawCh := ch; p_runner := run; p_pending := pend;
             p_out := out; p_cancelled := c; p_dropCount := d; p_processCount := n |}
          {| p_fixtures := fs; p_adapter := false; p_rawCh := ch; p_runner := run; p_pending := pend;
             p_out := out; p_cancelled := c; p_dropCount := d; p_processCount := n |}
(* case raw, ok := <-rawCh, and processRaw up to its send *)
| step_receive fs a r ch out ev id now c d n :
    rawEvent identifier cfg id now r = Some ev ->
    pstep {| p_fixtures := fs; p_adapter := a; p_rawCh := r :: ch; p_runner := true; p_pending := None;
             p_out := out; p_cancelled := c; p_dropCount := d; p_processCount := n |}
          {| p_fixtures := fs; p_adapter := a; p_rawCh := ch; p_runner := true; p_pending := Some (r, ev);
             p_out := out; p_cancelled := c; p_dropCount := d; p_processCount := u64 (n + 1) |}
(* case out <- ev *)
| step_deliver fs a ch out rev c d n :
    pstep {| p_fixtures := fs; p_adapter := a; p_rawCh := ch; p_runner := true; p_pending := Some rev;
             p_out := out; p_cancelled := c; p_dropCount := d; p_processCount := n |}
          {| p_fixtures := fs; p_adapter := a; p_rawCh := ch; p_runner := true; p_pending := None;
             p_out := out ++ [rev]; p_cancelled := c; p_dropCount := d; p_processCount := n |}
(* case <-ctx.Done() in processRaw *)
| step_abandon fs a ch out rev d n :
    pstep {| p_fixtures := fs; p_adapter := a; p_rawCh := ch; p_runner := true; p_pending := Some rev;
             p_out := out; p_cancelled := true; p_dropCount := d; p_processCount := n |}
          {| p_fixtures := fs; p_adapter := a; p_rawCh := ch; p_runner := true; p_pending := None;
             p_out := out; p_cancelled := true; p_dropCount := d; p_processCount := n |}
(* case <-ctx.Done() in run *)
| step_run_exit fs a ch out d n :
    pstep {| p_fixtures := fs; p_adapter := a; p_rawCh := ch; p_runner := true; p_pending := None;
             p_out := out; p_cancelled := true; p_dropCount := d; p_processCount := n |}
          {| p_fixtures := fs; p_adapter := a; p_rawCh := ch; p_runner := false; p_pending := None;
             p_out := out; p_cancelled := true; p_dropCount := d; p_processCount := n |}
(* Stop, or the parent context *)
| step_cancel fs a ch out run pend c d n :
    pstep {| p_fixtures := fs; p_adapter := a; p_rawCh := ch; p_runner := run; p_pending := pend;
             p_out := out; p_cancelled := c; p_dropCount := d; p_processCount := n |}
          {| p_fixtures := fs; p_adapter := a; p_rawCh := ch; p_runner := run; p_pending := pend;
             p_out := out; p_cancelled := true; p_dropCount := d; p_processCount := n |}.
End Steps.

(** ** Starting and stopping *)

Record ReplayAdapter := {
  r_fixtures : list RawObservation;
  r_started : bool;
  r_stopped : bool;
  r_cancelled : bool;          (* [r.cancel] was called *)
  r_doneClosed : bool;         (* [close(r.done)] by [Stop]; the goroutine closes it otherwise *)
}.

Definition NewReplayAdapter (fixtures : list RawObservation) : ReplayAdapter := {|
  r_fixtures := fixtures; r_started := false; r_stopped := false; r_cancelled := false;
  r_doneClosed := false |}.

Definition ErrAdapterStopped : string := "capture adapter already stopped".
Definition ErrAdapterRunning : string := "capture adapter already running".

(** The goroutine it launches is the adapter of [pstep]. *)
Definition ReplayAdapter_Start (r : ReplayAdapter) : ReplayAdapter * option error :=
  if r_stopped r then (r, Some (ErrNew ErrAdapterStopped))
  else if r_started r then (r, Some (ErrNew ErrAdapterRunning))
  else ({| r_fixtures := r_fixtures r; r_started := true; r_stopped := r_stopped r;
           r_cancelled := r_cancelled r; r_doneClosed := r_doneClosed r |}, None).

Definition ReplayAdapter_Stop (r : ReplayAdapter) : ReplayAdapter * option error :=
  if r_stopped r then (r, None)
  else ({| r_fixtures := r_fixtures r; r_started := r_started r; r_stopped := true;
           r_cancelled := r_started r; r_doneClosed := negb (r_started r) |}, None).

(** The collector over any adapter: [A] is the adapter's state, given with its
    two operations. *)
Section Collector.
Context {A : Type} (adapter_Start adapter_Stop : A -> A * option error).

Record Collector := {
  c_adapter : option A;      (* nil when none was supplied *)
  c_bufferCap : nat;
  c_started : bool;
  c_stopped : bool;
  c_cancel : option bool;    (* the cancel function, and whether it was called *)
  c_run : bool;              (* [go c.run] was reached *)
}.

Definition NewCollector (adapter : option A) (cap : option Z) : Collector := {|
  c_adapter := adapter;
  (* WithBufferCapacity keeps the default for a non-positive capacity *)
  c_bufferCap := match cap with
                 | Some n => if 0 <? n then Z.to_nat n else DefaultBufferCapacity
                 | None => DefaultBufferCapacity
                 end;
  c_started := false; c_stopped := false; c_cancel := None; c_run := false |}.

Definition Collector_Start (c : Collector) : Collector * option error :=
  if c_stopped c then (c, Some (ErrNew "passive network collector cannot be restarted"))
  else if c_started c then (c, Some (ErrNew "passive network collector already started"))
  else match c_adapter c with
  | None => (c, Some (ErrNew "capture adapter is required"))
  | Some a =>
      match adapter_Start a with
      | (a, Some err) =>
          ({| c_adapter := Some a; c_bufferCap := c_bufferCap c; c_started := true; c_stopped := c_stopped c;
              c_cancel := Some true; c_run := c_run c |},
           Some (ErrWrap ("failed to start capture adapter: " ^^ error_Error err) [err]))
      | (a, None) =>
          ({| c_adapter := Some a; c_bufferCap := c_bufferCap c; c_started := true; c_stopped := c_stopped c;
              c_cancel := Some false; c_run := true |}, None)
      end
  end.

Definition Collector_Stop (c : Collector) : Collector * option error :=
  if c_stopped c then (c, None)
  else
    let cancel := match c_cancel c with Some _ => Some true | None => None end in
    match c_adapter c with
    | Some a =>
        let '(a, err) := adapter_Stop a in
        ({| c_adapter := Some a; c_bufferCap := c_bufferCap c; c_started := c_started c; c_stopped := true;
            c_cancel := cancel; c_run := c_run c |}, err)
    | None =>
        ({| c_adapter := None; c_bufferCap := c_bufferCap c; c_started := c_started c; c_stopped := true;
            c_cancel := cancel; c_run := c_run c |}, None)
    end.

(** A stopped collector refuses to start, its context is cancelled if it ever
    ran, and stopping again changes nothing. *)
Lemma stop_is_final c :
  let c' := (Collector_Stop c).1 in
  c_stopped c' = true /\ (c_stopped c = false -> c_cancel c <> None -> c_cancel c' = Some true) /\
  Collector_Start c' = (c', Some (ErrNew "passive network collector cannot be restarted")) /\
  Collector_Stop c' = (c', None).
Proof.
  cbv zeta.
  assert (c_stopped (Collector_Stop c).1 = true /\
          (c_stopped c = false -> c_cancel c <> None -> c_cancel (Collector_Stop c).1 = Some true)) as [Hs Hc].
  { unfold Collector_Stop. destruct (c_stopped c) eqn:Hs; [done|].
    destruct (c_adapter c) as [a|]; [destruct (adapter_Stop a) as [a' err]|];
      cbn; destruct (c_cancel c); done. }
  split_and!; try done.
  - unfold Collector_Start. by rewrite Hs.
  - unfold Collector_Stop at 1. by rewrite Hs.
Qed.

Lemma start_at_most_once c c1 :
  Collector_Start c = (c1, None) ->
  Collector_Start c1 = (c1, Some (ErrNew "passive network collector already started")).
Proof.
  unfold Collector_Start. destruct (c_stopped c); [done|]. destruct (c_started c); [done|].
  destruct (c_adapter c) as [a|]; [|done]. destruct (adapter_Start a) as [a' [err|]]; [done|].
  by intros [= <-].
Qed.
End Collector.

(** ** Lemmas: bounded text fields *)
Lemma go_slice_len {A} (s t : list A) lo hi : go_slice s lo hi = Some t -> length t = (hi - lo)%nat.
Proof.
  unfold go_slice. case_decide; [|done]. intros [= <-]. rewrite length_take, length_drop. lia.
Qed.

(** What the decoders keep: the capture time, and text fields that fit their
    VARCHAR columns. *)
Definition shortFields (ts : Time) (o : NormalizedObservation) : Prop :=
  ObservedAt o = ts /\
  go_len (SrcMAC o) <= 128 /\ go_len (DstMAC o) <= 128 /\ go_len (SrcIP o) <= 128 /\
  go_len (DstIP o) <= 128 /\ go_len (TransportProtocol o) <= 128 /\ go_len (ProtocolHint o) <= 128.

Lemma putMeta_eq k v o o' : putMeta k v o = Some o' -> exists m, o' = setMetadata m o.
Proof. unfold putMeta. destruct (obs_Metadata o) as [m|]; [|done]. intros [= <-]. by eexists. Qed.

Lemma slice_ip data lo hi t :
  (hi - lo <= 6)%nat -> go_slice data lo hi = Some t -> go_len (IPv4_String t) <= 128.
Proof. intros Hd Ht%go_slice_len. pose proof (IPv4_String_len t). lia. Qed.

Lemma slice_mac data lo hi t :
  (hi - lo <= 6)%nat -> go_slice data lo hi = Some t -> go_len (HardwareAddr_String t) <= 128.
Proof. intros Hd Ht%go_slice_len. pose proof (HardwareAddr_String_len t). lia. Qed.

Ltac short_addr :=
  match goal with
  | H : go_slice _ _ _ = Some ?t |- go_len (IPv4_String ?t) <= _ => eapply slice_ip; [|exact H]; lia
  | H : go_slice _ _ _ = Some ?t |- go_len (HardwareAddr_String ?t) <= _ => eapply slice_mac; [|exact H]; lia
  end.

Ltac short :=
  repeat match goal with
  | H : putMeta _ _ _ = Some _ |- _ => apply putMeta_eq in H as [? ->]
  end;
  unfold shortFields in *; cbn [ObservedAt SrcMAC DstMAC SrcIP DstIP TransportProtocol ProtocolHint
    setMACs setIPs setPorts setTransport setVLAN setHint setConfidence setPayloadLength setMetadata addFlags] in *;
  split_and!; try tauto; try (by vm_compute); try short_addr.

Lemma decodeTCP_short ts l4 obs o p : decodeTCP l4 obs = Some (o, p) -> shortFields ts obs -> shortFields ts o.
Proof. unfold decodeTCP, reject. cbv zeta. intros H Hs. decoded; short. Qed.

Lemma decodeUDP_short ts l4 obs o p : decodeUDP l4 obs = Some (o, p) -> shortFields ts obs -> shortFields ts o.
Proof. unfold decodeUDP, reject. cbv zeta. intros H Hs. decoded; short. Qed.

Lemma decodeICMP_short ts l4 obs o p : decodeICMP l4 obs = Some (o, p) -> shortFields ts obs -> shortFields ts o.
Proof. unfold decodeICMP, reject. cbv zeta. intros H Hs. decoded; short. Qed.

Lemma decodeIPv4_short ts data off obs o p :
  decodeIPv4 data off obs = Some (o, p) -> shortFields ts obs -> shortFields ts o.
Proof.
  unfold decodeIPv4, reject. cbv zeta. intros H Hs. decoded; try (by short).
  - apply (decodeTCP_short ts) in H; [done|]. short.
  - apply (decodeUDP_short ts) in H; [done|]. short.
  - apply (decodeICMP_short ts) in H; [done|]. short.
  - short. rewrite go_len_append. pose proof (fmt_byte_len b0).
    change (go_len "IP_") with 3. lia.
Qed.

Lemma decodeARP_short ts data off obs o p :
  decodeARP data off obs = Some (o, p) -> shortFields ts obs -> shortFields ts o.
Proof.
  unfold decodeARP, reject. cbv zeta. intros H Hs. decoded; short.
Qed.

Lemma HEX04_len z : go_len (HEX04 z) <= 4.
Proof.
  unfold HEX04. rewrite !go_len_append.
  pose proof (hexDigit_len true (z / 4096)). pose proof (hexDigit_len true (z / 256)).
  pose proof (hexDigit_len true (z / 16)). pose proof (hexDigit_len true z). lia.
Qed.

Lemma routeEtherType_short ts t data off obs o p :
  routeEtherType t data off obs = Some (o, p) -> shortFields ts obs -> shortFields ts o.
Proof.
  unfold routeEtherType. intros H Hs. decoded.
  - by eapply decodeARP_short.
  - by eapply decodeIPv4_short.
  - short. rewrite go_len_append. pose proof (HEX04_len t).
    change (go_len "ETH_0x") with 6. lia.
Qed.

Lemma normalize_short raw o p :
  NormalizeRawObservation raw = Some (o, p) -> shortFields (raw_Timestamp raw) o.
Proof.
  unfold NormalizeRawObservation, reject. cbv zeta. intros H.
  assert (shortFields (raw_Timestamp raw) (initialObservation raw)) as Hs by (cbv; split_and!; congruence).
  decoded; try (by short); (eapply routeEtherType_short in H; [done|]); short.
Qed.


Lemma configured_valid d s :
  validIdentifier d -> (s = ""%string \/ validIdentifier s) -> validIdentifier (configured d s).
Proof. intros Hd Hs. unfold configured. destruct (String.eqb_spec s ""); [done|]. by destruct Hs. Qed.

Lemma event_identity cfg :
  (forall c, cfg = Some c -> exists parseAuthority, Config.Config_Validate parseAuthority c = None) ->
  validIdentifier (eventTenant cfg) /\ validIdentifier (eventSite cfg).
Proof.
  intros Hcfg.
  assert (validIdentifier "default-tenant" /\ validIdentifier "default-site") as [Ht Hs]
    by (split; split_and!; [done|reflexivity|by vm_compute|done|reflexivity|by vm_compute]).
  destruct cfg as [c|]; [|done]. destruct (Hcfg c eq_refl) as [up Hv].
  apply Config.Validate_identifiers in Hv as [? ?].
  split; apply configured_valid; auto.
Qed.

Lemma short_rune s k : go_len s <= k -> RuneCountInString s <= k.
Proof. pose proof (runeCount_le_len s). lia. Qed.

Lemma knownHints_len h : h ∈ knownHints -> go_len h <= 128.
Proof.
  unfold knownHints. rewrite !elem_of_cons, elem_of_nil.
  intros [->|[->|[->|[->|[->|[]]]]]]; by vm_compute.
Qed.

Lemma endpointOf_len ip mac : go_len ip <= 128 -> go_len mac <= 128 -> go_len (endpointOf ip mac) <= 128.
Proof. intros. unfold endpointOf. by repeat case_match. Qed.

Lemma observationEvent_wf cfg id now obs ts :
  validIdentifier (eventTenant cfg) -> validIdentifier (eventSite cfg) ->
  ts <> zeroTime -> shortFields ts obs -> WellFormedEvent (observationEvent cfg id now obs).
Proof.
  intros Ht Hsi Hts (<- & H1 & H2 & H3 & H4 & H5 & H6). constructor; cbn; try done.
  - destruct (negb _); set_solver.
  - unfold limitedFields. cbn [AssetID SensorID Source Category Protocol Src Dst Action RuleID
      RuleVersion observationEvent].
    assert (go_len (endpointOf (SrcIP obs) (SrcMAC obs)) <= 128) by by apply endpointOf_len.
    assert (go_len (endpointOf (DstIP obs) (DstMAC obs)) <= 128) by by apply endpointOf_len.
    rewrite !Forall_cons. cbn [fst snd]. split_and!; try done; apply short_rune; try lia.
    by destruct ((ProtocolHint obs =s "unknown") && _).
Qed.

(** What [processRaw] computes from the capture time, whatever the frame. *)
Lemma rawEvent_some cfg id now raw :
  exists obs, rawEvent DefaultProtocolIdentifier cfg id now raw = Some (observationEvent cfg id now obs) /\
    shortFields (raw_Timestamp raw) obs.
Proof.
  unfold rawEvent, DefaultProtocolIdentifier.
  destruct (normalize_some raw) as [[o p] Hn]. rewrite Hn. cbn [mbind option_bind fst snd].
  destruct (identify_inv o p) as (o' & hint & conf & Hi & (m & fl & ->) & Hh & _). rewrite Hi.
  cbn [mbind option_bind]. eexists. split; [reflexivity|].
  apply normalize_short in Hn. pose proof (knownHints_len hint Hh).
  destruct (negb (conf =s ConfidenceUnknown)); short.
Qed.

(** *** The pipeline invariant *)

Definition pendingList (s : Pipeline) : list (RawObservation * CanonicalEvent) :=
  match p_pending s with Some r => [r] | None => [] end.

(** Every observation still in the system or delivered, oldest first. *)
Definition inFlight (s : Pipeline) : list RawObservation :=
  map fst (p_out s ++ pendingList s) ++ p_rawCh s ++ p_fixtures s.

(** Work left: an offer, a receive and a delivery per observation. *)
Definition workLeft (s : Pipeline) : nat :=
  3 * length (p_fixtures s) + 2 * length (p_rawCh s) + length (pendingList s).

Definition eventOf identifier cfg (p : RawObservation * CanonicalEvent) : Prop :=
  exists id now, rawEvent identifier cfg id now p.1 = Some p.2.

Record PInv identifier cfg (cap : nat) (fixtures : list RawObservation) (s : Pipeline) : Prop := {
  pinv_sub : inFlight s `sublist_of` fixtures;
  pinv_all : p_cancelled s = false ->
    inFlight s = fixtures /\ p_runner s = true /\ (p_adapter s = false -> p_fixtures s = []);
  pinv_events : Forall (eventOf identifier cfg) (p_out s ++ pendingList s);
  pinv_cap : (length (p_rawCh s) <= cap)%nat;
  pinv_drop : p_dropCount s = 0;
}.

Lemma pinv_initial identifier cfg cap fixtures :
  PInv identifier cfg cap fixtures (initialPipeline fixtures).
Proof. split; cbn; try done; try lia. Qed.

Lemma pinv_step identifier cfg cap fixtures s s' :
  PInv identifier cfg cap fixtures s -> pstep identifier cfg cap s s' ->
  PInv identifier cfg cap fixtures s'.
Proof.
  intros [Hsub Hall Hev Hcap Hdrop] Hstep.
  destruct Hstep; unfold inFlight, pendingList in *; cbn in *; split; cbn; try done;
    unfold inFlight, pendingList; cbn in *; try lia;
    rewrite ?map_app, ?app_nil_r in *; cbn in *; rewrite <- ?app_assoc in *; cbn in *; try done.
  - intros Hc. by destruct (Hall Hc) as (? & ? & ?).
  - rewrite length_app. cbn. lia.
  - intros ->. destruct (Hall eq_refl) as (? & ? & ?). split_and!; try done.
    intros _. by destruct H.
  - apply Forall_app. split; [done|]. repeat constructor. by exists id, now.
  - etrans; [|exact Hsub]. apply sublist_app; [done|]. by apply sublist_cons.
  - by apply Forall_app in Hev as [? _].
Qed.

Lemma pinv_reach identifier cfg cap fixtures s :
  rtc (pstep identifier cfg cap) (initialPipeline fixtures) s -> PInv identifier cfg cap fixtures s.
Proof.
  intros Hr. assert (PInv identifier cfg cap fixtures (initialPipeline fixtures)) as Hi by apply pinv_initial.
  revert Hi. induction Hr as [|s s1 s2 Hs Hr IH]; [done|]. intros Hi. apply IH. by eapply pinv_step.
Qed.

(** An uncancelled pipeline with work left moves. *)
Lemma pipeline_progress cfg cap fixtures s :
  (0 < cap)%nat -> PInv DefaultProtocolIdentifier cfg cap fixtures s -> p_cancelled s = false ->
  map fst (p_out s) = fixtures \/
  exists s', pstep DefaultProtocolIdentifier cfg cap s s' /\ p_cancelled s' = false /\
             (workLeft s' < workLeft s)%nat.
Proof.
  intros Hcap [_ Hall _ _ _] Hc. destruct (Hall Hc) as (Hin & Hrun & Had).
  destruct s as [fs a ch run pend out c d n]. cbn in *. subst c run.
  destruct pend as [rev|]; [right; eexists; split_and!; [apply step_deliver|done|cbn; lia]|].
  destruct ch as [|r ch].
  - destruct fs as [|f fs]; [left; rewrite <- Hin; unfold inFlight; cbn; by rewrite !app_nil_r|].
    destruct a; [|by specialize (Had eq_refl)].
    right. eexists. split_and!; [by apply step_offer|done|cbn; lia].
  - right. destruct (rawEvent_some cfg "" 0 r) as (obs & Hr & _).
    eexists. split_and!; [by eapply step_receive|done|cbn; lia].
Qed.

(** ** Properties *)

(** C33: The collector turns every captured frame into an event the schema
    accepts: for any bytes, with the default identifier and either no
    configuration or one that passed validation, [processRaw] does not panic
    and its event passes [Validate] (given a capture time and a parseable id);
    its severity is WARNING exactly when the frame carries quality flags. *)
Theorem passive_event_valid uuid_Parse cfg id now raw :
  (forall c, cfg = Some c -> exists parseAuthority, Config.Config_Validate parseAuthority c = None) ->
  raw_Timestamp raw <> zeroTime -> uuid_Parse id = None ->
  exists ev, rawEvent DefaultProtocolIdentifier cfg id now raw = Some ev /\
    Event_Validate uuid_Parse ev = None /\
    (Severity ev = "WARNING"%string <-> QualityFlags ev <> []).
Proof.
  intros [Ht Hs]%event_identity Hts Hid.
  destruct (rawEvent_some cfg id now raw) as (obs & -> & Hshort). eexists. split; [reflexivity|].
  split; [apply Validate_complete; [done|by eapply observationEvent_wf]|].
  cbn. by destruct (obs_QualityFlags obs).
Qed.

Lemma passive_event_valid_witness :
  exists ev, rawEvent DefaultProtocolIdentifier None "id-1" 1
      {| raw_Data := [x01; x02]; raw_Timestamp := 5; raw_Interface := "eth0"; raw_LinkType := "ethernet" |} = Some ev /\
    Event_Validate (fun _ => None) ev = None /\
    (Severity ev = "WARNING"%string <-> QualityFlags ev <> []).
Proof. apply (passive_event_valid (fun _ => None) None "id-1" 1); done. Defined.

(** C34: The replay pipeline delivers every observation once and in order.  In
    any reachable state the delivered events are those of a subsequence of the
    fixtures, the channel respects its capacity and the drop counter is zero;
    while the context is not cancelled the deliveries are a prefix of the
    fixtures, and until all are delivered some step makes progress, by a
    measure that every such step decreases. *)
Theorem pipeline_lossless cfg cap fixtures s :
  (0 < cap)%nat ->
  rtc (pstep DefaultProtocolIdentifier cfg cap) (initialPipeline fixtures) s ->
  map fst (p_out s) `sublist_of` fixtures /\
  Forall (eventOf DefaultProtocolIdentifier cfg) (p_out s) /\
  (length (p_rawCh s) <= cap)%nat /\ p_dropCount s = 0 /\
  (p_cancelled s = false ->
     map fst (p_out s) `prefix_of` fixtures /\
     (map fst (p_out s) = fixtures \/
      exists s', pstep DefaultProtocolIdentifier cfg cap s s' /\ p_cancelled s' = false /\
                 (workLeft s' < workLeft s)%nat)).
Proof.
  intros Hcap Hinv%pinv_reach. pose proof Hinv as [Hsub Hall Hev Hch Hd].
  unfold inFlight in *. rewrite map_app, <- app_assoc in *. split_and!.
  - etrans; [|exact Hsub]. by apply sublist_inserts_r.
  - by apply Forall_app in Hev as [? _].
  - done.
  - done.
  - intros Hc. split; [|by eapply pipeline_progress].
    destruct (Hall Hc) as [Hin _]. rewrite <- Hin. by apply prefix_app_r.
Qed.

Lemma pipeline_lossless_witness :
  let r := {| raw_Data := [x01]; raw_Timestamp := 5; raw_Interface := "eth0"; raw_LinkType := "ethernet" |} in
  exists s, rtc (pstep DefaultProtocolIdentifier None 1) (initialPipeline [r]) s /\ p_rawCh s = [r] /\
    map fst (p_out s) `sublist_of` [r].
Proof.
  intros r. eexists.
  match goal with |- ?A /\ _ => assert A as Hr end.
  { eapply rtc_l; [apply step_offer; cbn; lia|apply rtc_refl]. }
  split_and!; [exact Hr|reflexivity|].
  apply (pipeline_lossless None 1 [r] _ ltac:(lia) Hr).
Defined.
