(* ===== verification/Lifecycle.v ===== *)
(** The process lifecycle engine
    (agent/internal/collectors/process/{model,reconcile,lifecycle,collector}.go):
    process instances keyed by PID and start time, snapshots reconciled into
    START and EXIT events, discrete events, and the collector around it. *)
From S2P Require Import Prelude GoStrings GoTime Events.

Open Scope Z_scope.

Record Instance := {
  PID : Z;
  StartTime : Time;
  Name : option string;
  ParentPID : option Z;
  ExecutablePath : option string;
  CommandLine : option string;
  User : option string;
}.

Definition IdentityKey (i : Instance) : string := fmt_d (PID i) ^^ "-" ^^ fmt_d (UnixNano (StartTime i)).

Notation Snapshot := (list Instance).

Inductive LifecycleAction := PROCESS_START | PROCESS_EXIT.

Definition actionName (a : LifecycleAction) : string :=
  match a with PROCESS_START => "PROCESS_START" | PROCESS_EXIT => "PROCESS_EXIT" end.

(** [ready] is closed exactly when [initialized] is set, by the same branch. *)
Record LifecycleEngine := {
  state : gmap string Instance;
  initialized : bool;
}.

Definition NewLifecycleEngine : LifecycleEngine := {| state := ∅; initialized := false |}.

(** The comparison of both [sort.Slice] calls: [less i j] is the negation of
    [instLe j i]. *)
Definition instLe (i j : Instance) : Prop :=
  PID i < PID j \/ (PID i = PID j /\ StartTime i <= StartTime j).

#[export] Instance instLe_dec i j : Decision (instLe i j).
Proof. unfold instLe. apply _. Defined.

Definition sortInstances (l : list Instance) : list Instance := merge_sort instLe l.

(** The loop over the snapshot. *)
Record Scan := {
  sc_state : gmap string Instance;
  sc_observed : gset string;
  sc_unobservable : gset Z;
  sc_starts : list Instance;
}.

Definition observe (init : bool) (s : Scan) (inst : Instance) : Scan :=
  if IsZero (StartTime inst) then
    {| sc_state := sc_state s; sc_observed := sc_observed s;
       sc_unobservable := {[ PID inst ]} ∪ sc_unobservable s; sc_starts := sc_starts s |}
  else
    let key := IdentityKey inst in
    let observed := {[ key ]} ∪ sc_observed s in
    match sc_state s !! key with
    | Some _ =>
        {| sc_state := sc_state s; sc_observed := observed;
           sc_unobservable := sc_unobservable s; sc_starts := sc_starts s |}
    | None =>
        {| sc_state := <[key := inst]> (sc_state s); sc_observed := observed;
           sc_unobservable := sc_unobservable s;
           sc_starts := if init then sc_starts s ++ [inst] else sc_starts s |}
    end.

Definition scan (init : bool) (st : gmap string Instance) (snapshot : Snapshot) : Scan :=
  fold_left (observe init) snapshot
    {| sc_state := st; sc_observed := ∅; sc_unobservable := ∅; sc_starts := [] |}.

(** The condition of the exit loop. *)
Definition vanished (s : Scan) (kv : string * Instance) : Prop :=
  kv.1 ∉ sc_observed s /\ PID kv.2 ∉ sc_unobservable s.

#[export] Instance vanished_dec s kv : Decision (vanished s kv).
Proof. unfold vanished. apply _. Defined.

Notation Emission := (Instance * LifecycleAction)%type.

(** Go iterates over a map in an unspecified order: [range] enumerates the
    entries of the state in whatever order this run happens to use. *)
Definition enumerates (range : gmap string Instance -> list (string * Instance)) : Prop :=
  forall m, range m ≡ₚ map_to_list m.

Definition Reconcile (range : gmap string Instance -> list (string * Instance))
    (le : LifecycleEngine) (snapshot : Snapshot) : LifecycleEngine * list Emission :=
  let s := scan (initialized le) (state le) snapshot in
  if initialized le then
    let gone := filter (vanished s) (range (sc_state s)) in
    let exits := gone.*2 in
    let state' := foldr (fun kv m => delete kv.1 m) (sc_state s) gone in
    ({| state := state'; initialized := true |},
     map (fun i => (i, PROCESS_EXIT)) (sortInstances exits)
     ++ map (fun i => (i, PROCESS_START)) (sortInstances (sc_starts s)))
  else
    ({| state := sc_state s; initialized := true |}, map (fun i => (i, PROCESS_START)) (sortInstances (sc_starts s))).

Definition HandleEvent (le : LifecycleEngine) (inst : Instance) (isStart : bool)
    : LifecycleEngine * list Emission :=
  if IsZero (StartTime inst) then (le, [])
  else
    let key := IdentityKey inst in
    if isStart then
      match state le !! key with
      | Some _ => (le, [])
      | None =>
          ({| state := <[key := inst]> (state le); initialized := initialized le |},
           if initialized le then [(inst, PROCESS_START)] else [])
      end
    else
      match state le !! key with
      | Some knownInst =>
          ({| state := delete key (state le); initialized := initialized le |}, [(knownInst, PROCESS_EXIT)])
      | None => (le, [])
      end.

(** [WaitReady]: [Some r] when it returns [r], [None] while it blocks.  When the
    context is done and the engine ready, the select may take either case. *)
Definition WaitReady (ctxErr : option error) (takesCtx : bool) (le : LifecycleEngine) : option (option error) :=
  match ctxErr, initialized le with
  | Some e, true => Some (if takesCtx then Some e else None)
  | Some e, false => Some (Some e)
  | None, true => Some None
  | None, false => None
  end.

(** [emit]'s event.  [formatTime] is [t.Format(time.RFC3339Nano)], which depends
    on the time zone of the host; [id], [occurred] and [exitTime] are the
    results of [uuid.New] and of the two [time.Now().UTC()]. *)
Definition optMeta (key : string) (v : option MetaValue) (m : MetaMap) : MetaMap :=
  match v with Some v => <[key := v]> m | None => m end.

Definition emissionEvent (formatTime : Time -> string) (id : string) (occurred exitTime : Time)
    (em : Emission) : CanonicalEvent :=
  let '(inst, action) := em in
  let m : MetaMap := <[ "pid"%string := VInt (PID inst) ]>
                     (<[ "start_time"%string := VStr (formatTime (StartTime inst)) ]> ∅) in
  let m := optMeta "process_name" (VStr <$> Name inst) m in
  let m := optMeta "parent_pid" (VInt <$> ParentPID inst) m in
  let m := optMeta "executable_path" (VStr <$> ExecutablePath inst) m in
  let m := optMeta "command_line" (VStr <$> CommandLine inst) m in
  let m := optMeta "user" (VStr <$> User inst) m in
  let m := match action with
           | PROCESS_EXIT => <[ "exit_time"%string := VStr (formatTime exitTime) ]> m
           | PROCESS_START => m
           end in
  {| EventID := id; TenantID := ""; SiteID := ""; AssetID := ""; SensorID := "";
     OccurredAt := occurred; ReceivedAt := zeroTime; SeqNo := 0;
     Source := "agent"; Category := "process"; Severity := "INFO"; Confidence := None;
     Protocol := ""; Src := ""; Dst := ""; Action := actionName action; Metadata := Some m;
     RuleID := ""; RuleVersion := ""; AttckEnterprise := []; AttckICS := []; QualityFlags := [];
     SchemaVersion := CurrentSchemaVersion |}.

(** ** The collector *)

Record ProcessCollector := {
  pc_engine : option LifecycleEngine;
  pc_cancel : bool;               (* [c.cancel != nil] *)
  pc_started : bool;
  pc_stopped : bool;
}.

Definition NewCollector : ProcessCollector :=
  {| pc_engine := None; pc_cancel := false; pc_started := false; pc_stopped := false |}.

Definition ProcessCollector_Start (c : ProcessCollector) : ProcessCollector * option error :=
  if pc_stopped c then (c, Some (ErrNew "collector cannot be restarted"))
  else if pc_started c then (c, Some (ErrNew "collector already started"))
  else ({| pc_engine := Some NewLifecycleEngine; pc_cancel := true; pc_started := true;
           pc_stopped := pc_stopped c |}, None).

Definition ProcessCollector_Stop (c : ProcessCollector) : ProcessCollector :=
  {| pc_engine := pc_engine c; pc_cancel := false; pc_started := pc_started c; pc_stopped := true |}.

Definition withEngine (f : LifecycleEngine -> LifecycleEngine * list Emission) (c : ProcessCollector)
    : ProcessCollector * list Emission :=
  match pc_engine c with
  | None => (c, [])
  | Some le =>
      let '(le, ems) := f le in
      ({| pc_engine := Some le; pc_cancel := pc_cancel c; pc_started := pc_started c;
          pc_stopped := pc_stopped c |}, ems)
  end.

Definition ProcessCollector_Reconcile range (c : ProcessCollector) (snapshot : Snapshot) :=
  withEngine (fun le => Reconcile range le snapshot) c.
Definition ProcessCollector_HandleEvent (c : ProcessCollector) (inst : Instance) (isStart : bool) :=
  withEngine (fun le => HandleEvent le inst isStart) c.

Definition ProcessCollector_WaitReady (ctxErr : option error) (takesCtx : bool) (c : ProcessCollector)
    : option (option error) :=
  match pc_engine c with
  | Some le => WaitReady ctxErr takesCtx le
  | None => Some None
  end.

(** ** Specification *)

(** An engine's state maps the identity key of each tracked instance to it, and
    tracks only instances with a start time. *)
Definition wfState (st : gmap string Instance) : Prop :=
  forall k i, st !! k = Some i -> k = IdentityKey i /\ IsZero (StartTime i) = false.

(** The first observable instance of the snapshot with key [k]. *)
Definition isObs (k : string) (i : Instance) : Prop := IsZero (StartTime i) = false /\ IdentityKey i = k.
#[export] Instance isObs_dec k i : Decision (isObs k i).
Proof. unfold isObs. apply _. Defined.
Definition firstObs (k : string) (snap : Snapshot) : option Instance := head (filter (isObs k) snap).

Definition unobservable (snap : Snapshot) (p : Z) : Prop :=
  Exists (fun i => IsZero (StartTime i) = true /\ PID i = p) snap.
#[export] Instance unobservable_dec snap p : Decision (unobservable snap p).
Proof. unfold unobservable. apply _. Defined.

(** What the engine should know about key [k] after a snapshot: an observed
    instance stays or appears, an unobserved one is forgotten unless its PID
    was seen without a start time. *)
Definition reconciled (st : gmap string Instance) (snap : Snapshot) (k : string) : option Instance :=
  match firstObs k snap, st !! k with
  | Some _, Some i => Some i
  | Some i, None => Some i
  | None, Some i => if decide (unobservable snap (PID i)) then Some i else None
  | None, None => None
  end.

(** Replaying emissions on a set of live keys: a START must be new, an EXIT
    must be live. *)
Fixpoint replay (live : gset string) (ems : list Emission) : option (gset string) :=
  match ems with
  | [] => Some live
  | (i, PROCESS_START) :: ems =>
      if decide (IdentityKey i ∈ live) then None else replay ({[IdentityKey i]} ∪ live) ems
  | (i, PROCESS_EXIT) :: ems =>
      if decide (IdentityKey i ∈ live) then replay (live ∖ {[IdentityKey i]}) ems else None
  end.

(** Operations in the order the engine's mutex serialises them. *)
Inductive LifecycleOp :=
  | OpReconcile (snap : Snapshot)
  | OpEvent (inst : Instance) (isStart : bool).

Definition applyOp range (le : LifecycleEngine) (op : LifecycleOp) : LifecycleEngine * list Emission :=
  match op with
  | OpReconcile snap => Reconcile range le snap
  | OpEvent inst isStart => HandleEvent le inst isStart
  end.

Fixpoint runOps range (le : LifecycleEngine) (ops : list LifecycleOp) : LifecycleEngine * list Emission :=
  match ops with
  | [] => (le, [])
  | op :: ops =>
      let '(le, ems) := applyOp range le op in
      let '(le, ems') := runOps range le ops in
      (le, ems ++ ems')
  end.

(** ** Lemmas *)

#[export] Instance instLe_trans : Transitive instLe.
Proof. intros i j k. unfold instLe. lia. Qed.
#[export] Instance instLe_total : Total instLe.
Proof. intros i j. unfold instLe. lia. Qed.

Lemma firstObs_snoc k snap i :
  firstObs k (snap ++ [i]) =
  match firstObs k snap with Some j => Some j | None => if decide (isObs k i) then Some i else None end.
Proof.
  unfold firstObs. rewrite filter_app. destruct (filter (isObs k) snap) as [|j l]; [|done].
  cbn [app head]. rewrite filter_cons, filter_nil. by case_decide.
Qed.

Lemma firstObs_some k snap i : firstObs k snap = Some i -> i ∈ snap /\ isObs k i.
Proof.
  unfold firstObs. destruct (filter (isObs k) snap) as [|j l] eqn:E; [done|]. intros [= ->].
  assert (i ∈ filter (isObs k) snap) as Hi by (rewrite E; left).
  apply list_elem_of_filter in Hi as [? ?]. done.
Qed.

Record scanned (init : bool) (st : gmap string Instance) (snap : Snapshot) (s : Scan) : Prop := {
  scan_state : forall k, sc_state s !! k =
    match st !! k with Some i => Some i | None => firstObs k snap end;
  scan_observed : forall k, k ∈ sc_observed s <-> is_Some (firstObs k snap);
  scan_unobs : forall p, p ∈ sc_unobservable s <-> unobservable snap p;
  scan_starts : forall i, i ∈ sc_starts s <->
    init = true /\ st !! IdentityKey i = None /\ firstObs (IdentityKey i) snap = Some i;
  scan_nodup : NoDup (IdentityKey <$> sc_starts s);
}.

(** Appending one instance changes the first observation of its own key only. *)
Lemma firstObs_other k snap i : k <> IdentityKey i -> firstObs k (snap ++ [i]) = firstObs k snap.
Proof.
  intros Hk. rewrite firstObs_snoc. destruct (firstObs k snap); [done|].
  rewrite decide_False; [done|]. unfold isObs. naive_solver.
Qed.

Lemma firstObs_own snap i :
  IsZero (StartTime i) = false ->
  firstObs (IdentityKey i) (snap ++ [i]) = Some (default i (firstObs (IdentityKey i) snap)).
Proof.
  intros Hz. rewrite firstObs_snoc. destruct (firstObs (IdentityKey i) snap); [done|]. by rewrite decide_True.
Qed.

Lemma firstObs_zero k snap i :
  IsZero (StartTime i) = true -> firstObs k (snap ++ [i]) = firstObs k snap.
Proof.
  intros Hz. rewrite firstObs_snoc. destruct (firstObs k snap); [done|].
  rewrite decide_False; [done|]. unfold isObs. rewrite Hz. by intros [? _].
Qed.

Lemma unobservable_snoc snap i p :
  unobservable (snap ++ [i]) p <-> unobservable snap p \/ (IsZero (StartTime i) = true /\ PID i = p).
Proof. unfold unobservable. rewrite Exists_app, Exists_cons, Exists_nil. tauto. Qed.

Lemma scanned_nil init st :
  scanned init st [] {| sc_state := st; sc_observed := ∅; sc_unobservable := ∅; sc_starts := [] |}.
Proof.
  split; cbn.
  - intros k. by destruct (st !! k).
  - intros k. unfold firstObs. cbn. split; [set_solver|by intros []].
  - intros p. unfold unobservable. rewrite Exists_nil. set_solver.
  - intros i. unfold firstObs. cbn. set_solver.
  - constructor.
Qed.

Lemma scanned_step init st snap s i :
  scanned init st snap s -> scanned init st (snap ++ [i]) (observe init s i).
Proof.
  intros [Hst Hob Hun Hsta Hnd]. unfold observe.
  destruct (IsZero (StartTime i)) eqn:Hz.
  { split; cbn [sc_state sc_observed sc_unobservable sc_starts]; try done; intros;
      rewrite ?firstObs_zero, ?unobservable_snoc, <- ?Hun by done; auto. set_solver. }
  assert (forall p, unobservable (snap ++ [i]) p <-> unobservable snap p) as Hun'.
  { intros p. rewrite unobservable_snoc, Hz. split; [intros [?|[? _]]; done|by left]. }
  assert (forall k, k ∈ {[IdentityKey i]} ∪ sc_observed s <-> is_Some (firstObs k (snap ++ [i]))) as Hobs.
  { intros k. rewrite elem_of_union, elem_of_singleton, Hob. destruct (decide (k = IdentityKey i)) as [->|Hk].
    - rewrite firstObs_own by done. split; [by eexists|by left].
    - rewrite firstObs_other by done. tauto. }
  pose proof (Hst (IdentityKey i)) as Hkey.
  destruct (sc_state s !! IdentityKey i) as [j|].
  - assert (forall k, st !! k = None -> firstObs k (snap ++ [i]) = firstObs k snap) as Hsame.
    { intros k Hk. destruct (decide (k = IdentityKey i)) as [->|Hne]; [|by apply firstObs_other].
      rewrite Hk in Hkey. rewrite firstObs_own, <- Hkey by done. done. }
    split; cbn [sc_state sc_observed sc_unobservable sc_starts]; try done.
    + intros k. rewrite Hst. destruct (st !! k) eqn:Hk; [done|]. by rewrite Hsame.
    + intros p. by rewrite Hun'.
    + intros x. rewrite Hsta. split; intros (? & Hk & ?); [rewrite Hsame|rewrite Hsame in *]; done.
  - destruct (st !! IdentityKey i) as [|] eqn:Hnew; [done|].
    assert (firstObs (IdentityKey i) (snap ++ [i]) = Some i) as Hown.
    { rewrite firstObs_own by done. by rewrite <- Hkey. }
    split; cbn [sc_state sc_observed sc_unobservable sc_starts]; try done.
    + intros k. destruct (decide (k = IdentityKey i)) as [->|Hne].
      * by rewrite lookup_insert_eq, Hnew, Hown.
      * by rewrite lookup_insert_ne, firstObs_other.
    + intros p. by rewrite Hun'.
    + intros x. destruct (decide (IdentityKey x = IdentityKey i)) as [Heq|Hne].
      * assert (x ∉ sc_starts s) as Hx.
        { rewrite Hsta, Heq. intros (_ & _ & ?). congruence. }
        rewrite Heq, Hown. destruct init; [|set_solver].
        rewrite elem_of_app, list_elem_of_singleton. split; [|intros (_ & _ & [= ->]); by right].
        by intros [?| ->].
      * rewrite firstObs_other, <- Hsta by done. destruct init; [|done].
        rewrite elem_of_app, list_elem_of_singleton. split; [|by left]. by intros [?| ->].
    + destruct init; [|done]. rewrite fmap_app. apply NoDup_app. split_and!; [done| |apply NoDup_singleton].
      intros k Hk. cbn. rewrite list_elem_of_singleton. intros ->.
      apply list_elem_of_fmap in Hk as (x & Hx & Hin). apply Hsta in Hin as (_ & _ & Hf).
      rewrite <- Hx in Hf. congruence.
Qed.

Lemma scan_spec init st snap : scanned init st snap (scan init st snap).
Proof.
  unfold scan. induction snap as [|i snap IH] using rev_ind; [apply scanned_nil|].
  rewrite fold_left_app. by apply scanned_step.
Qed.

Lemma foldr_delete_lookup (gone : list (string * Instance)) (m : gmap string Instance) k :
  (foldr (fun kv m => delete kv.1 m) m gone : gmap string Instance) !! k = if decide (k ∈ gone.*1) then None else m !! k.
Proof.
  induction gone as [|[k' i] gone IH]; cbn [foldr fmap list_fmap fst].
  - rewrite decide_False; [done|set_solver].
  - destruct (decide (k = k')) as [->|Hne].
    + rewrite lookup_delete_eq, decide_True; [done|set_solver].
    + rewrite lookup_delete_ne, IH by done.
      destruct (decide (k ∈ gone.*1)); [rewrite decide_True by set_solver|rewrite decide_False by set_solver]; done.
Qed.

Lemma sortInstances_perm l : sortInstances l ≡ₚ l.
Proof. apply merge_sort_Permutation. Qed.

Lemma sortInstances_sorted l : StronglySorted instLe (sortInstances l).
Proof. unfold sortInstances. apply (StronglySorted_merge_sort instLe). Qed.

(** On instances with distinct keys the comparison is antisymmetric, so their
    sorted list is unique. *)
Lemma instLe_antisym_in l x y :
  NoDup (IdentityKey <$> l) -> x ∈ l -> y ∈ l -> instLe x y -> instLe y x -> x = y.
Proof.
  intros Hnd Hx Hy H1 H2.
  apply list_elem_of_lookup in Hx as [a Ha]. apply list_elem_of_lookup in Hy as [b Hb].
  assert (IdentityKey x = IdentityKey y) as Hk.
  { unfold IdentityKey. unfold instLe in *. by replace (PID y) with (PID x) by lia;
      replace (StartTime y) with (StartTime x) by lia. }
  assert (a = b) as ->; [|congruence].
  eapply NoDup_lookup; [done| |]; rewrite list_lookup_fmap; [rewrite Ha|rewrite Hb]; cbn; by rewrite ?Hk.
Qed.

Lemma sorted_unique l1 l2 :
  NoDup (IdentityKey <$> l1) -> l1 ≡ₚ l2 -> StronglySorted instLe l1 -> StronglySorted instLe l2 -> l1 = l2.
Proof.
  intros Hnd Hp H1 H2. apply (StronglySorted_unique_strong instLe); try done.
  intros x y Hx Hy. rewrite <- Hp in Hy. by apply instLe_antisym_in with (l := l1).
Qed.

Lemma scan_wf init st snap : wfState st -> wfState (sc_state (scan init st snap)).
Proof.
  intros Hwf k i. destruct (scan_spec init st snap) as [Hst _ _ _ _]. rewrite Hst.
  destruct (st !! k) eqn:Hk; [intros [= <-]; by apply Hwf|].
  intros [_ [? ?]]%firstObs_some. done.
Qed.

(** The entries the exit loop removes. *)
Lemma gone_spec range st snap k i :
  enumerates range -> wfState st ->
  let s := scan true st snap in
  (k, i) ∈ filter (vanished s) (range (sc_state s)) <->
  st !! k = Some i /\ reconciled st snap k = None.
Proof.
  intros Hr Hwf s. unfold enumerates in Hr. rewrite list_elem_of_filter, Hr, elem_of_map_to_list.
  destruct (scan_spec true st snap) as [Hst Hob Hun _ _]. fold s in Hst, Hob, Hun.
  rewrite Hst. unfold vanished. cbn [fst snd]. rewrite Hob, Hun. unfold reconciled.
  destruct (st !! k) as [j|] eqn:Hk, (firstObs k snap) as [f|] eqn:Hf.
  - split; [intros [[[] _] _]; by eexists|intros [_ ?]; done].
  - case_decide as Hu.
    + split; [intros [[_ ?] [= <-]]; done|intros [_ ?]; done].
    + split; [intros [_ [= <-]]; done|]. intros [[= <-] _]. split_and!; done.
  - split; [intros [[[] _] _]; by eexists|intros [? _]; done].
  - split; [by intros [_ ?]|by intros [? _]].
Qed.

Lemma gone_nodup range st snap :
  enumerates range -> wfState st ->
  let s := scan true st snap in
  NoDup (IdentityKey <$> (filter (vanished s) (range (sc_state s))).*2).
Proof.
  intros Hr Hwf s.
  assert (NoDup (filter (vanished s) (range (sc_state s))).*1) as Hnd.
  { apply NoDup_fmap_fst.
    - intros k i j [? _]%(gone_spec _ _ _ _ _ Hr Hwf) [? _]%(gone_spec _ _ _ _ _ Hr Hwf). congruence.
    - apply NoDup_filter. unfold enumerates in Hr. rewrite Hr. apply NoDup_map_to_list. }
  rewrite <- list_fmap_compose. erewrite list_fmap_ext; [exact Hnd|].
  intros n [k i] Hl%list_elem_of_lookup_2. cbn. apply (gone_spec _ _ _ _ _ Hr Hwf) in Hl as [Hk _]. by apply Hwf in Hk as [-> _].
Qed.

(** The result of [Reconcile] once the baseline is established. *)
Record ReconcileResult st snap (le' : LifecycleEngine) (exits starts : list Instance) : Prop := {
  rr_init : initialized le' = true;
  rr_state : forall k, state le' !! k = reconciled st snap k;
  rr_sorted_exits : StronglySorted instLe exits;
  rr_sorted_starts : StronglySorted instLe starts;
  rr_nodup_exits : NoDup (IdentityKey <$> exits);
  rr_nodup_starts : NoDup (IdentityKey <$> starts);
  rr_exits : forall i, i ∈ exits <-> st !! IdentityKey i = Some i /\ reconciled st snap (IdentityKey i) = None;
  rr_starts : forall i, i ∈ starts <-> st !! IdentityKey i = None /\ reconciled st snap (IdentityKey i) = Some i;
}.

Lemma reconcile_result range st snap le' ems :
  enumerates range -> wfState st ->
  Reconcile range {| state := st; initialized := true |} snap = (le', ems) ->
  exists exits starts,
    ems = map (fun i => (i, PROCESS_EXIT)) exits ++ map (fun i => (i, PROCESS_START)) starts /\
    ReconcileResult st snap le' exits starts.
Proof.
  intros Hr Hwf. unfold Reconcile. cbn [initialized state]. cbv zeta.
  destruct (scan_spec true st snap) as [Hst Hob Hun Hsta Hnd].
  pose proof (gone_spec range st snap) as Hgone. pose proof (gone_nodup range st snap Hr Hwf) as Hgnd.
  cbv zeta in Hgone, Hgnd. set (s := scan true st snap) in *.
  set (gone := filter (vanished s) (range (sc_state s))) in *.
  intros [= <- <-]. eexists _, _. split; [reflexivity|].
  assert (forall k, k ∈ gone.*1 <-> exists i, st !! k = Some i /\ reconciled st snap k = None) as Hfst.
  { intros k. rewrite list_elem_of_fmap. split.
    - intros ([k' i] & -> & Hin). exists i. by apply Hgone.
    - intros [i Hi]. exists (k, i). split; [done|]. by apply Hgone. }
  split; cbn [initialized state]; try done.
  - intros k. rewrite foldr_delete_lookup, Hst. case_decide as Hk.
    + apply Hfst in Hk as (i & _ & ->). done.
    + unfold reconciled in *. rewrite Hfst in Hk. destruct (st !! k) as [i|], (firstObs k snap); try done.
      case_decide; [done|]. destruct Hk. by exists i.
  - apply sortInstances_sorted.
  - apply sortInstances_sorted.
  - by rewrite sortInstances_perm.
  - by rewrite sortInstances_perm.
  - intros i. rewrite sortInstances_perm, list_elem_of_fmap. split.
    + intros ([k j] & -> & Hin). apply (Hgone _ _ Hr Hwf) in Hin as [Hk ?]. cbn.
      pose proof (Hwf _ _ Hk) as [<- _]. done.
    + intros Hi. exists (IdentityKey i, i). split; [done|]. by apply (Hgone _ _ Hr Hwf).
  - intros i. rewrite sortInstances_perm, Hsta.
    unfold reconciled. split.
    + intros (_ & -> & ->). done.
    + intros [Hn Hf]. rewrite Hn in Hf. by destruct (firstObs (IdentityKey i) snap).
Qed.

Lemma rr_wf st snap le' exits starts :
  wfState st -> ReconcileResult st snap le' exits starts -> wfState (state le').
Proof.
  intros Hwf [_ Hst _ _ _ _ _ _] k i. rewrite Hst. unfold reconciled.
  destruct (firstObs k snap) as [f|] eqn:Hf, (st !! k) as [j|] eqn:Hk; try done.
  - intros [= <-]. by apply Hwf.
  - intros [= <-]. apply firstObs_some in Hf as [_ [? ?]]. done.
  - case_decide; [|done]. intros [= <-]. by apply Hwf.
Qed.

Lemma handle_wf le inst b : wfState (state le) -> wfState (state (HandleEvent le inst b).1).
Proof.
  intros Hwf. unfold HandleEvent. destruct (IsZero (StartTime inst)) eqn:Hz; [done|].
  destruct b, (state le !! IdentityKey inst) as [known|]; cbn; try done; intros k i.
  - destruct (decide (k = IdentityKey inst)) as [->|Hne].
    + rewrite lookup_insert_eq. by intros [= <-].
    + rewrite lookup_insert_ne by done. apply Hwf.
  - rewrite lookup_delete_Some. intros [_ ?]. by apply Hwf.
Qed.

(** *** Replay *)
Lemma replay_app live e1 e2 :
  replay live (e1 ++ e2) = replay live e1 ≫= fun l => replay l e2.
Proof.
  revert live. induction e1 as [|[i []] e1 IH]; intros live; cbn [app replay]; [done| |];
    case_decide; cbn; auto.
Qed.

Lemma replay_exits live l :
  NoDup (IdentityKey <$> l) -> (forall i, i ∈ l -> IdentityKey i ∈ live) ->
  replay live (map (fun i => (i, PROCESS_EXIT)) l) = Some (live ∖ list_to_set (IdentityKey <$> l)).
Proof.
  revert live. induction l as [|i l IH]; intros live Hnd Hin; cbn [map replay fmap list_fmap].
  - f_equal. set_solver.
  - apply NoDup_cons in Hnd as [Hi Hnd]. rewrite decide_True by (apply Hin; left).
    rewrite IH; [f_equal; set_solver|done|].
    intros j Hj. apply elem_of_difference. split; [apply Hin; by right|].
    rewrite elem_of_singleton. intros Heq. apply Hi. rewrite <- Heq. by apply list_elem_of_fmap_2.
Qed.

Lemma replay_starts live l :
  NoDup (IdentityKey <$> l) -> (forall i, i ∈ l -> IdentityKey i ∉ live) ->
  replay live (map (fun i => (i, PROCESS_START)) l) = Some (list_to_set (IdentityKey <$> l) ∪ live).
Proof.
  revert live. induction l as [|i l IH]; intros live Hnd Hin; cbn [map replay fmap list_fmap].
  - f_equal. set_solver.
  - apply NoDup_cons in Hnd as [Hi Hnd]. rewrite decide_False by (apply Hin; left).
    rewrite IH; [f_equal; set_solver|done|].
    intros j Hj. rewrite elem_of_union, elem_of_singleton. intros [Heq|?].
    + apply Hi. rewrite <- Heq. by apply list_elem_of_fmap_2.
    + by apply (Hin j); [right|].
Qed.

Lemma reconcile_replay range st snap le' ems :
  enumerates range -> wfState st ->
  Reconcile range {| state := st; initialized := true |} snap = (le', ems) ->
  initialized le' = true /\ wfState (state le') /\ replay (dom st) ems = Some (dom (state le')).
Proof.
  intros Hr Hwf HR. destruct (reconcile_result _ _ _ _ _ Hr Hwf HR) as (exits & starts & -> & H).
  pose proof (rr_wf _ _ _ _ _ Hwf H) as Hwf'. destruct H as [Hi Hst _ _ Hnx Hns Hx Hs].
  split_and!; [done|done|]. rewrite replay_app, replay_exits; [cbn|done|].
  2:{ intros i [Hk _]%Hx. by eapply elem_of_dom_2. }
  rewrite replay_starts; [f_equal|done|].
  2:{ intros i [Hk _]%Hs [Hd _]%elem_of_difference. by apply elem_of_dom in Hd as [? ?]; congruence. }
  apply set_eq. intros k. rewrite elem_of_union, elem_of_difference, !elem_of_list_to_set, !elem_of_dom, Hst.
  rewrite !list_elem_of_fmap. split.
  - intros [(i & -> & [_ ->]%Hs)|[[i Hk] Hne]]; [by eexists|].
    destruct (reconciled st snap k) eqn:E; [by eexists|]. destruct Hne. pose proof (Hwf _ _ Hk) as [-> _].
    exists i. split; [done|]. by apply Hx.
  - intros [i Hk]. destruct (st !! k) as [j|] eqn:Hj.
    + right. split; [by eexists|]. intros (x & -> & [_ Hn]%Hx). congruence.
    + left. exists i. rewrite <- Hst in Hk. pose proof (Hwf' _ _ Hk) as [-> _].
      split; [done|]. apply Hs. by rewrite Hst in Hk.
Qed.

Lemma handle_replay le inst b :
  initialized le = true -> wfState (state le) ->
  let '(le', ems) := HandleEvent le inst b in
  initialized le' = true /\ replay (dom (state le)) ems = Some (dom (state le')).
Proof.
  intros Hi Hwf. unfold HandleEvent. destruct (IsZero (StartTime inst)); [done|].
  destruct b, (state le !! IdentityKey inst) as [j|] eqn:Hk; cbn; try done; rewrite ?Hi; cbn; split; try done.
  - rewrite decide_False by by apply not_elem_of_dom. f_equal. set_solver.
  - pose proof (Hwf _ _ Hk) as [Hj _]. rewrite <- Hj.
    rewrite decide_True by (by eapply elem_of_dom_2). f_equal. set_solver.
Qed.

Lemma run_replay range ops le le' ems :
  enumerates range -> initialized le = true -> wfState (state le) ->
  runOps range le ops = (le', ems) -> replay (dom (state le)) ems = Some (dom (state le')).
Proof.
  intros Hr. revert le ems. induction ops as [|op ops IH]; intros le ems Hi Hwf; cbn [runOps].
  { by intros [= <- <-]. }
  destruct (applyOp range le op) as [le1 ems1] eqn:Hop.
  destruct (runOps range le1 ops) as [le2 ems2] eqn:Hrun. intros [= <- <-].
  assert (initialized le1 = true /\ wfState (state le1) /\ replay (dom (state le)) ems1 = Some (dom (state le1)))
    as (Hi1 & Hwf1 & Hrep).
  { destruct op as [snap|inst b]; cbn [applyOp] in Hop.
    - destruct le as [st b]. cbn in Hi. subst b. by eapply reconcile_replay.
    - pose proof (handle_replay le inst b Hi Hwf) as H. pose proof (handle_wf le inst b Hwf) as H'.
      rewrite Hop in H, H'. cbn in H'. by destruct H. }
  rewrite replay_app, Hrep. cbn. by apply IH.
Qed.

(** *** Identity keys *)

Definition noDash : string -> bool := noChar (Ascii.ascii_of_nat 45).

Lemma pretty_N_go_noDash x s : noDash s = true -> noDash (pretty.pretty_N_go x s) = true.
Proof.
  revert s. induction (N.lt_wf_0 x) as [x _ IH]; intros s Hs.
  assert (x = 0 \/ 0 < x)%N as [->|?] by lia; [by rewrite pretty.pretty_N_go_0|].
  rewrite pretty.pretty_N_go_step by done. apply IH; [by apply N.div_lt|].
  unfold noDash, noChar in *. cbn [allChars]. rewrite Hs. unfold pretty.pretty_N_char. by repeat case_match.
Qed.

Lemma fmt_d_noDash z : 0 <= z -> noDash (fmt_d z) = true.
Proof.
  intros Hz. unfold fmt_d, pretty, pretty.pretty_Z. destruct z as [|p|p]; [done| |lia].
  unfold pretty, pretty.pretty_positive, pretty, pretty.pretty_N. rewrite decide_False by done.
  by apply pretty_N_go_noDash.
Qed.

Definition realInstance (i : Instance) : Prop := 0 <= PID i /\ in_i64 (StartTime i - unixEpoch).

(** The key identifies the PID and the start time. *)
Lemma key_inj i j :
  realInstance i -> realInstance j ->
  IdentityKey i = IdentityKey j <-> PID i = PID j /\ StartTime i = StartTime j.
Proof.
  intros [Hi Hti] [Hj Htj]. unfold IdentityKey. split; [|by intros [-> ->]].
  intros [Hp Ht]%char_split; try by apply fmt_d_noDash.
  apply (inj pretty) in Hp, Ht. split; [done|]. by apply UnixNano_inj.
Qed.

Lemma reconcile_order range1 range2 le snap :
  enumerates range1 -> enumerates range2 -> wfState (state le) ->
  Reconcile range1 le snap = Reconcile range2 le snap.
Proof.
  destruct le as [st []]; [|done]. intros Hr1 Hr2 Hwf. cbn in Hwf.
  destruct (Reconcile range1 _ snap) as [le1 ems1] eqn:E1, (Reconcile range2 _ snap) as [le2 ems2] eqn:E2.
  destruct (reconcile_result _ _ _ _ _ Hr1 Hwf E1) as (x1 & s1 & -> & [Hi1 Hs1 Hsx1 Hss1 Hnx1 Hns1 Hx1 Hst1]).
  destruct (reconcile_result _ _ _ _ _ Hr2 Hwf E2) as (x2 & s2 & -> & [Hi2 Hs2 Hsx2 Hss2 Hnx2 Hns2 Hx2 Hst2]).
  assert (le1 = le2) as ->.
  { destruct le1, le2. cbn in *. subst. f_equal. apply map_eq. intros k. by rewrite Hs1, Hs2. }
  assert (forall l1 l2 : list Instance, NoDup (IdentityKey <$> l1) -> NoDup (IdentityKey <$> l2) ->
            StronglySorted instLe l1 -> StronglySorted instLe l2 ->
            (forall i, i ∈ l1 <-> i ∈ l2) -> l1 = l2) as Huniq.
  { intros l1 l2 Hn1 Hn2 Ho1 Ho2 Hiff.
    apply sorted_unique; try done. apply NoDup_Permutation; [by eapply NoDup_fmap_1|by eapply NoDup_fmap_1|done]. }
  f_equal. f_equal; f_equal; apply Huniq; try done; intros i; rewrite ?Hx1, ?Hx2, ?Hst1, ?Hst2; done.
Qed.

(** ** Properties *)

(** [WaitReady] returns nil exactly once a snapshot has been reconciled, which no
    single event does; until then it waits for the context. *)
Definition isReconcile (op : LifecycleOp) : bool := match op with OpReconcile _ => true | OpEvent _ _ => false end.

Lemma run_initialized range le ops :
  initialized (runOps range le ops).1 = initialized le || existsb isReconcile ops.
Proof.
  revert le. induction ops as [|op ops IH]; intros le; cbn [runOps existsb]; [by rewrite orb_false_r|].
  destruct (applyOp range le op) as [le1 ems] eqn:Hop. specialize (IH le1).
  destruct (runOps range le1 ops) as [le2 ems2]. cbn [fst] in IH |- *. rewrite IH.
  assert (initialized le1 = initialized le || isReconcile op) as ->; [|by rewrite orb_assoc].
  destruct op as [snap|inst start]; cbn [applyOp isReconcile] in *.
  - unfold Reconcile in Hop. destruct (initialized le); by simplify_eq/=.
  - unfold HandleEvent in Hop. rewrite orb_false_r. repeat case_match; by simplify_eq/=.
Qed.

Lemma wait_ready range ops ctxErr takesCtx :
  let le := (runOps range NewLifecycleEngine ops).1 in
  (WaitReady ctxErr takesCtx le = Some None -> existsb isReconcile ops = true) /\
  (existsb isReconcile ops = true -> WaitReady None takesCtx le = Some None) /\
  (WaitReady ctxErr takesCtx le = None <-> ctxErr = None /\ existsb isReconcile ops = false).
Proof.
  intros le. pose proof (run_initialized range NewLifecycleEngine ops) as Hi. fold le in Hi. cbn [initialized NewLifecycleEngine orb] in Hi.
  unfold WaitReady. rewrite Hi. destruct ctxErr, (existsb isReconcile ops); naive_solver.
Qed.

(** A collector that was not started is ready at once. *)
Lemma wait_before_start ctxErr takesCtx : ProcessCollector_WaitReady ctxErr takesCtx NewCollector = Some None.
Proof. done. Qed.

(** [Reconcile] computes the difference of two snapshots.  Once the baseline
    is established, it emits an EXIT for exactly the tracked instances that
    are forgotten and a START for exactly the instances that become tracked,
    each once, all exits before all starts, both ordered by PID and start
    time; the new state is [reconciled], so an instance whose PID was seen
    without a start time is neither exited nor forgotten; and the result does
    not depend on Go's map iteration order. *)
Theorem reconcile_spec range range' st snap :
  enumerates range -> enumerates range' -> wfState st ->
  let le := {| state := st; initialized := true |} in
  exists le' exits starts,
    Reconcile range le snap =
      (le', map (fun i => (i, PROCESS_EXIT)) exits ++ map (fun i => (i, PROCESS_START)) starts) /\
    ReconcileResult st snap le' exits starts /\ wfState (state le') /\
    Reconcile range' le snap = Reconcile range le snap.
Proof.
  intros Hr Hr' Hwf le. destruct (Reconcile range le snap) as [le' ems] eqn:E.
  destruct (reconcile_result _ _ _ _ _ Hr Hwf E) as (exits & starts & -> & H).
  exists le', exits, starts. split_and!; try done; [by eapply rr_wf|].
  rewrite <- E. by apply reconcile_order.
Qed.

Definition proc (pid t : Z) : Instance := {|
  PID := pid; StartTime := t; Name := None; ParentPID := None; ExecutablePath := None;
  CommandLine := None; User := None |}.

Definition track (l : list Instance) : gmap string Instance := list_to_map (map (fun i => (IdentityKey i, i)) l).

Lemma reconcile_spec_witness :
  let le := {| state := track [proc 7 unixEpoch]; initialized := true |} in
  exists le' exits starts,
    Reconcile map_to_list le [proc 8 unixEpoch] =
      (le', map (fun i => (i, PROCESS_EXIT)) exits ++ map (fun i => (i, PROCESS_START)) starts) /\
    ReconcileResult (track [proc 7 unixEpoch]) [proc 8 unixEpoch] le' exits starts /\ wfState (state le') /\
    Reconcile map_to_list le [proc 8 unixEpoch] = Reconcile map_to_list le [proc 8 unixEpoch].
Proof.
  apply (reconcile_spec map_to_list map_to_list).
  - by intros m.
  - by intros m.
  - intros k i. unfold track. cbn. rewrite lookup_insert_Some, lookup_empty.
    intros [[<- <-]|[_ ?]]; [split; reflexivity|done].
Defined.

(** C35: The emitted events are a faithful log.  After the baseline, which is
    silent and tracks exactly the observable instances of the first snapshot,
    any sequence of snapshots and discrete events emits a log in which every
    START is of an instance not alive and every EXIT of one that is, and
    replaying it on the baseline gives exactly the engine's current state.
    Duplicate observations therefore emit nothing. *)
Theorem lifecycle_replay range base ops le0 ems0 le' ems :
  enumerates range ->
  Reconcile range NewLifecycleEngine base = (le0, ems0) ->
  runOps range le0 ops = (le', ems) ->
  ems0 = [] /\ (forall k, k ∈ dom (state le0) <-> is_Some (firstObs k base)) /\
  replay (dom (state le0)) ems = Some (dom (state le')).
Proof.
  intros Hr [= <- <-] Hrun. destruct (scan_spec false ∅ base) as [Hst _ _ Hsta _]. cbn in *.
  split_and!.
  - destruct (sc_starts (scan false ∅ base)) as [|i l] eqn:E; [done|].
    assert (i ∈ i :: l) as Hi by left. apply Hsta in Hi as [? _]. done.
  - intros k. by rewrite elem_of_dom, Hst, lookup_empty.
  - refine (run_replay _ _ _ _ _ Hr _ _ Hrun); [done|]. by apply scan_wf.
Qed.

Lemma lifecycle_replay_witness :
  replay (dom (state (Reconcile map_to_list NewLifecycleEngine [proc 7 unixEpoch]).1))
    (runOps map_to_list (Reconcile map_to_list NewLifecycleEngine [proc 7 unixEpoch]).1
       [OpReconcile [proc 8 unixEpoch]; OpEvent (proc 8 unixEpoch) false]).2
  = Some (dom (state (runOps map_to_list (Reconcile map_to_list NewLifecycleEngine [proc 7 unixEpoch]).1
       [OpReconcile [proc 8 unixEpoch]; OpEvent (proc 8 unixEpoch) false]).1)).
Proof.
  eapply (lifecycle_replay map_to_list [proc 7 unixEpoch]
    [OpReconcile [proc 8 unixEpoch]; OpEvent (proc 8 unixEpoch) false]); [by intros m| |];
    apply surjective_pairing.
Defined.

(** PID reuse is seen.  If a tracked process is replaced between two
    snapshots by one with the same PID and another start time, the old instance
    is reported as exited and the new one as started, in that order. *)
Theorem pid_reuse range st old new others le' ems :
  enumerates range -> wfState st -> realInstance old -> realInstance new ->
  Forall realInstance others ->
  st !! IdentityKey old = Some old -> st !! IdentityKey new = None -> PID new = PID old ->
  StartTime new <> zeroTime ->
  Forall (fun i => StartTime i <> zeroTime /\ PID i <> PID old) others ->
  Reconcile range {| state := st; initialized := true |} (new :: others) = (le', ems) ->
  exists a b c, ems = a ++ (old, PROCESS_EXIT) :: b ++ (new, PROCESS_START) :: c.
Proof.
  intros Hr Hwf Hro Hrn Hrs Hold Hnew Hpid Hz Hoth HR.
  destruct (reconcile_result _ _ _ _ _ Hr Hwf HR) as (exits & starts & -> & [_ Hst _ _ _ _ Hx Hs]).
  assert (firstObs (IdentityKey new) (new :: others) = Some new) as Hf.
  { unfold firstObs. rewrite filter_cons, decide_True; [done|]. split; [|done].
    by apply Z.eqb_neq. }
  assert (new ∈ starts) as Hns.
  { apply Hs. unfold reconciled. by rewrite Hf, Hnew. }
  assert (old ∈ exits) as Hox.
  { apply Hx. split; [done|]. unfold reconciled. rewrite Hold.
    destruct (firstObs (IdentityKey old) (new :: others)) as [i|] eqn:Hfo.
    - apply firstObs_some in Hfo as [Hin [_ Hk]]. rewrite Forall_forall in Hrs, Hoth.
      apply elem_of_cons in Hin as [->|Hin]; [congruence|].
      apply key_inj in Hk; [|by apply Hrs|done]. by destruct (Hoth _ Hin), Hk.
    - rewrite decide_False; [done|]. unfold unobservable. rewrite Exists_cons, Exists_exists.
      rewrite Forall_forall in Hoth. intros [[H0 _]|(i & Hin & _ & Hp)].
      + apply Z.eqb_eq in H0. done.
      + by destruct (Hoth i Hin). }
  apply list_elem_of_split in Hox as (x1 & x2 & ->), Hns as (s1 & s2 & ->).
  rewrite !map_app. cbn [map].
  exists (map (fun i => (i, PROCESS_EXIT)) x1),
    (map (fun i => (i, PROCESS_EXIT)) x2 ++ map (fun i => (i, PROCESS_START)) s1),
    (map (fun i => (i, PROCESS_START)) s2).
  by rewrite <- !app_assoc.
Qed.

Lemma pid_reuse_witness :
  exists a b c,
    (Reconcile map_to_list {| state := track [proc 7 unixEpoch]; initialized := true |} [proc 7 (unixEpoch + 5)]).2
    = a ++ (proc 7 unixEpoch, PROCESS_EXIT) :: b ++ (proc 7 (unixEpoch + 5), PROCESS_START) :: c.
Proof.
  apply (pid_reuse map_to_list (track [proc 7 unixEpoch]) (proc 7 unixEpoch) (proc 7 (unixEpoch + 5)) []
    (Reconcile map_to_list {| state := track [proc 7 unixEpoch]; initialized := true |} [proc 7 (unixEpoch + 5)]).1).
  - by intros m.
  - intros k i. unfold track. cbn. rewrite lookup_insert_Some, lookup_empty.
    intros [[<- <-]|[_ ?]]; [split; reflexivity|done].
  - split; [cbn; lia|vm_compute; split; congruence].
  - split; [cbn; lia|vm_compute; split; congruence].
  - constructor.
  - reflexivity.
  - vm_compute. reflexivity.
  - reflexivity.
  - by vm_compute.
  - constructor.
  - apply surjective_pairing.
Defined.
