(* ===== verification/Collectors.v ===== *)
(** What the host collectors (network, inventory, usb) have in common: the
    start/stop life cycle, the interval setting, the loop of snapshots and the
    delivery of an event into the pipeline. *)
From S2P Require Import Prelude GoStrings GoTime GoParse Events.

Local Open Scope string_scope.
Local Open Scope list_scope.
Open Scope Z_scope.

(** ** Life cycle

    [running]: the goroutine started by [Start] has not been waited for. *)
Record CollectorState := { cancel : bool; started : bool; stopped : bool; running : bool }.

Definition newCollectorState : CollectorState :=
  {| cancel := false; started := false; stopped := false; running := false |}.

Definition collectorStart (c : CollectorState) : CollectorState * option error :=
  if stopped c then (c, Some (ErrNew "collector cannot be restarted"))
  else if started c then (c, Some (ErrNew "collector already started"))
  else ({| cancel := true; started := true; stopped := stopped c; running := true |}, None).

(** [Stop] cancels and waits for the goroutine. *)
Definition collectorStop (c : CollectorState) : CollectorState :=
  if negb (started c) || stopped c then c
  else {| cancel := false; started := started c; stopped := true; running := false |}.

Inductive LifecycleCall := CallStart | CallStop.

(** A sequence of calls: the final state and what each [Start] returned. *)
Fixpoint lifecycleCalls (c : CollectorState) (calls : list LifecycleCall) : CollectorState * list (option error) :=
  match calls with
  | [] => (c, [])
  | CallStart :: calls =>
      let '(c, e) := collectorStart c in
      let '(c, es) := lifecycleCalls c calls in (c, e :: es)
  | CallStop :: calls => lifecycleCalls (collectorStop c) calls
  end.

(** ** Intervals *)

(** The configured interval: a positive duration, 0 when periodic snapshots
    are switched off, the default otherwise. *)
Definition snapshotInterval (dflt : Duration) (setting : string) : Duration :=
  if setting =s "" then dflt
  else
    let parsed := match ParseDuration setting with Some d => if 0 <? d then Some d else None | None => None end in
    match parsed with
    | Some d => d
    | None => if (setting =s "0") || (setting =s "disabled") then 0 else dflt
    end.

(** [run]: the startup snapshot and, with an interval, one per tick. *)
Definition runSnapshots {R} (interval : Duration) (take : R -> list CanonicalEvent) (startup : R) (ticks : list R)
    : list CanonicalEvent :=
  take startup ++ (if 0 <? interval then concat (map take ticks) else []).

(** ** Delivery *)

(** The case a select takes. *)
Inductive SelectCase := SendOut | SendCtxDone | SendTimer.

(** The two nested selects: after the timer the send waits without it. *)
Definition delivered (sel : SelectCase * SelectCase) : bool :=
  match sel with
  | (SendOut, _) => true
  | (SendCtxDone, _) => false
  | (SendTimer, SendOut) => true
  | (SendTimer, _) => false
  end.

(** ** Lemmas *)

(** The ticker is never created with an interval it would panic on, and
    periodic snapshots are off exactly when the setting says so. *)
Lemma snapshotInterval_spec dflt setting :
  0 < dflt ->
  0 <= snapshotInterval dflt setting /\
  (snapshotInterval dflt setting = 0 <-> setting = "0" \/ setting = "disabled").
Proof.
  intros Hd. unfold snapshotInterval.
  assert (0 <= dflt /\ (dflt = 0 <-> setting = "0" \/ setting = "disabled") \/ setting = "0" \/ setting = "disabled") as Hdflt.
  { destruct (decide (setting = "0")), (decide (setting = "disabled")); [right; auto..|].
    left. split; [lia|]. split; [lia|tauto]. }
  destruct (String.eqb_spec setting "") as [->|]; [destruct Hdflt as [?|[?|?]]; done|].
  destruct (String.eqb_spec setting "0") as [->|Hz]; [split; [done|split; [by left|done]]|].
  destruct (String.eqb_spec setting "disabled") as [->|Hn]; [split; [done|split; [by right|done]]|].
  destruct Hdflt as [Hdflt|[?|?]]; [|done..].
  destruct (ParseDuration setting) as [d|]; [|exact Hdflt].
  destruct (Z.ltb_spec 0 d); [|exact Hdflt]. split; [lia|]. split; [lia|by intros [?|?]].
Qed.

Lemma stopped_calls c calls :
  stopped c = true -> running c = false ->
  let '(c', es) := lifecycleCalls c calls in
  c' = c /\ Forall (fun e => e <> None) es.
Proof.
  intros Hs Hr. induction calls as [|[] calls IH]; [by split|..]; cbn [lifecycleCalls].
  - unfold collectorStart. rewrite Hs. destruct (lifecycleCalls c calls) as [c' es]. destruct IH as [-> IH].
    split; [done|]. by constructor.
  - unfold collectorStop. by rewrite Hs, orb_true_r.
Qed.

Lemma started_calls c calls :
  started c = true -> stopped c = false -> running c = true ->
  let '(c', es) := lifecycleCalls c calls in
  Forall (fun e => e <> None) es /\ started c' = true /\
  (running c' = true <-> CallStop ∉ calls).
Proof.
  intros Hs Hn Hr. induction calls as [|[] calls IH].
  - cbn. split_and!; [constructor|done|]. split; [set_solver|done].
  - cbn [lifecycleCalls]. unfold collectorStart. rewrite Hn, Hs.
    destruct (lifecycleCalls c calls) as [c' es]. destruct IH as (IH & H1 & H2).
    split_and!; [by constructor|done|]. rewrite H2, not_elem_of_cons. naive_solver.
  - cbn [lifecycleCalls]. unfold collectorStop. rewrite Hs, Hn. cbn [negb orb]. clear IH.
    pose proof (stopped_calls {| cancel := false; started := true; stopped := true; running := false |} calls eq_refl eq_refl) as H.
    destruct (lifecycleCalls _ calls) as [c' es]. destruct H as [-> H]. split_and!; [done|done|].
    cbn. split; [done|]. set_solver.
Qed.

(** The calls before the first [Start] change nothing. *)
Fixpoint afterFirstStart (calls : list LifecycleCall) : option (list LifecycleCall) :=
  match calls with
  | [] => None
  | CallStart :: calls => Some calls
  | CallStop :: calls => afterFirstStart calls
  end.

(** A host collector runs its goroutine at most once.  Whatever [Start] and
    [Stop] calls the agent makes, the first [Start] succeeds and every later
    one is refused; the goroutine is running at the end exactly when a [Start]
    was made and no [Stop] came after it, so that no event can be sent after
    [Stop] has returned. *)
Theorem collector_runs_once calls :
  let '(c, results) := lifecycleCalls newCollectorState calls in
  match afterFirstStart calls with
  | None => results = [] /\ running c = false
  | Some rest => exists refused, results = None :: refused /\ Forall (fun e => e <> None) refused /\
      (running c = true <-> CallStop ∉ rest)
  end.
Proof.
  induction calls as [|[] calls IH]; [done| |]; cbn [lifecycleCalls afterFirstStart].
  - clear IH. cbn. pose proof (started_calls {| cancel := true; started := true; stopped := false; running := true |} calls eq_refl eq_refl eq_refl) as H.
    destruct (lifecycleCalls _ calls) as [c es]. destruct H as (H1 & _ & H2). by exists es.
  - exact IH.
Qed.
