(* ===== verification/Network.v ===== *)
(** The connection collector (agent/internal/collectors/network/collector.go,
    network_linux.go): the /proc/net tables, their parsing, and the snapshot
    events.  [NetworkWindows] has the Windows tables. *)
From S2P Require Import Prelude GoStrings GoText GoTime GoParse Events Collectors.
From S2P Require Config GoUrl.
From Stdlib Require Import Strings.Ascii.

Local Open Scope string_scope.
Local Open Scope list_scope.
Open Scope Z_scope.

Record Connection := {
  Conn_Protocol : string;
  SrcIP : string;
  SrcPort : Z;
  DstIP : string;
  DstPort : Z;
  State : string;
  PID : Z;
}.

(** ** Linux *)

Definition tcpStates (code : string) : string :=
  if code =s "01" then "ESTABLISHED"
  else if code =s "02" then "SYN_SENT"
  else if code =s "03" then "SYN_RECV"
  else if code =s "04" then "FIN_WAIT1"
  else if code =s "05" then "FIN_WAIT2"
  else if code =s "06" then "TIME_WAIT"
  else if code =s "07" then "CLOSE"
  else if code =s "08" then "CLOSE_WAIT"
  else if code =s "09" then "LAST_ACK"
  else if code =s "0A" then "LISTEN"
  else if code =s "0B" then "CLOSING"
  else "".

(** The four bytes of a 32-bit word in memory order. *)
Definition wordBytes (w : Z) : list byte :=
  [zb w; zb (Z.shiftr w 8); zb (Z.shiftr w 16); zb (Z.shiftr w 24)].

(** [ipHex[i*8:(i+1)*8]] *)
Definition chunk (s : string) (i : nat) : string := String.substring (i * 8) 8 s.

Definition parseIPPort (s : string) (isIPv6 : bool) : string * Z :=
  match Split s ":"%char with
  | [ipHex; portHex] =>
      let port := ParseHex 16 portHex in
      if isIPv6 then
        if negb (go_len ipHex =? 32) then ("", port)
        else (Addr16_String (concat (map (fun i => wordBytes (ParseHex 32 (chunk ipHex i))) (seq 0 4))), port)
      else
        if negb (go_len ipHex =? 8) then ("", port)
        else (IPv4_String (wordBytes (ParseHex 32 ipHex)), port)
  | _ => ("", 0)
  end.

(** One row; [None] is the [continue] for short rows.  Trimming the line before
    splitting it into fields changes nothing. *)
Definition parseRow (protocol : string) (isIPv6 : bool) (line : string) : option Connection :=
  match Fields line with
  | _ :: f1 :: f2 :: f3 :: _ :: _ :: _ :: _ :: _ :: _ :: _ =>
      let '(srcIP, srcPort) := parseIPPort f1 isIPv6 in
      let '(dstIP, dstPort) := parseIPPort f2 isIPv6 in
      Some {| Conn_Protocol := protocol; SrcIP := srcIP; SrcPort := srcPort;
              DstIP := dstIP; DstPort := dstPort; State := tcpStates f3; PID := 0 |}
  | _ => None
  end.

(** The first line is the header.  The error of the scanner comes with the
    rows read so far. *)
Definition parseProcNetReader (data : string) (readErr : option error) (protocol : string) (isIPv6 : bool)
    : list Connection * option error :=
  let '(lines, err) := scanLines data readErr in
  (omap (parseRow protocol isIPv6) (tail lines), err).

(** What opening and reading a table gives. *)
Inductive NetFile := OpenFailed (e : error) | NetText (data : string) (readErr : option error).

Definition parseProcNetFile (f : NetFile) (protocol : string) (isIPv6 : bool) : result (list Connection) :=
  match f with
  | OpenFailed e => Err e
  | NetText data readErr =>
      match parseProcNetReader data readErr protocol isIPv6 with
      | (_, Some e) => Err e
      | (conns, None) => Ok conns
      end
  end.

(** The four tables in order, a failed one replaced by its flag. *)
Definition addTable (acc : list Connection * list string) (t : result (list Connection) * string)
    : list Connection * list string :=
  match t.1 with
  | Err _ => (acc.1, acc.2 ++ [t.2])
  | Ok conns => (acc.1 ++ conns, acc.2)
  end.

Definition collectTables (tcp4 tcp6 udp4 udp6 : result (list Connection)) : result (list Connection * list string) :=
  let r := foldl addTable ([], [])
    [(tcp4, "NETWORK_TCP4_FAILED"); (tcp6, "NETWORK_TCP6_FAILED");
     (udp4, "NETWORK_UDP4_FAILED"); (udp6, "NETWORK_UDP6_FAILED")] in
  if (length r.2 =? 4)%nat then Err (ErrNew "complete failure retrieving network tables") else Ok r.

Definition osSpecificConnections (open : string -> NetFile) : result (list Connection * list string) :=
  collectTables
    (parseProcNetFile (open "/proc/net/tcp") "TCP" false)
    (parseProcNetFile (open "/proc/net/tcp6") "TCP" true)
    (parseProcNetFile (open "/proc/net/udp") "UDP" false)
    (parseProcNetFile (open "/proc/net/udp6") "UDP" true).

(** ** The collector *)

Notation Collector := CollectorState (only parsing).
Definition NewCollector : Collector := newCollectorState.
Definition Collector_Start : Collector -> Collector * option error := collectorStart.
Definition Collector_Stop : Collector -> Collector := collectorStop.

(** The entry of one connection in the metadata. *)
Definition connEntry (c : Connection) : MetaValue :=
  VMap ([("protocol", VStr (Conn_Protocol c)); ("src_ip", VStr (SrcIP c)); ("src_port", VUint16 (SrcPort c));
         ("dst_ip", VStr (DstIP c)); ("dst_port", VUint16 (DstPort c))]
        ++ (if negb (State c =s "") then [("state", VStr (State c))] else [])
        ++ (if 0 <? PID c then [("pid", VUint32 (PID c))] else [])).

(** The snapshot event; [id] and [t] are [uuid.New] and [time.Now().UTC()]. *)
Definition snapshotEvent (cfg : Config.Config) (id : string) (t : Time)
    (connections : list Connection) (qualityFlags : list string) : CanonicalEvent := {|
  EventID := id; TenantID := Config.TenantID cfg; SiteID := Config.SiteID cfg; AssetID := ""; SensorID := "";
  OccurredAt := t; ReceivedAt := zeroTime; SeqNo := 0; Source := "agent"; Category := "network";
  Severity := "INFO"; Confidence := None; Protocol := ""; Src := ""; Dst := "";
  Action := "NETWORK_CONNECTION_SNAPSHOT";
  Metadata := Some (<["connections" := VList (map connEntry connections)]> ∅);
  RuleID := ""; RuleVersion := ""; AttckEnterprise := []; AttckICS := []; QualityFlags := qualityFlags;
  SchemaVersion := CurrentSchemaVersion |}.

(** One snapshot: the tables of that moment, what [uuid.New] and the clock give
    and how the selects go. *)
Record Round := {
  rd_tables : result (list Connection * list string);
  rd_id : string;
  rd_time : Time;
  rd_select : SelectCase * SelectCase;
}.

Definition takeSnapshot (cfg : Config.Config) (r : Round) : list CanonicalEvent :=
  match rd_tables r with
  | Err _ => []
  | Ok (connections, qualityFlags) =>
      if delivered (rd_select r)
      then [snapshotEvent cfg (rd_id r) (rd_time r) connections qualityFlags]
      else []
  end.

Definition networkInterval (cfg : Config.Config) : Duration :=
  snapshotInterval (300 * Second) (Config.NetworkInterval cfg).

Definition run (cfg : Config.Config) : Round -> list Round -> list CanonicalEvent :=
  runSnapshots (networkInterval cfg) (takeSnapshot cfg).

(** ** What the kernel prints *)

(** One end of a connection: 4 or 16 address bytes in network order, a port. *)
Record Endpoint := { ep_addr : list byte; ep_port : Z }.

Definition wfEndpoint (isIPv6 : bool) (e : Endpoint) : Prop :=
  length (ep_addr e) = (if isIPv6 then 16 else 4)%nat /\ in_u16 (ep_port e).

(** The address as 32-bit words of memory in hexadecimal. *)
Fixpoint addrHex (b : list byte) : string :=
  match b with
  | b0 :: b1 :: b2 :: b3 :: b => wordHex b0 b1 b2 b3 ^^ addrHex b
  | _ => ""
  end.

Definition endpointText (e : Endpoint) : string := addrHex (ep_addr e) ^^ ":" ^^ HEX04 (ep_port e).

(** A row of /proc/net/tcp: the slot, padded on the left with blanks (the
    kernel's format is %4d for TCP and %5d for UDP), both ends, the state, and
    further columns [rest], of which the parser wants at least six. *)
Record ProcRow := { row_pad : nat; row_sl : string; row_local : Endpoint; row_remote : Endpoint; row_st : string; row_rest : string }.

Definition rowText (r : ProcRow) : string :=
  blanks (row_pad r) ^^ (row_sl r ^^ " " ^^ (endpointText (row_local r) ^^ " " ^^ (endpointText (row_remote r) ^^ " "
    ^^ (row_st r ^^ " " ^^ row_rest r)))).

Definition wfRow (isIPv6 : bool) (r : ProcRow) : Prop :=
  isWord (row_sl r) = true /\ isWord (row_st r) = true /\
  wfEndpoint isIPv6 (row_local r) /\ wfEndpoint isIPv6 (row_remote r) /\
  (6 <= length (Fields (row_rest r)))%nat /\
  noChar (ascii_of_nat 10) (row_rest r) = true /\ noChar (ascii_of_nat 13) (row_rest r) = true /\
  go_len (rowText r) < MaxScanTokenSize.

Definition addrText (isIPv6 : bool) (b : list byte) : string := if isIPv6 then Addr16_String b else IPv4_String b.

Definition rowConnection (protocol : string) (isIPv6 : bool) (r : ProcRow) : Connection := {|
  Conn_Protocol := protocol;
  SrcIP := addrText isIPv6 (ep_addr (row_local r)); SrcPort := ep_port (row_local r);
  DstIP := addrText isIPv6 (ep_addr (row_remote r)); DstPort := ep_port (row_remote r);
  State := tcpStates (row_st r); PID := 0 |}.

(** ** Lemmas *)

(** The bytes of a word are found again. *)
Lemma zb_mod z b : z mod 256 = bz b -> zb z = b.
Proof.
  intros H. rewrite <- (zb_bz b). unfold zb. by rewrite H, (Z.mod_small (bz b)) by apply bz_range.
Qed.

Lemma wordBytes_word b0 b1 b2 b3 :
  wordBytes (((bz b3 * 256 + bz b2) * 256 + bz b1) * 256 + bz b0) = [b0; b1; b2; b3].
Proof.
  pose proof (bz_range b0). pose proof (bz_range b1). pose proof (bz_range b2). pose proof (bz_range b3).
  unfold wordBytes. rewrite !Z.shiftr_div_pow2 by lia.
  change (2 ^ 8) with 256. change (2 ^ 16) with (256 * 256). change (2 ^ 24) with (256 * 256 * 256).
  rewrite <- !Z.div_div by lia.
  assert (forall x y, 0 <= y < 256 -> (x * 256 + y) / 256 = x) as Hd.
  { intros x y Hy. rewrite Z.div_add_l, (Z.div_small y) by lia. lia. }
  assert (forall x y, 0 <= y < 256 -> (x * 256 + y) mod 256 = y) as Hm.
  { intros x y Hy. rewrite Z.add_comm, Z.mod_add, Z.mod_small by lia. done. }
  rewrite !Hd by lia. by rewrite (zb_mod _ b0), (zb_mod _ b1), (zb_mod _ b2), zb_bz by (by apply Hm).
Qed.

Lemma addrHex_shape b n :
  length b = (4 * n)%nat -> String.length (addrHex b) = (8 * n)%nat /\ allChars isHex (addrHex b) = true.
Proof.
  revert b. induction n as [|n IH]; intros b Hb; [by destruct b|].
  destruct b as [|b0 [|b1 [|b2 [|b3 b]]]]; try (cbn in Hb; lia). cbn [addrHex].
  destruct (IH b) as [Hl Hw]; [cbn in Hb; lia|]. destruct (wordHex_shape b0 b1 b2 b3) as [Hl' Hw'].
  rewrite length_append, allChars_append, Hl, Hl', Hw, Hw'. split; [lia|done].
Qed.

Lemma endpoint_words isIPv6 e :
  wfEndpoint isIPv6 e ->
  String.length (addrHex (ep_addr e)) = (if isIPv6 then 32 else 8)%nat /\
  allChars isHex (addrHex (ep_addr e)) = true /\ isWord (endpointText e) = true.
Proof.
  intros [Hl _]. destruct (addrHex_shape (ep_addr e) (if isIPv6 then 4 else 1)%nat) as [H1 H2]; [by destruct isIPv6|].
  split; [rewrite H1; by destruct isIPv6|]. split; [done|].
  unfold isWord, endpointText. destruct (HEX04_shape (ep_port e)) as [_ H3].
  rewrite !allChars_append, (isHex_word _ H2), (isHex_word _ H3). by destruct (addrHex (ep_addr e)).
Qed.

(** The chunks of an IPv6 address in hexadecimal. *)
Lemma chunk_words b0 b1 b2 b3 s :
  chunk (wordHex b0 b1 b2 b3 ^^ s) 0 = wordHex b0 b1 b2 b3 /\
  forall i, chunk (wordHex b0 b1 b2 b3 ^^ s) (S i) = chunk s i.
Proof.
  destruct (wordHex_shape b0 b1 b2 b3) as [Hl _]. split.
  - unfold chunk. pose proof (prefixString_append (wordHex b0 b1 b2 b3) s) as H. by rewrite Hl in H.
  - intros i. unfold chunk. change (S i * 8)%nat with (8 + i * 8)%nat.
    destruct (wordHex b0 b1 b2 b3) as [|a0 [|a1 [|a2 [|a3 [|a4 [|a5 [|a6 [|a7 [|]]]]]]]]]; done.
Qed.

(** Both ends of a row are read back. *)
Lemma parseIPPort_endpoint isIPv6 e :
  wfEndpoint isIPv6 e -> parseIPPort (endpointText e) isIPv6 = (addrText isIPv6 (ep_addr e), ep_port e).
Proof.
  intros Hwf. destruct (endpoint_words isIPv6 e Hwf) as (Hl & Hw & _). destruct Hwf as [Hlen Hport].
  unfold parseIPPort, endpointText.
  change (addrHex (ep_addr e) ^^ ":" ^^ HEX04 (ep_port e)) with ((addrHex (ep_addr e) ^^ ":") ^^ HEX04 (ep_port e)).
  rewrite append_assoc. change (":" ^^ HEX04 (ep_port e)) with (String ":" (HEX04 (ep_port e))).
  rewrite Split_first by (by apply isHex_noChar).
  rewrite Split_noChar by (apply isHex_noChar; [done|apply HEX04_shape]).
  rewrite ParseHex_HEX04 by done. unfold addrText, go_len. rewrite Hl. destruct isIPv6.
  - cbn [negb]. change (Z.of_nat 32 =? 32) with true. cbn [negb]. f_equal. f_equal.
    destruct (ep_addr e) as [|b0 [|b1 [|b2 [|b3 [|b4 [|b5 [|b6 [|b7 [|b8 [|b9 [|b10 [|b11 [|b12 [|b13 [|b14 [|b15 [|]]]]]]]]]]]]]]]]]; try done.
    cbn [addrHex seq map concat].
    repeat first [rewrite (proj1 (chunk_words _ _ _ _ _)) | rewrite (proj2 (chunk_words _ _ _ _ _))].
    by rewrite !ParseHex_word, !wordBytes_word.
  - change (Z.of_nat 8 =? 8) with true. cbn [negb]. f_equal. f_equal.
    destruct (ep_addr e) as [|b0 [|b1 [|b2 [|b3 [|]]]]]; try done. cbn [addrHex].
    by rewrite append_nil_r, ParseHex_word, wordBytes_word.
Qed.

Lemma parseRow_rowText protocol isIPv6 r :
  wfRow isIPv6 r -> parseRow protocol isIPv6 (rowText r) = Some (rowConnection protocol isIPv6 r).
Proof.
  intros (Hsl & Hst & Hloc & Hrem & Hrest & _). unfold parseRow, rowText.
  rewrite Fields_blanks, Fields_cons by done.
  rewrite Fields_cons by (by eapply endpoint_words). rewrite Fields_cons by (by eapply endpoint_words).
  rewrite Fields_cons by done.
  destruct (Fields (row_rest r)) as [|? [|? [|? [|? [|? [|? ?]]]]]]; try (cbn in Hrest; lia).
  by rewrite !parseIPPort_endpoint.
Qed.

Lemma rowText_line isIPv6 r :
  wfRow isIPv6 r -> noChar (ascii_of_nat 10) (rowText r) = true /\ noChar (ascii_of_nat 13) (rowText r) = true.
Proof.
  intros (Hsl & Hst & Hloc & Hrem & _ & H10 & H13 & _).
  assert (forall c w, wordChar c = false -> isWord w = true -> noChar c w = true) as Hno.
  { intros c w Hc Hw. apply noChar_word; [done|]. unfold isWord in Hw. by apply andb_prop in Hw as [_ ?]. }
  assert (isWord (endpointText (row_local r)) = true) by (by eapply endpoint_words).
  assert (isWord (endpointText (row_remote r)) = true) by (by eapply endpoint_words).
  assert (forall c, wordChar c = false -> noChar c " " = true -> noChar c (row_rest r) = true ->
          noChar c (rowText r) = true) as Hrow.
  { intros c Hc Hb Hr. unfold rowText. rewrite !noChar_append, Hb, Hr.
    assert (noChar c (blanks (row_pad r)) = true) as ->.
    { induction (row_pad r) as [|n IH]; [done|]. cbn [blanks]. by rewrite noChar_append, Hb. }
    rewrite (Hno c (row_sl r)), (Hno c (row_st r)), (Hno c (endpointText (row_local r))),
      (Hno c (endpointText (row_remote r))) by done. done. }
  split; by apply Hrow.
Qed.

(** C26: The Linux connection table is read back exactly.  For any header and
    any rows the kernel can print - any padding before the slot, both ends as
    hexadecimal words of a little-endian machine with their ports, a state
    code, at least six more columns, no line of 64 KiB - the parser returns, in order and without an
    error, one connection per row with the addresses in their textual form,
    the ports and the name of the state, for IPv4 and IPv6 tables. *)
Theorem proc_net_roundtrip protocol isIPv6 header rows :
  noChar (ascii_of_nat 10) header = true -> noChar (ascii_of_nat 13) header = true ->
  go_len header < MaxScanTokenSize -> Forall (wfRow isIPv6) rows ->
  parseProcNetReader (unlines (ascii_of_nat 10) (header :: map rowText rows)) None protocol isIPv6
  = (map (rowConnection protocol isIPv6) rows, None).
Proof.
  intros H1 H2 H3 Hrows. unfold parseProcNetReader. rewrite scanLines_unlines.
  - cbn [tail]. f_equal. induction Hrows as [|r rows Hr _ IH]; [done|]. cbn [map omap list_omap].
    rewrite (parseRow_rowText protocol isIPv6 r Hr). f_equal. exact IH.
  - constructor; [done|]. apply Forall_map. eapply Forall_impl; [exact Hrows|]. intros r Hr.
    destruct (rowText_line isIPv6 r Hr). split_and!; [done..|]. by destruct Hr as (_ & _ & _ & _ & _ & _ & _ & ?).
Qed.

Definition loopbackRow : ProcRow := {|
  row_pad := 3; row_sl := "0:"; row_local := {| ep_addr := [x7f; x00; x00; x01]; ep_port := 80 |};
  row_remote := {| ep_addr := [x00; x00; x00; x00]; ep_port := 0 |}; row_st := "0A";
  row_rest := "00000000:00000000 00:00000000 00000000     0        0 12345 1 0" |}.

(** A row whose slot has four digits, as the kernel prints it: no padding. *)
Definition laterRow : ProcRow := {|
  row_pad := 0; row_sl := "1024:"; row_local := {| ep_addr := [x0a; x00; x00; x05]; ep_port := 49152 |};
  row_remote := {| ep_addr := [xc0; xa8; x01; x02]; ep_port := 443 |}; row_st := "01";
  row_rest := "00000000:00000000 00:00000000 00000000  1000        0 12346 1 0" |}.

Lemma proc_net_roundtrip_witness :
  parseProcNetReader (unlines (ascii_of_nat 10)
    ["  sl  local_address rem_address   st"; rowText loopbackRow; rowText laterRow]) None "TCP" false
  = ([{| Conn_Protocol := "TCP"; SrcIP := "127.0.0.1"; SrcPort := 80; DstIP := "0.0.0.0"; DstPort := 0;
         State := "LISTEN"; PID := 0 |};
      {| Conn_Protocol := "TCP"; SrcIP := "10.0.0.5"; SrcPort := 49152; DstIP := "192.168.1.2"; DstPort := 443;
         State := "ESTABLISHED"; PID := 0 |}], None).
Proof.
  refine (eq_trans (proc_net_roundtrip "TCP" false "  sl  local_address rem_address   st" [loopbackRow; laterRow] _ _ _ _) _);
    try (vm_compute; reflexivity).
  constructor; [|constructor; [|constructor]]; unfold wfRow, wfEndpoint, in_u16;
    cbn [row_local row_remote loopbackRow laterRow ep_port];
    split_and!; try (vm_compute; reflexivity); try lia; vm_compute; lia.
Defined.

(** The tables of a snapshot with the flags of their failure. *)
Definition osTables (open : string -> NetFile) : list (result (list Connection) * string) :=
  [ (parseProcNetFile (open "/proc/net/tcp") "TCP" false, "NETWORK_TCP4_FAILED");
    (parseProcNetFile (open "/proc/net/tcp6") "TCP" true, "NETWORK_TCP6_FAILED");
    (parseProcNetFile (open "/proc/net/udp") "UDP" false, "NETWORK_UDP4_FAILED");
    (parseProcNetFile (open "/proc/net/udp6") "UDP" true, "NETWORK_UDP6_FAILED") ].

Definition failedFlags (ts : list (result (list Connection) * string)) : list string :=
  omap (fun t => match t.1 with Err _ => Some t.2 | Ok _ => None end) ts.

Definition readConns (ts : list (result (list Connection) * string)) : list Connection :=
  concat (omap (fun t => match t.1 with Ok conns => Some conns | Err _ => None end) ts).

Lemma addTables ts acc :
  foldl addTable acc ts = (acc.1 ++ readConns ts, acc.2 ++ failedFlags ts).
Proof.
  revert acc. induction ts as [|[t f] ts IH]; intros [conns flags].
  - cbn. by rewrite !app_nil_r.
  - cbn [foldl]. rewrite IH. unfold addTable, readConns, failedFlags. cbn [fst snd].
    destruct t; cbn [fst snd omap list_omap concat]; by rewrite <- app_assoc.
Qed.

Lemma failedFlags_all ts :
  (length (failedFlags ts) <= length ts)%nat /\
  (length (failedFlags ts) = length ts <-> forall x, x ∈ ts -> exists e, x.1 = Err e).
Proof.
  induction ts as [|[t f] ts [Hle IH]]; [by split; [|split; [set_solver|]]|].
  unfold failedFlags in *. cbn [omap list_omap length fst]. destruct t as [conns|e]; cbn [length].
  - split; [lia|]. split; [lia|]. intros H. destruct (H (Ok conns, f)) as [? ?]; [by left|done].
  - split; [lia|]. rewrite Nat.succ_inj_wd, IH. setoid_rewrite elem_of_cons.
    split; [intros H x [->|Hx]; eauto|auto].
Qed.

Lemma osSpecificConnections_spec open :
  osSpecificConnections open =
  if bool_decide (length (failedFlags (osTables open)) = 4%nat)
  then Err (ErrNew "complete failure retrieving network tables")
  else Ok (readConns (osTables open), failedFlags (osTables open)).
Proof.
  unfold osSpecificConnections, collectTables. fold (osTables open). rewrite addTables. cbn [fst snd app].
  case_bool_decide as E; [by rewrite E|]. destruct (Nat.eqb_spec (length (failedFlags (osTables open))) 4); [done|done].
Qed.

(** The collector's event is valid when its configuration is. *)
Lemma snapshotEvent_valid uuid_Parse parseAuthority cfg id t conns flags :
  Config.Config_Validate parseAuthority cfg = None -> uuid_Parse id = None -> t <> zeroTime ->
  Event_Validate uuid_Parse (snapshotEvent cfg id t conns flags) = None.
Proof.
  intros Hcfg Hid Ht. destruct (Config.Validate_identifiers _ _ Hcfg) as [H1 H2].
  apply Validate_complete; [done|]. split; cbn; try done.
  - set_solver.
  - repeat constructor; vm_compute; congruence.
Qed.

(** A snapshot never passes off a failed reading as an absence of
    connections.  Over any answers of the four /proc/net tables, at most one
    event is emitted, and none exactly when every table failed or the context
    ended before the event could be sent; the event of a partial failure
    carries precisely the flags of the tables that failed, in order, and the
    connections of the others, and passes the event schema whenever the
    configuration was validated. *)
Theorem snapshot_reports_failures uuid_Parse parseAuthority cfg open id t sel :
  Config.Config_Validate parseAuthority cfg = None -> uuid_Parse id = None -> t <> zeroTime ->
  let evs := takeSnapshot cfg {| rd_tables := osSpecificConnections open; rd_id := id; rd_time := t; rd_select := sel |} in
  let tables := osTables open in
  (evs = [] <-> (forall x, x ∈ tables -> exists e, x.1 = Err e) \/ delivered sel = false) /\
  (evs <> [] -> exists ev, evs = [ev] /\ QualityFlags ev = failedFlags tables /\
     Metadata ev = Some (<["connections" := VList (map connEntry (readConns tables))]> ∅) /\
     Event_Validate uuid_Parse ev = None).
Proof.
  intros Hcfg Hid Ht evs tables. unfold evs, takeSnapshot. cbn [rd_tables rd_select rd_id rd_time].
  rewrite osSpecificConnections_spec. fold tables.
  pose proof (failedFlags_all tables) as [_ Hall]. change (length tables) with 4%nat in Hall.
  case_bool_decide as E.
  - split; [|done]. split; [intros _; left; by apply Hall|done].
  - destruct (delivered sel).
    + split; [split; [done|intros [H|H]; [by apply Hall in H|done]]|].
      intros _. eexists. split_and!; [reflexivity|done..|]. by eapply snapshotEvent_valid.
    + split; [split; [by right|done]|done].
Qed.

(** Only the IPv4 TCP table can be read. *)
Definition tcpOnly (path : string) : NetFile :=
  if path =s "/proc/net/tcp"
  then NetText (unlines (ascii_of_nat 10) ["  sl  local_address rem_address   st"; rowText loopbackRow]) None
  else OpenFailed (ErrNew "no such file or directory").

Lemma snapshot_reports_failures_witness :
  exists ev,
    takeSnapshot Config.lanConfig {| rd_tables := osSpecificConnections tcpOnly; rd_id := "e-1"; rd_time := 5;
                              rd_select := (SendTimer, SendOut) |} = [ev] /\
    QualityFlags ev = ["NETWORK_TCP6_FAILED"; "NETWORK_UDP4_FAILED"; "NETWORK_UDP6_FAILED"] /\
    Event_Validate (fun _ => None) ev = None.
Proof.
  destruct (snapshot_reports_failures (fun _ => None) GoUrl.plainAuthority Config.lanConfig tcpOnly "e-1" 5 (SendTimer, SendOut)) as [_ H];
    [vm_compute; reflexivity|reflexivity|discriminate|].
  destruct H as (ev & -> & Hq & _ & Hv); [vm_compute; discriminate|].
  exists ev. split; [reflexivity|]. split; [|exact Hv]. rewrite Hq. vm_compute. reflexivity.
Defined.
