(* ===== verification/NetworkWindows.v ===== *)
(** The Windows connection tables
    (agent/internal/collectors/network/network_windows.go).  A buffer is a
    list of bytes; the unsafe reads are total reads at an offset, [None]
    standing for an index out of range or a read beyond the buffer.  Offsets
    are uint32 and wrap around. *)
From S2P Require Import Prelude GoStrings GoParse Network.

Local Open Scope string_scope.
Local Open Scope list_scope.
Open Scope Z_scope.

Definition AF_INET : Z := 2.
Definition AF_INET6 : Z := 23.
Definition ERROR_INSUFFICIENT_BUFFER : Z := 122.

Definition winTcpStates (state : Z) : string :=
  if state =? 1 then "CLOSED"
  else if state =? 2 then "LISTEN"
  else if state =? 3 then "SYN_SENT"
  else if state =? 4 then "SYN_RCVD"
  else if state =? 5 then "ESTABLISHED"
  else if state =? 6 then "FIN_WAIT1"
  else if state =? 7 then "FIN_WAIT2"
  else if state =? 8 then "CLOSE_WAIT"
  else if state =? 9 then "CLOSING"
  else if state =? 10 then "LAST_ACK"
  else if state =? 11 then "TIME_WAIT"
  else if state =? 12 then "DELETE_TCB"
  else "".

(** [buf[lo:hi]] *)
Definition bufSlice (buf : list byte) (lo hi : Z) : option (list byte) :=
  if (lo <=? hi) && (hi <=? Z.of_nat (length buf))
  then Some (take (Z.to_nat (hi - lo)) (drop (Z.to_nat lo) buf)) else None.

(** A uint32 read through an unsafe pointer to [&buf[off]]. *)
Definition readU32 (buf : list byte) (off : Z) : option Z := leWord <$> bufSlice buf off (off + 4).

(** [binary.LittleEndian.PutUint32] *)
Definition ip4ToString (ip : Z) : string := IPv4_String (wordBytes ip).

(** A uint16 put big-endian and read back little-endian. *)
Definition ntohs (port : Z) : Z :=
  let b := [zb (Z.shiftr (u16 port) 8); zb (u16 port)] in leWord b.

(** [copy(a[:], ip)] into 16 zero bytes. *)
Definition ip6ToString (ip : list byte) : string :=
  Addr16_String (take 16 (ip ++ replicate 16 x00)).

(** The four row layouts, at an offset of the buffer. *)
Definition tcp4Row (buf : list byte) (offset : Z) : option Connection :=
  let! state := readU32 buf offset in
  let! localAddr := readU32 buf (u32 (offset + 4)) in
  let! localPort := readU32 buf (u32 (offset + 8)) in
  let! remoteAddr := readU32 buf (u32 (offset + 12)) in
  let! remotePort := readU32 buf (u32 (offset + 16)) in
  let! pid := readU32 buf (u32 (offset + 20)) in
  Some {| Conn_Protocol := "TCP"; SrcIP := ip4ToString localAddr; SrcPort := ntohs localPort;
          DstIP := ip4ToString remoteAddr; DstPort := ntohs remotePort; State := winTcpStates state; PID := pid |}.

Definition tcp6Row (buf : list byte) (offset : Z) : option Connection :=
  let! localAddr := bufSlice buf offset (u32 (offset + 16)) in
  let! localPort := readU32 buf (u32 (offset + 20)) in
  let! remoteAddr := bufSlice buf (u32 (offset + 24)) (u32 (offset + 40)) in
  let! remotePort := readU32 buf (u32 (offset + 44)) in
  let! state := readU32 buf (u32 (offset + 48)) in
  let! pid := readU32 buf (u32 (offset + 52)) in
  Some {| Conn_Protocol := "TCP"; SrcIP := ip6ToString localAddr; SrcPort := ntohs localPort;
          DstIP := ip6ToString remoteAddr; DstPort := ntohs remotePort; State := winTcpStates state; PID := pid |}.

Definition udp4Row (buf : list byte) (offset : Z) : option Connection :=
  let! localAddr := readU32 buf offset in
  let! localPort := readU32 buf (u32 (offset + 4)) in
  let! pid := readU32 buf (u32 (offset + 8)) in
  Some {| Conn_Protocol := "UDP"; SrcIP := ip4ToString localAddr; SrcPort := ntohs localPort;
          DstIP := "0.0.0.0"; DstPort := 0; State := ""; PID := pid |}.

Definition udp6Row (buf : list byte) (offset : Z) : option Connection :=
  let! localAddr := bufSlice buf offset (u32 (offset + 16)) in
  let! localPort := readU32 buf (u32 (offset + 20)) in
  let! pid := readU32 buf (u32 (offset + 24)) in
  Some {| Conn_Protocol := "UDP"; SrcIP := ip6ToString localAddr; SrcPort := ntohs localPort;
          DstIP := "::"; DstPort := 0; State := ""; PID := pid |}.

(** The loop over [n] announced entries; it breaks before a row that would
    not fit. *)
Fixpoint tableLoop (size : Z) (row : list byte -> Z -> option Connection) (buf : list byte) (n : nat) (offset : Z)
    : option (list Connection) :=
  match n with
  | O => Some []
  | S n =>
      if u32 (Z.of_nat (length buf)) <? u32 (offset + size) then Some []
      else
        let! c := row buf offset in
        let! cs := tableLoop size row buf n (u32 (offset + size)) in
        Some (c :: cs)
  end.

Definition parseTcpTable (buf : list byte) (family : Z) : option (list Connection) :=
  if Z.of_nat (length buf) <? 4 then Some []
  else
    let! numEntries := readU32 buf 0 in
    if family =? AF_INET then tableLoop 24 tcp4Row buf (Z.to_nat numEntries) 4
    else if family =? AF_INET6 then tableLoop 56 tcp6Row buf (Z.to_nat numEntries) 4
    else Some [].

Definition parseUdpTable (buf : list byte) (family : Z) : option (list Connection) :=
  if Z.of_nat (length buf) <? 4 then Some []
  else
    let! numEntries := readU32 buf 0 in
    if family =? AF_INET then tableLoop 12 udp4Row buf (Z.to_nat numEntries) 4
    else if family =? AF_INET6 then tableLoop 28 udp6Row buf (Z.to_nat numEntries) 4
    else Some [].

(** The two system calls: the first asks for the size, the second fills the
    buffer of that size. *)
Record TableCalls := { size_ret : Z; size : Z; fill_ret : Z; filled : list byte }.

Definition getTable (name : string) (parse : list byte -> Z -> option (list Connection)) (family : Z) (c : TableCalls)
    : option (result (list Connection)) :=
  if negb (size_ret c =? ERROR_INSUFFICIENT_BUFFER)
  then Some (Err (ErrNew (name ^^ " expected " ^^ fmt_d ERROR_INSUFFICIENT_BUFFER ^^ ", got " ^^ fmt_d (size_ret c))))
  else if size c =? 0 then None
  else if negb (fill_ret c =? 0)
  then Some (Err (ErrNew (name ^^ " failed with code " ^^ fmt_d (fill_ret c))))
  else let! conns := parse (filled c) family in Some (Ok conns).

Definition getTcpTable := getTable "GetExtendedTcpTable" parseTcpTable.
Definition getUdpTable := getTable "GetExtendedUdpTable" parseUdpTable.

Definition winConnections (tcp4 tcp6 udp4 udp6 : TableCalls) : option (result (list Connection * list string)) :=
  let! t4 := getTcpTable AF_INET tcp4 in
  let! t6 := getTcpTable AF_INET6 tcp6 in
  let! u4 := getUdpTable AF_INET udp4 in
  let! u6 := getUdpTable AF_INET6 udp6 in
  Some (collectTables t4 t6 u4 u6).

(** ** Reference decoding

    A table is a count and rows of fixed size; a field of a row is a range of
    its bytes, addresses and ports are in network byte order. *)
Definition field (r : list byte) (k n : nat) : list byte := take n (drop k r).

Definition be16 (r : list byte) (k : nat) : Z :=
  match field r k 2 with [h; l] => bz h * 256 + bz l | _ => 0 end.

Definition decTcp4 (r : list byte) : Connection := {|
  Conn_Protocol := "TCP"; SrcIP := IPv4_String (field r 4 4); SrcPort := be16 r 8;
  DstIP := IPv4_String (field r 12 4); DstPort := be16 r 16;
  State := winTcpStates (leWord (field r 0 4)); PID := leWord (field r 20 4) |}.

Definition decTcp6 (r : list byte) : Connection := {|
  Conn_Protocol := "TCP"; SrcIP := Addr16_String (field r 0 16); SrcPort := be16 r 20;
  DstIP := Addr16_String (field r 24 16); DstPort := be16 r 44;
  State := winTcpStates (leWord (field r 48 4)); PID := leWord (field r 52 4) |}.

Definition decUdp4 (r : list byte) : Connection := {|
  Conn_Protocol := "UDP"; SrcIP := IPv4_String (field r 0 4); SrcPort := be16 r 4;
  DstIP := "0.0.0.0"; DstPort := 0; State := ""; PID := leWord (field r 8 4) |}.

Definition decUdp6 (r : list byte) : Connection := {|
  Conn_Protocol := "UDP"; SrcIP := Addr16_String (field r 0 16); SrcPort := be16 r 20;
  DstIP := "::"; DstPort := 0; State := ""; PID := leWord (field r 24 4) |}.

(** The rows that are complete, at most [n] of them. *)
Fixpoint completeRows (size n : nat) (data : list byte) : list (list byte) :=
  match n with
  | O => []
  | S n => if (length data <? size)%nat then [] else take size data :: completeRows size n (drop size data)
  end.

Definition decTable (size : nat) (dec : list byte -> Connection) (buf : list byte) : list Connection :=
  if (length buf <? 4)%nat then []
  else map dec (completeRows size (Z.to_nat (leWord (take 4 buf))) (drop 4 buf)).

(** ** Lemmas *)
Lemma bufSlice_in buf lo hi :
  0 <= lo <= hi -> hi <= Z.of_nat (length buf) ->
  bufSlice buf lo hi = Some (field buf (Z.to_nat lo) (Z.to_nat (hi - lo))).
Proof.
  intros Hlo Hhi. unfold bufSlice. rewrite (proj2 (Z.leb_le lo hi)), (proj2 (Z.leb_le hi _)) by lia. done.
Qed.

(** A field of the row at [off] is a field of the buffer. *)
Lemma field_row buf off size k n :
  (k + n <= size)%nat -> field (take size (drop off buf)) k n = field buf (off + k) n.
Proof.
  intros H. unfold field. rewrite skipn_firstn_comm, take_take, drop_drop. f_equal. lia.
Qed.

Lemma readU32_row buf off size k kz :
  Z.of_nat k = kz -> (k + 4 <= size)%nat -> 0 <= off -> off + Z.of_nat size <= Z.of_nat (length buf) ->
  readU32 buf (off + kz) = Some (leWord (field (take size (drop (Z.to_nat off) buf)) k 4)).
Proof.
  intros <- Hk Ho Hl. unfold readU32. rewrite bufSlice_in by lia. cbn. f_equal. f_equal.
  rewrite field_row by done. f_equal; lia.
Qed.

Lemma bufSlice_row buf off size k n kz ez :
  Z.of_nat k = kz -> Z.of_nat (k + n) = ez ->
  (k + n <= size)%nat -> 0 <= off -> off + Z.of_nat size <= Z.of_nat (length buf) ->
  bufSlice buf (off + kz) (off + ez) = Some (field (take size (drop (Z.to_nat off) buf)) k n).
Proof.
  intros <- <- Hk Ho Hl. rewrite bufSlice_in by lia. f_equal. rewrite field_row by done. f_equal; lia.
Qed.

Lemma field_len r k n : (k + n <= length r)%nat -> length (field r k n) = n.
Proof. intros. unfold field. rewrite length_take, length_drop. lia. Qed.

Lemma leWord4 a b c d : leWord [a; b; c; d] = ((bz d * 256 + bz c) * 256 + bz b) * 256 + bz a.
Proof. cbn. lia. Qed.

Lemma ip4_field r k :
  (k + 4 <= length r)%nat -> ip4ToString (leWord (field r k 4)) = IPv4_String (field r k 4).
Proof.
  intros H. pose proof (field_len r k 4 H) as Hl. unfold ip4ToString.
  destruct (field r k 4) as [|a [|b [|c [|d [|]]]]]; try done. by rewrite leWord4, wordBytes_word.
Qed.

Lemma ip6_field r k :
  (k + 16 <= length r)%nat -> ip6ToString (field r k 16) = Addr16_String (field r k 16).
Proof.
  intros H. pose proof (field_len r k 16 H) as Hl. unfold ip6ToString. f_equal.
  rewrite take_app_le by lia. by apply take_ge; lia.
Qed.

(** The port: the two bytes in network order. *)
Lemma ntohs_field r k :
  (k + 4 <= length r)%nat -> ntohs (leWord (field r k 4)) = be16 r k.
Proof.
  intros H. pose proof (field_len r k 4 H) as Hl. unfold be16.
  assert (field r k 2 = take 2 (field r k 4)) as -> by (unfold field; by rewrite take_take).
  destruct (field r k 4) as [|a [|b [|c [|d [|]]]]]; try done. cbn [take].
  pose proof (bz_range a). pose proof (bz_range b). pose proof (bz_range c). pose proof (bz_range d).
  rewrite leWord4. unfold ntohs. set (w := ((bz d * 256 + bz c) * 256 + bz b) * 256 + bz a).
  assert (u16 w = bz b * 256 + bz a) as ->.
  { unfold u16, wrapU. change (2 ^ 16) with 65536. symmetry. apply (Z.mod_unique_pos _ _ (bz d * 256 + bz c)); unfold w; lia. }
  rewrite Z.shiftr_div_pow2 by lia. change (2 ^ 8) with 256.
  rewrite Z.div_add_l, Z.div_small, Z.add_0_r, zb_bz by lia.
  rewrite (zb_mod _ a) by (rewrite Z.add_comm, Z.mod_add, Z.mod_small by lia; done).
  cbn. lia.
Qed.

Lemma u32_small z : 0 <= z < 2 ^ 32 -> u32 z = z.
Proof. intros. unfold u32, wrapU. by apply Z.mod_small. Qed.

(** What the loop needs of a row layout: inside a buffer shorter than 4 GiB
    the reads are in bounds and give the decoded row. *)
Definition rowDecodes (size : nat) (row : list byte -> Z -> option Connection) (dec : list byte -> Connection) : Prop :=
  forall buf off, 0 <= off -> off + Z.of_nat size <= Z.of_nat (length buf) -> Z.of_nat (length buf) < 2 ^ 32 ->
    row buf off = Some (dec (take size (drop (Z.to_nat off) buf))).

Lemma read0 buf off size :
  (4 <= size)%nat -> 0 <= off -> off + Z.of_nat size <= Z.of_nat (length buf) ->
  readU32 buf off = Some (leWord (field (take size (drop (Z.to_nat off) buf)) 0 4)).
Proof. intros. rewrite <- (Z.add_0_r off) at 1. apply (readU32_row buf off size 0 0); lia. Qed.

Lemma slice0 buf off size :
  (16 <= size)%nat -> 0 <= off -> off + Z.of_nat size <= Z.of_nat (length buf) ->
  bufSlice buf off (off + 16) = Some (field (take size (drop (Z.to_nat off) buf)) 0 16).
Proof. intros. rewrite <- (Z.add_0_r off) at 1. apply (bufSlice_row buf off size 0 16 0 16); lia. Qed.

Lemma row_length (buf : list byte) off size :
  0 <= off -> off + Z.of_nat size <= Z.of_nat (length buf) -> length (take size (drop (Z.to_nat off) buf)) = size.
Proof. intros. rewrite length_take, length_drop. lia. Qed.

Lemma tcp4Row_decodes : rowDecodes 24 tcp4Row decTcp4.
Proof.
  intros buf off H0 H1 H2. unfold tcp4Row. rewrite !u32_small by lia.
  pose proof (row_length buf off 24 H0 ltac:(lia)) as Hlen.
  rewrite (read0 buf off 24) by lia.
  rewrite (readU32_row buf off 24 4 4), (readU32_row buf off 24 8 8), (readU32_row buf off 24 12 12),
    (readU32_row buf off 24 16 16), (readU32_row buf off 24 20 20) by lia.
  cbn [mbind option_bind]. by rewrite !ip4_field, !ntohs_field by lia.
Qed.

Lemma tcp6Row_decodes : rowDecodes 56 tcp6Row decTcp6.
Proof.
  intros buf off H0 H1 H2. unfold tcp6Row. rewrite !u32_small by lia.
  pose proof (row_length buf off 56 H0 ltac:(lia)) as Hlen.
  rewrite (slice0 buf off 56), (bufSlice_row buf off 56 24 16 24 40) by lia.
  rewrite (readU32_row buf off 56 20 20), (readU32_row buf off 56 44 44), (readU32_row buf off 56 48 48),
    (readU32_row buf off 56 52 52) by lia.
  cbn [mbind option_bind]. by rewrite !ip6_field, !ntohs_field by lia.
Qed.

Lemma udp4Row_decodes : rowDecodes 12 udp4Row decUdp4.
Proof.
  intros buf off H0 H1 H2. unfold udp4Row. rewrite !u32_small by lia.
  pose proof (row_length buf off 12 H0 ltac:(lia)) as Hlen.
  rewrite (read0 buf off 12) by lia.
  rewrite (readU32_row buf off 12 4 4), (readU32_row buf off 12 8 8) by lia.
  cbn [mbind option_bind]. by rewrite ip4_field, ntohs_field by lia.
Qed.

Lemma udp6Row_decodes : rowDecodes 28 udp6Row decUdp6.
Proof.
  intros buf off H0 H1 H2. unfold udp6Row. rewrite !u32_small by lia.
  pose proof (row_length buf off 28 H0 ltac:(lia)) as Hlen.
  rewrite (slice0 buf off 28) by lia.
  rewrite (readU32_row buf off 28 20 20), (readU32_row buf off 28 24 24) by lia.
  cbn [mbind option_bind]. by rewrite ip6_field, ntohs_field by lia.
Qed.

Lemma tableLoop_rows size row dec buf n off :
  rowDecodes size row dec -> (0 < size)%nat ->
  Z.of_nat (length buf) + Z.of_nat size < 2 ^ 32 -> 0 <= off <= Z.of_nat (length buf) ->
  tableLoop (Z.of_nat size) row buf n off = Some (map dec (completeRows size n (drop (Z.to_nat off) buf))).
Proof.
  intros Hrow Hs Hlen. revert off. induction n as [|n IH]; intros off Hoff; [done|].
  cbn [tableLoop completeRows]. rewrite !u32_small by lia. rewrite length_drop.
  destruct (Z.ltb_spec (Z.of_nat (length buf)) (off + Z.of_nat size)), (Nat.ltb_spec (length buf - Z.to_nat off) size); try lia; [done|].
  rewrite (Hrow buf off) by lia. cbn [mbind option_bind]. rewrite IH by lia. cbn [mbind option_bind map].
  rewrite drop_drop. by replace (Z.to_nat (off + Z.of_nat size)) with (Z.to_nat off + size)%nat by lia.
Qed.

Lemma readCount buf :
  (4 <= length buf)%nat -> readU32 buf 0 = Some (leWord (take 4 buf)).
Proof. intros H. unfold readU32. by rewrite bufSlice_in by lia. Qed.

Lemma table_decodes size row dec buf :
  rowDecodes size row dec -> (0 < size <= 56)%nat -> Z.of_nat (length buf) < 2 ^ 32 - 56 -> (4 <= length buf)%nat ->
  (let! n := readU32 buf 0 in tableLoop (Z.of_nat size) row buf (Z.to_nat n) 4) = Some (decTable size dec buf).
Proof.
  intros Hrow Hs Hlen H4. rewrite readCount by done. cbn [mbind option_bind].
  rewrite (tableLoop_rows size row dec) by (done || lia). unfold decTable.
  by rewrite (proj2 (Nat.ltb_ge _ _) H4).
Qed.

(** ** Properties *)

(** C25: The four Windows table parsers compute the reference decoding.  For any
    buffer under 4 GiB less one row, whatever count it announces, they read
    only inside the buffer, and return the fields of the complete rows, at
    most as many as announced: addresses and ports in network byte order,
    state and process id little-endian.  A buffer too short for the count
    gives no connection. *)
Theorem windows_tables_decode buf :
  Z.of_nat (length buf) < 2 ^ 32 - 56 ->
  parseTcpTable buf AF_INET = Some (decTable 24 decTcp4 buf) /\
  parseTcpTable buf AF_INET6 = Some (decTable 56 decTcp6 buf) /\
  parseUdpTable buf AF_INET = Some (decTable 12 decUdp4 buf) /\
  parseUdpTable buf AF_INET6 = Some (decTable 28 decUdp6 buf).
Proof.
  intros Hlen. unfold parseTcpTable, parseUdpTable.
  destruct (Z.ltb_spec (Z.of_nat (length buf)) 4) as [Hs|Hs].
  { unfold decTable. by rewrite (proj2 (Nat.ltb_lt (length buf) 4)) by lia. }
  split_and!.
  - exact (table_decodes 24 _ _ buf tcp4Row_decodes ltac:(lia) Hlen ltac:(lia)).
  - exact (table_decodes 56 _ _ buf tcp6Row_decodes ltac:(lia) Hlen ltac:(lia)).
  - exact (table_decodes 12 _ _ buf udp4Row_decodes ltac:(lia) Hlen ltac:(lia)).
  - exact (table_decodes 28 _ _ buf udp6Row_decodes ltac:(lia) Hlen ltac:(lia)).
Qed.

(** A UDP table that announces three rows and holds one and a half. *)
Definition udpBuffer : list byte :=
  [x03; x00; x00; x00] ++ [x0a; x00; x00; x05] ++ [x01; xbb; x00; x00] ++ [x39; x05; x00; x00]
  ++ [x0a; x00; x00; x06; x00; x35].

Lemma windows_tables_decode_witness :
  parseUdpTable udpBuffer AF_INET =
  Some [{| Conn_Protocol := "UDP"; SrcIP := "10.0.0.5"; SrcPort := 443; DstIP := "0.0.0.0"; DstPort := 0;
           State := ""; PID := 1337 |}].
Proof.
  destruct (windows_tables_decode udpBuffer ltac:(vm_compute; reflexivity)) as (_ & _ & -> & _).
  vm_compute. reflexivity.
Defined.
