(* ===== verification/Inventory.v ===== *)
(** The inventory collector (agent/internal/collectors/inventory/collector.go):
    the host snapshot.  Host name, interfaces and their addresses, platform
    constants, id and clock are inputs. *)
From S2P Require Import Prelude GoStrings GoTime Events Collectors.
From S2P Require Config GoUrl.

Local Open Scope string_scope.
Local Open Scope list_scope.
Open Scope Z_scope.

(** A [net.Interface] and the texts of its addresses. *)
Record Iface := { Iface_Name : string; HardwareAddr : list byte; Addrs : result (list string) }.

(** What the operating system answers for one snapshot. *)
Record HostReading := {
  Hostname : result string;
  Interfaces : result (list Iface);
  GOOS : string;
  GOARCH : string;
  NumCPU : Z;
  hr_id : string;
  hr_time : Time;
  hr_select : SelectCase * SelectCase;
}.

Definition invCollector := CollectorState.
Definition newInvCollector : invCollector := newCollectorState.
Definition invStart : invCollector -> invCollector * option error := collectorStart.
Definition invStop : invCollector -> invCollector := collectorStop.

Definition ifaceEntry (i : Iface) : MetaValue :=
  VMap [("name", VStr (Iface_Name i)); ("mac", VStr (HardwareAddr_String (HardwareAddr i)));
        ("ips", VStrings (match Addrs i with Ok ips => ips | Err _ => [] end))].

Definition inventoryEvent (cfg : Config.Config) (r : HostReading) (hostname : string)
    (interfacesInfo : list MetaValue) (qualityFlags : list string) : CanonicalEvent :=
  let m : MetaMap := <["hostname" := VStr hostname]> (<["os" := VStr (GOOS r)]>
                     (<["arch" := VStr (GOARCH r)]> (<["num_cpu" := VInt (NumCPU r)]> ∅))) in
  let m := match interfacesInfo with [] => m | _ => <["interfaces" := VList interfacesInfo]> m end in
  {| EventID := hr_id r; TenantID := Config.TenantID cfg; SiteID := Config.SiteID cfg; AssetID := ""; SensorID := "";
     OccurredAt := hr_time r; ReceivedAt := zeroTime; SeqNo := 0; Source := "agent"; Category := "inventory";
     Severity := "INFO"; Confidence := None; Protocol := ""; Src := ""; Dst := ""; Action := "INVENTORY_SNAPSHOT";
     Metadata := Some m; RuleID := ""; RuleVersion := ""; AttckEnterprise := []; AttckICS := [];
     QualityFlags := qualityFlags; SchemaVersion := CurrentSchemaVersion |}.

Definition invTakeSnapshot (cfg : Config.Config) (r : HostReading) : list CanonicalEvent :=
  let '(hostname, flags) := match Hostname r with
                            | Ok h => (h, [])
                            | Err _ => ("unknown", ["HOSTNAME_UNAVAILABLE"])
                            end in
  let '(info, flags) := match Interfaces r with
                        | Ok ifaces => (map ifaceEntry ifaces, flags)
                        | Err _ => ([], flags ++ ["INTERFACES_UNAVAILABLE"])
                        end in
  let failed := match Interfaces r with Err _ => true | Ok _ => false end in
  if failed && (hostname =s "unknown") then []
  else if delivered (hr_select r) then [inventoryEvent cfg r hostname info flags] else [].

Definition inventoryInterval (cfg : Config.Config) : Duration :=
  snapshotInterval (86400 * Second) (Config.InventoryInterval cfg).

Definition invRun (cfg : Config.Config) : HostReading -> list HostReading -> list CanonicalEvent :=
  runSnapshots (inventoryInterval cfg) (invTakeSnapshot cfg).

(** ** Lemmas *)
Lemma inventoryEvent_valid uuid_Parse parseAuthority cfg r hostname info flags :
  Config.Config_Validate parseAuthority cfg = None -> uuid_Parse (hr_id r) = None -> hr_time r <> zeroTime ->
  Event_Validate uuid_Parse (inventoryEvent cfg r hostname info flags) = None.
Proof.
  intros Hcfg Hid Ht. destruct (Config.Validate_identifiers _ _ Hcfg) as [H1 H2].
  apply Validate_complete; [done|]. split; cbn; try done.
  - set_solver.
  - repeat constructor; vm_compute; congruence.
Qed.

Lemma inventory_metadata cfg r h info flags :
  exists m, Metadata (inventoryEvent cfg r h info flags) = Some m /\ m !! "hostname" = Some (VStr h) /\
    (info <> [] -> m !! "interfaces" = Some (VList info)).
Proof.
  unfold inventoryEvent. destruct info as [|i info]; eexists; (split; [reflexivity|]).
  - split; [|done]. by rewrite lookup_insert_eq.
  - split; [|intros _; by rewrite lookup_insert_eq]. rewrite lookup_insert_ne by done. by rewrite lookup_insert_eq.
Qed.

(** Which of the two readings failed, as flags. *)
Definition readingFlags (r : HostReading) : list string :=
  match Hostname r with Ok _ => [] | Err _ => ["HOSTNAME_UNAVAILABLE"] end
  ++ match Interfaces r with Ok _ => [] | Err _ => ["INTERFACES_UNAVAILABLE"] end.

(** An inventory snapshot is honest about what it could not read: at most
    one event, none when both the host name and the interfaces are
    unavailable, and otherwise, once delivered, its flags are exactly the
    failed readings, its host name is the one read and its interfaces are the
    ones listed, each with the addresses that could be read; the event passes
    the schema whenever the configuration was validated.  A host whose name
    really is unknown counts as unreadable. *)
Theorem inventory_honest uuid_Parse parseAuthority cfg r :
  Config.Config_Validate parseAuthority cfg = None -> uuid_Parse (hr_id r) = None -> hr_time r <> zeroTime ->
  (invTakeSnapshot cfg r = [] <->
     delivered (hr_select r) = false \/
     (exists e, Interfaces r = Err e) /\ ((exists e, Hostname r = Err e) \/ Hostname r = Ok "unknown")) /\
  (forall ev, ev ∈ invTakeSnapshot cfg r ->
     invTakeSnapshot cfg r = [ev] /\ QualityFlags ev = readingFlags r /\
     Event_Validate uuid_Parse ev = None /\
     (forall h, Hostname r = Ok h -> exists m, Metadata ev = Some m /\ m !! "hostname" = Some (VStr h)) /\
     (forall ifs, Interfaces r = Ok ifs -> ifs <> [] ->
        exists m, Metadata ev = Some m /\ m !! "interfaces" = Some (VList (map ifaceEntry ifs)))).
Proof.
  intros Hcfg Hid Ht.
  pose proof (fun h i f => inventoryEvent_valid uuid_Parse parseAuthority cfg r h i f Hcfg Hid Ht) as Hv.
  unfold invTakeSnapshot, readingFlags.
  assert (forall h info flags, (if delivered (hr_select r) then [inventoryEvent cfg r h info flags] else []) = []
          <-> delivered (hr_select r) = false) as Hd by (intros; by destruct (delivered (hr_select r))).
  assert (forall h info flags ev, ev ∈ (if delivered (hr_select r) then [inventoryEvent cfg r h info flags] else []) ->
          (if delivered (hr_select r) then [inventoryEvent cfg r h info flags] else []) = [ev] /\
          ev = inventoryEvent cfg r h info flags) as Hin.
  { intros h info flags ev. destruct (delivered (hr_select r)); [|by intros ?%elem_of_nil].
    by intros ->%list_elem_of_singleton. }
  destruct (Hostname r) as [h|eh], (Interfaces r) as [ifs|ei]; cbn [andb app].
  - split; [rewrite Hd; naive_solver|]. intros ev [-> ->]%Hin. split_and!; [done|done|apply Hv|..].
    + intros ? [= <-]. destruct (inventory_metadata cfg r h (map ifaceEntry ifs) []) as (m & ? & ? & _). by exists m.
    + intros ? [= <-] Hne. destruct (inventory_metadata cfg r h (map ifaceEntry ifs) []) as (m & ? & _ & Hm).
      exists m. split; [done|]. apply Hm. by destruct ifs.
  - destruct (String.eqb_spec h "unknown") as [->|Hne].
    + split; [|by intros ev ?%elem_of_nil]. split; [|done]. intros _. right. split; [by eexists|by right].
    + split; [rewrite Hd; naive_solver|]. intros ev [-> ->]%Hin. split_and!; [done|done|apply Hv| |done].
      intros ? [= <-]. destruct (inventory_metadata cfg r h [] ["INTERFACES_UNAVAILABLE"]) as (m & ? & ? & _). by exists m.
  - split; [rewrite Hd; naive_solver|]. intros ev [-> ->]%Hin. split_and!; [done|done|apply Hv|done|].
    intros ? [= <-] Hne.
    destruct (inventory_metadata cfg r "unknown" (map ifaceEntry ifs) ["HOSTNAME_UNAVAILABLE"]) as (m & ? & _ & Hm).
    exists m. split; [done|]. apply Hm. by destruct ifs.
  - change ("unknown" =s "unknown") with true. cbv iota.
    split; [|by intros ev ?%elem_of_nil]. split; [|done]. intros _. right. split; [by eexists|left; by eexists].
Qed.

Definition plcGateway : HostReading := {|
  Hostname := Err (ErrNew "sethostname: not permitted");
  Interfaces := Ok [{| Iface_Name := "eth0"; HardwareAddr := [x00; x1b; x1b; x0a; x0b; x0c]; Addrs := Ok ["10.0.0.5/24"] |}];
  GOOS := "linux"; GOARCH := "arm64"; NumCPU := 4; hr_id := "e-2"; hr_time := 7; hr_select := (SendTimer, SendOut) |}.

Lemma inventory_honest_witness :
  exists ev, invTakeSnapshot Config.lanConfig plcGateway = [ev] /\ QualityFlags ev = ["HOSTNAME_UNAVAILABLE"] /\
    Event_Validate (fun _ => None) ev = None.
Proof.
  destruct (inventory_honest (fun _ => None) GoUrl.plainAuthority Config.lanConfig plcGateway) as [_ H];
    [vm_compute; reflexivity|reflexivity|discriminate|].
  destruct (invTakeSnapshot Config.lanConfig plcGateway) as [|ev evs] eqn:E; [vm_compute in E; discriminate|].
  destruct (H ev) as (H1 & H2 & H3 & _); [by left|]. exists ev. split_and!; [exact H1|exact H2|exact H3].
Defined.
