(* ===== verification/Filesystem.v ===== *)
(** The file-system collector
    (agent/internal/collectors/filesystem/collector.go).  The watcher is
    fsnotify: its notifications, what [event.Has] answers for each operation
    and the results of its calls are inputs, as are [filepath.Abs] and
    [os.Stat]. *)
From S2P Require Import Prelude GoStrings GoTime Events Collectors.
From S2P Require Config.

Local Open Scope string_scope.
Local Open Scope list_scope.
Open Scope Z_scope.

Inductive FsOp := Create | Write | Remove | Rename.

(** One notification with what the code asks about it. *)
Record FsEvent := {
  Event_Name : string;
  Has : FsOp -> bool;
  stat_info : result (Z * bool);          (* Size(), IsDir() *)
  abs_path : result string;
  fe_id : string;
  fe_time : Time;
  fe_select : SelectCase * SelectCase;
}.

Definition fileAction (e : FsEvent) : string :=
  if Has e Create then "FILE_CREATE"
  else if Has e Write then "FILE_MODIFY"
  else if Has e Remove then "FILE_DELETE"
  else if Has e Rename then "FILE_RENAME"
  else "".

(** The event of a notification with an action. *)
Definition fileEvent (cfg : Config.Config) (e : FsEvent) (action : string) : CanonicalEvent :=
  let info := if negb (action =s "FILE_DELETE") && negb (action =s "FILE_RENAME")
              then match stat_info e with Ok i => Some i | Err _ => None end else None in
  let path := match abs_path e with Ok p => p | Err _ => Event_Name e end in
  let m : MetaMap := <["file_path" := VStr path]> ∅ in
  let m := match info with Some (size, _) => <["size" := VInt64 size]> m | None => m end in
  let m := match info with Some (_, true) => <["is_dir" := VBool true]> m | _ => m end in
  {| EventID := fe_id e; TenantID := Config.TenantID cfg; SiteID := Config.SiteID cfg; AssetID := ""; SensorID := "";
     OccurredAt := fe_time e; ReceivedAt := zeroTime; SeqNo := 0; Source := "agent"; Category := "filesystem";
     Severity := "INFO"; Confidence := None; Protocol := ""; Src := ""; Dst := ""; Action := action;
     Metadata := Some m; RuleID := ""; RuleVersion := ""; AttckEnterprise := []; AttckICS := [];
     QualityFlags := []; SchemaVersion := CurrentSchemaVersion |}.

Definition handleEvent (cfg : Config.Config) (e : FsEvent) : list CanonicalEvent :=
  let action := fileAction e in
  if action =s "" then []
  else if delivered (fe_select e) then [fileEvent cfg e action] else [].

(** ** The collector *)

(** [fs_watcher]: the watcher exists; [fs_watched]: the paths it accepted. *)
Record FsCollector := { fs_watcher : bool; fs_watched : list string; fs_cancel : bool; fs_running : bool }.

Definition NewFsCollector : FsCollector :=
  {| fs_watcher := false; fs_watched := []; fs_cancel := false; fs_running := false |}.

(** The loop over the configured paths: a path that cannot be resolved or
    watched is skipped. *)
Fixpoint addPaths (Abs : string -> result string) (Add : string -> option error) (paths : list string) : list string :=
  match paths with
  | [] => []
  | p :: paths =>
      match Abs p with
      | Err _ => addPaths Abs Add paths
      | Ok absPath =>
          match Add absPath with
          | Some _ => addPaths Abs Add paths
          | None => absPath :: addPaths Abs Add paths
          end
      end
  end.

Definition fsStart (cfg : Config.Config) (newWatcher : option error) (Abs : string -> result string)
    (Add : string -> option error) (c : FsCollector) : FsCollector * option error :=
  match Config.MonitorPaths cfg with
  | [] => (c, None)
  | paths =>
      match newWatcher with
      | Some e => (c, Some (ErrWrap ("failed to create fsnotify watcher: " ^^ error_Error e) [e]))
      | None => ({| fs_watcher := true; fs_watched := addPaths Abs Add paths; fs_cancel := true; fs_running := true |}, None)
      end
  end.

(** When closing the watcher fails [Stop] returns without waiting. *)
Definition fsStop (closeErr : option error) (c : FsCollector) : FsCollector * option error :=
  match (if fs_watcher c then closeErr else None) with
  | Some e => ({| fs_watcher := fs_watcher c; fs_watched := fs_watched c; fs_cancel := false;
                  fs_running := fs_running c |}, Some e)
  | None => ({| fs_watcher := fs_watcher c; fs_watched := fs_watched c; fs_cancel := false; fs_running := false |}, None)
  end.

(** What the select of [run] takes: the context, a notification, an error of
    the watcher, or one of its channels closed. *)
Inductive FsSelect := FsCtxDone | FsNotify (e : FsEvent) | FsClosed | FsError (e : error).

Fixpoint fsRun (cfg : Config.Config) (steps : list FsSelect) : list CanonicalEvent :=
  match steps with
  | [] | FsCtxDone :: _ | FsClosed :: _ => []
  | FsNotify e :: steps => handleEvent cfg e ++ fsRun cfg steps
  | FsError _ :: steps => fsRun cfg steps
  end.

(** ** Lemmas *)
Lemma fileEvent_valid uuid_Parse parseAuthority cfg e action :
  Config.Config_Validate parseAuthority cfg = None -> uuid_Parse (fe_id e) = None -> fe_time e <> zeroTime ->
  go_len action <= 128 ->
  Event_Validate uuid_Parse (fileEvent cfg e action) = None.
Proof.
  intros Hcfg Hid Ht Ha. destruct (Config.Validate_identifiers _ _ Hcfg) as [H1 H2].
  pose proof (runeCount_le_len action) as Hr.
  apply Validate_complete; [done|]. split; cbn; try done.
  - set_solver.
  - unfold limitedFields. rewrite !Forall_cons. cbn [fst snd fileEvent AssetID SensorID Source Category Protocol Src Dst Action RuleID RuleVersion].
    split_and!; try (vm_compute; congruence); [lia|constructor].
Qed.

Lemma fileAction_cases e :
  fileAction e ∈ ["FILE_CREATE"; "FILE_MODIFY"; "FILE_DELETE"; "FILE_RENAME"; ""].
Proof. unfold fileAction. repeat case_match; set_solver. Qed.

Lemma fileEvent_size cfg e action :
  exists m, Metadata (fileEvent cfg e action) = Some m /\
    m !! "file_path" = Some (VStr (match abs_path e with Ok p => p | Err _ => Event_Name e end)) /\
    m !! "size" = (if negb (action =s "FILE_DELETE") && negb (action =s "FILE_RENAME")
                   then match stat_info e with Ok (size, _) => Some (VInt64 size) | Err _ => None end else None).
Proof.
  unfold fileEvent. destruct (_ && _); [destruct (stat_info e) as [[size []]|err]|];
    eexists; (split; [reflexivity|]); split;
    repeat (rewrite lookup_insert_ne by done); by rewrite ?lookup_insert_eq, ?lookup_empty.
Qed.

(** Notifications the collector reports. *)
Definition reports (e : FsEvent) : bool := Has e Create || Has e Write || Has e Remove || Has e Rename.

(** Everything taken from the watcher before the loop ends. *)
Fixpoint taken (steps : list FsSelect) : list FsEvent :=
  match steps with
  | [] | FsCtxDone :: _ | FsClosed :: _ => []
  | FsNotify e :: steps => e :: taken steps
  | FsError _ :: steps => taken steps
  end.

(** The file-system collector reports each observed operation once and in
    order.  Over any run of its loop, the delivered events correspond one to
    one, in order, to the notifications that were taken, are of a create,
    write, remove or rename, and were not cut off by the end of the context;
    a stalled pipeline delays an event and does not drop it.  Each carries the
    action of its most significant operation and the absolute path (the
    reported one when it cannot be resolved); a size appears exactly for a
    created or written file that could be examined, never for one that is
    gone. *)
Theorem filesystem_reports_each cfg steps :
  let kept := filter (fun e => reports e && delivered (fe_select e) = true) (taken steps) in
  Forall2 (fun e ev =>
    EventID ev = fe_id e /\ OccurredAt ev = fe_time e /\ Action ev = fileAction e /\ Action ev <> "" /\
    exists m, Metadata ev = Some m /\
      m !! "file_path" = Some (VStr (match abs_path e with Ok p => p | Err _ => Event_Name e end)) /\
      (is_Some (m !! "size") <-> (Has e Create || Has e Write) = true /\ exists i, stat_info e = Ok i))
    kept (fsRun cfg steps).
Proof.
  induction steps as [|[|e| |err] steps IH]; cbn [taken fsRun]; try constructor; [|exact IH].
  rewrite filter_cons. unfold handleEvent.
  assert ((fileAction e =s "") = negb (reports e)) as ->.
  { unfold fileAction, reports. by destruct (Has e Create), (Has e Write), (Has e Remove), (Has e Rename). }
  destruct (reports e) eqn:Hr; cbn [negb andb].
  2:{ rewrite decide_False by done. exact IH. }
  destruct (delivered (fe_select e)); [|rewrite decide_False by done; exact IH].
  rewrite decide_True by done. constructor; [|exact IH].
  split_and!; [done|done|done| |].
  - cbn. unfold fileAction, reports in *. by destruct (Has e Create), (Has e Write), (Has e Remove), (Has e Rename).
  - destruct (fileEvent_size cfg e (fileAction e)) as (m & Hm & Hp & Hs). exists m. split_and!; [done|done|]. rewrite Hs.
    unfold fileAction, reports in *.
    destruct (Has e Create), (Has e Write), (Has e Remove), (Has e Rename), (stat_info e) as [[size d]|err]; cbn;
      split; try done; try (by intros [? _]); try (intros [_ [? ?]]; done); try (by intros [? ?]); eauto.
Qed.
