(* ===== verification/Usb.v ===== *)
(** The USB collector (agent/internal/collectors/usb/collector.go, usb_linux.go,
    usb_windows.go): kernel uevents, Windows device paths, the events emitted.

    [strings.ToLower] of text that is not ASCII follows the Unicode tables and
    is a parameter; so is UTF-16 decoding of a device name. *)
From S2P Require Import Prelude GoStrings GoText GoTime GoParse Events Collectors.
From S2P Require Config.
From Stdlib Require Import Strings.Ascii.

Local Open Scope string_scope.
Local Open Scope list_scope.
Open Scope Z_scope.

Record USBEvent := {
  usb_Action : string;
  VendorID : string;
  ProductID : string;
  SerialNumber : string;
  DevicePath : string;
  usb_OccurredAt : Time;
}.

Definition emptyUSBEvent : USBEvent := {|
  usb_Action := ""; VendorID := ""; ProductID := ""; SerialNumber := ""; DevicePath := ""; usb_OccurredAt := zeroTime |}.

Definition isASCII (s : string) : bool := allChars (fun a => (Ascii.nat_of_ascii a <? 128)%nat) s.

(** ** Windows device paths *)

(** [p] matches at the start of [s] up to ASCII case; the rest of [s]. *)
Fixpoint stripFold (p s : string) : option string :=
  match p, s with
  | EmptyString, _ => Some s
  | String a p, String b s => if Ascii.eqb (asciiLower a) (asciiLower b) then stripFold p s else None
  | String _ _, EmptyString => None
  end.

(** Four hexadecimal digits and the rest. *)
Definition take4Hex (s : string) : option (string * string) :=
  match s with
  | String a (String b (String c (String d r))) =>
      if isHex a && isHex b && isHex c && isHex d
      then Some (String a (String b (String c (String d ""))), r) else None
  | _ => None
  end.

(** The submatches of [(?i)VID_([0-9A-F]{4})&PID_([0-9A-F]{4})] at the start. *)
Definition matchVidPid (s : string) : option (string * string) :=
  let! r1 := stripFold "VID_" s in
  let! (vid, r2) := take4Hex r1 in
  let! r3 := stripFold "&PID_" r2 in
  let! (pid, _) := take4Hex r3 in
  Some (vid, pid).

(** The leftmost match. *)
Fixpoint findVidPid (s : string) : option (string * string) :=
  match matchVidPid s with
  | Some m => Some m
  | None => match s with EmptyString => None | String _ r => findVidPid r end
  end.

(** The submatches are ASCII. *)
Definition parseDevicePath (path : string) : string * string * string :=
  let '(vid, pid) := match findVidPid path with
                     | Some (v, p) => (lowerString v, lowerString p)
                     | None => ("", "")
                     end in
  let serial := match Split path "#"%char with
                | _ :: _ :: s :: _ :: _ =>
                    if negb (s =s "") && noChar "&"%char s then s else ""
                | _ => ""
                end in
  (vid, pid, serial).

(** ** Linux uevents *)

(** [for len(s) > 0 && len(s) < 4 { s = "0" + s }]; three turns are enough. *)
Fixpoint padLoop (fuel : nat) (s : string) : string :=
  match fuel with
  | O => s
  | S fuel => if (0 <? go_len s) && (go_len s <? 4) then padLoop fuel ("0" ^^ s) else s
  end.

(** The variables of [parseUevent]'s loop. *)
Record UeventVars := { uv_ev : USBEvent; uv_subsystem : string; uv_devtype : string; uv_action : string }.

Section Usb.
Context (unicodeLower : string -> string).

Definition ToLower (s : string) : string := if isASCII s then lowerString s else unicodeLower s.

(** The PRODUCT value: the first two parts of [VID/PID/REV]. *)
Definition productIDs (val : string) : option (string * string) :=
  match Split val "/"%char with
  | p0 :: p1 :: _ => Some (padLoop 3 (ToLower p0), padLoop 3 (ToLower p1))
  | _ => None
  end.

Definition ueventField (v : UeventVars) (part : string) : UeventVars :=
  if part =s "" then v
  else match IndexByte part "="%char with
  | None => v
  | Some idx =>
      let key := prefixString idx part in
      let val := suffixString (S idx) part in
      let ev := uv_ev v in
      if key =s "ACTION" then
        {| uv_ev := ev; uv_subsystem := uv_subsystem v; uv_devtype := uv_devtype v; uv_action := val |}
      else if key =s "SUBSYSTEM" then
        {| uv_ev := ev; uv_subsystem := val; uv_devtype := uv_devtype v; uv_action := uv_action v |}
      else if key =s "DEVTYPE" then
        {| uv_ev := ev; uv_subsystem := uv_subsystem v; uv_devtype := val; uv_action := uv_action v |}
      else
        let ev :=
          if key =s "DEVPATH" then
            {| usb_Action := usb_Action ev; VendorID := VendorID ev; ProductID := ProductID ev;
               SerialNumber := SerialNumber ev; DevicePath := val; usb_OccurredAt := usb_OccurredAt ev |}
          else if key =s "PRODUCT" then
            match productIDs val with
            | Some (vid, pid) =>
                {| usb_Action := usb_Action ev; VendorID := vid; ProductID := pid;
                   SerialNumber := SerialNumber ev; DevicePath := DevicePath ev; usb_OccurredAt := usb_OccurredAt ev |}
            | None => ev
            end
          else if key =s "SERIAL" then
            {| usb_Action := usb_Action ev; VendorID := VendorID ev; ProductID := ProductID ev;
               SerialNumber := val; DevicePath := DevicePath ev; usb_OccurredAt := usb_OccurredAt ev |}
          else ev in
        {| uv_ev := ev; uv_subsystem := uv_subsystem v; uv_devtype := uv_devtype v; uv_action := uv_action v |}
  end.

(** [None]: the Go result [false]; [now] is [time.Now().UTC()]. *)
Definition parseUevent (payload : string) (now : Time) : option USBEvent :=
  let v := foldl ueventField {| uv_ev := emptyUSBEvent; uv_subsystem := ""; uv_devtype := ""; uv_action := "" |}
             (Split payload (ascii_of_nat 0)) in
  if negb (uv_subsystem v =s "usb") || negb (uv_devtype v =s "usb_device") then None
  else
    let emit action :=
      let ev := uv_ev v in
      Some {| usb_Action := action; VendorID := VendorID ev; ProductID := ProductID ev;
              SerialNumber := SerialNumber ev; DevicePath := DevicePath ev; usb_OccurredAt := now |} in
    if uv_action v =s "add" then emit "USB_INSERT"
    else if uv_action v =s "remove" then emit "USB_REMOVE"
    else None.

(** What one turn of the receive loop meets: a done context, a payload with
    the time it is parsed and whether the channel took the event before the
    context ended, a transient error, a fatal one. *)
Inductive RecvStep := RecvCtxDone | Recv (payload : string) (now : Time) (sent : bool) | RecvRetry | RecvFatal (e : error).

Fixpoint watchUevents (steps : list RecvStep) : list USBEvent * option error :=
  match steps with
  | [] | RecvCtxDone :: _ => ([], None)
  | RecvRetry :: steps => watchUevents steps
  | RecvFatal e :: _ => ([], Some (ErrWrap ("netlink recvfrom failed: " ^^ error_Error e) [e]))
  | Recv payload now sent :: steps =>
      match (if (payload =s "") || (8192 <? go_len payload) then None else parseUevent payload now) with
      | None => watchUevents steps
      | Some ev => if sent then let '(evs, e) := watchUevents steps in (ev :: evs, e) else ([], None)
      end
  end.

(** [defaultStartOSWatcher] on Linux: the netlink socket, then the loop; the
    flag says that the socket was opened and has been closed again. *)
Definition linuxStartOSWatcher (socket bind timeout : option error) (steps : list RecvStep)
    : list USBEvent * option error * bool :=
  match socket with
  | Some e => ([], Some (ErrWrap ("failed to create netlink socket: " ^^ error_Error e) [e]), false)
  | None =>
      match bind, timeout with
      | Some e, _ => ([], Some (ErrWrap ("failed to bind netlink socket: " ^^ error_Error e) [e]), true)
      | None, Some e => ([], Some (ErrWrap ("failed to set SO_RCVTIMEO: " ^^ error_Error e) [e]), true)
      | None, None => (watchUevents steps, true)
      end
  end.
End Usb.

(** ** Windows messages *)

Definition WM_DEVICECHANGE : Z := 537.
Definition DBT_DEVICEARRIVAL : Z := 32768.
Definition DBT_DEVICEREMOVECOMPLETE : Z := 32772.
Definition DBT_DEVTYP_DEVICEINTERFACE : Z := 5.

(** The name up to its terminator; without one in the 1024 units it is empty. *)
Fixpoint untilZero (name : list Z) : option (list Z) :=
  match name with
  | [] => None
  | v :: name => if v =? 0 then Some [] else cons v <$> untilZero name
  end.

Definition deviceName (name : list Z) : list Z := default [] (untilZero (take 1024 name)).

(** The device-change message of [wndProc]: [lParam] is nil or points to the
    device type and the name; [watching]: [watcherOut != nil]. *)
Definition deviceChange (utf16 : list Z -> string) (msg wParam : Z) (lParam : option (Z * list Z)) (watching : bool)
    (now : Time) : option USBEvent :=
  if negb (msg =? WM_DEVICECHANGE) then None
  else if negb ((wParam =? DBT_DEVICEARRIVAL) || (wParam =? DBT_DEVICEREMOVECOMPLETE)) then None
  else match lParam with
  | None => None
  | Some (devicetype, name) =>
      if negb (devicetype =? DBT_DEVTYP_DEVICEINTERFACE) then None
      else
        let pathStr := utf16 (deviceName name) in
        let action := if wParam =? DBT_DEVICEREMOVECOMPLETE then "USB_REMOVE" else "USB_INSERT" in
        let '(vid, pid, serial) := parseDevicePath pathStr in
        if watching then
          Some {| usb_Action := action; VendorID := vid; ProductID := pid; SerialNumber := serial;
                  DevicePath := pathStr; usb_OccurredAt := now |}
        else None
  end.

(** ** The collector *)

Definition usbCollector := CollectorState.
Definition newUsbCollector : usbCollector := newCollectorState.
Definition usbStart : usbCollector -> usbCollector * option error := collectorStart.
Definition usbStop : usbCollector -> usbCollector := collectorStop.

Definition metaIf (key value : string) (m : MetaMap) : MetaMap :=
  if value =s "" then m else <[key := VStr value]> m.

Definition usbCanonical (cfg : Config.Config) (id : string) (u : USBEvent) : CanonicalEvent :=
  let m := metaIf "device_path" (DevicePath u) (metaIf "serial_number" (SerialNumber u)
             (metaIf "product_id" (ProductID u) (metaIf "vendor_id" (VendorID u) ∅))) in
  {| EventID := id; TenantID := Config.TenantID cfg; SiteID := Config.SiteID cfg; AssetID := ""; SensorID := "";
     OccurredAt := usb_OccurredAt u; ReceivedAt := zeroTime; SeqNo := 0; Source := "agent"; Category := "usb";
     Severity := "INFO"; Confidence := None; Protocol := ""; Src := ""; Dst := ""; Action := usb_Action u;
     Metadata := Some m; RuleID := ""; RuleVersion := ""; AttckEnterprise := []; AttckICS := [];
     QualityFlags := []; SchemaVersion := CurrentSchemaVersion |}.

Definition emitEvent (cfg : Config.Config) (id : string) (sel : SelectCase * SelectCase) (u : USBEvent)
    : list CanonicalEvent :=
  if delivered sel then [usbCanonical cfg id u] else [].

(** What the select of [run] takes. *)
Inductive UsbSelect := UsbCtxDone | UsbClosed | UsbReceived (u : USBEvent) (id : string) (sel : SelectCase * SelectCase).

Fixpoint usbRun (cfg : Config.Config) (steps : list UsbSelect) : list CanonicalEvent :=
  match steps with
  | [] | UsbCtxDone :: _ | UsbClosed :: _ => []
  | UsbReceived u id sel :: steps => emitEvent cfg id sel u ++ usbRun cfg steps
  end.

Definition sampleUevent : string :=
  unlines (ascii_of_nat 0) ["add@/devices/pci0000:00/usb1/1-4"; "ACTION=add"; "DEVPATH=/devices/pci0000:00/usb1/1-4";
    "SUBSYSTEM=usb"; "DEVTYPE=usb_device"; "PRODUCT=46d/C52B/1211"; "SEQNUM=42"].

Example uevent_ex :
  parseUevent id sampleUevent 9 = Some {| usb_Action := "USB_INSERT"; VendorID := "046d"; ProductID := "c52b";
    SerialNumber := ""; DevicePath := "/devices/pci0000:00/usb1/1-4"; usb_OccurredAt := 9 |}.
Proof. vm_compute. reflexivity. Qed.

Example path_ex :
  parseDevicePath "\\?\USB#VID_046D&PID_C52B#5&1a2b#{a5dcbf10}" = ("046d", "c52b", "") /\
  parseDevicePath "\\?\usb#vid_046d&pid_c52b#SN01#{a5dcbf10}" = ("046d", "c52b", "SN01").
Proof. split; vm_compute; reflexivity. Qed.

(** ** Lemmas *)

(** The canonical form of an id: four lower-case digits. *)
Definition hexLower4 (z : Z) : string :=
  hexDigit false (z / 4096) ^^ hexDigit false (z / 256) ^^ hexDigit false (z / 16) ^^ hexDigit false z.

Lemma lowerString_append s t : lowerString (s ^^ t) = lowerString s ^^ lowerString t.
Proof.
  induction s as [|a s IH]; [done|].
  change (String (asciiLower a) (lowerString (s ^^ t)) = String (asciiLower a) (lowerString s ^^ lowerString t)). by f_equal.
Qed.

Lemma lower_hexDigit u z : lowerString (hexDigit u z) = hexDigit false z.
Proof.
  unfold hexDigit. pose proof (Z.mod_pos_bound z 16 ltac:(lia)) as Hm. revert Hm. generalize (z mod 16) as d. intros d Hd.
  assert (exists n, d = Z.of_nat n /\ (n < 16)%nat) as (n & -> & Hn) by (exists (Z.to_nat d); lia).
  rewrite Nat2Z.id. do 16 (destruct n as [|n]; [by destruct u|]). lia.
Qed.

Lemma lower_HEX04 z : lowerString (HEX04 z) = hexLower4 z.
Proof. unfold HEX04, hexLower4. by rewrite !lowerString_append, !lower_hexDigit. Qed.

Lemma appendHex_shape z : allChars isHex (appendHex z) = true /\ lowerString (appendHex z) = appendHex z.
Proof.
  assert (forall (b : bool) d, allChars isHex (if b then hexDigit false d else "") = true /\
          lowerString (if b then hexDigit false d else "") = if b then hexDigit false d else "") as H.
  { intros [] d; [|done]. rewrite lower_hexDigit. split; [|done].
    destruct (hexDigit_char false d) as (a & -> & _ & Ha). cbn. by rewrite Ha. }
  unfold appendHex. rewrite !allChars_append, !lowerString_append.
  destruct (H (4096 <=? z) (z / 4096)) as [-> ->], (H (256 <=? z) (z / 256)) as [-> ->],
    (H (16 <=? z) (z / 16)) as [-> ->], (H true z) as [-> ->]. done.
Qed.

Lemma isHex_ASCII s : allChars isHex s = true -> isASCII s = true.
Proof. apply allChars_impl. intros a. destruct a as [[] [] [] [] [] [] [] []]; vm_compute; congruence. Qed.

Lemma hexDigit_zero z : 0 <= z < 16 -> z = 0 -> hexDigit false z = "0".
Proof. by intros _ ->. Qed.

(** Padding restores the leading zeros that [%x] drops. *)
Lemma pad_appendHex z : in_u16 z -> padLoop 3 (appendHex z) = hexLower4 z.
Proof.
  intros [H0 H1]. change (2 ^ 16) with 65536 in H1. unfold appendHex, hexLower4.
  assert (forall a b, 0 < b -> 0 <= a < b -> hexDigit false (a / b) = "0") as Hz.
  { intros a b Hb Ha. by rewrite Z.div_small by lia. }
  destruct (hexDigit_char false (z / 4096)) as (a & Ea & _), (hexDigit_char false (z / 256)) as (b & Eb & _),
    (hexDigit_char false (z / 16)) as (c & Ec & _), (hexDigit_char false z) as (d & Ed & _).
  destruct (Z.leb_spec 4096 z); [|rewrite (Hz z 4096) in * by lia; injection Ea as <-];
  (destruct (Z.leb_spec 256 z); [|try lia; rewrite (Hz z 256) in * by lia; injection Eb as <-]);
  (destruct (Z.leb_spec 16 z); [|try lia; rewrite (Hz z 16) in * by lia; injection Ec as <-]);
  rewrite ?Ea, ?Eb, ?Ec, Ed; reflexivity.
Qed.

Lemma productIDs_kernel unicodeLower vid pid rev :
  in_u16 vid -> in_u16 pid ->
  productIDs unicodeLower (appendHex vid ^^ String "/" (appendHex pid ^^ String "/" rev)) = Some (hexLower4 vid, hexLower4 pid).
Proof.
  intros Hv Hp. destruct (appendHex_shape vid) as [V1 V2], (appendHex_shape pid) as [P1 P2]. unfold productIDs.
  rewrite Split_first by (by apply isHex_noChar). rewrite Split_first by (by apply isHex_noChar).
  unfold ToLower. rewrite (isHex_ASCII _ V1), (isHex_ASCII _ P1), V2, P2. by rewrite !pad_appendHex.
Qed.

(** *** Device paths *)
Lemma take4Hex_HEX04 z r : take4Hex (HEX04 z ^^ r) = Some (HEX04 z, r).
Proof.
  unfold HEX04.
  destruct (hexDigit_char true (z / 4096)) as (a & -> & _ & Ha), (hexDigit_char true (z / 256)) as (b & -> & _ & Hb),
    (hexDigit_char true (z / 16)) as (c & -> & _ & Hc), (hexDigit_char true z) as (d & -> & _ & Hd).
  rewrite !append_assoc. repeat change (String ?x "" ^^ ?y) with (String x y). cbn [take4Hex].
  by rewrite Ha, Hb, Hc, Hd.
Qed.

(** The device path of the documentation comment. *)
Definition devicePath (vid pid : Z) (serial guid : string) : string :=
  "\\?\USB#VID_" ^^ (HEX04 vid ^^ ("&PID_" ^^ (HEX04 pid ^^ String "#" (serial ^^ String "#" guid)))).

Lemma findVidPid_path vid pid serial guid :
  findVidPid (devicePath vid pid serial guid) = Some (HEX04 vid, HEX04 pid).
Proof.
  assert (forall r, matchVidPid ("VID_" ^^ (HEX04 vid ^^ ("&PID_" ^^ (HEX04 pid ^^ r)))) = Some (HEX04 vid, HEX04 pid)) as Hm.
  { intros r. unfold matchVidPid.
    change (stripFold "VID_" ("VID_" ^^ (HEX04 vid ^^ ("&PID_" ^^ (HEX04 pid ^^ r)))))
      with (Some (HEX04 vid ^^ ("&PID_" ^^ (HEX04 pid ^^ r)))).
    cbn [mbind option_bind]. rewrite take4Hex_HEX04. cbn [mbind option_bind].
    change (stripFold "&PID_" ("&PID_" ^^ (HEX04 pid ^^ r))) with (Some (HEX04 pid ^^ r)).
    cbn [mbind option_bind]. by rewrite take4Hex_HEX04. }
  unfold devicePath.
  change ("\\?\USB#VID_" ^^ ?r) with
    (String "\" (String "\" (String "?" (String "\" (String "U" (String "S" (String "B" (String "#" ("VID_" ^^ r))))))))).
  do 8 (change (findVidPid (String ?a ?r)) with (findVidPid r)).
  specialize (Hm (String "#" (serial ^^ String "#" guid))).
  assert (forall s m, matchVidPid s = Some m -> findVidPid s = Some m) as Hf.
  { intros s m H. destruct s; cbn [findVidPid]; by rewrite H. }
  by apply Hf.
Qed.

Lemma Split_path vid pid serial guid :
  noChar "#" serial = true ->
  exists w, Split (devicePath vid pid serial guid) "#" = "\\?\USB" :: w :: serial :: Split guid "#".
Proof.
  intros Hs. unfold devicePath. exists ("VID_" ^^ (HEX04 vid ^^ ("&PID_" ^^ HEX04 pid))).
  replace ("\\?\USB#VID_" ^^ (HEX04 vid ^^ ("&PID_" ^^ (HEX04 pid ^^ String "#" (serial ^^ String "#" guid)))))
    with ("\\?\USB" ^^ String "#" (("VID_" ^^ (HEX04 vid ^^ ("&PID_" ^^ HEX04 pid))) ^^ String "#" (serial ^^ String "#" guid)))
    by (rewrite !append_assoc; reflexivity).
  rewrite (Split_first "#" "\\?\USB") by done. rewrite Split_first.
  - by rewrite Split_first.
  - rewrite !noChar_append. rewrite (isHex_noChar "#" (HEX04 vid)), (isHex_noChar "#" (HEX04 pid)) by (done || apply HEX04_shape). done.
Qed.

(** *** Uevent fields *)

Definition fieldText (f : string * string) : string := f.1 ^^ String "=" f.2.

(** The last value of a key. *)
Definition lastVal (key dflt : string) (fields : list (string * string)) : string :=
  foldl (fun acc f => if f.1 =s key then f.2 else acc) dflt fields.

Definition wfField (f : string * string) : Prop :=
  noChar "=" f.1 = true /\ noChar (ascii_of_nat 0) f.1 = true /\ noChar (ascii_of_nat 0) f.2 = true.

(** Of the fields with key PRODUCT, the ids of the last one that has them. *)
Definition lastProduct unicodeLower (ids : string * string) (fields : list (string * string)) : string * string :=
  foldl (fun acc f => if f.1 =s "PRODUCT" then default acc (productIDs unicodeLower f.2) else acc) ids fields.

Lemma fieldText_split f :
  wfField f ->
  (fieldText f =s "") = false /\ IndexByte (fieldText f) "=" = Some (String.length f.1) /\
  prefixString (String.length f.1) (fieldText f) = f.1 /\ suffixString (S (String.length f.1)) (fieldText f) = f.2.
Proof.
  intros (H1 & _). unfold fieldText. split_and!.
  - by destruct f.1.
  - by apply IndexByte_first.
  - apply prefixString_append.
  - replace (f.1 ^^ String "=" f.2) with ((f.1 ^^ "=") ^^ f.2) by (by rewrite append_assoc).
    replace (S (String.length f.1)) with (String.length (f.1 ^^ "=")) by (rewrite length_append; cbn; lia).
    apply suffixString_append.
Qed.

(** The loop keeps the last value of each key. *)
Lemma ueventField_fold unicodeLower fields v :
  Forall wfField fields ->
  let v' := foldl (ueventField unicodeLower) v (map fieldText fields) in
  uv_action v' = lastVal "ACTION" (uv_action v) fields /\
  uv_subsystem v' = lastVal "SUBSYSTEM" (uv_subsystem v) fields /\
  uv_devtype v' = lastVal "DEVTYPE" (uv_devtype v) fields /\
  DevicePath (uv_ev v') = lastVal "DEVPATH" (DevicePath (uv_ev v)) fields /\
  SerialNumber (uv_ev v') = lastVal "SERIAL" (SerialNumber (uv_ev v)) fields /\
  (VendorID (uv_ev v'), ProductID (uv_ev v')) = lastProduct unicodeLower (VendorID (uv_ev v), ProductID (uv_ev v)) fields.
Proof.
  intros H. revert v. induction H as [|f fields Hf _ IH]; intros v; [done|]. cbn [map foldl]. cbv zeta.
  destruct (IH (ueventField unicodeLower v (fieldText f))) as (-> & -> & -> & -> & -> & ->).
  destruct (fieldText_split f Hf) as (E0 & E1 & E2 & E3). unfold lastVal, lastProduct. cbn [foldl].
  unfold ueventField. rewrite E0, E1, E2, E3. cbv zeta. set (k := f.1). set (x := f.2).
  destruct (String.eqb_spec k "ACTION") as [->|]; [by split_and!|].
  destruct (String.eqb_spec k "SUBSYSTEM") as [->|]; [by split_and!|].
  destruct (String.eqb_spec k "DEVTYPE") as [->|]; [by split_and!|].
  destruct (String.eqb_spec k "DEVPATH") as [->|]; [by split_and!|].
  destruct (String.eqb_spec k "PRODUCT") as [->|].
  { destruct (productIDs unicodeLower x) as [[? ?]|]; by split_and!. }
  destruct (String.eqb_spec k "SERIAL") as [->|]; by split_and!.
Qed.

(** A product the kernel prints decides the ids, whatever came before. *)
Lemma lastProduct_kernel unicodeLower ids fields d vid pid rev :
  in_u16 vid -> in_u16 pid -> d <> lastVal "PRODUCT" d fields ->
  lastVal "PRODUCT" d fields = appendHex vid ^^ String "/" (appendHex pid ^^ String "/" rev) ->
  lastProduct unicodeLower ids fields = (hexLower4 vid, hexLower4 pid).
Proof.
  intros Hv Hp. induction fields as [|f fields IH] using rev_ind; [done|].
  unfold lastVal, lastProduct in *. rewrite !foldl_app. cbn [foldl].
  destruct (f.1 =s "PRODUCT"); [|exact IH]. intros _ ->. by rewrite productIDs_kernel.
Qed.

(** ** Properties *)

(** A USB device has one identity on both platforms.  For every vendor and
    product id, the ids parsed from the PRODUCT field that the Linux kernel
    prints without leading zeros and those parsed from the Windows device path
    are the same four lower-case hexadecimal digits; the serial number is the
    path's instance part unless that is empty or generated. *)
Theorem usb_identity_canonical unicodeLower vid pid rev serial guid :
  in_u16 vid -> in_u16 pid -> noChar "#" serial = true ->
  productIDs unicodeLower (appendHex vid ^^ String "/" (appendHex pid ^^ String "/" rev)) = Some (hexLower4 vid, hexLower4 pid) /\
  parseDevicePath (devicePath vid pid serial guid) =
    (hexLower4 vid, hexLower4 pid, if noChar "&" serial then serial else "").
Proof.
  intros Hv Hp Hs. split; [by apply productIDs_kernel|]. unfold parseDevicePath.
  rewrite findVidPid_path, !lower_HEX04. destruct (Split_path vid pid serial guid Hs) as [w ->].
  assert (exists g gs, Split guid "#" = g :: gs) as (g & gs & ->).
  { destruct guid as [|a guid]; [by eexists _, _|]. cbn [Split]. destruct (Ascii.eqb a "#"); [by eexists _, _|].
    destruct (Split guid "#"); by eexists _, _. }
  f_equal. destruct serial; [done|]. by destruct (noChar _ _).
Qed.

(** The keys the parser reads. *)
Definition ueventKeys : list string := ["ACTION"; "SUBSYSTEM"; "DEVTYPE"; "DEVPATH"; "PRODUCT"; "SERIAL"].

(** The first line of a message assigns none of them.  The kernel's is
    [action@devpath], where the path may hold equal signs. *)
Definition inertHeader (header : string) : Prop :=
  forall key value, header = key ^^ String "=" value -> noChar "=" key = true -> key ∉ ueventKeys.

Lemma kernel_header_inert action path : noChar "=" action = true -> inertHeader (action ^^ String "@" path).
Proof.
  intros Ha key value E _ Hk. assert (noChar "@" key = true) as Hat.
  { unfold ueventKeys in Hk. rewrite !elem_of_cons, elem_of_nil in Hk.
    by destruct Hk as [->|[->|[->|[->|[->|[->|[]]]]]]]. }
  clear Hk. revert action Ha E. unfold noChar in *.
  induction key as [|k key IH]; intros [|a action] Ha E; cbn in *; try (injection E as ? ?; subst).
  - discriminate.
  - done.
  - done.
  - apply andb_prop in Ha as [_ Ha]. apply andb_prop in Hat as [_ Hat]. by eapply IH.
Qed.

Lemma IndexByte_split c s i :
  IndexByte s c = Some i ->
  s = prefixString i s ^^ String c (suffixString (S i) s) /\ noChar c (prefixString i s) = true.
Proof.
  revert i. induction s as [|a s IH]; intros i H; [done|]. cbn [IndexByte] in H.
  destruct (Ascii.eqb a c) eqn:E.
  - injection H as <-. apply Ascii.eqb_eq in E as ->. split; [|done].
    by destruct s.
  - destruct (IndexByte s c) as [j|]; [|done]. injection H as <-. destruct (IH j eq_refl) as [H1 H2].
    split.
    + change (prefixString (S j) (String a s)) with (String a (prefixString j s)).
      change (suffixString (S (S j)) (String a s)) with (suffixString (S j) s).
      rewrite append_cons. by rewrite <- H1.
    + change (prefixString (S j) (String a s)) with (String a (prefixString j s)).
      unfold noChar in *. cbn [allChars]. by rewrite E, H2.
Qed.

Lemma ueventField_header unicodeLower header v : inertHeader header -> ueventField unicodeLower v header = v.
Proof.
  intros Hin. unfold ueventField. destruct (header =s ""); [done|].
  destruct (IndexByte header "=") as [i|] eqn:E; [|done]. apply IndexByte_split in E as [E1 E2].
  specialize (Hin _ _ E1 E2). cbv zeta. set (k := prefixString i header) in *.
  unfold ueventKeys in Hin. rewrite !elem_of_cons, elem_of_nil in Hin.
  repeat match goal with |- context [k =s ?x] => destruct (String.eqb_spec k x); [tauto|] end.
  by destruct v.
Qed.

(** C27: A kernel uevent of a USB device is read back.  For any first line
    that assigns none of the parser's keys, as the kernel's [action@devpath],
    and any fields in any order, with unknown keys among them: a message whose
    last SUBSYSTEM and DEVTYPE are not those of a USB device yields no event,
    whatever else it says; one of a USB device yields exactly one event for an
    add or a remove and none for any other action, with the device's path and
    serial number; and its ids are the four-digit ids of the last PRODUCT, when
    that is printed by the kernel. *)
Theorem uevent_roundtrip unicodeLower header fields now :
  noChar (ascii_of_nat 0) header = true -> inertHeader header -> Forall wfField fields ->
  let ev := parseUevent unicodeLower (unlines (ascii_of_nat 0) (header :: map fieldText fields)) now in
  let device := lastVal "SUBSYSTEM" "" fields = "usb" /\ lastVal "DEVTYPE" "" fields = "usb_device" in
  (~ device -> ev = None) /\
  (device -> exists vendor product,
     (let event action := Some {| usb_Action := action; VendorID := vendor; ProductID := product;
                             SerialNumber := lastVal "SERIAL" "" fields; DevicePath := lastVal "DEVPATH" "" fields;
                             usb_OccurredAt := now |} in
      ev = if lastVal "ACTION" "" fields =s "add" then event "USB_INSERT"
           else if lastVal "ACTION" "" fields =s "remove" then event "USB_REMOVE" else None) /\
     forall vid pid rev, in_u16 vid -> in_u16 pid ->
       lastVal "PRODUCT" "" fields = appendHex vid ^^ String "/" (appendHex pid ^^ String "/" rev) ->
       vendor = hexLower4 vid /\ product = hexLower4 pid).
Proof.
  intros Hh He Hf ev device. subst ev. unfold parseUevent. rewrite Split_unlines.
  2:{ constructor; [done|]. apply Forall_map. eapply Forall_impl; [exact Hf|]. intros f (_ & H1 & H2).
      unfold fieldText. rewrite noChar_append, H1. exact H2. }
  rewrite foldl_app. cbn [foldl app].
  assert (forall v, ueventField unicodeLower v "" = v) as -> by done.
  rewrite ueventField_header by done.
  pose proof (ueventField_fold unicodeLower fields
    {| uv_ev := emptyUSBEvent; uv_subsystem := ""; uv_devtype := ""; uv_action := "" |} Hf) as H. cbv zeta in H.
  cbn [uv_action uv_subsystem uv_devtype uv_ev emptyUSBEvent DevicePath SerialNumber VendorID ProductID] in H.
  destruct H as (-> & -> & -> & -> & -> & Hids). rewrite <- negb_andb. subst device.
  rewrite <- !String.eqb_eq, <- andb_true_iff.
  destruct ((lastVal "SUBSYSTEM" "" fields =s "usb") && _); (split; [done|]); [|done]. intros _.
  eexists _, _. split; [reflexivity|]. intros vid pid rev Hv Hp Hprod.
  erewrite (lastProduct_kernel unicodeLower _ fields "" vid pid rev) in Hids; [|done|done| |exact Hprod].
  2:{ rewrite Hprod. destruct (appendHex_shape vid) as [Hx _]. by destruct (appendHex vid). }
  by injection Hids as -> ->.
Qed.

(** A mass-storage stick on port 4, with a key the parser does not know. *)
Definition stickFields : list (string * string) :=
  [("ACTION", "remove"); ("DEVPATH", "/devices/pci0000:00/usb1/1-4"); ("SUBSYSTEM", "usb"); ("MAJOR", "189");
   ("DEVTYPE", "usb_device"); ("PRODUCT", "781/5567/100"); ("SERIAL", "4C53"); ("SEQNUM", "4217")].

(** A message of another subsystem, whose PRODUCT names no USB ids. *)
Definition cameraFields : list (string * string) :=
  [("ACTION", "add"); ("DEVPATH", "/devices/platform/x=1/video0"); ("SUBSYSTEM", "video4linux"); ("PRODUCT", "cam")].

Lemma uevent_roundtrip_witness :
  parseUevent id (unlines (ascii_of_nat 0) ("remove@/devices/pci0000:00/usb1/1-4" :: map fieldText stickFields)) 9 =
    Some {| usb_Action := "USB_REMOVE"; VendorID := "0781"; ProductID := "5567"; SerialNumber := "4C53";
            DevicePath := "/devices/pci0000:00/usb1/1-4"; usb_OccurredAt := 9 |} /\
  parseUevent id (unlines (ascii_of_nat 0) ("add@/devices/platform/x=1/video0" :: map fieldText cameraFields)) 9 = None.
Proof.
  split.
  - destruct (uevent_roundtrip id "remove@/devices/pci0000:00/usb1/1-4" stickFields 9 eq_refl
      (kernel_header_inert "remove" "/devices/pci0000:00/usb1/1-4" eq_refl) ltac:(repeat constructor)) as [_ H].
    destruct (H (conj eq_refl eq_refl)) as (vendor & product & -> & Hids).
    destruct (Hids 1921 21863 "100") as [-> ->];
      [unfold in_u16; lia|unfold in_u16; lia|vm_compute; reflexivity|vm_compute; reflexivity].
  - apply (uevent_roundtrip id "add@/devices/platform/x=1/video0" cameraFields 9 eq_refl
      (kernel_header_inert "add" "/devices/platform/x=1/video0" eq_refl)); [repeat constructor|].
    intros [H _]. vm_compute in H. discriminate.
Defined.

Lemma usb_identity_canonical_witness :
  parseDevicePath (devicePath 1921 21863 "4C53" "{a5dcbf10-6530-11d2}") = ("0781", "5567", "4C53").
Proof.
  assert (in_u16 1921 /\ in_u16 21863) as [H1 H2] by (unfold in_u16; lia).
  exact (proj2 (usb_identity_canonical id 1921 21863 "100" "4C53" "{a5dcbf10-6530-11d2}" H1 H2 eq_refl)).
Defined.
