(* ===== verification/UsbShutdown.v ===== *)
(** Stopping the USB collector: [run]'s loop (collector.go), the netlink loop
    (usb_linux.go) and the window thread (usb_windows.go) as step relations
    over the channel [internalOut] between them.  [Stop] returns when [run]
    has.  Contents of events are left out, what remains is who waits for
    whom. *)
From S2P Require Import Prelude.

Open Scope nat_scope.

(** [make(chan USBEvent, 100)] *)
Definition internalCap : nat := 100.

(** The loop of [run]: in its select, in [emitEvent], in [watcherWg.Wait],
    returned. *)
Inductive Runner := RSelect | REmit | RWait | RDone.

(** [emitEvent] returns when the event is taken or the context is done;
    [watcher] says whether the watcher goroutine has finished. *)
Inductive rstep (ctx watcher : bool) : nat * Runner -> nat * Runner -> Prop :=
  | r_receive q : rstep ctx watcher (S q, RSelect) (q, REmit)
  | r_closed : watcher = true -> rstep ctx watcher (0, RSelect) (0, RDone)
  | r_ctx q : ctx = true -> rstep ctx watcher (q, RSelect) (q, RWait)
  | r_emitted q : rstep ctx watcher (q, REmit) (q, RSelect)
  | r_waited q : watcher = true -> rstep ctx watcher (q, RWait) (q, RDone).

(** ** Linux *)

(** The receive loop: at its top, in [Recvfrom], in the select of the send,
    returned. *)
Inductive Netlink := NTop | NRecv | NSend | NReturned.

Definition netlinkReturned (w : Netlink) : bool := match w with NReturned => true | _ => false end.

Record LState := { l_q : nat; l_run : Runner; l_watch : Netlink; l_ctx : bool }.

Inductive lstep : LState -> LState -> Prop :=
  | l_cancel q r w : lstep (Build_LState q r w false) (Build_LState q r w true)
  | l_runner q r q' r' w c : rstep c (netlinkReturned w) (q, r) (q', r') ->
      lstep (Build_LState q r w c) (Build_LState q' r' w c)
  | l_top_done q r : lstep (Build_LState q r NTop true) (Build_LState q r NReturned true)
  | l_top q r : lstep (Build_LState q r NTop false) (Build_LState q r NRecv false)
  | l_none q r c : lstep (Build_LState q r NRecv c) (Build_LState q r NTop c)
  | l_fatal q r c : lstep (Build_LState q r NRecv c) (Build_LState q r NReturned c)
  | l_event q r c : lstep (Build_LState q r NRecv c) (Build_LState q r NSend c)
  | l_sent q r c : q < internalCap -> lstep (Build_LState q r NSend c) (Build_LState (S q) r NTop c)
  | l_send_done q r : lstep (Build_LState q r NSend true) (Build_LState q r NReturned true).

Definition linit : LState := Build_LState 0 RSelect NTop false.

(** ** Windows *)

(** The thread of the window: in its message loop, in [wndProc] sending to the
    channel, ended.  The watcher waits for the context, then posts WM_CLOSE
    and waits for the thread. *)
Inductive Window := WLoop | WSend | WEnded.
Inductive Watcher := WaitCtx | WaitLoop | WReturned.

Definition watcherReturned (w : Watcher) : bool := match w with WReturned => true | _ => false end.

Record WState := { w_q : nat; w_run : Runner; w_win : Window; w_watch : Watcher; w_ctx : bool }.

Inductive wstep : WState -> WState -> Prop :=
  | w_cancel q r n w : wstep (Build_WState q r n w false) (Build_WState q r n w true)
  | w_runner q r q' r' n w c : rstep c (watcherReturned w) (q, r) (q', r') ->
      wstep (Build_WState q r n w c) (Build_WState q' r' n w c)
  | w_event q r w c : wstep (Build_WState q r WLoop w c) (Build_WState q r WSend w c)
  | w_sent q r w c : q < internalCap -> wstep (Build_WState q r WSend w c) (Build_WState (S q) r WLoop w c)
  | w_post q r n : wstep (Build_WState q r n WaitCtx true) (Build_WState q r n WaitLoop true)
  | w_close q r c : wstep (Build_WState q r WLoop WaitLoop c) (Build_WState q r WEnded WaitLoop c)
  | w_return q r c : wstep (Build_WState q r WEnded WaitLoop c) (Build_WState q r WEnded WReturned c).

Definition winit : WState := Build_WState 0 RSelect WLoop WaitCtx false.

(** ** Lemmas *)

Definition runnerWork (r : Runner) : nat := match r with RSelect => 2 | REmit => 3 | RWait => 1 | RDone => 0 end.
Definition netlinkWork (w : Netlink) : nat := match w with NTop => 1 | NRecv => 6 | NSend => 5 | NReturned => 0 end.

(** What is left to do once the context is done. *)
Definition lwork (s : LState) : nat := 3 * l_q s + runnerWork (l_run s) + netlinkWork (l_watch s).

Definition LInv (s : LState) : Prop :=
  l_q s <= internalCap /\ (l_run s = RDone -> l_watch s = NReturned).

Lemma LInv_step s s' : lstep s s' -> LInv s -> LInv s'.
Proof.
  intros H [Hq Hr]. destruct H; cbn in *; split; cbn; try done; try lia; try (intros ->; by specialize (Hr eq_refl)).
  - match goal with H : rstep _ _ _ _ |- _ => inversion H; subst; lia end.
  - match goal with H : rstep _ _ _ _ |- _ => inversion H; subst; try done end; intros _; by destruct w.
Qed.

Lemma LInv_reach s : rtc lstep linit s -> LInv s.
Proof.
  intros H. assert (forall a b, rtc lstep a b -> LInv a -> LInv b) as Hpres.
  { induction 1; eauto using LInv_step. }
  apply (Hpres _ _ H). split; cbn; [lia|done].
Qed.

Lemma lstep_work s s' : lstep s s' -> l_ctx s = true -> l_ctx s' = true /\ lwork s' < lwork s.
Proof.
  intros H Hc. destruct H; cbn in *; subst; try done; (split; [done|]); unfold lwork; cbn; try lia.
  match goal with H : rstep _ _ _ _ |- _ => inversion H; subst; cbn; lia end.
Qed.

(** ** Properties *)

(** C28: On Linux [Stop] returns.  In every reachable state in which the context
    is done, either [run] has returned, and then the netlink loop has too and
    no goroutine is left, or some step is possible; every step then possible
    decreases the work left, so [run] returns after finitely many steps
    whatever the scheduler does and however full the channel is. *)
Theorem usb_linux_stop_returns s :
  rtc lstep linit s -> l_ctx s = true ->
  ((l_run s = RDone /\ l_watch s = NReturned) \/ exists s', lstep s s') /\
  (forall s', lstep s s' -> l_ctx s' = true /\ lwork s' < lwork s).
Proof.
  intros Hreach Hc. split; [|by intros s' H; apply lstep_work]. apply LInv_reach in Hreach as [Hq Hr].
  destruct s as [q r w c]. cbn in *. subst c. destruct r.
  - right. eexists. apply l_runner. by apply r_ctx.
  - right. eexists. apply l_runner. apply r_emitted.
  - destruct w; right; eexists.
    + apply l_top_done.
    + apply l_none.
    + apply l_send_done.
    + apply l_runner. by apply r_waited.
  - left. split; [done|by apply Hr].
Qed.

Lemma usb_linux_stop_returns_witness :
  exists s', lstep (Build_LState 0 RWait NTop true) s'.
Proof.
  destruct (usb_linux_stop_returns (Build_LState 0 RWait NTop true)) as [[[H _]|H] _]; [|reflexivity|discriminate H|exact H].
  eapply rtc_l; [apply l_cancel|]. eapply rtc_l; [|apply rtc_refl]. apply l_runner. by apply r_ctx.
Defined.

(** The channel fills while [run] is blocked in [emitEvent]. *)
Lemma fill_channel n :
  n <= internalCap ->
  rtc wstep (Build_WState 0 REmit WLoop WaitCtx false) (Build_WState n REmit WLoop WaitCtx false).
Proof.
  induction n as [|n IH]; intros Hn; [apply rtc_refl|].
  eapply rtc_r; [eapply rtc_r; [apply IH; lia|apply w_event]|]. by apply w_sent.
Qed.

(** C29: On Windows [Stop] can hang.  A state is reachable in which the context
    is done, [run] waits for the watcher, the watcher waits for the window
    thread, and the window thread waits in [wndProc] for room in the channel
    that nobody reads any more: no step is possible and [run] never
    returns. *)
Theorem usb_windows_stop_can_hang :
  exists s, rtc wstep winit s /\ w_ctx s = true /\ w_run s = RWait /\ forall s', ~ wstep s s'.
Proof.
  exists (Build_WState internalCap RWait WSend WaitLoop true). split_and!; [|done|done|].
  - eapply rtc_l; [apply w_event|]. eapply rtc_l; [apply w_sent; unfold internalCap; lia|].
    eapply rtc_l; [apply w_runner, r_receive|]. etrans; [by apply (fill_channel internalCap)|].
    eapply rtc_l; [apply w_event|]. eapply rtc_l; [apply w_cancel|].
    eapply rtc_l; [apply w_runner, r_emitted|]. eapply rtc_l; [apply w_runner; by apply r_ctx|].
    eapply rtc_l; [apply w_post|]. apply rtc_refl.
  - intros s' H. inversion H; subst; try lia.
    match goal with H : rstep _ _ _ _ |- _ => inversion H; subst; done end.
Qed.
