(* ===== verification/UsbWindow.v ===== *)
(** The window of the Windows USB watcher (agent/internal/collectors/usb/usb_windows.go):
    the Win32 calls of [defaultStartOSWatcher]'s goroutine with what its defers
    release, the window procedure, and the watcher next to its goroutine as a
    step relation. *)
From S2P Require Import Prelude GoStrings GoTime Usb.

Open Scope Z_scope.

Definition WM_DESTROY : Z := 2.
Definition WM_CLOSE : Z := 16.
Definition DEVICE_NOTIFY_WINDOW_HANDLE : Z := 0.

(** ** The goroutine of the window *)

(** The calls that matter; the ones that acquire something carry whether they
    did. *)
Inductive Win32 :=
  | RegisterClassEx (ok : bool) | UnregisterClass
  | CreateWindowEx (ok : bool) | DestroyWindow (hwnd : Z)
  | RegisterDeviceNotification (ok : bool) | UnregisterDeviceNotification (h : Z)
  | GetMessage | TranslateMessage | DispatchMessage
  | PostQuitMessage | DefWindowProc.

(** The answers of the set-up calls: handles, and the text of their errors. *)
Record SetupAnswers := {
  sa_className : option error;      (* syscall.UTF16PtrFromString *)
  sa_class : Z; sa_classErr : string;
  sa_hwnd : Z; sa_hwndErr : string;
  sa_notify : Z; sa_notifyErr : string;
}.

(** [errCh <- err] or [hwndCh <- hwnd]. *)
Inductive Announcement := AnnounceError (err : error) | AnnounceWindow (hwnd : Z).

(** What is sent, the calls made and the deferred calls, the last one first. *)
Definition setupWindow (a : SetupAnswers) : Announcement * list Win32 * list Win32 :=
  match sa_className a with
  | Some err => (AnnounceError err, [], [])
  | None =>
      if sa_class a =? 0 then
        (AnnounceError (ErrNew ("RegisterClassExW failed: " ^^ sa_classErr a)), [RegisterClassEx false], [])
      else if sa_hwnd a =? 0 then
        (AnnounceError (ErrNew ("CreateWindowExW failed: " ^^ sa_hwndErr a)),
         [RegisterClassEx true; CreateWindowEx false], [UnregisterClass])
      else if sa_notify a =? 0 then
        (AnnounceError (ErrNew ("RegisterDeviceNotificationW failed: " ^^ sa_notifyErr a)),
         [RegisterClassEx true; CreateWindowEx true; RegisterDeviceNotification false],
         [DestroyWindow (sa_hwnd a); UnregisterClass])
      else
        (AnnounceWindow (sa_hwnd a),
         [RegisterClassEx true; CreateWindowEx true; RegisterDeviceNotification true],
         [UnregisterDeviceNotification (sa_notify a); DestroyWindow (sa_hwnd a); UnregisterClass])
  end.

(** [wndProc]: the calls it makes and the event it sends on [watcherOut]. *)
Definition wndProc (utf16 : list Z -> string) (hwnd msg wParam : Z) (lParam : option (Z * list Z)) (watching : bool)
    (now : Time) : list Win32 * option USBEvent :=
  if msg =? WM_CLOSE then ([DestroyWindow hwnd], None)
  else if msg =? WM_DESTROY then ([PostQuitMessage], None)
  else ([DefWindowProc], deviceChange utf16 msg wParam lParam watching now).

(** What [GetMessageW] returned and the message it filled in. *)
Record Received := {
  rv_ret : Z;                       (* a uintptr *)
  rv_hwnd : Z; rv_msg : Z; rv_wParam : Z; rv_lParam : option (Z * list Z);
  rv_watching : bool; rv_now : Time;
}.

Definition int32 (z : Z) : Z := (z + 2 ^ 31) mod 2 ^ 32 - 2 ^ 31.

(** The message loop; the flag says that it ended. *)
Fixpoint messageLoop (utf16 : list Z -> string) (rs : list Received) : list Win32 * list USBEvent * bool :=
  match rs with
  | [] => ([], [], false)
  | r :: rs =>
      if int32 (rv_ret r) <=? 0 then ([GetMessage], [], true)
      else
        let '(calls, ev) := wndProc utf16 (rv_hwnd r) (rv_msg r) (rv_wParam r) (rv_lParam r) (rv_watching r) (rv_now r) in
        let '(more, evs, ended) := messageLoop utf16 rs in
        ([GetMessage; TranslateMessage; DispatchMessage] ++ calls ++ more, option_list ev ++ evs, ended)
  end.

Definition windowThread (utf16 : list Z -> string) (a : SetupAnswers) (rs : list Received)
    : Announcement * list Win32 * list USBEvent * bool :=
  let '(ann, calls, defers) := setupWindow a in
  match ann with
  | AnnounceError _ => (ann, calls ++ defers, [], true)
  | AnnounceWindow _ =>
      let '(more, evs, ended) := messageLoop utf16 rs in
      (ann, calls ++ more ++ (if (ended : bool) then defers else []), evs, ended)
  end.

(** ** What is held

    The class, the window and the notification a run of calls leaves behind.
    [DestroyWindow] of a window that is gone does nothing. *)
Record Resources := { rs_class : bool; rs_window : bool; rs_notify : bool }.
Definition noResources : Resources := Build_Resources false false false.
Definition allResources : Resources := Build_Resources true true true.

Definition holdsAfter (hwnd : Z) (r : Resources) (c : Win32) : Resources :=
  match c with
  | RegisterClassEx ok => Build_Resources (ok || rs_class r) (rs_window r) (rs_notify r)
  | UnregisterClass => Build_Resources false (rs_window r) (rs_notify r)
  | CreateWindowEx ok => Build_Resources (rs_class r) (ok || rs_window r) (rs_notify r)
  | DestroyWindow h => Build_Resources (rs_class r) (negb (h =? hwnd) && rs_window r) (rs_notify r)
  | RegisterDeviceNotification ok => Build_Resources (rs_class r) (rs_window r) (ok || rs_notify r)
  | UnregisterDeviceNotification _ => Build_Resources (rs_class r) (rs_window r) false
  | _ => r
  end.

Definition holds (hwnd : Z) (calls : list Win32) : Resources := foldl (holdsAfter hwnd) noResources calls.

Definition acquisitions (calls : list Win32) : list Win32 :=
  List.filter (fun c => match c with RegisterClassEx ok | CreateWindowEx ok | RegisterDeviceNotification ok => ok | _ => false end) calls.

Definition releaseOf (a : SetupAnswers) (c : Win32) : Win32 :=
  match c with
  | RegisterClassEx _ => UnregisterClass
  | CreateWindowEx _ => DestroyWindow (sa_hwnd a)
  | _ => UnregisterDeviceNotification (sa_notify a)
  end.

(** ** The watcher and its goroutine *)

(** [defaultStartOSWatcher]: in its select, with the window, waiting for the
    goroutine, returned. *)
Inductive Starter := SelectReady | HasWindow | WaitLoopDone | Returned (failed : bool).
Inductive Thread := SettingUp | Looping | Over.

Record Startup := {
  su_out : bool;          (* watcherOut != nil *)
  su_starter : Starter;
  su_thread : Thread;
  su_err : bool;          (* an error waits in errCh *)
  su_hwnd : bool;         (* the handle waits in hwndCh *)
  su_close : bool;        (* WM_CLOSE was posted *)
  su_ctx : bool;          (* the context is done *)
  su_broken : bool;       (* GetMessageW reported an error *)
}.

(** A second watcher is refused while [watcherOut] is set. *)
Definition startWatcher (out : bool) : option error :=
  if out then Some (ErrNew "only one usb watcher can run at a time") else None.

Definition startedUp : Startup := Build_Startup true SelectReady SettingUp false false false false false.

Inductive sstep : Startup -> Startup -> Prop :=
  | s_cancel o st t e h c b : sstep (Build_Startup o st t e h c false b) (Build_Startup o st t e h c true b)
  (* the goroutine *)
  | s_setup_fails o st h c x b :
      sstep (Build_Startup o st SettingUp false h c x b) (Build_Startup o st Over true h c x b)
  | s_setup_done o st e c x b :
      sstep (Build_Startup o st SettingUp e false c x b) (Build_Startup o st Looping e true c x b)
  | s_message o st e h c x b : sstep (Build_Startup o st Looping e h c x b) (Build_Startup o st Looping e h c x b)
  | s_closed o st e h x b : sstep (Build_Startup o st Looping e h true x b) (Build_Startup o st Over e h true x b)
  | s_getmessage_fails o st e h c x b :
      sstep (Build_Startup o st Looping e h c x b) (Build_Startup o st Over e h c x true)
  (* the select; each return clears watcherOut *)
  | s_error o t h c x b :
      sstep (Build_Startup o SelectReady t true h c x b) (Build_Startup false (Returned true) t false h c x b)
  | s_window o t e c x b :
      sstep (Build_Startup o SelectReady t e true c x b) (Build_Startup o HasWindow t e false c x b)
  | s_early o t e h c b :
      sstep (Build_Startup o SelectReady t e h c true b) (Build_Startup false (Returned false) t e h c true b)
  (* the rest *)
  | s_post o t e h c b :
      sstep (Build_Startup o HasWindow t e h c true b) (Build_Startup o WaitLoopDone t e h true true b)
  | s_loop_done o e h c x b :
      sstep (Build_Startup o WaitLoopDone Over e h c x b) (Build_Startup false (Returned false) Over e h c x b).

(** ** Lemmas *)
Lemma holdsAfter_foldl_loop utf16 hwnd rs calls evs ended r :
  messageLoop utf16 rs = (calls, evs, ended) ->
  rs_class (foldl (holdsAfter hwnd) r calls) = rs_class r /\ rs_notify (foldl (holdsAfter hwnd) r calls) = rs_notify r /\
  ((forall x, x ∈ rs -> rv_msg x <> WM_CLOSE) -> foldl (holdsAfter hwnd) r calls = r).
Proof.
  revert r calls evs. induction rs as [|x rs IH]; intros r calls evs; cbn [messageLoop]; [by intros [= <- <- <-]|].
  destruct (int32 (rv_ret x) <=? 0); [by intros [= <- <- <-]|].
  unfold wndProc. destruct (messageLoop utf16 rs) as [[more evs'] ended'] eqn:Hm.
  destruct (Z.eqb_spec (rv_msg x) WM_CLOSE) as [Hcl|Hcl]; [|destruct (rv_msg x =? WM_DESTROY)]; intros [= <- <- <-];
    cbn [app foldl holdsAfter];
    match goal with |- context [foldl _ ?r0 more] => destruct (IH r0 more evs' eq_refl) as (-> & -> & Hsame) end; cbn;
    (split_and!; [done|done|]); intros Hno.
  - by destruct (Hno x); [left|].
  - apply Hsame. intros z Hz. apply Hno. by right.
  - apply Hsame. intros z Hz. apply Hno. by right.
Qed.

(** The defers undo the acquisitions, last first. *)
Lemma setup_defers a :
  let '(ann, calls, defers) := setupWindow a in
  defers = rev (map (releaseOf a) (acquisitions calls)) /\
  (forall w, ann = AnnounceWindow w -> w = sa_hwnd a /\ holds (sa_hwnd a) calls = allResources).
Proof.
  unfold setupWindow. destruct (sa_className a); [done|]. destruct (sa_class a =? 0); [done|].
  destruct (sa_hwnd a =? 0); [done|]. destruct (sa_notify a =? 0); [done|].
  split; [done|]. by intros w [= <-].
Qed.

(** What holds in every reachable state. *)
Record SInv (s : Startup) : Prop := {
  si_window : su_starter s = HasWindow \/ su_starter s = WaitLoopDone -> su_thread s <> SettingUp;
  si_close : su_close s = true -> su_thread s <> SettingUp /\ su_starter s <> SelectReady /\ su_starter s <> HasWindow;
  si_out : su_out s = true <-> forall f, su_starter s <> Returned f;
  si_failed : su_err s = true \/ su_starter s = Returned true -> su_thread s = Over;
  si_hwnd : su_hwnd s = true -> su_thread s <> SettingUp;
  si_done : su_close s = true -> su_starter s = WaitLoopDone \/ su_thread s = Over;
}.

Lemma SInv_step s s' : sstep s s' -> SInv s -> SInv s'.
Proof.
  intros H [Hw Hc Ho Hf Hh Hd]. destruct H; split; cbn in *; naive_solver.
Qed.

Lemma SInv_reach s : rtc sstep startedUp s -> SInv s.
Proof.
  intros H. assert (forall a b, rtc sstep a b -> SInv a -> SInv b) as Hpres by (induction 1; eauto using SInv_step).
  apply (Hpres _ _ H). split; cbn; naive_solver.
Qed.

Lemma acquisitions_app c1 c2 : acquisitions (c1 ++ c2) = acquisitions c1 ++ acquisitions c2.
Proof. apply List.filter_app. Qed.

Lemma loop_acquires_nothing utf16 rs : acquisitions (messageLoop utf16 rs).1.1 = [].
Proof.
  induction rs as [|r rs IH]; [done|]. cbn [messageLoop]. destruct (int32 (rv_ret r) <=? 0); [done|].
  unfold wndProc. destruct (messageLoop utf16 rs) as [[more evs] ended]. cbn [fst] in IH.
  destruct (rv_msg r =? WM_CLOSE); [|destruct (rv_msg r =? WM_DESTROY)]; cbn [fst]; rewrite !acquisitions_app, IH; done.
Qed.

(** What a run of the goroutine must satisfy. *)
Record threadResult (a : SetupAnswers) (rs : list Received) (ann : Announcement) (calls : list Win32)
    (evs : list USBEvent) (ended : bool) : Prop := {
  tr_announced : (exists err, ann = AnnounceError err /\ ended = true /\ evs = [] /\ GetMessage ∉ calls) \/
    ann = AnnounceWindow (sa_hwnd a);
  tr_ended : ended = true -> holds (sa_hwnd a) calls = noResources /\
    exists front, calls = front ++ rev (map (releaseOf a) (acquisitions front));
  tr_running : ended = false ->
    rs_class (holds (sa_hwnd a) calls) = true /\ rs_notify (holds (sa_hwnd a) calls) = true /\
    ((forall x, x ∈ rs -> rv_msg x <> WM_CLOSE) -> holds (sa_hwnd a) calls = allResources);
}.

Definition isGetMessage (c : Win32) : bool := match c with GetMessage => true | _ => false end.

Lemma failed_setup a rs err calls :
  forallb (fun c => negb (isGetMessage c)) (calls ++ rev (map (releaseOf a) (acquisitions calls))) = true ->
  holds (sa_hwnd a) (calls ++ rev (map (releaseOf a) (acquisitions calls))) = noResources ->
  threadResult a rs (AnnounceError err) (calls ++ rev (map (releaseOf a) (acquisitions calls))) [] true.
Proof.
  intros Hg Hh. split; [left; exists err; split_and!; try done|intros _; split; [done|by exists calls]|done].
  intros Hin%list_elem_of_In. by apply (proj1 (forallb_forall _ _) Hg) in Hin.
Qed.

(** After an early return nothing will close the window. *)
Definition orphaned (s : Startup) : Prop :=
  su_starter s = Returned false /\ su_close s = false /\ (su_thread s = Looping \/ su_broken s = true).

Lemma orphaned_step s s' : sstep s s' -> orphaned s -> orphaned s'.
Proof. intros H (H1 & H2 & H3). destruct H; cbn in *; unfold orphaned; cbn; naive_solver. Qed.

(** ** Properties *)

(** The goroutine of the window releases what it acquired.  For any answers of
    the Win32 calls and any messages: it announces an error or the window, an
    error only without entering the message loop; when it ends, its last calls
    are the releases of its acquisitions in reverse order, and neither class
    nor window nor notification is left; until then it holds the class and the
    notification, and the window unless it was asked to close. *)
Theorem window_thread_releases utf16 a rs :
  let '(ann, calls, evs, ended) := windowThread utf16 a rs in threadResult a rs ann calls evs ended.
Proof.
  unfold windowThread. pose proof (setup_defers a) as Hset. unfold setupWindow in *.
  destruct (sa_className a) as [err|]; [by apply (failed_setup a rs err [])|].
  destruct (sa_class a =? 0); [by apply (failed_setup a rs _ [RegisterClassEx false])|].
  destruct (sa_hwnd a =? 0); [by apply (failed_setup a rs _ [RegisterClassEx true; CreateWindowEx false])|].
  destruct (sa_notify a =? 0).
  { apply (failed_setup a rs _ [RegisterClassEx true; CreateWindowEx true; RegisterDeviceNotification false]); [done|]. unfold holds. cbn. by rewrite Z.eqb_refl. }
  destruct Hset as [Hdef Hall]. destruct (Hall _ eq_refl) as [_ Hheld].
  pose proof (loop_acquires_nothing utf16 rs) as Hacq.
  destruct (messageLoop utf16 rs) as [[more evs] ended] eqn:Hm. cbn [fst] in Hacq.
  destruct (holdsAfter_foldl_loop utf16 (sa_hwnd a) rs more evs ended allResources Hm) as (Hcl & Hno & Hsame).
  unfold holds in Hheld. split; [by right| |]; intros ->; unfold holds; rewrite !foldl_app, Hheld.
  - split.
    + destruct (foldl (holdsAfter (sa_hwnd a)) allResources more) as [c w n]. cbn. by rewrite Z.eqb_refl.
    + exists ([RegisterClassEx true; CreateWindowEx true; RegisterDeviceNotification true] ++ more).
      by rewrite acquisitions_app, Hacq, app_nil_r, <- Hdef, <- app_assoc.
  - by split_and!.
Qed.

(** C30: The watcher and its window.  In every reachable state a watcher that has
    returned has given up its place, and if it failed, or closed its window, its
    goroutine is over.  But when the context is done before the window is
    announced it returns at once, and nobody closes the window: a state is
    reachable in which the watcher has returned without error, a new one may
    start, and the goroutine is in its message loop with the class, the window
    and the notification, which nothing but a failure of [GetMessageW] will
    ever end. *)
Theorem usb_windows_early_cancel :
  (forall s f, rtc sstep startedUp s -> su_starter s = Returned f ->
     su_out s = false /\ (f = true \/ su_close s = true -> su_thread s = Over)) /\
  exists s, rtc sstep startedUp s /\ su_starter s = Returned false /\ su_thread s = Looping /\ su_ctx s = true /\
    startWatcher (su_out s) = None /\ su_broken s = false /\
    forall s', rtc sstep s s' -> su_close s' = false /\ (su_thread s' = Looping \/ su_broken s' = true).
Proof.
  split.
  - intros s f [_ _ Ho Hf _ Hd]%SInv_reach Hr. split.
    + destruct (su_out s); [|done]. exfalso. by apply (proj1 Ho eq_refl f).
    + intros [->|Hc]; [apply Hf; by right|]. destruct (Hd Hc) as [?|?]; [congruence|done].
  - exists (Build_Startup false (Returned false) Looping false true false true false). split_and!; try done.
    + eapply rtc_l; [apply s_cancel|]. eapply rtc_l; [apply s_early|]. eapply rtc_l; [apply s_setup_done|]. apply rtc_refl.
    + intros s' Hr. assert (forall x y, rtc sstep x y -> orphaned x -> orphaned y) as Hpres
        by (induction 1; eauto using orphaned_step).
      destruct (Hpres _ _ Hr) as (_ & ? & ?); [|done]. split_and!; cbn; auto.
Qed.
