(* ===== verification/ProcPoll.v ===== *)
(** What a round of polling reports, for any platform: the effect on the
    lifecycle engine of a snapshot that records the listed processes with the
    start times that could be read. *)
From S2P Require Import Prelude GoTime Lifecycle.

Open Scope Z_scope.

(** The instance recorded for [pid]: its start time is the readable one or
    zero. *)
Definition scannedBy (start : Z -> option Time) (pid : Z) (i : Instance) : Prop :=
  PID i = pid /\ StartTime i = default zeroTime (start pid).

(** A collector whose engine has a baseline. *)
Definition runningCollector (st : gmap string Instance) : ProcessCollector :=
  {| pc_engine := Some {| state := st; initialized := true |};
     pc_cancel := true; pc_started := true; pc_stopped := false |}.

Lemma IdentityKey_ext i j : PID i = PID j -> StartTime i = StartTime j -> IdentityKey i = IdentityKey j.
Proof. unfold IdentityKey. by intros -> ->. Qed.

Lemma firstObs_in snap i :
  i ∈ snap -> IsZero (StartTime i) = false -> is_Some (firstObs (IdentityKey i) snap).
Proof.
  intros Hi Hz. unfold firstObs. assert (i ∈ filter (isObs (IdentityKey i)) snap) as H.
  { apply list_elem_of_filter. done. }
  destruct (filter _ _); [by apply elem_of_nil in H|by eexists].
Qed.

(** Every entry of the snapshot is a listed process and every listed process
    has one. *)
Lemma Forall2_scanned start pids snap :
  Forall2 (scannedBy start) pids snap ->
  (forall i, i ∈ snap -> PID i ∈ pids /\ scannedBy start (PID i) i) /\
  (forall pid, pid ∈ pids -> exists i, i ∈ snap /\ scannedBy start pid i).
Proof.
  induction 1 as [|pid i pids snap Hi Hf [IH1 IH2]].
  { split; [intros i Hi|intros p Hp]; by apply elem_of_nil in Hi || by apply elem_of_nil in Hp. }
  split.
  - intros j [->|Hj]%elem_of_cons; [|destruct (IH1 j Hj); split; [by right|done]].
    destruct Hi as [<- Hs]. split; [by left|done].
  - intros p [->|Hp]%elem_of_cons; [exists i; split; [by left|done]|].
    destruct (IH2 p Hp) as (j & Hj & ?). exists j. split; [by right|done].
Qed.

(** The report of one round: an EXIT needs the PID gone or restarted, a START
    needs the process listed with that start time, and readable processes are
    tracked afterwards. *)
Definition faithfulRound (start : Z -> option Time) (pids : list Z) (st st' : gmap string Instance)
    (ems : list Emission) : Prop :=
  (forall i, (i, PROCESS_EXIT) ∈ ems -> st !! IdentityKey i = Some i /\
     (PID i ∈ pids -> exists t, start (PID i) = Some t /\ t <> StartTime i)) /\
  (forall i, (i, PROCESS_START) ∈ ems -> PID i ∈ pids /\ st !! IdentityKey i = None /\ start (PID i) = Some (StartTime i)) /\
  (forall pid t i, pid ∈ pids -> start pid = Some t -> t <> zeroTime -> PID i = pid -> StartTime i = t ->
     is_Some (st' !! IdentityKey i)).

Lemma reconcile_scanned range start pids st snap :
  enumerates range -> wfState st -> Forall2 (scannedBy start) pids snap ->
  exists st' ems,
    ProcessCollector_Reconcile range (runningCollector st) snap = (runningCollector st', ems) /\
    faithfulRound start pids st st' ems.
Proof.
  intros Hr Hwf Hf. destruct (Forall2_scanned _ _ _ Hf) as [Hin Hall].
  unfold ProcessCollector_Reconcile, withEngine. cbn [pc_engine runningCollector].
  destruct (Reconcile range {| state := st; initialized := true |} snap) as [le' ems] eqn:E.
  destruct (reconcile_result _ _ _ _ _ Hr Hwf E) as (exits & starts & -> & [Hi Hst _ _ _ _ Hex Hsta]).
  exists (state le'). eexists. split; [destruct le' as [s' i']; cbn in Hi; subst i'; reflexivity|].
  split_and!.
  - intros i Hi'. apply elem_of_app in Hi' as [Hi'|Hi']; apply list_elem_of_fmap in Hi' as (i' & [= ->] & Hi').
    apply Hex in Hi' as [Hs Hn]. split; [done|]. intros Hp.
    destruct (Hall _ Hp) as (k & Hk & Hpk & Hsk).
    unfold reconciled in Hn. rewrite Hs in Hn.
    destruct (firstObs (IdentityKey i') snap) eqn:Hfo; [done|]. case_decide as Hu; [done|].
    destruct (IsZero (StartTime k)) eqn:Hzk.
    { destruct Hu. apply Exists_exists. by exists k. }
    destruct (start (PID i')) as [t|]; [|by rewrite Hsk in Hzk]. cbn in Hsk.
    exists t. split; [done|]. intros Heq. destruct (firstObs_in snap k Hk Hzk) as [x Hx].
    rewrite (IdentityKey_ext k i') in Hx by congruence. congruence.
  - intros i Hi'. apply elem_of_app in Hi' as [Hi'|Hi']; apply list_elem_of_fmap in Hi' as (i' & [= ->] & Hi').
    apply Hsta in Hi' as [Hs Hn]. unfold reconciled in Hn. rewrite Hs in Hn.
    destruct (firstObs (IdentityKey i') snap) as [x|] eqn:Hfo; [|done]. injection Hn as ->.
    apply firstObs_some in Hfo as [Hx [Hxz _]]. destruct (Hin _ Hx) as [Hp [_ Hsk]].
    split_and!; [done|done|]. destruct (start (PID i')) as [t|]; [by rewrite Hsk|].
    by rewrite Hsk in Hxz.
  - intros pid t i Hp Ht Hz Hpi Hsi. destruct (Hall _ Hp) as (k & Hk & Hpk & Hsk). rewrite Ht in Hsk. cbn in Hsk.
    assert (IsZero (StartTime k) = false) as Hzk by (rewrite Hsk; unfold IsZero; by apply Z.eqb_neq).
    destruct (firstObs_in snap k Hk Hzk) as [x Hx]. rewrite (IdentityKey_ext k i) in Hx by congruence.
    rewrite Hst. unfold reconciled. rewrite Hx. by destruct (st !! IdentityKey i).
Qed.
