(* ===== verification/ProcLinux.v ===== *)
(** The Linux process adapter
    (agent/internal/collectors/process/adapter_linux.go): parsing of /proc and
    the polling that feeds the lifecycle engine.

    The file system is a [ProcFS]: a path is the list of elements that the code
    passes to [filepath.Join] after [procPath].  [os/user] is a parameter.  [None] is a run-time
    panic. *)
From S2P Require Import Prelude GoStrings GoText GoJson GoStruct GoTime GoParse Events Lifecycle ProcPoll.
From S2P Require Config.
From Stdlib Require Import Strings.Ascii.

Open Scope Z_scope.

Record ProcFS := {
  readDir : result (list (string * bool));          (* name, IsDir() *)
  readFile : list string -> result string;
  readLink : list string -> result string;
}.

(** [uidCache] lives for one pass and is passed along. *)
Record linuxAdapter := { bootTime : Z; userHz : Z }.

Definition LF : ascii := ascii_of_nat 10.
Definition NUL : ascii := ascii_of_nat 0.

(** ** Boot time and clock tick *)

Fixpoint findBtime (lines : list string) : result Z :=
  match lines with
  | [] => Err (ErrNew "btime not found in /proc/stat")
  | line :: lines =>
      if HasPrefix line "btime " then
        match Fields line with
        | _ :: f1 :: _ =>
            match Atoi f1 with
            | Some n => Ok n
            | None => Err (ErrNew ("strconv.ParseInt: parsing " ^^ f1))
            end
        | _ => findBtime lines
        end
      else findBtime lines
  end.

Definition getBootTime (fs : ProcFS) : result Z :=
  match readFile fs ["stat"%string] with
  | Err e => Err e
  | Ok data => findBtime (Split data LF)
  end.

(** The loop over the (type, value) pairs of 8-byte words; [k] is the number
    of complete pairs. *)
Fixpoint clkTickLoop (k : nat) (data : bytes) : result Z :=
  match k with
  | O => Err (ErrNew "AT_CLKTCK not found in auxv")
  | S k =>
      let typ := leWord (take 8 data) in
      let val := leWord (take 8 (drop 8 data)) in
      if typ =? 17 then Ok (i64 val)
      else if typ =? 0 then Err (ErrNew "AT_CLKTCK not found in auxv")
      else clkTickLoop k (drop 16 data)
  end.

Definition getClkTick (fs : ProcFS) : result Z :=
  match readFile fs ["self"; "auxv"]%string with
  | Err e => Err (ErrWrap ("failed to read auxv: " ^^ error_Error e) [e])
  | Ok text => let data := bytes_of text in clkTickLoop (length data / 16)%nat data
  end.

Definition newLinuxAdapter (fs : ProcFS) : result linuxAdapter :=
  match getBootTime fs with
  | Err e => Err (ErrWrap ("could not determine boot time: " ^^ error_Error e) [e])
  | Ok boot =>
      match getClkTick fs with
      | Err e => Err (ErrWrap ("could not determine clock ticks: " ^^ error_Error e) [e])
      | Ok hz => Ok {| bootTime := boot; userHz := hz |}
      end
  end.

(** ** One process *)

(** The start time of [ticks] clock ticks after boot; int64 division panics on
    a zero divisor. *)
Definition startTimeOf (a : linuxAdapter) (ticks : Z) : option Time :=
  if userHz a =? 0 then None
  else
    let sec := i64 (bootTime a + i64 (Z.quot ticks (userHz a))) in
    let nsec := i64 (Z.quot (i64 (Z.rem ticks (userHz a) * 1000000000)) (userHz a)) in
    Some (time_Unix sec nsec).

(** The inner option is the Go result: the instance, or false. *)
Definition parseStat (a : linuxAdapter) (pid : Z) (statStr : string) : option (option Instance) :=
  match IndexByte statStr "("%char, LastIndexByte statStr ")"%char with
  | Some firstParen, Some lastParen =>
      if (lastParen <=? firstParen)%nat then Some None
      else
        let name := prefixString (lastParen - S firstParen) (suffixString (S firstParen) statStr) in
        if (String.length statStr <=? lastParen + 2)%nat then Some None
        else
          let fields := Fields (suffixString (lastParen + 2) statStr) in
          match fields !! 1%nat, fields !! 19%nat with
          | Some f1, Some f19 =>
              match Atoi f1, Atoi f19 with
              | Some ppid, Some ticks =>
                  let! start := startTimeOf a ticks in
                  Some (Some {| PID := pid; StartTime := start; Name := Some name;
                                ParentPID := if ppid =? 0 then None else Some ppid;
                                ExecutablePath := None; CommandLine := None; User := None |})
              | _, _ => Some None
              end
          | _, _ => Some None
          end
  | _, _ => Some None
  end.

Fixpoint extractUid (lines : list string) : option string :=
  match lines with
  | [] => None
  | line :: lines =>
      if HasPrefix line "Uid:" then
        match Fields line with
        | _ :: uid :: _ => Some uid
        | _ => extractUid lines
        end
      else extractUid lines
  end.

Definition extractUidFromStatus (status : string) : option string := extractUid (Split status LF).

(** Trailing NUL of the command line removed. *)
Definition dropTrailingNul (s : string) : string :=
  match LastIndexByte s NUL with
  | Some i => if (S i =? String.length s)%nat then prefixString i s else s
  | None => s
  end.

Section Adapter.
Context (user_LookupId : string -> result string).

Notation Cache := (gmap string string).

Definition resolveUser (cache : Cache) (uid : string) : Cache * string :=
  match cache !! uid with
  | Some cached => (cache, cached)
  | None =>
      let username := match user_LookupId uid with Ok name => name | Err _ => uid end in
      (<[uid := username]> cache, username)
  end.

(** The optional metadata: executable, command line, user. *)
Definition commandLine (r : result string) : option string :=
  match r with
  | Err _ => None
  | Ok cmd =>
      let cmd := dropTrailingNul cmd in
      if cmd =s "" then None
      else Some (stringsText (Split cmd NUL))
  end.

Definition processUser (cache : Cache) (r : result string) : Cache * option string :=
  match r with
  | Err _ => (cache, None)
  | Ok status =>
      match extractUidFromStatus status with
      | None => (cache, None)
      | Some uid => let '(cache, name) := resolveUser cache uid in (cache, Some name)
      end
  end.

Definition parseProcess (a : linuxAdapter) (fs : ProcFS) (cache : Cache) (pid : Z)
    : option (Cache * option Instance) :=
  let dir := fmt_d pid in
  match readFile fs [dir; "stat"%string] with
  | Err _ => Some (cache, None)
  | Ok text =>
      let! inst := parseStat a pid text in
      match inst with
      | None => Some (cache, None)
      | Some inst =>
          let exe := match readLink fs [dir; "exe"%string] with Ok target => Some target | Err _ => None end in
          let '(cache, user) := processUser cache (readFile fs [dir; "status"%string]) in
          Some (cache, Some {| PID := PID inst; StartTime := StartTime inst; Name := Name inst;
                               ParentPID := ParentPID inst; ExecutablePath := exe;
                               CommandLine := commandLine (readFile fs [dir; "cmdline"%string]); User := user |})
      end
  end.

(** A process that cannot be read still enters the snapshot, by its PID alone. *)
Definition bareInstance (pid : Z) : Instance :=
  {| PID := pid; StartTime := zeroTime; Name := None; ParentPID := None;
     ExecutablePath := None; CommandLine := None; User := None |}.

Fixpoint captureEntries (a : linuxAdapter) (fs : ProcFS) (cache : Cache) (entries : list (string * bool))
    : option Snapshot :=
  match entries with
  | [] => Some []
  | (name, isDir) :: entries =>
      match (if (isDir : bool) then Atoi name else None) with
      | None => captureEntries a fs cache entries
      | Some pid =>
          let! r := parseProcess a fs cache pid in
          let '(cache, inst) := r in
          let! rest := captureEntries a fs cache entries in
          Some (match inst with Some inst => inst | None => bareInstance pid end :: rest)
      end
  end.

Definition captureSnapshot (a : linuxAdapter) (fs : ProcFS) : option (result Snapshot) :=
  match readDir fs with
  | Err e => Some (Err (ErrWrap ("failed to read /proc: " ^^ error_Error e) [e]))
  | Ok entries => let! snap := captureEntries a fs ∅ entries in Some (Ok snap)
  end.

(** One round of [startOSAdapter]: a failed scan is logged and skipped. *)
Definition poll range (a : linuxAdapter) (c : ProcessCollector) (fs : ProcFS)
    : option (ProcessCollector * list Emission) :=
  let! snap := captureSnapshot a fs in
  match snap with
  | Err _ => Some (c, [])
  | Ok snap => Some (ProcessCollector_Reconcile range c snap)
  end.

(** The ticker's interval: the setting when it parses to a positive duration. *)
Definition pollInterval (cfg : option Config.Config) : Duration :=
  match cfg with
  | None => 30 * Second
  | Some c =>
      if Config.ProcessInterval c =s "" then 30 * Second
      else match ParseDuration (Config.ProcessInterval c) with
           | Some d => if 0 <? d then d else 30 * Second
           | None => 30 * Second
           end
  end.

(** [startOSAdapter]: the initial round and one per tick, each on the file
    system of that moment; without an adapter it only waits. *)
Fixpoint pollAll range (a : linuxAdapter) (c : ProcessCollector) (rounds : list ProcFS)
    : option (ProcessCollector * list Emission) :=
  match rounds with
  | [] => Some (c, [])
  | fs :: rounds =>
      let! r := poll range a c fs in
      let '(c, ems) := r in
      let! r := pollAll range a c rounds in
      let '(c, ems') := r in Some (c, ems ++ ems')
  end.

Definition startOSAdapter range (c : ProcessCollector) (boot : ProcFS) (rounds : list ProcFS)
    : option (ProcessCollector * list Emission) :=
  match newLinuxAdapter boot with
  | Err _ => Some (c, [])
  | Ok a => pollAll range a c rounds
  end.
End Adapter.

(** ** Lemmas *)

(** [time.NewTicker] panics on an interval that is not positive. *)
Lemma pollInterval_pos cfg : 0 < pollInterval cfg.
Proof.
  unfold pollInterval. destruct cfg as [c|]; [|done]. destruct (_ =s _); [done|].
  destruct (ParseDuration _) as [d|]; [|done]. by destruct (Z.ltb_spec 0 d).
Qed.


(** *** The stat line *)

(** /proc/<pid>/stat: the PID, the command name in parentheses, which may hold
    any characters, then the remaining fields. *)
Definition statLine (pid : Z) (comm : string) (fields : list string) : string :=
  fmt_d pid ^^ " " ^^ String "("%char (comm ^^ String ")"%char (String " "%char
    (String.concat " " fields ^^ String LF EmptyString))).

Lemma startTimeOf_exact a ticks :
  0 < userHz a <= 1000000000 -> 0 <= ticks <= MaxInt64 -> 0 <= bootTime a ->
  bootTime a + ticks / userHz a + 62135596800 <= MaxInt64 ->
  startTimeOf a ticks = Some (unixEpoch + bootTime a * Second + ticks * Second / userHz a).
Proof.
  intros Hhz Ht Hb Hm. unfold startTimeOf. destruct (Z.eqb_spec (userHz a) 0) as [E|_]; [lia|].
  set (hz := userHz a) in *. pose proof (Z.div_mod ticks hz ltac:(lia)) as Hdm.
  pose proof (Z.mod_pos_bound ticks hz ltac:(lia)) as Hr.
  pose proof (Z.div_pos ticks hz ltac:(lia) ltac:(lia)) as Hq.
  rewrite (Z.quot_div_nonneg ticks hz), Z.rem_mod_nonneg by lia.
  assert (Hmul : ticks * Second / hz = ticks / hz * Second + ticks mod hz * 1000000000 / hz).
  { unfold Second. rewrite Hdm at 1.
    replace ((hz * (ticks / hz) + ticks mod hz) * 1000000000)
      with (ticks / hz * 1000000000 * hz + ticks mod hz * 1000000000) by ring.
    rewrite Z.div_add_l by lia. ring. }
  assert (Hns : 0 <= ticks mod hz * 1000000000 / hz < 1000000000).
  { split; [apply Z.div_pos; lia|apply Z.div_lt_upper_bound; lia]. }
  assert (ticks / hz <= MaxInt64) by (apply Z.div_le_upper_bound; int_lits; nia).
  rewrite (i64_small (ticks / hz)) by (int_lits; lia).
  rewrite (i64_small (bootTime a + _)) by (int_lits; lia).
  rewrite (i64_small (_ * 1000000000)) by (int_lits; nia).
  rewrite Z.quot_div_nonneg by lia.
  rewrite (i64_small (_ / hz)) by (int_lits; lia).
  unfold time_Unix, Second in *. rewrite (Z.div_small (ticks mod hz * 1000000000 / hz)), (Z.mod_small (ticks mod hz * 1000000000 / hz)) by lia.
  rewrite i64_small by (int_lits; lia). f_equal. unfold unixEpoch, Second. lia.
Qed.

Lemma statLine_split pid comm fields :
  let pre := fmt_d pid ^^ " " in
  let rest := String.concat " " fields ^^ String LF EmptyString in
  noChar ")"%char rest = true ->
  IndexByte (statLine pid comm fields) "("%char = Some (String.length pre) /\
  LastIndexByte (statLine pid comm fields) ")"%char = Some (S (String.length pre) + String.length comm)%nat /\
  suffixString (S (String.length pre)) (statLine pid comm fields) = comm ^^ String ")"%char (String " "%char rest) /\
  suffixString (S (S (S (String.length pre) + String.length comm))) (statLine pid comm fields) = rest /\
  String.length (statLine pid comm fields) = (String.length pre + String.length comm + 3 + String.length rest)%nat.
Proof.
  intros pre rest Hrest.
  assert (Hpre : noChar "("%char pre = true).
  { unfold pre, noChar. rewrite allChars_append. apply andb_true_intro. split; [|done].
    apply fmt_d_noChar; [reflexivity|discriminate]. }
  unfold statLine. fold pre rest. split_and!.
  - exact (IndexByte_first "("%char pre _ Hpre).
  - replace (pre ^^ String "("%char (comm ^^ String ")"%char (String " "%char rest)))
      with ((pre ^^ String "("%char comm) ^^ String ")"%char (String " "%char rest)) by (by rewrite append_assoc).
    rewrite LastIndexByte_last by (unfold noChar in *; cbn [allChars]; by rewrite Hrest).
    rewrite length_append. f_equal. cbn [String.length]. lia.
  - replace (pre ^^ String "("%char (comm ^^ String ")"%char (String " "%char rest)))
      with ((pre ^^ String "("%char "") ^^ (comm ^^ String ")"%char (String " "%char rest)))
      by (by rewrite append_assoc).
    replace (S (String.length pre)) with (String.length (pre ^^ String "("%char ""))
      by (rewrite length_append; cbn [String.length]; lia).
    apply suffixString_append.
  - replace (pre ^^ String "("%char (comm ^^ String ")"%char (String " "%char rest)))
      with ((pre ^^ String "("%char (comm ^^ String ")"%char (String " "%char ""))) ^^ rest)
      by (rewrite append_assoc, append_cons, append_assoc; reflexivity).
    replace (S (S (S (String.length pre) + String.length comm)))
      with (String.length (pre ^^ String "("%char (comm ^^ String ")"%char (String " "%char "")))).
    2:{ rewrite length_append. cbn [String.length]. rewrite length_append. cbn [String.length]. lia. }
    apply suffixString_append.
  - rewrite length_append. cbn [String.length]. rewrite length_append. cbn [String.length]. lia.
Qed.

(** Parsing the stat line finds the command name, whatever characters it has. *)
Lemma parseStat_statLine a pid comm fields ppid ticks :
  Forall (fun w => isWord w = true) fields -> Forall (fun w => noChar ")"%char w = true) fields ->
  fields !! 1%nat = Some (fmt_d ppid) -> fields !! 19%nat = Some (fmt_d ticks) ->
  in_i64 ppid -> in_i64 ticks ->
  parseStat a pid (statLine pid comm fields) =
    let! start := startTimeOf a ticks in
    Some (Some {| PID := pid; StartTime := start; Name := Some comm;
                  ParentPID := if ppid =? 0 then None else Some ppid;
                  ExecutablePath := None; CommandLine := None; User := None |}).
Proof.
  intros Hw Hp H1 H19 Hppid Hticks.
  assert (Hrest : noChar ")"%char (String.concat " " fields ^^ String LF EmptyString) = true).
  { unfold noChar. rewrite allChars_append. apply andb_true_intro. split; [by apply noChar_concat|done]. }
  destruct (statLine_split pid comm fields Hrest) as (Hi & Hl & Hs1 & Hs2 & Hlen). cbv zeta in *.
  unfold parseStat. rewrite Hi, Hl.
  replace (S (String.length (fmt_d pid ^^ " ")) + String.length comm - S (String.length (fmt_d pid ^^ " ")))%nat
    with (String.length comm) by lia.
  rewrite (proj2 (Nat.leb_gt _ _)) by lia. rewrite Hs1, prefixString_append.
  rewrite (proj2 (Nat.leb_gt _ _)).
  2:{ rewrite Hlen, (length_append (String.concat _ _)). cbn [String.length]. lia. }
  replace (S (String.length (fmt_d pid ^^ " ")) + String.length comm + 2)%nat
    with (S (S (S (String.length (fmt_d pid ^^ " ")) + String.length comm))) by lia.
  rewrite Hs2, Fields_concat by (done || apply endsFields_newline).
  by rewrite H1, H19, !Atoi_fmt_d by done.
Qed.

(** *** The snapshot *)

(** The directories whose name is a number. *)
Definition listedPID (e : string * bool) : option Z := if e.2 then Atoi e.1 else None.
Definition listedPIDs (entries : list (string * bool)) : list Z := omap listedPID entries.

(** What the stat file of a process says. *)
Definition statInstance (a : linuxAdapter) (fs : ProcFS) (pid : Z) : option Instance :=
  match readFile fs [fmt_d pid; "stat"%string] with
  | Err _ => None
  | Ok text => match parseStat a pid text with Some (Some inst) => Some inst | _ => None end
  end.

(** The start time the stat file gives. *)
Definition statStart (a : linuxAdapter) (fs : ProcFS) (pid : Z) : option Time := StartTime <$> statInstance a fs pid.

Lemma parseStat_total a pid text :
  userHz a <> 0 -> exists r, parseStat a pid text = Some r /\ forall i, r = Some i -> PID i = pid.
Proof.
  intros Hz. unfold parseStat, startTimeOf. rewrite (proj2 (Z.eqb_neq _ _) Hz).
  repeat case_match; cbn; eexists; (split; [reflexivity|]); intros i Hi; try discriminate;
    by injection Hi as <-.
Qed.

Lemma statInstance_pid a fs pid j : userHz a <> 0 -> statInstance a fs pid = Some j -> PID j = pid.
Proof.
  intros Hz. unfold statInstance. destruct (readFile _ _) as [text|]; [|done].
  destruct (parseStat_total a pid text Hz) as ([i|] & -> & Hp); [|done]. intros [= <-]. by apply Hp.
Qed.

Section AdapterProofs.
Context (user_LookupId : string -> result string).

Lemma parseProcess_spec a fs cache pid :
  userHz a <> 0 ->
  exists cache' r, parseProcess user_LookupId a fs cache pid = Some (cache', r) /\
    scannedBy (statStart a fs) pid (match r with Some i => i | None => bareInstance pid end).
Proof.
  intros Hz. unfold parseProcess, scannedBy, statStart, statInstance. cbv zeta.
  destruct (readFile fs [fmt_d pid; "stat"%string]) as [text|e]; [|by eexists _, None].
  destruct (parseStat_total a pid text Hz) as ([i|] & -> & Hp); cbn; [|by eexists _, None].
  destruct (processUser _ _ _) as [cache' user]. eexists _, (Some _). split; [done|].
  cbn. split; [by apply Hp|done].
Qed.

Lemma captureEntries_spec a fs cache entries :
  userHz a <> 0 ->
  exists snap, captureEntries user_LookupId a fs cache entries = Some snap /\
    Forall2 (scannedBy (statStart a fs)) (listedPIDs entries) snap.
Proof.
  intros Hz. revert cache. induction entries as [|[name isDir] entries IH]; intros cache; cbn [captureEntries].
  - exists []. split; [done|constructor].
  - unfold listedPIDs. cbn [omap list_omap]. unfold listedPID at 1. cbn [fst snd].
    destruct (if isDir then Atoi name else None) as [pid|]; [|apply IH].
    destruct (parseProcess_spec a fs cache pid Hz) as (cache' & r & -> & Hr).
    destruct (IH cache') as (snap & Hs & Hf). cbn [mbind option_bind]. rewrite Hs. cbn.
    eexists. split; [reflexivity|]. by constructor.
Qed.

End AdapterProofs.

(** The command line that is reported holds the arguments, each in valid UTF-8:
    what is no UTF-8 is replaced. *)
Lemma commandLine_arguments raw s :
  commandLine (Ok raw) = Some s ->
  exists v, jsonParse (bytes_of s) = Some v /\
    intoStrings ([], []) v = Some (map sanitize (Split (dropTrailingNul raw) NUL), []).
Proof.
  unfold commandLine. destruct (dropTrailingNul raw =s ""); [done|]. intros [= <-]. apply stringsText_reads.
Qed.

(** Two different arguments that are reported alike: no JSON text holds a byte
    that is not UTF-8. *)
Example commandLine_lossy :
  string_of [x63; xfe] <> string_of [x63; xff] /\
  commandLine (Ok (string_of [x63; xfe])) = commandLine (Ok (string_of [x63; xff])) /\
  commandLine (Ok (string_of [x63; xff])) = Some (string_of (bytes_of (apostrophes "['c\ufffd']"))).
Proof. vm_compute. split; [done|]. by split. Qed.

(** ** Properties *)

(** The stat parser finds the process, whatever its name.  For every
    well-formed line of /proc/<pid>/stat, even when the command name contains
    blanks and parentheses, parsing yields the PID, the exact name, the parent
    (none for 0), and the start time: boot time plus ticks over the clock rate,
    to the nanosecond, without overflow for rates up to 1 GHz. *)
Theorem parse_stat_faithful a pid comm fields ppid ticks :
  0 < userHz a <= 1000000000 -> 0 <= bootTime a -> 0 <= ticks <= MaxInt64 -> in_i64 ppid ->
  bootTime a + ticks / userHz a + 62135596800 <= MaxInt64 ->
  Forall (fun w => isWord w = true) fields -> Forall (fun w => noChar ")"%char w = true) fields ->
  fields !! 1%nat = Some (fmt_d ppid) -> fields !! 19%nat = Some (fmt_d ticks) ->
  parseStat a pid (statLine pid comm fields) = Some (Some {|
    PID := pid; StartTime := unixEpoch + bootTime a * Second + ticks * Second / userHz a;
    Name := Some comm; ParentPID := if ppid =? 0 then None else Some ppid;
    ExecutablePath := None; CommandLine := None; User := None |}).
Proof.
  intros Hhz Hb Ht Hp Hm Hw Hn H1 H19. rewrite (parseStat_statLine a pid comm fields ppid ticks); try done.
  - by rewrite startTimeOf_exact.
  - int_lits. lia.
Qed.

(** C24: Polling reports what /proc shows.  Once the baseline is established and
    the clock rate is not zero, a round never panics.  An EXIT is of a tracked
    instance whose PID is no longer listed, or is listed with a readable start
    time that differs: a process that merely cannot be read is never reported
    as exited.  A START is of a listed process with that start time, and every
    listed process with a readable start time is tracked afterwards.  A failed
    listing changes nothing. *)
Theorem poll_faithful user_LookupId range a fs st :
  enumerates range -> wfState st -> userHz a <> 0 ->
  exists c' ems,
    poll user_LookupId range a (runningCollector st) fs = Some (c', ems) /\
    match readDir fs with
    | Err _ => c' = runningCollector st /\ ems = []
    | Ok entries =>
        exists st', c' = runningCollector st' /\
        (forall i, (i, PROCESS_EXIT) ∈ ems -> st !! IdentityKey i = Some i /\
           (PID i ∈ listedPIDs entries ->
            exists j, statInstance a fs (PID i) = Some j /\ StartTime j <> StartTime i)) /\
        (forall i, (i, PROCESS_START) ∈ ems -> PID i ∈ listedPIDs entries /\ st !! IdentityKey i = None /\
           exists j, statInstance a fs (PID i) = Some j /\ StartTime j = StartTime i) /\
        (forall pid j, pid ∈ listedPIDs entries -> statInstance a fs pid = Some j -> StartTime j <> zeroTime ->
           is_Some (st' !! IdentityKey j))
    end.
Proof.
  intros Hr Hwf Hz. unfold poll, captureSnapshot. destruct (readDir fs) as [entries|e]; cbn [mbind option_bind].
  2:{ eexists _, _. split; [reflexivity|done]. }
  destruct (captureEntries_spec user_LookupId a fs ∅ entries Hz) as (snap & -> & Hf). cbn [mbind option_bind].
  destruct (reconcile_scanned range _ _ st snap Hr Hwf Hf) as (st' & ems & -> & Hex & Hsta & Htr).
  eexists _, _. split; [reflexivity|]. exists st'. split; [done|]. unfold statStart in *. split_and!.
  - intros i [Hs Hp]%Hex. split; [done|]. intros (t & Ht & Hne)%Hp. apply fmap_Some in Ht as (j & Hj & ->). by exists j.
  - intros i (Hp & Hn & Ht)%Hsta. split_and!; [done..|]. apply fmap_Some in Ht as (j & Hj & Ht). by exists j.
  - intros pid j Hp Hj Hzj. pose proof (statInstance_pid _ _ _ _ Hz Hj) as Hpj.
    apply (Htr pid (StartTime j) j); try done. by rewrite Hj.
Qed.

(** ** Witnesses *)

Definition bootedAdapter : linuxAdapter := {| bootTime := 1700000000; userHz := 100 |}.

Definition shellFields : list string :=
  ["S"; "1"; "7"; "7"; "0"; "-1"; "4194560"; "1"; "0"; "0"; "0"; "2"; "3"; "0"; "0"; "20"; "0"; "1"; "0"; "4242"]%string.

Lemma parse_stat_faithful_witness :
  parseStat bootedAdapter 7 (statLine 7 "a) (b c" shellFields) = Some (Some {|
    PID := 7; StartTime := unixEpoch + 1700000042 * Second + 420000000;
    Name := Some "a) (b c"%string; ParentPID := Some 1;
    ExecutablePath := None; CommandLine := None; User := None |}).
Proof.
  refine (eq_trans (parse_stat_faithful bootedAdapter 7 "a) (b c" shellFields 1 4242 _ _ _ _ _ _ _ _ _) _).
  all: try (vm_compute; reflexivity).
  all: try (cbn; int_lits; lia).
  all: try (vm_compute; intuition congruence).
  all: repeat constructor.
Defined.

(** PID 7 is listed, and none of its files can be read. *)
Definition opaqueFS : ProcFS := {|
  readDir := Ok [("7"%string, true); ("meminfo"%string, false)];
  readFile := fun _ => Err (ErrNew "permission denied");
  readLink := fun _ => Err (ErrNew "permission denied") |}.

Lemma poll_faithful_witness :
  exists c' ems,
    poll (fun _ => Err (ErrNew "")) map_to_list bootedAdapter
      (runningCollector (track [proc 7 5000])) opaqueFS = Some (c', ems) /\
    forall i, (i, PROCESS_EXIT) ∈ ems -> PID i <> 7.
Proof.
  destruct (poll_faithful (fun _ => Err (ErrNew "")) map_to_list bootedAdapter opaqueFS
              (track [proc 7 5000])) as (c' & ems & Hp & st' & _ & Hexit & _).
  - intros m. reflexivity.
  - intros k i. unfold track. cbn. rewrite lookup_insert_Some. intros [[<- <-]|[_ H]]; [done|].
    by rewrite lookup_empty in H.
  - cbn. lia.
  - exists c', ems. split; [exact Hp|]. intros i Hi H7. destruct (Hexit i Hi) as [_ Hj].
    rewrite H7 in Hj. destruct Hj as (j & Hj & _); [by left|]. discriminate Hj.
Defined.
