(* ===== verification/ProcWindows.v ===== *)
(** The Windows process adapter
    (agent/internal/collectors/process/adapter_windows.go).  The interface
    [osAPI] of the source is a record of operations; the implementation over
    the system calls takes their replies as inputs. *)
From S2P Require Import Prelude GoStrings GoTime GoParse Lifecycle ProcPoll.
From S2P Require Config.

Local Open Scope string_scope.
Local Open Scope list_scope.
Open Scope Z_scope.

Record ProcessEntry := { pe_PID : Z; pe_PPID : Z; pe_Name : string }.

Record osAPI := {
  EnumerateProcesses : result (list ProcessEntry);
  GetProcessStartTime : Z -> result Time;
  GetExecutablePath : Z -> result string;
  GetProcessUserSID : Z -> result string;
  ResolveSID : string -> result string;
}.

(** ** The adapter *)

Notation UserCache := (gmap string string).

(** The cache maps a failed SID to the empty name. *)
Definition winResolveUser (api : osAPI) (cache : UserCache) (sid : string) : UserCache * option string :=
  match cache !! sid with
  | Some cached => (cache, if cached =s "" then None else Some cached)
  | None =>
      match ResolveSID api sid with
      | Err _ => (<[sid := ""]> cache, None)
      | Ok username => (<[sid := username]> cache, Some username)
      end
  end.

Definition winEntry (api : osAPI) (cache : UserCache) (entry : ProcessEntry) : UserCache * Instance :=
  match GetProcessStartTime api (pe_PID entry) with
  | Err _ => (cache, {| PID := pe_PID entry; StartTime := zeroTime; Name := None; ParentPID := None;
                        ExecutablePath := None; CommandLine := None; User := None |})
  | Ok startTime =>
      let '(cache, user) := match GetProcessUserSID api (pe_PID entry) with
                            | Ok sid => winResolveUser api cache sid
                            | Err _ => (cache, None)
                            end in
      (cache, {| PID := pe_PID entry; StartTime := startTime;
                 Name := if negb (pe_Name entry =s "") then Some (pe_Name entry) else None;
                 ParentPID := if negb (pe_PPID entry =? 0) then Some (pe_PPID entry) else None;
                 ExecutablePath := match GetExecutablePath api (pe_PID entry) with Ok p => Some p | Err _ => None end;
                 CommandLine := None; User := user |})
  end.

Fixpoint winEntries (api : osAPI) (cache : UserCache) (entries : list ProcessEntry) : list Instance :=
  match entries with
  | [] => []
  | e :: entries => let '(cache, i) := winEntry api cache e in i :: winEntries api cache entries
  end.

Definition winCaptureSnapshot (api : osAPI) : result Snapshot :=
  match EnumerateProcesses api with
  | Err e => Err (ErrWrap ("process enumeration failed: " ^^ error_Error e) [e])
  | Ok entries => Ok (winEntries api ∅ entries)
  end.

(** One round: a failed enumeration is logged and not reconciled. *)
Definition winPoll range (c : ProcessCollector) (api : osAPI) : ProcessCollector * list Emission :=
  match winCaptureSnapshot api with
  | Err _ => (c, [])
  | Ok snap => ProcessCollector_Reconcile range c snap
  end.

(** The initial round and one per tick. *)
Fixpoint winStartOSAdapter range (c : ProcessCollector) (rounds : list osAPI) : ProcessCollector * list Emission :=
  match rounds with
  | [] => (c, [])
  | api :: rounds =>
      let '(c, ems) := winPoll range c api in
      let '(c, ems') := winStartOSAdapter range c rounds in (c, ems ++ ems')
  end.

Definition winPollInterval (cfg : option Config.Config) : Duration :=
  match cfg with
  | None => 30 * Second
  | Some c =>
      if Config.ProcessInterval c =s "" then 30 * Second
      else match ParseDuration (Config.ProcessInterval c) with
           | Some d => if 0 <? d then d else 30 * Second
           | None => 30 * Second
           end
  end.

(** ** The system calls *)

(** What [Process32Next] answers. *)
Inductive NextReply := NextEntry (e : ProcessEntry) | NoMoreFiles | NextFailed (e : error).

(** [None]: the replies given do not end the loop. *)
Fixpoint enumerateNext (next : list NextReply) : option (result (list ProcessEntry)) :=
  match next with
  | [] => None
  | NoMoreFiles :: _ => Some (Ok [])
  | NextFailed e :: _ => Some (Err e)
  | NextEntry e :: next =>
      let! r := enumerateNext next in
      Some (match r with Ok es => Ok (e :: es) | Err err => Err err end)
  end.

Definition realEnumerateProcesses (handle : option error) (first : result ProcessEntry) (next : list NextReply)
    : option (result (list ProcessEntry)) :=
  match handle with
  | Some e => Some (Err e)
  | None =>
      match first with
      | Err e => Some (Err e)
      | Ok e =>
          let! r := enumerateNext next in
          Some (match r with Ok es => Ok (e :: es) | Err err => Err err end)
      end
  end.

(** What [QueryFullProcessImageName] answers for a buffer. *)
Inductive QueryReply := QueryOk (path : string) | QueryTooSmall | QueryFailed (e : error).

(** The buffer sizes asked with and the result. *)
Fixpoint queryPath (buflen : Z) (replies : list QueryReply) : list Z * option (result string) :=
  match replies with
  | [] => ([buflen], None)
  | QueryOk path :: _ => ([buflen], Some (Ok path))
  | QueryFailed e :: _ => ([buflen], Some (Err e))
  | QueryTooSmall :: replies => let '(sizes, r) := queryPath (buflen * 2) replies in (buflen :: sizes, r)
  end.

Definition MAX_PATH : Z := 260.

Definition realGetExecutablePath (openErr : option error) (replies : list QueryReply) : list Z * option (result string) :=
  match openErr with
  | Some e => ([], Some (Err e))
  | None => queryPath MAX_PATH replies
  end.

Record FileTime := { ft_Low : Z; ft_High : Z }.

Section RealAPI.
(** [Filetime.Nanoseconds] of golang.org/x/sys: nanoseconds since 1970. *)
Context (Nanoseconds : FileTime -> Z).

Definition filetimeToTime (ft : FileTime) : result Time :=
  if (ft_High ft =? 0) && (ft_Low ft =? 0) then Err (ErrNew "zero filetime")
  else Ok (time_Unix 0 (Nanoseconds ft)).

Definition realGetProcessStartTime (openErr timesErr : option error) (creation : FileTime) : result Time :=
  match openErr with
  | Some e => Err e
  | None => match timesErr with Some e => Err e | None => filetimeToTime creation end
  end.
End RealAPI.

Definition realGetProcessUserSID (openErr tokenErr : option error) (user : result string) : result string :=
  match openErr with
  | Some e => Err e
  | None => match tokenErr with Some e => Err e | None => user end
  end.

(** [account, domain] of [LookupAccount]. *)
Definition realResolveSID (convertErr : option error) (lookup : result (string * string)) : result string :=
  match convertErr with
  | Some e => Err e
  | None =>
      match lookup with
      | Err e => Err e
      | Ok (account, domain) => Ok (if negb (domain =s "") then domain ^^ "\" ^^ account else account)
      end
  end.

(** ** Specification *)

(** The user of a SID, asked every time. *)
Definition lookupUser (api : osAPI) (sid : string) : option string :=
  match ResolveSID api sid with Ok u => Some u | Err _ => None end.

(** The instance of an entry without a cache. *)
Definition instanceOf (api : osAPI) (entry : ProcessEntry) : Instance :=
  match GetProcessStartTime api (pe_PID entry) with
  | Err _ => {| PID := pe_PID entry; StartTime := zeroTime; Name := None; ParentPID := None;
                ExecutablePath := None; CommandLine := None; User := None |}
  | Ok startTime =>
      {| PID := pe_PID entry; StartTime := startTime;
         Name := if negb (pe_Name entry =s "") then Some (pe_Name entry) else None;
         ParentPID := if negb (pe_PPID entry =? 0) then Some (pe_PPID entry) else None;
         ExecutablePath := match GetExecutablePath api (pe_PID entry) with Ok p => Some p | Err _ => None end;
         CommandLine := None;
         User := match GetProcessUserSID api (pe_PID entry) with Ok sid => lookupUser api sid | Err _ => None end |}
  end.

(** The cache holds what a lookup would give. *)
Definition cacheOk (api : osAPI) (cache : UserCache) : Prop :=
  forall sid u, cache !! sid = Some u -> lookupUser api sid = if u =s "" then None else Some u.

Definition winStart (api : osAPI) (pid : Z) : option Time :=
  match GetProcessStartTime api pid with Ok t => Some t | Err _ => None end.

(** ** Lemmas *)
Lemma winResolveUser_ok api cache sid :
  (forall s, ResolveSID api s <> Ok "") -> cacheOk api cache ->
  cacheOk api (winResolveUser api cache sid).1 /\ (winResolveUser api cache sid).2 = lookupUser api sid.
Proof.
  intros Hne Hc. unfold winResolveUser. destruct (cache !! sid) as [u|] eqn:Hs.
  { split; [done|]. by rewrite (Hc _ _ Hs). }
  unfold lookupUser at 1. destruct (ResolveSID api sid) as [u|e] eqn:Hr; cbn [fst snd]; (split; [|done]).
  - intros s v [[<- <-]|[_ Hv]]%lookup_insert_Some; [|by apply Hc]. unfold lookupUser. rewrite Hr.
    destruct (String.eqb_spec u "") as [->|]; [by destruct (Hne sid)|done].
  - intros s v [[<- <-]|[_ Hv]]%lookup_insert_Some; [|by apply Hc]. unfold lookupUser. by rewrite Hr.
Qed.

Lemma winEntry_ok api cache e :
  (forall s, ResolveSID api s <> Ok "") -> cacheOk api cache ->
  cacheOk api (winEntry api cache e).1 /\ (winEntry api cache e).2 = instanceOf api e.
Proof.
  intros Hne Hc. unfold winEntry, instanceOf. destruct (GetProcessStartTime api (pe_PID e)); [|done].
  destruct (GetProcessUserSID api (pe_PID e)) as [sid|]; [|done].
  destruct (winResolveUser_ok api cache sid Hne Hc) as [H1 H2].
  destruct (winResolveUser api cache sid) as [cache' u]. cbn in *. by subst u.
Qed.

Lemma winEntries_ok api cache entries :
  (forall s, ResolveSID api s <> Ok "") -> cacheOk api cache ->
  winEntries api cache entries = map (instanceOf api) entries.
Proof.
  intros Hne. revert cache. induction entries as [|e entries IH]; intros cache Hc; [done|]. cbn [winEntries map].
  destruct (winEntry_ok api cache e Hne Hc) as [H1 H2]. destruct (winEntry api cache e) as [cache' i]. cbn in *.
  by rewrite H2, (IH _ H1).
Qed.

(** Whatever the cache holds, the entry records PID and start time. *)
Lemma winEntries_scanned api cache entries :
  Forall2 (scannedBy (winStart api)) (map pe_PID entries) (winEntries api cache entries).
Proof.
  revert cache. induction entries as [|e entries IH]; intros cache; [constructor|]. cbn [winEntries map].
  destruct (winEntry api cache e) as [cache' i] eqn:E. constructor; [|apply IH].
  unfold winEntry in E. unfold scannedBy, winStart. destruct (GetProcessStartTime api (pe_PID e)); [|by injection E as <- <-].
  destruct (match GetProcessUserSID _ _ with Ok _ => _ | Err _ => _ end). by injection E as <- <-.
Qed.

Lemma winPollInterval_pos cfg : 0 < winPollInterval cfg.
Proof.
  unfold winPollInterval. destruct cfg as [c|]; [|done]. destruct (_ =s _); [done|].
  destruct (ParseDuration _) as [d|]; [|done]. by destruct (Z.ltb_spec 0 d).
Qed.

(** ** Properties *)

(** Polling on Windows reports what the process list shows, and its cache
    changes nothing.  A round whose enumeration fails leaves the collector and
    emits nothing.  Otherwise the snapshot is, entry by entry, the one built
    by resolving every user afresh; an EXIT is of a tracked process that is no
    longer listed or was restarted, never of one that merely cannot be
    queried; a START is of a listed process with that start time; readable
    processes are tracked afterwards. *)
Theorem windows_poll_faithful range api st :
  enumerates range -> wfState st -> (forall sid, ResolveSID api sid <> Ok "") ->
  match EnumerateProcesses api with
  | Err _ => winPoll range (runningCollector st) api = (runningCollector st, [])
  | Ok entries =>
      winCaptureSnapshot api = Ok (map (instanceOf api) entries) /\
      exists st' ems, winPoll range (runningCollector st) api = (runningCollector st', ems) /\
        faithfulRound (winStart api) (map pe_PID entries) st st' ems
  end.
Proof.
  intros Hr Hwf Hne. unfold winPoll, winCaptureSnapshot. destruct (EnumerateProcesses api) as [entries|e]; [|done].
  split; [by rewrite winEntries_ok|]. apply reconcile_scanned; [done..|]. apply winEntries_scanned.
Qed.

(** Two processes of one user, the second of which cannot be opened. *)
Definition plantAPI : osAPI := {|
  EnumerateProcesses := Ok [{| pe_PID := 4; pe_PPID := 0; pe_Name := "System" |};
                            {| pe_PID := 8; pe_PPID := 4; pe_Name := "hmi.exe" |}];
  GetProcessStartTime pid := if pid =? 8 then Ok 5000 else Err (ErrNew "access denied");
  GetExecutablePath _ := Err (ErrNew "access denied");
  GetProcessUserSID _ := Ok "S-1-5-18";
  ResolveSID _ := Ok "NT AUTHORITY\SYSTEM" |}.

Lemma windows_poll_faithful_witness :
  winCaptureSnapshot plantAPI = Ok (map (instanceOf plantAPI)
    [{| pe_PID := 4; pe_PPID := 0; pe_Name := "System" |}; {| pe_PID := 8; pe_PPID := 4; pe_Name := "hmi.exe" |}]) /\
  (winPoll map_to_list (runningCollector ∅) plantAPI).2 = [(instanceOf plantAPI {| pe_PID := 8; pe_PPID := 4; pe_Name := "hmi.exe" |}, PROCESS_START)].
Proof.
  split; [|vm_compute; reflexivity].
  exact (proj1 (windows_poll_faithful map_to_list plantAPI ∅ (fun m => reflexivity _) ltac:(intros k i H; by rewrite lookup_empty in H)
    ltac:(discriminate))).
Defined.
