(* ===== verification/Storage.v ===== *)
(** The durable event store of the agent (agent/internal/storage/sqlite.go):
    the tables [events], [dead_letter_queue] and [agent_state], and every
    operation that reads or writes them.

    The database is the record [DB]; an autocommitted statement changes it at
    once, a transaction works on a copy that [tx.Commit] installs.  What the
    code cannot control is the argument [env]: which SQL statement fails and
    how, whether a failed commit took effect, and the file sizes [os.Stat]
    reports.  [encoding/json] is a parameter.  The mutex [s.mu] serialises the
    operations, so each is one function of the database. *)
From S2P Require Import Prelude GoStrings GoFloat GoTime Events.

Open Scope Z_scope.

Definition ErrStoreFailedBeforeCommit : string := "store definitely failed before commit".
Definition ErrStoreUncertain : string := "store commit result uncertain".

(** ** Tables *)

Record EventRow := {
  er_event_id : string;
  er_device_id : string;
  er_seq_no : Z;
  er_severity : string;
  er_payload : string;
  er_state : string;
  er_attempt_count : Z;
  er_next_attempt_at : option Z;    (* UTC text with second resolution: Unix seconds *)
}.

Record DLQRow := {
  dl_event_id : string;
  dl_device_id : string;
  dl_seq_no : Z;
  dl_payload : string;
  dl_failure_type : string;
  dl_failure_reason : string;
  dl_first_seen : Z;
}.

Record AgentState := {
  as_device_id : string;
  as_next_seq_no : Z;
  as_dropped_total : Z;
  as_dropped_debug : Z;
  as_dropped_info : Z;
  as_dropped_warning : Z;
  as_pressure_state : option string;
  as_last_pressure_at : option Z;
}.

(** [db_agent] is the row [id = 1], when there is one. *)
Record DB := {
  db_events : gmap string EventRow;
  db_dlq : gmap string DLQRow;
  db_agent : option AgentState;
}.

Definition setEvents (m : gmap string EventRow) (db : DB) : DB :=
  {| db_events := m; db_dlq := db_dlq db; db_agent := db_agent db |}.
Definition setDLQ (m : gmap string DLQRow) (db : DB) : DB :=
  {| db_events := db_events db; db_dlq := m; db_agent := db_agent db |}.
(** [UPDATE agent_state SET ... WHERE id = 1] *)
Definition updateAgent (f : AgentState -> AgentState) (db : DB) : DB :=
  {| db_events := db_events db; db_dlq := db_dlq db; db_agent := f <$> db_agent db |}.

(** [s.db] is nil until [Init] succeeded. *)
Record SQLiteStorage := {
  quotaBytes : Z;
  deviceID : string;
  s_db : option DB;
}.

Definition setDB (db : DB) (s : SQLiteStorage) : SQLiteStorage :=
  {| quotaBytes := quotaBytes s; deviceID := deviceID s; s_db := Some db |}.

(** ** The environment *)

(** The statements of the program, by the place they are executed at. *)
Inductive SqlCall :=
  | QEventById | QDLQById
  | BeginTx | TxNextSeq | TxInsertEvent | TxBumpSeq | CommitHook
  | PruneDelete (sev : string) (i : nat) | PruneCount (sev : string) (i : nat)
  | SetEmergency | SetOK
  | QPending | ScanPending
  | TxDLQById | TxInsertDLQ | TxDeleteEvent
  | DeleteEvent | QAttempts | UpdateAttempt
  | CommitTx.

Inductive SizeCall := SizeFirst | SizeLoop (sev : string) (i : nat) | SizeLast.

Inductive StatResult := StatSize (n : Z) | StatNotExist | StatError (e : error).

Record Env := {
  sqlErr : SqlCall -> option error;
  commitApplied : bool;               (* a failing commit may have taken effect *)
  txCheckOk : bool;                   (* the unchecked query inside the transaction succeeds *)
  stat : SizeCall -> string -> StatResult;
  now : Z;                            (* CURRENT_TIMESTAMP and time.Now(), Unix seconds *)
  nowNano : Z;                        (* time.Now().UnixNano(), for the jitter *)
}.

(** [fmt.Errorf("%w: %w", sentinel, err)] *)
Definition wrapBoth (sentinel : string) (err : error) : error :=
  ErrWrap (sentinel ^^ ": " ^^ error_Error err) [ErrNew sentinel; err].
(** [fmt.Errorf("%w: ...", sentinel)] *)
Definition wrapMsg (sentinel msg : string) : error :=
  ErrWrap (sentinel ^^ ": " ^^ msg) [ErrNew sentinel].

(** ** Sizes and quota *)

Definition dbFiles : list string := [""; "-wal"; "-shm"]%string.

Fixpoint sumSizes (st : string -> StatResult) (files : list string) (total : Z) : result Z :=
  match files with
  | [] => Ok total
  | f :: files =>
      match st f with
      | StatSize n => sumSizes st files (i64 (total + n))
      | StatNotExist => sumSizes st files total
      | StatError e => Err e
      end
  end.

Definition getTotalSize (env : Env) (c : SizeCall) : result Z := sumSizes (stat env c) dbFiles 0.

(** [size, _ := s.getTotalSize()]: 0 when it fails. *)
Definition sizeOrZero (r : result Z) : Z := match r with Ok n => n | Err _ => 0 end.

(** [int64(float64(s.quotaBytes)*0.9)] *)
Definition pruneTarget (quota : Z) : Z := f_trunc (fmul (f_of_Z quota) (f_lit 9 10)).

Definition seqLe (a b : EventRow) : Prop := er_seq_no a <= er_seq_no b.
#[export] Instance seqLe_dec a b : Decision (seqLe a b).
Proof. unfold seqLe. apply _. Defined.

(** [SELECT ... FROM events WHERE P ORDER BY seq_no ASC LIMIT n] *)
Definition selectBySeq (P : EventRow -> bool) (n : nat) (m : gmap string EventRow) : list EventRow :=
  take n (merge_sort seqLe (filter (fun r => P r = true) (map_to_list m).*2)).

Definition deleteRows (ids : list string) (m : gmap string EventRow) : gmap string EventRow :=
  foldr delete m ids.

Definition pruneVictims (sev : string) (m : gmap string EventRow) : list EventRow :=
  selectBySeq (fun r => er_severity r =s sev) 50 m.

(** The counter update of the pruning loop. *)
Definition countDropped (t : Z) (sev : string) (rows : Z) (a : AgentState) : AgentState := {|
  as_device_id := as_device_id a; as_next_seq_no := as_next_seq_no a;
  as_dropped_total := as_dropped_total a + rows;
  as_dropped_debug := if sev =s "DEBUG" then as_dropped_debug a + rows else as_dropped_debug a;
  as_dropped_info := if sev =s "INFO" then as_dropped_info a + rows else as_dropped_info a;
  as_dropped_warning := if sev =s "WARNING" then as_dropped_warning a + rows else as_dropped_warning a;
  as_pressure_state := Some "PRUNING"%string; as_last_pressure_at := Some t |}.

Definition setPressure (st : string) (t : option Z) (a : AgentState) : AgentState := {|
  as_device_id := as_device_id a; as_next_seq_no := as_next_seq_no a;
  as_dropped_total := as_dropped_total a; as_dropped_debug := as_dropped_debug a;
  as_dropped_info := as_dropped_info a; as_dropped_warning := as_dropped_warning a;
  as_pressure_state := Some st;
  as_last_pressure_at := match t with Some _ => t | None => as_last_pressure_at a end |}.

Definition bumpSeq (a : AgentState) : AgentState := {|
  as_device_id := as_device_id a; as_next_seq_no := as_next_seq_no a + 1;
  as_dropped_total := as_dropped_total a; as_dropped_debug := as_dropped_debug a;
  as_dropped_info := as_dropped_info a; as_dropped_warning := as_dropped_warning a;
  as_pressure_state := as_pressure_state a; as_last_pressure_at := as_last_pressure_at a |}.

(** How the pruning of one severity ends: below the target, an error, or no
    more rows of that severity. *)
Inductive PruneExit := Relieved | PruneFailed (e : error) | Exhausted.

(** The inner loop.  Every iteration that goes on deletes a row, so the number
    of rows bounds the iterations; [None] is running out of fuel. *)
Fixpoint pruneSeverity (env : Env) (quota est : Z) (sev : string) (fuel i : nat) (db : DB)
    : option (PruneExit * DB) :=
  match fuel with
  | O => None
  | S fuel =>
      let size := sizeOrZero (getTotalSize env (SizeLoop sev i)) in
      if i64 (size + est) <? pruneTarget quota then Some (Relieved, db)
      else match sqlErr env (PruneDelete sev i) with
      | Some err => Some (PruneFailed err, db)
      | None =>
          let victims := pruneVictims sev (db_events db) in
          let rows := Z.of_nat (length victims) in
          let db := setEvents (deleteRows (er_event_id <$> victims) (db_events db)) db in
          if rows =? 0 then Some (Exhausted, db)
          else match sqlErr env (PruneCount sev i) with
          | Some err =>
              Some (PruneFailed (ErrWrap ("failed to update quota state: " ^^ error_Error err) [err]), db)
          | None => pruneSeverity env quota est sev fuel (S i) (updateAgent (countDropped (now env) sev rows) db)
          end
      end
  end.

Definition prunableSeverities : list string := ["DEBUG"; "INFO"; "WARNING"]%string.

Fixpoint pruneAll (env : Env) (quota est : Z) (sevs : list string) (db : DB) : option (PruneExit * DB) :=
  match sevs with
  | [] => Some (Exhausted, db)
  | sev :: sevs =>
      let! r := pruneSeverity env quota est sev (S (size (db_events db))) 0 db in
      match r with
      | (Exhausted, db) => pruneAll env quota est sevs db
      | (exit, db) => Some (exit, db)
      end
  end.

Definition isCritical (sev : string) : bool := (sev =s "CRITICAL") || (sev =s "FATAL").

Definition enforceQuota (env : Env) (quota : Z) (incomingSeverity : string) (est : Z) (db : DB)
    : option (option error * DB) :=
  match getTotalSize env SizeFirst with
  | Err e => Some (Some e, db)
  | Ok size =>
      if i64 (size + est) <? quota then Some (None, db)
      else
        let! r := pruneAll env quota est prunableSeverities db in
        match r with
        | (Relieved, db) => Some (None, db)
        | (PruneFailed e, db) => Some (Some e, db)
        | (Exhausted, db) =>
            let size := sizeOrZero (getTotalSize env SizeLast) in
            if quota <=? i64 (size + est) then
              match sqlErr env SetEmergency with
              | Some err =>
                  Some (Some (ErrWrap ("failed to update emergency state: " ^^ error_Error err) [err]), db)
              | None =>
                  let db := updateAgent (setPressure "EMERGENCY" (Some (now env))) db in
                  if isCritical incomingSeverity then Some (None, db)
                  else Some (Some (ErrNew "STORAGE_EMERGENCY: logical soft quota exhausted and no more prunable events"), db)
              end
            else
              match sqlErr env SetOK with
              | Some err => Some (Some (ErrWrap ("failed to update OK state: " ^^ error_Error err) [err]), db)
              | None =>
                  (* WHERE ... storage_pressure_state != 'OK': false on NULL *)
                  Some (None, updateAgent (fun a => match as_pressure_state a with
                                                    | Some st => if st =s "OK" then a else setPressure "OK" None a
                                                    | None => a
                                                    end) db)
              end
        end
  end.

(** ** Operations *)

Section Operations.
(** [json.Marshal] and [json.Unmarshal] on events. *)
Context (Serialize : CanonicalEvent -> result string) (Deserialize : string -> result CanonicalEvent).

(** [payloadBytes, _ := event.Serialize()] *)
Definition bytesOrNil (r : result string) : string := match r with Ok s => s | Err _ => ""%string end.

(** The comparison with a row already stored under the event's id. *)
Definition replayCheck (seq : Z) (payload where_ : string) (event : CanonicalEvent)
    : CanonicalEvent * option error :=
  let event := setSeqNo seq event in
  if payload =s bytesOrNil (Serialize event) then (event, None)
  else (event, Some (wrapMsg ErrStoreFailedBeforeCommit
                       ("integrity error: event_id " ^^ EventID event ^^ where_))).

Definition newRow (dev payload : string) (event : CanonicalEvent) : EventRow := {|
  er_event_id := EventID event; er_device_id := dev; er_seq_no := SeqNo event;
  er_severity := Severity event; er_payload := payload; er_state := "PENDING";
  er_attempt_count := 0; er_next_attempt_at := None |}.

(** The constraints PRIMARY KEY(event_id) and UNIQUE(device_id, seq_no). *)
Definition violatesUnique (row : EventRow) (m : gmap string EventRow) : bool :=
  bool_decide (map_Exists (fun id r => id = er_event_id row \/
    (er_device_id r = er_device_id row /\ er_seq_no r = er_seq_no row)) m).

Definition failBefore (err : error) : option error := Some (wrapBoth ErrStoreFailedBeforeCommit err).

(** The transaction of [Store], on an event that is not stored yet. *)
Definition storeTx (env : Env) (dev : string) (db : DB) (event : CanonicalEvent)
    : DB * CanonicalEvent * option error :=
  match sqlErr env BeginTx with
  | Some err => (db, event, failBefore err)
  | None =>
    if txCheckOk env && bool_decide (is_Some (db_events db !! EventID event)) then (db, event, None)
    else match sqlErr env TxNextSeq, db_agent db with
    | Some err, _ => (db, event, failBefore err)
    | None, None => (db, event, failBefore (ErrNew "sql: no rows in result set"))
    | None, Some agent =>
      let event := setSeqNo (as_next_seq_no agent) event in
      match Serialize event with
      | Err err => (db, event, failBefore err)
      | Ok payload =>
        let row := newRow dev payload event in
        match sqlErr env TxInsertEvent with
        | Some err => (db, event, failBefore err)
        | None =>
          if violatesUnique row (db_events db)
          then (db, event, failBefore (ErrNew "UNIQUE constraint failed"))
          else
            let tx := setEvents (<[EventID event := row]> (db_events db)) db in
            match sqlErr env TxBumpSeq with
            | Some err => (db, event, failBefore err)
            | None =>
              let tx := updateAgent bumpSeq tx in
              match sqlErr env CommitHook with
              | Some err => (db, event, Some (ErrWrap (ErrStoreUncertain ^^ ": test injected fault: " ^^ error_Error err)
                                                      [ErrNew ErrStoreUncertain; err]))
              | None =>
                match sqlErr env CommitTx with
                | Some err => (if commitApplied env then tx else db, event, Some (wrapBoth ErrStoreUncertain err))
                | None => (tx, event, None)
                end
              end
            end
        end
      end
    end
  end.

(** [None] stands for the pruning loop running out of fuel. *)
Definition Store (env : Env) (s : SQLiteStorage) (event : CanonicalEvent)
    : option (SQLiteStorage * CanonicalEvent * option error) :=
  match s_db s with
  | None => Some (s, event, Some (wrapMsg ErrStoreFailedBeforeCommit "DB not initialized"))
  | Some db =>
    if EventID event =s "" then
      Some (s, event, Some (wrapMsg ErrStoreFailedBeforeCommit "event_id must not be empty"))
    else match sqlErr env QEventById with
    | Some err => Some (s, event, failBefore err)
    | None =>
      match db_events db !! EventID event with
      | Some row =>
          let '(event, err) := replayCheck (er_seq_no row) (er_payload row)
                                 " already exists with different payload" event in
          Some (s, event, err)
      | None =>
        match sqlErr env QDLQById with
        | Some err => Some (s, event, failBefore err)
        | None =>
          match db_dlq db !! EventID event with
          | Some row =>
              let '(event, err) := replayCheck (dl_seq_no row) (dl_payload row)
                                     " already in DLQ with different payload" event in
              Some (s, event, err)
          | None =>
            let est := i64 (go_len (bytesOrNil (Serialize event)) + 1024) in
            let! q := enforceQuota env (quotaBytes s) (Severity event) est db in
            match q with
            | (Some err, db) => Some (setDB db s, event, failBefore err)
            | (None, db) =>
                let '(db, event, err) := storeTx env (deviceID s) db event in
                Some (setDB db s, event, err)
            end
          end
        end
      end
    end
  end.

(** *** Dead-letter queue *)

Definition notInitialized : error := ErrNew "DEGRADED_STORAGE: DB not initialized".

(** [moveRawToDLQLocked]: the row of the queue and the deletion of the event
    in one transaction. *)
Definition moveRawToDLQLocked (env : Env) (db : DB) (eventID dev : string) (seq : Z)
    (payload failureType failureReason : string) : DB * option error :=
  match sqlErr env BeginTx with
  | Some err => (db, Some err)
  | None =>
    match sqlErr env TxDLQById with
    | Some err => (db, Some err)
    | None =>
      let inserted : result DB :=
        match db_dlq db !! eventID with
        | Some row =>
            if negb (dl_payload row =s payload)
            then Err (ErrNew ("integrity error: event_id " ^^ eventID ^^ " already in DLQ with different payload"))
            else Ok db
        | None =>
            match sqlErr env TxInsertDLQ with
            | Some err => Err err
            | None => Ok (setDLQ (<[eventID := {|
                dl_event_id := eventID; dl_device_id := dev; dl_seq_no := seq; dl_payload := payload;
                dl_failure_type := failureType; dl_failure_reason := failureReason;
                dl_first_seen := now env |}]> (db_dlq db)) db)
            end
        end in
      match inserted with
      | Err err => (db, Some err)
      | Ok tx =>
        match sqlErr env TxDeleteEvent with
        | Some err => (db, Some err)
        | None =>
            let tx := setEvents (delete eventID (db_events tx)) tx in
            match sqlErr env CommitTx with
            | Some err => (if commitApplied env then tx else db, Some err)
            | None => (tx, None)
            end
        end
      end
    end
  end.

Definition MoveToDLQ (env : Env) (s : SQLiteStorage) (event : CanonicalEvent)
    (failureType failureReason : string) : SQLiteStorage * option error :=
  match Serialize event with
  | Err err => (s, Some err)
  | Ok payload =>
      match s_db s with
      | None => (s, Some notInitialized)
      | Some db =>
          let '(db, err) := moveRawToDLQLocked env db (EventID event) (deviceID s) (SeqNo event)
                              payload failureType failureReason in
          (setDB db s, err)
      end
  end.

(** *** Forwarding *)

Definition RemoveEvent (env : Env) (s : SQLiteStorage) (eventID : string) : SQLiteStorage * option error :=
  match s_db s with
  | None => (s, Some notInitialized)
  | Some db =>
      match sqlErr env DeleteEvent with
      | Some err => (s, Some err)
      | None => (setDB (setEvents (delete eventID (db_events db)) db) s, None)
      end
  end.

Definition maxBackoffSeconds : Z := 3600.
Definition maxRetryAfterSeconds : Z := 86400.

(** [attemptCount++; if attemptCount < 0 { attemptCount = 1 }] *)
Definition nextAttemptCount (n : Z) : Z := let n := i64 (n + 1) in if n <? 0 then 1 else n.

Definition backoffSeconds (attemptCount : Z) : Z :=
  if 10 <=? attemptCount then maxBackoffSeconds
  else
    let backoff := 5 * Z.shiftl 1 attemptCount in
    if maxBackoffSeconds <? backoff then maxBackoffSeconds else backoff.

(** Seconds from now to the next attempt. *)
Definition retryDelay (nano attemptCount retryAfter : Z) : Z :=
  if 0 <? retryAfter then
    if maxRetryAfterSeconds <? retryAfter then maxRetryAfterSeconds else retryAfter
  else backoffSeconds attemptCount + Z.rem nano 10.

Definition rescheduled (attempts next : Z) (r : EventRow) : EventRow := {|
  er_event_id := er_event_id r; er_device_id := er_device_id r; er_seq_no := er_seq_no r;
  er_severity := er_severity r; er_payload := er_payload r; er_state := er_state r;
  er_attempt_count := attempts; er_next_attempt_at := Some next |}.

Definition MarkFailed (env : Env) (s : SQLiteStorage) (eventID : string) (retryAfter : Z)
    : SQLiteStorage * option error :=
  match s_db s with
  | None => (s, Some notInitialized)
  | Some db =>
      match sqlErr env QAttempts, db_events db !! eventID with
      | Some err, _ => (s, Some err)
      | None, None => (s, Some (ErrNew "sql: no rows in result set"))
      | None, Some row =>
          let attemptCount := nextAttemptCount (er_attempt_count row) in
          let next := now env + retryDelay (nowNano env) attemptCount retryAfter in
          match sqlErr env UpdateAttempt with
          | Some err => (s, Some err)
          | None => (setDB (setEvents (<[eventID := rescheduled attemptCount next row]> (db_events db)) db) s, None)
          end
      end
  end.

(** [state = 'PENDING' AND (next_attempt_at IS NULL OR ... <= CURRENT_TIMESTAMP)] *)
Definition due (t : Z) (r : EventRow) : bool :=
  (er_state r =s "PENDING") &&
  match er_next_attempt_at r with None => true | Some n => n <=? t end.

(** The scan of the batch: decoded events and rows that do not decode, each
    in the order of the query. *)
Fixpoint decodeRows (rows : list EventRow) : list CanonicalEvent * list EventRow :=
  match rows with
  | [] => ([], [])
  | r :: rows =>
      let '(evs, bad) := decodeRows rows in
      match Deserialize (er_payload r) with
      | Ok ev => (ev :: evs, bad)
      | Err _ => (evs, r :: bad)
      end
  end.

(** [env] may differ from one transaction to the next. *)
Fixpoint quarantine (envs : string -> Env) (db : DB) (corrupt : list EventRow) : DB * option error :=
  match corrupt with
  | [] => (db, None)
  | c :: corrupt =>
      match moveRawToDLQLocked (envs (er_event_id c)) db (er_event_id c) (er_device_id c) (er_seq_no c)
              (er_payload c) "local_deserialization_error" "Failed to deserialize JSON" with
      | (db, Some err) =>
          (db, Some (ErrWrap ("failed to move corrupt event " ^^ er_event_id c ^^ " to DLQ: " ^^ error_Error err) [err]))
      | (db, None) => quarantine envs db corrupt
      end
  end.

Definition GetPendingEvents (env : Env) (envs : string -> Env) (s : SQLiteStorage) (limit : nat)
    : SQLiteStorage * result (list CanonicalEvent) :=
  match s_db s with
  | None => (s, Err notInitialized)
  | Some db =>
      match sqlErr env QPending, sqlErr env ScanPending with
      | Some err, _ | None, Some err => (s, Err err)
      | None, None =>
          let '(results, corrupt) := decodeRows (selectBySeq (due (now env)) limit (db_events db)) in
          match quarantine envs db corrupt with
          | (db, Some err) => (setDB db s, Err err)
          | (db, None) => (setDB db s, Ok results)
          end
      end
  end.
End Operations.

(** *** Identity *)

(** The legacy identity file: what [os.ReadFile] and [json.Unmarshal] give. *)
Inductive IdentityFile :=
  | FileMissing                      (* no path, or os.ErrNotExist *)
  | FileReadError (e : error)
  | FileParseError (e : error)
  | FileIdentity (device_id : string).

Definition migrateOrGenerateID (file : IdentityFile) (newID : string) : result string :=
  match file with
  | FileMissing => Ok newID
  | FileReadError e => Err (ErrWrap ("failed to read legacy identity file: " ^^ error_Error e) [e])
  | FileParseError e => Err (ErrWrap ("failed to parse legacy identity file: " ^^ error_Error e) [e])
  | FileIdentity d => if negb (d =s "") then Ok d else Ok newID
  end.

(** [initIdentity] without SQL failures: the device id survives restarts, and
    an adopted or generated one is recorded with the first sequence number. *)
Definition initIdentity (file : IdentityFile) (newID : string) (db : DB) : result (DB * string) :=
  match db_agent db with
  | Some a => Ok (db, as_device_id a)
  | None =>
      match migrateOrGenerateID file newID with
      | Err e => Err e
      | Ok d =>
          Ok ({| db_events := db_events db; db_dlq := db_dlq db;
                 db_agent := Some {| as_device_id := d; as_next_seq_no := 1; as_dropped_total := 0;
                   as_dropped_debug := 0; as_dropped_info := 0; as_dropped_warning := 0;
                   as_pressure_state := None; as_last_pressure_at := None |} |}, d)
      end
  end.
