(* ===== verification/RetryTime.v ===== *)
(** The retry times of the event store as texts (agent/internal/storage/
    sqlite.go: parseRetryTimestamp, migrateRetryTimestamps, and the text that
    MarkFailed writes), with the parts of [time.Parse] that the layouts use.

    [Storage] keeps a retry time as a number of seconds; [formatSeconds_compare]
    is why that is enough for the text the query compares. *)
From S2P Require Import Prelude GoStrings GoText GoTime GoDate Events Storage.
From Stdlib Require Import Strings.Ascii.

Local Open Scope string_scope.
Local Open Scope list_scope.
Open Scope Z_scope.

(** ** Layouts

    The elements of a layout in the order in which [nextStdChunk] finds them;
    what is no element is literal text. *)
Inductive Elem :=
  | Lit (text : string)
  | LongYear | ZeroMonth | ZeroDay | Hour | ZeroMinute | ZeroSecond
  | FracSecond9                      (* .999999999 *)
  | NumTZ                            (* -0700 *)
  | ISO8601ColonTZ                   (* Z07:00 *)
  | TZ.                              (* MST *)

Record Parsed := {
  ps_year : Z; ps_month : Z; ps_day : Z; ps_hour : Z; ps_min : Z; ps_sec : Z; ps_nsec : Z;
  ps_utc : bool;                     (* z = UTC *)
  ps_offset : option Z;              (* zoneOffset, in seconds *)
  ps_zone : string;                  (* zoneName *)
}.

Definition unparsed : Parsed :=
  {| ps_year := 0; ps_month := 1; ps_day := 1; ps_hour := 0; ps_min := 0; ps_sec := 0; ps_nsec := 0;
     ps_utc := false; ps_offset := None; ps_zone := "" |}.

Definition setDate (y m d : Z) (p : Parsed) : Parsed :=
  {| ps_year := y; ps_month := m; ps_day := d; ps_hour := ps_hour p; ps_min := ps_min p; ps_sec := ps_sec p;
     ps_nsec := ps_nsec p; ps_utc := ps_utc p; ps_offset := ps_offset p; ps_zone := ps_zone p |}.
Definition setClock (h m s ns : Z) (p : Parsed) : Parsed :=
  {| ps_year := ps_year p; ps_month := ps_month p; ps_day := ps_day p; ps_hour := h; ps_min := m; ps_sec := s;
     ps_nsec := ns; ps_utc := ps_utc p; ps_offset := ps_offset p; ps_zone := ps_zone p |}.
Definition setZone (utc : bool) (offset : option Z) (zone : string) (p : Parsed) : Parsed :=
  {| ps_year := ps_year p; ps_month := ps_month p; ps_day := ps_day p; ps_hour := ps_hour p; ps_min := ps_min p;
     ps_sec := ps_sec p; ps_nsec := ps_nsec p; ps_utc := utc; ps_offset := offset; ps_zone := zone |}.

(** [getnum]: one or two digits, exactly two when [fixed]. *)
Definition getnum (s : string) (fixed : bool) : option (Z * string) :=
  match s with
  | String a s' =>
      match digitVal a with
      | None => None
      | Some x =>
          match s' with
          | String b s'' =>
              match digitVal b with
              | Some y => Some (10 * x + y, s'')
              | None => if fixed then None else Some (x, s')
              end
          | EmptyString => if fixed then None else Some (x, s')
          end
      end
  | EmptyString => None
  end.

Fixpoint cutspace (s : string) : string :=
  match s with String " " s => cutspace s | _ => s end.

(** [skip]: a run of spaces in the prefix stands for any number of them. *)
Fixpoint skip (inSpaces : bool) (prefix value : string) : option string :=
  match prefix with
  | EmptyString => Some value
  | String a prefix =>
      if Ascii.eqb a " " then
        if inSpaces then skip true prefix value
        else match value with
             | String b _ => if Ascii.eqb b " " then skip true prefix (cutspace value) else None
             | EmptyString => skip true prefix value
             end
      else match value with
           | String b value => if Ascii.eqb a b then skip false prefix value else None
           | EmptyString => None
           end
  end.

Definition commaOrPeriod (a : ascii) : bool := Ascii.eqb a "." || Ascii.eqb a ",".

(** A separator and at least one digit: [parseNanoseconds] of all the digits,
    of which nine count. *)
Definition fraction (s : string) : option (Z * string) :=
  match s with
  | String a s' =>
      if commaOrPeriod a then
        match spanDigits s' with
        | (EmptyString, _) => None
        | (ds, rest) =>
            let ds := String.substring 0 9 ds in
            match parseDigits ds 0 with
            | Some n => Some (n * 10 ^ (9 - go_len ds), rest)
            | None => None
            end
        end
      else None
  | EmptyString => None
  end.

Fixpoint nextIsFrac (layout : list Elem) : bool :=
  match layout with
  | Lit _ :: layout => nextIsFrac layout
  | FracSecond9 :: _ => true
  | _ => false
  end.

(** Two digits, a separator of [sep] and two digits, after the sign. *)
Definition zoneOffset (colon : bool) (s : string) : option (Z * string) :=
  match s with
  | String sign s =>
      let parts := if colon
                   then match s with String a (String b (String ":" rest)) => Some (String a (String b ""), rest) | _ => None end
                   else match s with String a (String b rest) => Some (String a (String b ""), rest) | _ => None end in
      match parts with
      | Some (hour, String a (String b rest)) =>
          match getnum hour true, getnum (String a (String b "")) true with
          | Some (hr, _), Some (mm, _) =>
              if (24 <? hr) || (60 <? mm) then None
              else let offset := (hr * 60 + mm) * 60 in
                   if Ascii.eqb sign "+" then Some (offset, rest)
                   else if Ascii.eqb sign "-" then Some (- offset, rest) else None
          | _, _ => None
          end
      | _ => None
      end
  | EmptyString => None
  end.

(** [parseSignedOffset]: the length of a sign and an hour up to 23, or 0. *)
Definition parseSignedOffset (s : string) : nat :=
  match s with
  | String a s =>
      if Ascii.eqb a "+" || Ascii.eqb a "-" then
        match spanDigits s with
        | (EmptyString, _) => 0%nat
        | (ds, _) => match parseDigits ds 0 with
                     | Some x => if 23 <? x then 0%nat else S (String.length ds)
                     | None => 0%nat
                     end
        end
      else 0%nat
  | EmptyString => 0%nat
  end.

Definition isUpper (a : ascii) : bool := let n := nat_of_ascii a in (65 <=? n)%nat && (n <=? 90)%nat.

Fixpoint countUpper (fuel : nat) (s : string) : nat :=
  match fuel, s with
  | S fuel, String a s => if isUpper a then S (countUpper fuel s) else 0%nat
  | _, _ => 0%nat
  end.

(** [parseTimeZone]: how many bytes of the text are an abbreviation. *)
Definition parseTimeZone (s : string) : option nat :=
  if (String.length s <? 3)%nat then None
  else if HasPrefix s "ChST" || HasPrefix s "MeST" then Some 4%nat
  else if HasPrefix s "GMT" then Some (3 + parseSignedOffset (suffixString 3 s))%nat
  else if HasPrefix s "+" || HasPrefix s "-" then
    match parseSignedOffset s with O => None | n => Some n end
  else
    let last n := String.substring n 1 s in
    match countUpper 6 s with
    | 5%nat => if last 4%nat =s "T" then Some 5%nat else None
    | 4%nat => if (last 3%nat =s "T") || HasPrefix s "WITA" then Some 4%nat else None
    | 3%nat => Some 3%nat
    | _ => None
    end.

(** One element of [time.Parse]; [rest] is the layout after it. *)
Definition parseElem (e : Elem) (rest : list Elem) (p : Parsed) (value : string) : option (Parsed * string) :=
  match e with
  | Lit prefix => let! value := skip false prefix value in Some (p, value)
  | LongYear =>
      match parseDigits (String.substring 0 4 value) 0 with
      | Some y => if (String.length value <? 4)%nat then None
                  else Some (setDate y (ps_month p) (ps_day p) p, suffixString 4 value)
      | None => None
      end
  | ZeroMonth =>
      match getnum value true with
      | Some (m, value) => if (m <=? 0) || (12 <? m) then None else Some (setDate (ps_year p) m (ps_day p) p, value)
      | None => None
      end
  | ZeroDay =>
      match getnum value true with
      | Some (d, value) => Some (setDate (ps_year p) (ps_month p) d p, value)
      | None => None
      end
  | Hour =>
      match getnum value false with
      | Some (h, value) => if 24 <=? h then None else Some (setClock h (ps_min p) (ps_sec p) (ps_nsec p) p, value)
      | None => None
      end
  | ZeroMinute =>
      match getnum value true with
      | Some (m, value) => if 60 <=? m then None else Some (setClock (ps_hour p) m (ps_sec p) (ps_nsec p) p, value)
      | None => None
      end
  | ZeroSecond =>
      match getnum value true with
      | Some (s, value) =>
          if 60 <=? s then None
          else if nextIsFrac rest then Some (setClock (ps_hour p) (ps_min p) s (ps_nsec p) p, value)
          else match fraction value with    (* a fraction the layout does not mention *)
               | Some (ns, value) => Some (setClock (ps_hour p) (ps_min p) s ns p, value)
               | None => Some (setClock (ps_hour p) (ps_min p) s (ps_nsec p) p, value)
               end
      | None => None
      end
  | FracSecond9 =>
      match fraction value with
      | Some (ns, value) => Some (setClock (ps_hour p) (ps_min p) (ps_sec p) ns p, value)
      | None => Some (p, value)
      end
  | NumTZ =>
      match zoneOffset false value with
      | Some (o, value) => Some (setZone (ps_utc p) (Some o) (ps_zone p) p, value)
      | None => None
      end
  | ISO8601ColonTZ =>
      if HasPrefix value "Z" then Some (setZone true (ps_offset p) (ps_zone p) p, suffixString 1 value)
      else match zoneOffset true value with
           | Some (o, value) => Some (setZone (ps_utc p) (Some o) (ps_zone p) p, value)
           | None => None
           end
  | TZ =>
      if HasPrefix value "UTC" then Some (setZone true (ps_offset p) (ps_zone p) p, suffixString 3 value)
      else match parseTimeZone value with
           | Some n => Some (setZone (ps_utc p) (ps_offset p) (String.substring 0 n value) p, suffixString n value)
           | None => None
           end
  end.

Fixpoint parseElems (layout : list Elem) (p : Parsed) (value : string) : option Parsed :=
  match layout with
  | [] => if value =s "" then Some p else None
  | e :: rest =>
      let! r := parseElem e rest p value in
      let '(p, value) := r in parseElems rest p value
  end.

Section Retry.
(** [lookupZone]: the offset of an abbreviation in the local time zone.
    [unicodeTrim]: [strings.TrimSpace] of text that is not ASCII. *)
Context (lookupZone : string -> Z -> option Z) (unicodeTrim : string -> string).

(** The end of [time.Parse]: the instant the parsed fields denote. *)
Definition parsedTime (p : Parsed) : option Time :=
  if (ps_day p <? 1) || (daysIn (ps_month p) (ps_year p) <? ps_day p) then None
  else
    let sec := dateDays (ps_year p) (ps_month p) (ps_day p) * 86400 + ps_hour p * 3600 + ps_min p * 60 + ps_sec p in
    let sec := if ps_utc p then sec
               else match ps_offset p with
               | Some o => sec - o
               | None => if ps_zone p =s "" then sec
                         else match lookupZone (ps_zone p) sec with Some o => sec - o | None => sec end
               end in
    Some (sec * Second + ps_nsec p).

Definition timeParse (layout : list Elem) (value : string) : option Time :=
  let! p := parseElems layout unparsed value in parsedTime p.

(** The layouts of [parseRetryTimestamp]. *)
Definition dateElems (sep : string) : list Elem :=
  [LongYear; Lit "-"; ZeroMonth; Lit "-"; ZeroDay; Lit sep; Hour; Lit ":"; ZeroMinute; Lit ":"; ZeroSecond].

Definition sqliteLayout : list Elem := dateElems " ".
Definition RFC3339Nano : list Elem := dateElems "T" ++ [FracSecond9; ISO8601ColonTZ].
Definition RFC3339 : list Elem := dateElems "T" ++ [ISO8601ColonTZ].
Definition goLayouts : list (list Elem) :=
  [dateElems " " ++ [FracSecond9; Lit " "; NumTZ; Lit " "; TZ];
   dateElems " " ++ [FracSecond9; Lit " "; NumTZ];
   dateElems " " ++ [FracSecond9];
   dateElems " " ++ [Lit " "; NumTZ; Lit " "; TZ];
   dateElems " " ++ [Lit " "; NumTZ];
   dateElems " " ++ [FracSecond9; Lit " +0700 "; TZ];
   dateElems " " ++ [FracSecond9; Lit " +0700"]].

Definition isSpace (a : ascii) : bool :=
  let n := nat_of_ascii a in ((9 <=? n)%nat && (n <=? 13)%nat) || (n =? 32)%nat.

Fixpoint trimLeft (s : string) : string :=
  match s with String a s' => if isSpace a then trimLeft s' else s | EmptyString => s end.
Fixpoint trimRight (s : string) : string :=
  match s with
  | EmptyString => EmptyString
  | String a s => match trimRight s with
                  | EmptyString => if isSpace a then EmptyString else String a EmptyString
                  | t => String a t
                  end
  end.

Definition TrimSpace (s : string) : string :=
  if allChars (fun a => (nat_of_ascii a <? 128)%nat) s then trimRight (trimLeft s) else unicodeTrim s.

(** The text before the first [sep]. *)
Fixpoint before (sep s : string) : option string :=
  if HasPrefix s sep then Some ""
  else match s with EmptyString => None | String a s => String a <$> before sep s end.

Fixpoint firstLayout (layouts : list (list Elem)) (raw : string) : option Time :=
  match layouts with
  | [] => None
  | l :: layouts => match timeParse l raw with Some t => Some t | None => firstLayout layouts raw end
  end.

Definition parseRetryTimestamp (raw : string) : option Time :=
  let raw := TrimSpace raw in
  if raw =s "" then None
  else
    let raw := match before " m=" raw with Some r => TrimSpace r | None => raw end in
    firstLayout (sqliteLayout :: RFC3339Nano :: RFC3339 :: goLayouts) raw.
End Retry.

(** ** The migration

    The table maps event ids to the texts of next_attempt_at; [order] lists its
    rows as the query scans them. *)
Record MigrationEnv := {
  mg_query : option error;
  mg_scan : string -> option error;
  mg_rows : option error;
  mg_begin : option error;
  mg_prepare : option error;
  mg_update : string -> option error;
  mg_commit : option error;
  mg_now : Time;
}.

Definition migrationLimit : nat := 1000.

(** [next_attempt_at IS NOT NULL AND length(next_attempt_at) != 19], before the
    limit. *)
Definition legacyRows (order : list (string * option string)) : list (string * string) :=
  omap (fun r => match r.2 with
    | Some text => if RuneCountInString text =? 19 then None else Some (r.1, text)
    | None => None
    end) order.

(** [LIMIT 1000] *)
Definition toMigrate (order : list (string * option string)) : list (string * string) :=
  take migrationLimit (legacyRows order).

Section Migrate.
Context (lookupZone : string -> Z -> option Z) (unicodeTrim : string -> string).

(** The canonical text of a row; one hour ago when it cannot be read. *)
Definition migratedText (now : Time) (rawTS : string) : string :=
  match parseRetryTimestamp lookupZone unicodeTrim rawTS with
  | Some parsed => formatSeconds (parsed / Second)
  | None => formatSeconds ((now - 3600 * Second) / Second)
  end.

Fixpoint scanRows (env : MigrationEnv) (rows : list (string * string)) : result (list (string * string)) :=
  match rows with
  | [] => match mg_rows env with Some e => Err e | None => Ok [] end
  | (id, raw) :: rows =>
      match mg_scan env id with
      | Some e => Err e
      | None => match scanRows env rows with
                | Ok us => Ok ((id, migratedText (mg_now env) raw) :: us)
                | Err e => Err e
                end
      end
  end.

Fixpoint applyUpdates (env : MigrationEnv) (updates : list (string * string)) (tx : gmap string (option string))
    : result (gmap string (option string)) :=
  match updates with
  | [] => Ok tx
  | (id, text) :: us =>
      match mg_update env id with
      | Some e => Err (ErrWrap ("failed to migrate retry timestamp for event " ^^ id ^^ ": " ^^ error_Error e) [e])
      | None => applyUpdates env us (if decide (is_Some (tx !! id)) then <[id := Some text]> tx else tx)
      end
  end.

Definition migrateRetryTimestamps (env : MigrationEnv) (order : list (string * option string))
    (texts : gmap string (option string)) : gmap string (option string) * option error :=
  match mg_query env with
  | Some e => (texts, Some (ErrWrap ("failed to query retry timestamps: " ^^ error_Error e) [e]))
  | None =>
      match scanRows env (toMigrate order) with
      | Err e => (texts, Some e)
      | Ok [] => (texts, None)
      | Ok updates =>
          match mg_begin env, mg_prepare env with
          | Some e, _ => (texts, Some (ErrWrap ("failed to begin migration tx: " ^^ error_Error e) [e]))
          | None, Some e => (texts, Some (ErrWrap ("failed to prepare migration update stmt: " ^^ error_Error e) [e]))
          | None, None =>
              match applyUpdates env updates texts with
              | Err e => (texts, Some e)
              | Ok tx => match mg_commit env with Some e => (texts, Some e) | None => (tx, None) end
              end
          end
      end
  end.
End Migrate.

Definition noZone (_ : string) (_ : Z) : option Z := None.

Example retry_ex :
  map (parseRetryTimestamp noZone (fun s => s))
    ["2024-02-29 23:59:59"; "2024-02-29T23:59:59.5Z"; "2024-03-01 02:59:59.25 +0300 EAT m=+7.5"; "2024-02-29 23:59:59 +0000 UTC";
     "2024-03-01 05:29:59.25 +0530 +0530 m=-1"; "2023-02-29 00:00:00"; "soon"; "2024-03-01 02:59:59 EAT"]
  = let s := (dateDays 2024 2 29 * 86400 + 86399) * Second in
    [Some s; Some (s + 500000000); Some (s + 250000000); Some s; None; None; None; None].
Proof. vm_compute. reflexivity. Qed.

(** ** What package time prints *)

(** [formatSeconds] with a separator of choice. *)
Definition stamp (sep : string) (sec : Z) : string :=
  let '(year, month, day) := civil (sec / 86400) in
  let s := sec mod 86400 in
  pad 4 year ^^ ("-" ^^ (pad 2 month ^^ ("-" ^^ (pad 2 day ^^ (sep ^^
  (pad 2 (s / 3600) ^^ (":" ^^ (pad 2 (s / 60 mod 60) ^^ (":" ^^ pad 2 (s mod 60)))))))))).

Fixpoint fracDigits (k : nat) (n : Z) : string :=
  match k with O => "" | S k' => if n mod 10 =? 0 then fracDigits k' (n / 10) else pad k n end.

(** [.999999999]: the nanoseconds without trailing zeros, nothing for none. *)
Definition fracText (ns : Z) : string := if ns =? 0 then "" else "." ^^ fracDigits 9 ns.

Definition signText (o : Z) : string := if o <? 0 then "-" else "+".
Definition offText (o : Z) : string := signText o ^^ (pad 2 (Z.abs o / 3600) ^^ pad 2 (Z.abs o / 60 mod 60)).
Definition offColon (o : Z) : string := signText o ^^ (pad 2 (Z.abs o / 3600) ^^ (":" ^^ pad 2 (Z.abs o / 60 mod 60))).

(** ** Lemmas *)
Lemma digit_append n s : digit n ^^ s = String (ascii_of_nat (Z.to_nat (48 + n mod 10))) s.
Proof. reflexivity. Qed.

Lemma digitVal_table :
  forallb (fun d => match digitVal (ascii_of_nat (48 + d)) with Some v => v =? Z.of_nat d | None => false end) (seq 0 10) = true.
Proof. vm_compute. reflexivity. Qed.

Lemma digitVal_digit n : digitVal (ascii_of_nat (Z.to_nat (48 + n mod 10))) = Some (n mod 10).
Proof.
  pose proof (Z.mod_pos_bound n 10 ltac:(lia)).
  pose proof digitVal_table as H0. rewrite forallb_forall in H0.
  specialize (H0 (Z.to_nat (n mod 10)) ltac:(apply in_seq; lia)). cbn beta in H0.
  rewrite Z2Nat.inj_add by lia. change (Z.to_nat 48) with 48%nat. rewrite Z2Nat.id in H0 by lia.
  destruct (digitVal _); [|done]. f_equal. lia.
Qed.

Lemma pad2_append n s :
  pad 2 n ^^ s = String (ascii_of_nat (Z.to_nat (48 + n / 10 mod 10))) (String (ascii_of_nat (Z.to_nat (48 + n mod 10))) s).
Proof. reflexivity. Qed.

Lemma getnum_pad n s fixed : 0 <= n < 100 -> getnum (pad 2 n ^^ s) fixed = Some (n, s).
Proof.
  intros Hn. rewrite pad2_append. cbn [getnum]. rewrite !digitVal_digit. do 2 f_equal.
  rewrite (Z.mod_small (n / 10)) by (split; [apply Z.div_pos|apply Z.div_lt_upper_bound]; lia).
  pose proof (Z.div_mod n 10). lia.
Qed.

Lemma pad_length k n : String.length (pad k n) = k.
Proof. revert n. induction k as [|k IH]; intros n; [done|]. cbn [pad]. rewrite length_append, IH. cbn. lia. Qed.

Lemma parseDigits_pad k n acc :
  0 <= n < 10 ^ Z.of_nat k -> parseDigits (pad k n) acc = Some (acc * 10 ^ Z.of_nat k + n).
Proof.
  revert n acc. induction k as [|k IH]; intros n acc Hn.
  - change (10 ^ Z.of_nat 0) with 1 in *. cbn. f_equal. lia.
  - rewrite Nat2Z.inj_succ, Z.pow_succ_r in * by lia. cbn [pad]. rewrite parseDigits_append.
    rewrite IH by (split; [apply Z.div_pos|apply Z.div_lt_upper_bound]; lia).
    unfold digit. cbn [parseDigits]. rewrite digitVal_digit. f_equal. pose proof (Z.div_mod n 10). lia.
Qed.

Lemma pad_digits k n : allChars isDigit (pad k n) = true.
Proof.
  revert n. induction k as [|k IH]; intros n; [done|]. cbn [pad]. rewrite allChars_append, IH.
  unfold digit. cbn [allChars]. unfold isDigit. by rewrite digitVal_digit.
Qed.

Lemma spanDigits_pad k n s : endsDigits s = true -> spanDigits (pad k n ^^ s) = (pad k n, s).
Proof. apply spanDigits_append, pad_digits. Qed.

Lemma getyear y s p rest :
  0 <= y < 10000 -> parseElem LongYear rest p (pad 4 y ^^ s) = Some (setDate y (ps_month p) (ps_day p) p, s).
Proof.
  intros Hy. unfold parseElem.
  assert (String.substring 0 4 (pad 4 y ^^ s) = pad 4 y) as ->.
  { pose proof (prefixString_append (pad 4 y) s) as H. rewrite pad_length in H. exact H. }
  rewrite parseDigits_pad by (change (10 ^ Z.of_nat 4) with 10000; lia).
  rewrite length_append, pad_length. cbn [Nat.ltb Nat.leb Nat.add].
  assert (suffixString 4 (pad 4 y ^^ s) = s) as -> by reflexivity.
  do 3 f_equal.
Qed.

Lemma skip_sep sep value rest p :
  sep = "-" \/ sep = ":" \/ sep = "T" -> parseElem (Lit sep) rest p (sep ^^ value) = Some (p, value).
Proof. intros [->|[->| ->]]; reflexivity. Qed.

Lemma skip_space value rest p :
  cutspace value = value -> parseElem (Lit " ") rest p (" " ^^ value) = Some (p, value).
Proof.
  intros H. unfold parseElem. change (" " ^^ value) with (String " " value).
  change (skip false " " (String " " value)) with (Some (cutspace value)). by rewrite H.
Qed.

Lemma cutspace_pad n s : cutspace (pad 2 n ^^ s) = pad 2 n ^^ s.
Proof.
  rewrite pad2_append. pose proof (digitVal_digit (n / 10)) as H.
  destruct (ascii_of_nat _) as [[] [] [] [] [] [] [] []]; try reflexivity; discriminate.
Qed.

(** The fields of a stamp. *)
Definition fields (sec : Z) (p : Parsed) : Parsed :=
  let date := civil (sec / 86400) in
  let s := sec mod 86400 in
  setClock (s / 3600) (s / 60 mod 60) (s mod 60) (ps_nsec p) (setDate date.1.1 date.1.2 date.2 p).

Definition withFraction (tail : list Elem) (p : Parsed) (rest : string) : option Parsed :=
  if nextIsFrac tail then parseElems tail p rest
  else match fraction rest with
       | Some (ns, rest) => parseElems tail (setClock (ps_hour p) (ps_min p) (ps_sec p) ns p) rest
       | None => parseElems tail p rest
       end.

(** Years 0 to 9999. *)
Definition inYears (sec : Z) : Prop := yearStart 0 * 86400 <= sec < yearStart 10000 * 86400.

Lemma parseElems_cons e rest p value p' value' :
  parseElem e rest p value = Some (p', value') -> parseElems (e :: rest) p value = parseElems rest p' value'.
Proof. intros H. cbn [parseElems]. by rewrite H. Qed.

(** The part of a stamp after the date. *)
Definition clockText (sec : Z) : string :=
  let s := sec mod 86400 in
  pad 2 (s / 3600) ^^ (":" ^^ (pad 2 (s / 60 mod 60) ^^ (":" ^^ pad 2 (s mod 60)))).

Definition clockElems : list Elem := [Hour; Lit ":"; ZeroMinute; Lit ":"; ZeroSecond].

(** A layout reads the date, and meets its own separator. *)
Lemma parse_date sep sep' sec tail p rest :
  inYears sec ->
  parseElems (dateElems sep ++ tail) p (stamp sep' sec ^^ rest) =
    let '(y, m, d) := civil (sec / 86400) in
    parseElems (Lit sep :: clockElems ++ tail) (setDate y m d p) (sep' ^^ (clockText sec ^^ rest)).
Proof.
  intros Hs. unfold inYears in Hs. change (yearStart 0) with (-366) in Hs. unfold stamp, clockText.
  pose proof (civil_range (sec / 86400) ltac:(split; [apply Z.div_le_lower_bound|apply Z.div_lt_upper_bound]; lia)) as Hr.
  destruct (civil (sec / 86400)) as [[y m] d].
  rewrite !append_assoc. unfold dateElems, clockElems. cbn [app].
  rewrite (parseElems_cons _ _ _ _ _ _ (getyear y _ _ _ ltac:(lia))).
  rewrite (parseElems_cons _ _ _ _ _ _ (skip_sep "-" _ _ _ ltac:(auto))).
  erewrite parseElems_cons by (unfold parseElem; rewrite getnum_pad by lia; replace ((m <=? 0) || (12 <? m)) with false by lia; reflexivity).
  rewrite (parseElems_cons _ _ _ _ _ _ (skip_sep "-" _ _ _ ltac:(auto))).
  erewrite parseElems_cons by (unfold parseElem; rewrite getnum_pad by lia; reflexivity).
  reflexivity.
Qed.

Lemma parse_stamp sep sec tail p rest :
  inYears sec -> sep = " " \/ sep = "T" ->
  parseElems (dateElems sep ++ tail) p (stamp sep sec ^^ rest) = withFraction tail (fields sec p) rest.
Proof.
  intros Hs Hsep. rewrite parse_date by done. unfold fields, clockText.
  destruct (civil (sec / 86400)) as [[y m] d]. pose proof (Z.mod_pos_bound sec 86400 ltac:(lia)) as Hm.
  set (s := sec mod 86400) in *.
  assert (0 <= s / 3600 < 24) as Hh by (split; [apply Z.div_pos|apply Z.div_lt_upper_bound]; lia).
  pose proof (Z.mod_pos_bound (s / 60) 60 ltac:(lia)) as Hmi. pose proof (Z.mod_pos_bound s 60 ltac:(lia)) as Hse.
  rewrite !append_assoc. unfold clockElems. cbn [app].
  erewrite parseElems_cons by (destruct Hsep as [->| ->]; [apply skip_space, cutspace_pad|apply skip_sep; auto]).
  erewrite parseElems_cons by (unfold parseElem; rewrite getnum_pad by lia; replace (24 <=? s / 3600) with false by lia; reflexivity).
  rewrite (parseElems_cons _ _ _ _ _ _ (skip_sep ":" _ _ _ ltac:(auto))).
  erewrite parseElems_cons by (unfold parseElem; rewrite getnum_pad by lia; replace (60 <=? s / 60 mod 60) with false by lia; reflexivity).
  rewrite (parseElems_cons _ _ _ _ _ _ (skip_sep ":" _ _ _ ltac:(auto))).
  cbn [parseElems]. unfold parseElem. rewrite getnum_pad by lia. replace (60 <=? s mod 60) with false by lia.
  unfold withFraction. destruct (nextIsFrac tail); [reflexivity|]. by destruct (fraction rest) as [[ns rest']|].
Qed.

(** Another separator than the layout's ends the parse. *)
Lemma parse_stamp_other sep sep' sec tail p rest :
  inYears sec -> sep = " " /\ sep' = "T" \/ sep = "T" /\ sep' = " " ->
  parseElems (dateElems sep ++ tail) p (stamp sep' sec ^^ rest) = None.
Proof.
  intros Hs Hsep. rewrite parse_date by done. destruct (civil (sec / 86400)) as [[y m] d].
  destruct Hsep as [[-> ->]|[-> ->]]; reflexivity.
Qed.

(** *** Fractions *)
Lemma fracDigits_spec k n :
  0 < n < 10 ^ Z.of_nat k ->
  exists j n', (0 < j <= k)%nat /\ fracDigits k n = pad j n' /\ 0 <= n' < 10 ^ Z.of_nat j /\
    n = n' * 10 ^ (Z.of_nat k - Z.of_nat j).
Proof.
  revert n. induction k as [|k IH]; intros n Hn; [change (10 ^ Z.of_nat 0) with 1 in Hn; lia|].
  pose proof Hn as Hn'. rewrite Nat2Z.inj_succ, Z.pow_succ_r in Hn' by lia. cbn [fracDigits].
  destruct (Z.eqb_spec (n mod 10) 0) as [Hz|Hz].
  - pose proof (Z.div_mod n 10 ltac:(lia)). destruct (IH (n / 10)) as (j & n' & Hj & E & Hb & Hv).
    + split; [lia|]. apply Z.div_lt_upper_bound; lia.
    + exists j, n'. split; [lia|]. split; [done|]. split; [done|].
      replace (Z.of_nat (S k) - Z.of_nat j) with (Z.succ (Z.of_nat k - Z.of_nat j)) by lia.
      rewrite Z.pow_succ_r by lia. lia.
  - exists (S k), n. split; [lia|]. split; [done|]. split; [lia|]. rewrite Z.sub_diag. lia.
Qed.

Lemma pad_cons j n : (0 < j)%nat -> exists a s, pad j n = String a s.
Proof.
  intros Hj. destruct (pad j n) as [|a s] eqn:E; [|by eexists _, _].
  apply (f_equal String.length) in E. rewrite pad_length in E. cbn in E. lia.
Qed.

(** What can follow a fraction: nothing that would be part of it. *)
Definition endsFraction (s : string) : bool :=
  endsDigits s && match s with String a _ => negb (commaOrPeriod a) | EmptyString => true end.

Lemma fraction_none s : endsFraction s = true -> fraction s = None.
Proof.
  unfold endsFraction. destruct s as [|a s]; [done|]. cbn [fraction].
  destruct (commaOrPeriod a); [by rewrite andb_false_r|done].
Qed.

Lemma fraction_text ns rest :
  0 < ns < Second -> endsFraction rest = true -> fraction (fracText ns ^^ rest) = Some (ns, rest).
Proof.
  intros Hns Hr. unfold fracText. replace (ns =? 0) with false by lia.
  destruct (fracDigits_spec 9 ns) as (j & n' & Hj & -> & Hb & Hv); [exact Hns|].
  rewrite append_assoc. change ("." ^^ ?x) with (String "." x). cbn [fraction].
  change (commaOrPeriod ".") with true. cbn [negb].
  rewrite spanDigits_pad by (apply andb_prop in Hr as [? _]; done).
  destruct (pad_cons j n' ltac:(lia)) as (a & s & E). rewrite E. rewrite <- E.
  assert (String.substring 0 9 (pad j n') = pad j n') as ->.
  { pose proof (prefixString_append (pad j n') "") as H. rewrite append_nil_r, pad_length in H.
    unfold prefixString in H. clear - H Hj.
    assert (forall m s, (String.length s <= m)%nat -> String.substring 0 m s = s) as Hs.
    { induction m as [|m IH]; intros [|b s] Hl; try done; cbn in Hl; [lia|]. cbn. f_equal. apply IH. lia. }
    apply Hs. rewrite pad_length. lia. }
  rewrite parseDigits_pad by done. unfold go_len. rewrite pad_length. do 2 f_equal. lia.
Qed.

(** *** Zones *)

Definition wholeMinutes (o : Z) : Prop := o mod 60 = 0 /\ - 86400 < o < 86400.

Lemma offset_value o :
  wholeMinutes o -> 0 <= Z.abs o / 3600 < 24 /\ 0 <= Z.abs o / 60 mod 60 < 60 /\
  (Z.abs o / 3600 * 60 + Z.abs o / 60 mod 60) * 60 = Z.abs o.
Proof.
  intros [Hr Hb]. pose proof (Z.mod_pos_bound (Z.abs o / 60) 60 ltac:(lia)).
  assert (Z.abs o mod 60 = 0) as Hm.
  { destruct (Z.abs_eq_or_opp o) as [->| ->]; [exact Hr|by apply Z.mod_opp_l_z]. }
  pose proof (Z.div_mod (Z.abs o) 60 ltac:(lia)). pose proof (Z.div_mod (Z.abs o / 60) 60 ltac:(lia)) as H2.
  rewrite Z.div_div in H2 by lia. change (60 * 60) with 3600 in H2.
  split_and!; lia.
Qed.

Lemma zoneOffset_text colon o rest :
  wholeMinutes o -> zoneOffset colon ((if colon : bool then offColon o else offText o) ^^ rest) = Some (o, rest).
Proof.
  intros Ho. destruct (offset_value o Ho) as (Hh & Hm & Hv).
  pose proof (getnum_pad (Z.abs o / 3600) "" true ltac:(lia)) as G1.
  pose proof (getnum_pad (Z.abs o / 60 mod 60) "" true ltac:(lia)) as G2.
  rewrite pad2_append in G1, G2.
  assert (exists a, signText o = String a "" /\ (if Ascii.eqb a "+" then Some (Z.abs o, rest) else if Ascii.eqb a "-" then Some (- Z.abs o, rest) else None) = Some (o, rest)) as (a & Ha & Hsign).
  { unfold signText. destruct (Z.ltb_spec o 0); eexists; (split; [reflexivity|]); cbn; do 2 f_equal; lia. }
  unfold offColon, offText. rewrite Ha. set (h := Z.abs o / 3600) in *. set (mi := Z.abs o / 60 mod 60) in *. clearbody h mi.
  destruct colon; rewrite !append_assoc, !pad2_append; change (String a "" ^^ ?u) with (String a u); cbn [zoneOffset];
    try change (":" ^^ ?u) with (String ":" u); cbn [zoneOffset];
    rewrite G1, G2; replace ((24 <? h) || (60 <? mi)) with false by lia; by rewrite Hv.
Qed.

(** *** Instants *)
Lemma parsedTime_fields lookup sec ns utc o z :
  inYears sec -> parsedTime lookup (setZone utc o z (setClock (ps_hour (fields sec unparsed)) (ps_min (fields sec unparsed))
      (ps_sec (fields sec unparsed)) ns (fields sec unparsed)))
    = Some ((if utc then sec else match o with Some o => sec - o | None => if z =s "" then sec else match lookup z sec with Some o => sec - o | None => sec end end) * Second + ns).
Proof.
  intros Hs. unfold fields. pose proof (civil_spec (sec / 86400)) as Hc.
  destruct (civil (sec / 86400)) as [[y m] d]. destruct Hc as [[Hm Hd] He]. unfold parsedTime. cbn.
  replace ((d <? 1) || (daysIn m y <? d)) with false by lia. rewrite He.
  assert (sec / 86400 * 86400 + sec mod 86400 / 3600 * 3600 + (sec mod 86400 / 60) mod 60 * 60 + (sec mod 86400) mod 60 = sec) as ->.
  { pose proof (Z.div_mod sec 86400). pose proof (Z.div_mod (sec mod 86400) 60). pose proof (Z.div_mod (sec mod 86400 / 60) 60) as Hdd.
    rewrite Z.div_div in Hdd by lia. change (60 * 60) with 3600 in Hdd. lia. }
  by destruct utc, o.
Qed.

Lemma setClock_id p : setClock (ps_hour p) (ps_min p) (ps_sec p) (ps_nsec p) p = p.
Proof. by destruct p. Qed.

Lemma fields_nsec sec p : ps_nsec (fields sec p) = ps_nsec p.
Proof. reflexivity. Qed.

Definition withNsec (ns : Z) (p : Parsed) : Parsed := setClock (ps_hour p) (ps_min p) (ps_sec p) ns p.

Lemma parse_fraction ns rest layout p :
  0 <= ns < Second -> ps_nsec p = 0 -> endsFraction rest = true ->
  parseElem FracSecond9 layout p (fracText ns ^^ rest) = Some (withNsec ns p, rest).
Proof.
  intros Hns Hp Hr. unfold parseElem. destruct (Z.eq_dec ns 0) as [->|Hz].
  - change (fracText 0 ^^ rest) with rest. rewrite fraction_none by done. unfold withNsec. by rewrite <- Hp, setClock_id.
  - by rewrite fraction_text by (done || lia).
Qed.

(** *** Abbreviations of zones *)

Definition plainChar (a : ascii) : bool := (33 <=? nat_of_ascii a)%nat && (nat_of_ascii a <? 128)%nat && negb (Ascii.eqb a "m").

(** What [time.Parse] reads back as an abbreviation. *)
Definition abbreviation (z : string) : Prop :=
  HasPrefix z "UTC" = false /\ parseTimeZone z = Some (String.length z) /\ allChars plainChar z = true.

Lemma plain_cutspace z : allChars plainChar z = true -> cutspace z = z.
Proof.
  destruct z as [|a z]; [done|]. cbn [allChars]. intros [Ha _]%andb_prop.
  destruct a as [[] [] [] [] [] [] [] []]; try reflexivity; discriminate.
Qed.

Lemma suffixString_all s : suffixString (String.length s) s = "".
Proof. by induction s. Qed.

Lemma parse_abbreviation z layout p :
  abbreviation z -> parseElem TZ layout p z = Some (setZone (ps_utc p) (ps_offset p) z p, "").
Proof.
  intros (Hu & Hz & _). unfold parseElem. rewrite Hu, Hz, suffixString_all.
  pose proof (prefixString_append z "") as H. rewrite append_nil_r in H. unfold prefixString in H. by rewrite H.
Qed.

(** ** What [time.Time.String] prints, and what drivers store *)

(** Local seconds, nanoseconds, offset and abbreviation of the zone. *)
Definition goString (sec ns o : Z) (z : string) : string :=
  stamp " " sec ^^ (fracText ns ^^ (" " ^^ (offText o ^^ (" " ^^ z)))).

Definition rfc3339Nano (sec ns : Z) (o : option Z) : string :=
  stamp "T" sec ^^ (fracText ns ^^ match o with None => "Z" | Some o => offColon o end).

Lemma sign_space o s : cutspace (offText o ^^ s) = offText o ^^ s.
Proof. unfold offText, signText. by destruct (o <? 0). Qed.

Lemma parse_goString lookup sec ns o z :
  inYears sec -> 0 <= ns < Second -> wholeMinutes o -> abbreviation z \/ z = "UTC" /\ o = 0 ->
  timeParse lookup (dateElems " " ++ [FracSecond9; Lit " "; NumTZ; Lit " "; TZ]) (goString sec ns o z)
    = Some ((sec - o) * Second + ns).
Proof.
  intros Hs Hns Ho Hz. unfold timeParse, goString. rewrite parse_stamp by auto. unfold withFraction. cbn [nextIsFrac].
  erewrite parseElems_cons by (apply parse_fraction; [done|by rewrite fields_nsec|reflexivity]).
  erewrite parseElems_cons by (apply skip_space, sign_space).
  erewrite parseElems_cons by (unfold parseElem; rewrite (zoneOffset_text false) by done; reflexivity).
  erewrite parseElems_cons by (apply skip_space; destruct Hz as [(_ & _ & Hz)|[-> _]]; [by apply plain_cutspace|reflexivity]).
  destruct Hz as [Hz|[-> ->]].
  - erewrite parseElems_cons by (by apply parse_abbreviation). cbn [parseElems]. change ("" =s "") with true. cbn [mbind option_bind].
    exact (parsedTime_fields lookup sec ns false (Some o) z Hs).
  - erewrite parseElems_cons by reflexivity. cbn [parseElems]. change ("" =s "") with true. cbn [mbind option_bind].
    etrans; [exact (parsedTime_fields lookup sec ns true (Some 0) "" Hs)|]. do 3 f_equal. lia.
Qed.

(** *** Trimming and the monotonic suffix *)

(** ASCII without [m]. *)
Definition okChar (a : ascii) : bool := (nat_of_ascii a <? 128)%nat && negb (Ascii.eqb a "m").

Lemma trimRight_end s e t :
  allChars plainChar (String e t) = true -> trimRight (s ^^ String e t) = s ^^ String e t.
Proof.
  intros H. assert (trimRight (String e t) = String e t) as He.
  { revert e H. induction t as [|b t IH]; intros e H; cbn [allChars] in H; apply andb_prop in H as [He Ht].
    - cbn. destruct e as [[] [] [] [] [] [] [] []]; try reflexivity; discriminate.
    - specialize (IH b Ht). cbn [trimRight] in *. by rewrite IH. }
  induction s as [|a s IH]; [exact He|]. rewrite append_cons. cbn [trimRight]. rewrite IH. by destruct s.
Qed.

(** The text starts with a digit and ends in something that is no space. *)
Definition digitHead (s : string) : Prop := exists a t, s = String a t /\ digitVal a <> None.
Definition trimmed (s : string) : Prop := exists x e t, s = x ^^ String e t /\ allChars plainChar (String e t) = true.

Lemma trimmed_append x s : trimmed s -> trimmed (x ^^ s).
Proof. intros (y & e & t & -> & H). exists (x ^^ y), e, t. by rewrite append_assoc. Qed.

Lemma digitHead_append s t : digitHead s -> digitHead (s ^^ t).
Proof. intros (a & u & -> & H). exists a, (u ^^ t). by rewrite append_cons. Qed.

Lemma TrimSpace_id trim s :
  digitHead s -> trimmed s -> allChars (fun a => (nat_of_ascii a <? 128)%nat) s = true -> TrimSpace trim s = s.
Proof.
  intros (a & u & Ha & Hd) (x & e & t & Hs & He) H. unfold TrimSpace. rewrite H.
  assert (trimLeft s = s) as ->; [|rewrite Hs; by apply trimRight_end].
  rewrite Ha. cbn [trimLeft]. destruct (isSpace a) eqn:E; [|done].
  destruct a as [[] [] [] [] [] [] [] []]; try discriminate; by destruct Hd.
Qed.

Lemma before_none s : noChar "m" s = true -> before " m=" s = None.
Proof.
  unfold noChar. induction s as [|a s IH]; [done|]. cbn [allChars]. intros [Ha Hs]%andb_prop. cbn [before].
  rewrite IH by done. replace (HasPrefix (String a s) " m=") with false; [done|]. symmetry.
  unfold HasPrefix. cbn [String.prefix]. destruct (ascii_dec " " a); [|done].
  destruct s as [|b s]; [done|]. cbn [allChars] in Hs. apply andb_prop in Hs as [Hb _].
  cbn [String.prefix]. destruct (ascii_dec "m" b) as [<-|]; done.
Qed.

Lemma before_head sep s : HasPrefix s sep = true -> before sep s = Some "".
Proof. intros H. destruct s; cbn [before]; by rewrite H. Qed.

Lemma before_suffix s w : noChar "m" s = true -> before " m=" (s ^^ (" m=" ^^ w)) = Some s.
Proof.
  unfold noChar. induction s as [|a s IH]; [intros _; apply before_head; exact (HasPrefix_append " m=" w)|]. cbn [allChars]. intros [Ha Hs]%andb_prop.
  rewrite append_cons. cbn [before]. rewrite IH by done.
  replace (HasPrefix (String a (s ^^ (" m=" ^^ w))) " m=") with false; [done|]. symmetry.
  unfold HasPrefix. cbn [String.prefix]. destruct (ascii_dec " " a); [|done].
  destruct s as [|b s]; [reflexivity|]. cbn [allChars] in Hs. apply andb_prop in Hs as [Hb _].
  rewrite append_cons. cbn [String.prefix]. destruct (ascii_dec "m" b) as [<-|]; done.
Qed.

(** *** The characters of what is printed *)
Lemma digit_ok n : okChar (ascii_of_nat (Z.to_nat (48 + n mod 10))) = true.
Proof.
  pose proof (digitVal_digit n) as H. destruct (ascii_of_nat _) as [[] [] [] [] [] [] [] []]; try reflexivity; discriminate.
Qed.

Lemma pad_ok k n : allChars okChar (pad k n) = true.
Proof.
  revert n. induction k as [|k IH]; intros n; [done|]. cbn [pad]. rewrite allChars_append, IH. unfold digit. cbn [allChars].
  by rewrite digit_ok.
Qed.

Lemma fracDigits_ok k n : allChars okChar (fracDigits k n) = true.
Proof. revert n. induction k as [|k IH]; intros n; [done|]. cbn [fracDigits]. destruct (_ =? _); [apply IH|apply pad_ok]. Qed.

Lemma fracText_ok ns : allChars okChar (fracText ns) = true.
Proof. unfold fracText. destruct (ns =? 0); [done|]. rewrite allChars_append. by rewrite fracDigits_ok. Qed.

Lemma offset_ok (colon : bool) o : allChars okChar (if colon then offColon o else offText o) = true.
Proof.
  unfold offColon, offText, signText. destruct colon, (o <? 0); by rewrite ?allChars_append, ?pad_ok.
Qed.

Lemma stamp_ok sep sec : allChars okChar sep = true -> allChars okChar (stamp sep sec) = true.
Proof.
  intros Hs. unfold stamp. destruct (civil _) as [[y m] d]. by rewrite !allChars_append, !pad_ok, Hs.
Qed.

Lemma plain_ok z : allChars plainChar z = true -> allChars okChar z = true.
Proof.
  induction z as [|a z IH]; [done|]. cbn [allChars]. intros [Ha Hz]%andb_prop. rewrite IH by done.
  unfold plainChar, okChar in *. rewrite andb_true_r. apply andb_prop in Ha as [Ha ->]. apply andb_prop in Ha as [_ ->]. done.
Qed.

Lemma ok_parts s : allChars okChar s = true ->
  allChars (fun a => (nat_of_ascii a <? 128)%nat) s = true /\ noChar "m" s = true.
Proof.
  unfold noChar. induction s as [|a s IH]; [done|]. cbn [allChars]. intros [Ha Hs]%andb_prop.
  destruct (IH Hs) as [-> ->]. unfold okChar in Ha. apply andb_prop in Ha as [-> ->]. done.
Qed.

Lemma stamp_head sep sec : digitHead (stamp sep sec).
Proof.
  unfold stamp. destruct (civil _) as [[y m] d]. cbn [pad]. change ("" ^^ ?x) with x.
  rewrite !append_assoc. unfold digit at 1. change (String ?c "" ^^ ?u) with (String c u).
  eexists _, _. split; [reflexivity|]. by rewrite digitVal_digit.
Qed.

Lemma digit_plain n : plainChar (ascii_of_nat (Z.to_nat (48 + n mod 10))) = true.
Proof.
  pose proof (digitVal_digit n) as H. destruct (ascii_of_nat _) as [[] [] [] [] [] [] [] []]; try reflexivity; discriminate.
Qed.

Lemma pad2_trimmed n : trimmed (pad 2 n).
Proof.
  exists "", (ascii_of_nat (Z.to_nat (48 + n / 10 mod 10))), (digit n). split; [reflexivity|].
  unfold digit. cbn [allChars]. by rewrite !digit_plain.
Qed.

Lemma stamp_trimmed sep sec : trimmed (stamp sep sec).
Proof. unfold stamp. destruct (civil _) as [[y m] d]. do 10 apply trimmed_append. apply pad2_trimmed. Qed.

Lemma plain_trimmed z : z <> "" -> allChars plainChar z = true -> trimmed z.
Proof. destruct z as [|e t]; [done|]. intros _ H. by exists "", e, t. Qed.

Definition allLayouts : list (list Elem) := sqliteLayout :: RFC3339Nano :: RFC3339 :: goLayouts.

(** What precedes the layouts takes off the monotonic suffix and nothing else. *)
Lemma parse_prepared lookup trim s mono :
  digitHead s -> trimmed s -> allChars okChar s = true ->
  mono = "" \/ (exists w, mono = " m=" ^^ w /\ w <> "" /\ allChars plainChar w = true) ->
  parseRetryTimestamp lookup trim (s ^^ mono) = firstLayout lookup allLayouts s.
Proof.
  intros Hd Ht Hok Hmono. destruct (ok_parts _ Hok) as [Hascii Hm]. unfold parseRetryTimestamp. fold allLayouts.
  pose proof (TrimSpace_id trim s Hd Ht Hascii) as Hs.
  assert (forall t, (s ^^ t =s "") = false) as Hne by (intros t; by destruct Hd as (a & u & -> & _)).
  destruct Hmono as [->|(w & -> & Hw & Hp)].
  - rewrite append_nil_r, Hs. rewrite <- (append_nil_r s) at 1. rewrite Hne. by rewrite before_none.
  - rewrite TrimSpace_id.
    + rewrite Hne, before_suffix by done. by rewrite Hs.
    + by apply digitHead_append.
    + by apply trimmed_append, trimmed_append, plain_trimmed.
    + rewrite !allChars_append, Hascii. cbn. by apply ok_parts, plain_ok.
Qed.

Lemma abbreviation_nonempty z : abbreviation z -> z <> "".
Proof. intros (_ & H & _) ->. discriminate. Qed.

Lemma goString_shape sec ns o z :
  abbreviation z \/ z = "UTC" ->
  digitHead (goString sec ns o z) /\ trimmed (goString sec ns o z) /\ allChars okChar (goString sec ns o z) = true.
Proof.
  intros Hz. assert (z <> "" /\ allChars plainChar z = true) as [Hn Hp].
  { destruct Hz as [Hz| ->]; [split; [by apply abbreviation_nonempty|apply Hz]|done]. }
  unfold goString. split_and!.
  - apply digitHead_append, stamp_head.
  - do 5 apply trimmed_append. by apply plain_trimmed.
  - rewrite !allChars_append, stamp_ok, fracText_ok, (offset_ok false), (plain_ok z Hp) by done. done.
Qed.

Lemma rfc3339_shape sec ns o :
  digitHead (rfc3339Nano sec ns o) /\ trimmed (rfc3339Nano sec ns o) /\ allChars okChar (rfc3339Nano sec ns o) = true.
Proof.
  unfold rfc3339Nano. split_and!.
  - apply digitHead_append, stamp_head.
  - do 2 apply trimmed_append. destruct o; [unfold offColon; do 3 apply trimmed_append; apply pad2_trimmed|by apply plain_trimmed].
  - rewrite !allChars_append, stamp_ok, fracText_ok by done. destruct o as [o|]; [by rewrite (offset_ok true)|done].
Qed.

(** *** The layouts in order *)

(** The layout of SQLite leaves a zone unread. *)
Lemma sqlite_rejects lookup sec ns c rest :
  inYears sec -> 0 <= ns < Second -> endsFraction (String c rest) = true ->
  timeParse lookup sqliteLayout (stamp " " sec ^^ (fracText ns ^^ String c rest)) = None.
Proof.
  intros Hs Hns He. unfold timeParse, sqliteLayout. rewrite <- (app_nil_r (dateElems " ")), parse_stamp by auto.
  unfold withFraction. cbn [nextIsFrac]. destruct (Z.eq_dec ns 0) as [->|Hz].
  - change (fracText 0 ^^ ?x) with x. by rewrite fraction_none.
  - by rewrite fraction_text by (done || lia).
Qed.

Lemma rejects_other lookup sep sep' tail sec rest :
  inYears sec -> sep = " " /\ sep' = "T" \/ sep = "T" /\ sep' = " " ->
  timeParse lookup (dateElems sep ++ tail) (stamp sep' sec ^^ rest) = None.
Proof. intros Hs Hsep. unfold timeParse. by rewrite parse_stamp_other. Qed.

Lemma parse_rfc3339 lookup sec ns o :
  inYears sec -> 0 <= ns < Second -> (forall v, o = Some v -> wholeMinutes v) ->
  timeParse lookup RFC3339Nano (rfc3339Nano sec ns o) = Some ((sec - default 0 o) * Second + ns).
Proof.
  intros Hs Hns Ho. unfold timeParse, RFC3339Nano, rfc3339Nano. rewrite parse_stamp by auto. unfold withFraction. cbn [nextIsFrac].
  assert (endsFraction (match o with None => "Z" | Some o => offColon o end) = true) as He.
  { destruct o as [o|]; [|done]. unfold offColon, signText. by destruct (o <? 0). }
  erewrite parseElems_cons by (apply parse_fraction; [done|by rewrite fields_nsec|exact He]).
  destruct o as [o|].
  - erewrite parseElems_cons.
    2:{ unfold parseElem. pose proof (zoneOffset_text true o "" (Ho o eq_refl)) as Hz. rewrite append_nil_r in Hz. rewrite Hz.
        replace (HasPrefix (offColon o) "Z") with false by (unfold offColon, signText; by destruct (o <? 0)). reflexivity. }
    cbn [parseElems]. change ("" =s "") with true. cbn [mbind option_bind].
    exact (parsedTime_fields lookup sec ns false (Some o) "" Hs).
  - erewrite parseElems_cons by reflexivity. cbn [parseElems]. change ("" =s "") with true. cbn [mbind option_bind].
    etrans; [exact (parsedTime_fields lookup sec ns true None "" Hs)|]. cbn. do 3 f_equal. lia.
Qed.

Lemma parse_sqlite lookup sec :
  inYears sec -> timeParse lookup sqliteLayout (stamp " " sec) = Some (sec * Second).
Proof.
  intros Hs. unfold timeParse, sqliteLayout. rewrite <- (app_nil_r (dateElems " ")), <- (append_nil_r (stamp " " sec)).
  rewrite parse_stamp by auto. unfold withFraction. cbn [nextIsFrac fraction parseElems]. change ("" =s "") with true.
  cbn [mbind option_bind]. etrans; [exact (parsedTime_fields lookup sec 0 false None "" Hs)|]. cbn. f_equal. lia.
Qed.

Lemma parse_canonical lookup trim sec :
  inYears sec -> parseRetryTimestamp lookup trim (formatSeconds sec) = Some (sec * Second).
Proof.
  intros Hs. rewrite <- (append_nil_r (formatSeconds sec)). change (formatSeconds sec) with (stamp " " sec).
  rewrite parse_prepared; [|apply stamp_head|apply stamp_trimmed|by apply stamp_ok|by left].
  unfold allLayouts. cbn [firstLayout]. by rewrite parse_sqlite.
Qed.

Lemma formatSeconds_length sec : String.length (formatSeconds sec) = 19%nat.
Proof. unfold formatSeconds. destruct (civil _) as [[y m] d]. by rewrite !length_append, !pad_length. Qed.

(** ** Properties *)

(** C38: A stored retry time means the same instant in every form it was ever
    written in.  The text of [time.Time.String], in any zone of whole minutes
    whose abbreviation package time can read, with or without the monotonic
    clock reading, the RFC 3339 text with or without an offset, and the
    canonical UTC text are all read back as the instant they were printed
    from. *)
Theorem retry_texts_read_back lookup trim sec ns o z w :
  inYears sec -> 0 <= ns < Second -> wholeMinutes o -> abbreviation z \/ z = "UTC" /\ o = 0 ->
  w <> "" -> allChars plainChar w = true ->
  let read := parseRetryTimestamp lookup trim in
  let t := (sec - o) * Second + ns in
  read (goString sec ns o z) = Some t /\ read (goString sec ns o z ^^ (" m=" ^^ w)) = Some t /\
  read (rfc3339Nano sec ns (Some o)) = Some t /\ read (rfc3339Nano sec ns None) = Some (sec * Second + ns) /\
  read (formatSeconds sec) = Some (sec * Second).
Proof.
  intros Hs Hns Ho Hz Hw Hp read t.
  destruct (goString_shape sec ns o z ltac:(tauto)) as (G1 & G2 & G3).
  assert (firstLayout lookup allLayouts (goString sec ns o z) = Some t) as Hgo.
  { unfold allLayouts. cbn [firstLayout]. unfold goString at 1 2 3. change (" " ^^ ?x) with (String " " x).
    rewrite sqlite_rejects by done. unfold RFC3339Nano, RFC3339. rewrite !rejects_other by auto.
    unfold goLayouts. cbn [firstLayout]. by rewrite parse_goString. }
  assert (forall v, (forall u, v = Some u -> wholeMinutes u) ->
    firstLayout lookup allLayouts (rfc3339Nano sec ns v) = Some ((sec - default 0 v) * Second + ns)) as Hrfc.
  { intros v Hv. unfold allLayouts. cbn [firstLayout]. unfold rfc3339Nano at 1, sqliteLayout.
    rewrite <- (app_nil_r (dateElems " ")), rejects_other by auto. by rewrite parse_rfc3339. }
  split_and!.
  - unfold read. rewrite <- (append_nil_r (goString sec ns o z)), parse_prepared by auto. exact Hgo.
  - unfold read. rewrite parse_prepared by eauto. exact Hgo.
  - unfold read. destruct (rfc3339_shape sec ns (Some o)) as (R1 & R2 & R3).
    rewrite <- (append_nil_r (rfc3339Nano _ _ _)), parse_prepared by auto. apply Hrfc. by intros u [= <-].
  - unfold read. destruct (rfc3339_shape sec ns None) as (R1 & R2 & R3).
    rewrite <- (append_nil_r (rfc3339Nano _ _ _)), parse_prepared by auto. rewrite Hrfc by done. cbn. do 2 f_equal. lia.
  - by apply parse_canonical.
Qed.

Lemma formatSeconds_runes sec : RuneCountInString (formatSeconds sec) = 19.
Proof.
  rewrite (runeCount_chars okChar).
  - unfold go_len. by rewrite formatSeconds_length.
  - intros a. destruct a as [[] [] [] [] [] [] [] []]; vm_compute; congruence.
  - change (formatSeconds sec) with (stamp " " sec). by apply stamp_ok.
Qed.

Lemma migratedText_canonical lookup trim now raw : exists sec, migratedText lookup trim now raw = formatSeconds sec.
Proof. unfold migratedText. destruct (parseRetryTimestamp _ _ _); by eexists. Qed.

Lemma scanRows_ok lookup trim env rows us :
  scanRows lookup trim env rows = Ok us -> us = map (fun r => (r.1, migratedText lookup trim (mg_now env) r.2)) rows.
Proof.
  revert us. induction rows as [|[id raw] rows IH]; intros us H; cbn [scanRows] in H.
  - destruct (mg_rows env); [done|]. by injection H as <-.
  - destruct (mg_scan env id); [done|]. destruct (scanRows _ _ _ rows); [|done]. injection H as <-. cbn. by rewrite (IH _ eq_refl).
Qed.

Lemma applyUpdates_ok env us tx tx' :
  applyUpdates env us tx = Ok tx' -> NoDup us.*1 -> Forall (fun u => is_Some (tx !! u.1)) us ->
  (forall id text, (id, text) ∈ us -> tx' !! id = Some (Some text)) /\
  (forall id, id ∉ us.*1 -> tx' !! id = tx !! id).
Proof.
  revert tx. induction us as [|[id text] us IH]; intros tx H Hnd Hin; cbn [applyUpdates] in H.
  - injection H as <-. split; [by intros ?? ?%not_elem_of_nil|done].
  - destruct (mg_update env id); [done|]. apply Forall_cons in Hin as [Hid Hin]. cbn in Hid.
    rewrite decide_True in H by done. apply NoDup_cons in Hnd as [Hni Hnd].
    destruct (IH _ H Hnd) as [IH1 IH2].
    { eapply Forall_impl; [exact Hin|]. intros [i t] Hi. cbn in *. destruct (decide (i = id)) as [->|];
        [by rewrite lookup_insert_eq|by rewrite lookup_insert_ne]. }
    split.
    + intros i t [[= -> ->]|Ht]%elem_of_cons; [|by apply IH1]. rewrite IH2 by done. by rewrite lookup_insert_eq.
    + intros i Hi. cbn in Hi. apply not_elem_of_cons in Hi as [Hne Hi]. rewrite IH2 by done. by rewrite lookup_insert_ne.
Qed.

Lemma legacyRows_elem order id raw :
  (id, raw) ∈ legacyRows order <-> (id, Some raw) ∈ order /\ RuneCountInString raw <> 19.
Proof.
  unfold legacyRows. rewrite list_elem_of_omap. split.
  - intros ([i [t|]] & Hin & He); cbn in He; [|done]. destruct (Z.eqb_spec (RuneCountInString t) 19); [done|]. by injection He as -> ->.
  - intros [Hin Hne]. exists (id, Some raw). split; [done|]. cbn. by destruct (Z.eqb_spec (RuneCountInString raw) 19).
Qed.

Lemma legacyRows_nodup order : NoDup order.*1 -> NoDup (legacyRows order).*1.
Proof.
  induction order as [|[i t] order IH]; [by intros _; constructor|]. cbn [fmap list_fmap]. intros [Hni Hnd]%NoDup_cons.
  unfold legacyRows in *. cbn [omap list_omap]. destruct t as [t|]; [|by apply IH].
  destruct (RuneCountInString t =? 19) eqn:Et; cbn; rewrite Et; [by apply IH|].
  cbn [fmap list_fmap]. apply NoDup_cons. split; [|by apply IH]. cbn.
  intros ([j raw] & -> & Hin)%list_elem_of_fmap. apply Hni. apply (legacyRows_elem order) in Hin as [Hin _].
  apply list_elem_of_fmap. by exists (j, Some raw).
Qed.

Lemma toMigrate_rows order texts :
  order ≡ₚ map_to_list texts ->
  NoDup (toMigrate order).*1 /\ forall id raw, (id, raw) ∈ toMigrate order -> texts !! id = Some (Some raw).
Proof.
  intros Hord. assert (NoDup order.*1) as Hnd by (rewrite Hord; apply NoDup_fst_map_to_list). split.
  - unfold toMigrate. rewrite fmap_take. eapply sublist_NoDup; [by apply legacyRows_nodup|]. apply sublist_take.
  - intros id raw Hin. apply elem_of_take in Hin as (i & Hi & _). apply list_elem_of_lookup_2 in Hi.
    apply legacyRows_elem in Hi as [Hi _]. rewrite Hord in Hi. by apply elem_of_map_to_list in Hi.
Qed.

(** What a migration did to the table. *)
Lemma migrate_spec lookup trim env order texts texts' err :
  order ≡ₚ map_to_list texts ->
  migrateRetryTimestamps lookup trim env order texts = (texts', err) ->
  match err with Some _ => texts' = texts | None =>
    (forall id raw, (id, raw) ∈ toMigrate order -> texts' !! id = Some (Some (migratedText lookup trim (mg_now env) raw))) /\
    (forall id, id ∉ (toMigrate order).*1 -> texts' !! id = texts !! id) end.
Proof.
  intros Hord H. destruct (toMigrate_rows _ _ Hord) as [Hnd2 Hsel].
  unfold migrateRetryTimestamps in H. destruct (mg_query env); [by injection H as <- <-|].
  destruct (scanRows _ _ _ (toMigrate order)) as [us|] eqn:Hs; [|by injection H as <- <-].
  apply scanRows_ok in Hs. destruct us as [|u us'] eqn:Hus.
  { injection H as <- <-. symmetry in Hs. apply map_eq_nil in Hs. rewrite Hs. split; [by intros ?? ?%not_elem_of_nil|done]. }
  rewrite <- Hus in *. clear Hus u us'. destruct (mg_begin env); [by injection H as <- <-|].
  destruct (mg_prepare env); [by injection H as <- <-|].
  destruct (applyUpdates env us texts) as [tx|] eqn:Ha; [|by injection H as <- <-].
  destruct (mg_commit env); injection H as <- <-; [done|].
  assert (us.*1 = (toMigrate order).*1) as Hfst by (subst us; by rewrite <- list_fmap_compose).
  apply applyUpdates_ok in Ha as [Ha1 Ha2].
  - split; [|intros id Hid; apply Ha2; by rewrite Hfst]. intros id raw Hin. apply Ha1. subst us.
    apply list_elem_of_fmap. by exists (id, raw).
  - by rewrite Hfst.
  - subst us. apply Forall_map, Forall_forall. intros [id raw] Hin. cbn. exists (Some raw). by apply Hsel.
Qed.

(** The migration rewrites what it selected, all or nothing.  When it fails
    the table is as before.  When it succeeds, each selected row, of which there
    are at most 1000, holds the canonical text of the instant its old text
    meant, or of an hour ago when it meant none, and no other row changed; and
    when the limit was not exceeded, the next start selects nothing. *)
Theorem retry_migration_atomic lookup trim env order texts texts' err :
  order ≡ₚ map_to_list texts ->
  migrateRetryTimestamps lookup trim env order texts = (texts', err) ->
  match err with
  | Some _ => texts' = texts
  | None =>
      (forall id raw, (id, raw) ∈ toMigrate order -> texts' !! id = Some (Some (migratedText lookup trim (mg_now env) raw))) /\
      (forall id, id ∉ (toMigrate order).*1 -> texts' !! id = texts !! id) /\
      ((length (legacyRows order) <= migrationLimit)%nat -> forall order', order' ≡ₚ map_to_list texts' -> toMigrate order' = [])
  end.
Proof.
  intros Hord H. pose proof (migrate_spec _ _ _ _ _ _ _ Hord H) as Hmain.
  destruct err as [e|]; [exact Hmain|]. destruct Hmain as [Hm Hk]. split_and!; [done|done|].
  intros Hlim order' Hord'. unfold toMigrate. replace (legacyRows order') with (@nil (string * string)); [done|].
  symmetry. destruct (legacyRows order') as [|[id raw] l] eqn:E; [done|]. exfalso.
  assert ((id, raw) ∈ legacyRows order') as Hin by (rewrite E; by left).
  apply legacyRows_elem in Hin as [Hin Hne]. rewrite Hord' in Hin. apply elem_of_map_to_list in Hin.
  destruct (decide (id ∈ (toMigrate order).*1)) as [Hsl|Hns].
  - apply list_elem_of_fmap in Hsl as ([i r] & -> & Hsl). cbn in Hin. rewrite (Hm _ _ Hsl) in Hin. injection Hin as <-.
    destruct (migratedText_canonical lookup trim (mg_now env) r) as [sec Hc]. rewrite Hc, formatSeconds_runes in Hne. done.
  - rewrite (Hk _ Hns) in Hin. apply Hns. apply list_elem_of_fmap. exists (id, raw). split; [done|].
    unfold toMigrate. rewrite take_ge by done. apply legacyRows_elem. split; [|done]. rewrite Hord. by apply elem_of_map_to_list.
Qed.

(** *** The query on the texts *)

Definition unixSeconds (n : Z) : string := formatSeconds (n + 62135596800).

(** [datetime(next_attempt_at) <= CURRENT_TIMESTAMP] on the column's text;
    [datetime] leaves a canonical text as it is. *)
Definition textDue (t : Z) (r : EventRow) : bool :=
  (er_state r =s "PENDING") &&
  match unixSeconds <$> er_next_attempt_at r with
  | None => true
  | Some text => match String.compare text (unixSeconds t) with Gt => false | _ => true end
  end.

(** Keeping retry times as seconds is faithful to the store, which keeps
    texts: until the year 9999, a row is due by comparison of the numbers
    exactly when the query finds it due by comparison of the texts. *)
Theorem due_compares_texts t r :
  inYears (t + 62135596800) -> (forall n, er_next_attempt_at r = Some n -> inYears (n + 62135596800)) ->
  due t r = textDue t r.
Proof.
  intros Ht Hn. unfold due, textDue. f_equal. destruct (er_next_attempt_at r) as [n|] eqn:E; [|done]. cbn.
  unfold unixSeconds. rewrite formatSeconds_compare by (exact Ht || exact (Hn n eq_refl)).
  destruct (Z.compare_spec (n + 62135596800) (t + 62135596800)); lia.
Qed.

(** ** Witnesses *)
Lemma retry_texts_read_back_witness :
  let sec := dateDays 2024 3 1 * 86400 + 10799 in
  goString sec 250000000 10800 "EAT" = "2024-03-01 02:59:59.25 +0300 EAT" /\
  parseRetryTimestamp noZone (fun s => s) (goString sec 250000000 10800 "EAT" ^^ (" m=" ^^ "+7.5"))
    = Some ((sec - 10800) * Second + 250000000).
Proof.
  split; [vm_compute; reflexivity|].
  refine (proj1 (proj2 (retry_texts_read_back noZone (fun s => s) (dateDays 2024 3 1 * 86400 + 10799) 250000000 10800 "EAT" "+7.5"
    _ _ _ _ _ _))); [split; [discriminate|reflexivity]|split; [discriminate|reflexivity]|split; [reflexivity|split; reflexivity]| |discriminate|reflexivity].
  left. split; [reflexivity|]. split; reflexivity.
Defined.

Definition calmMigration : MigrationEnv :=
  {| mg_query := None; mg_scan := fun _ => None; mg_rows := None; mg_begin := None; mg_prepare := None;
     mg_update := fun _ => None; mg_commit := None; mg_now := unixEpoch |}.

Definition legacyTexts : gmap string (option string) :=
  {[ "a" := Some "2024-03-01 02:59:59.25 +0300 EAT m=+7.5"; "b" := Some "2024-02-29 23:59:59"; "c" := None; "d" := Some "soon" ]}.

Lemma retry_migration_atomic_witness :
  exists texts', migrateRetryTimestamps noZone (fun s => s) calmMigration (map_to_list legacyTexts) legacyTexts = (texts', None) /\
    texts' !! "a" = Some (Some "2024-02-29 23:59:59") /\ texts' !! "d" = Some (Some "1969-12-31 23:00:00") /\
    toMigrate (map_to_list texts') = [].
Proof.
  set (r := migrateRetryTimestamps noZone (fun s => s) calmMigration (map_to_list legacyTexts) legacyTexts).
  assert (r.2 = None) as Hn by (vm_compute; reflexivity).
  exists r.1. split; [rewrite <- Hn; apply surjective_pairing|]. split; [vm_compute; reflexivity|]. split; [vm_compute; reflexivity|].
  pose proof (retry_migration_atomic noZone (fun s => s) calmMigration (map_to_list legacyTexts) legacyTexts r.1 r.2
    ltac:(reflexivity) (surjective_pairing _)) as H. rewrite Hn in H. destruct H as (_ & _ & H).
  apply H; [vm_compute; lia|reflexivity].
Defined.

Lemma due_compares_texts_witness :
  let r := {| er_event_id := "e1"; er_device_id := "d"; er_seq_no := 1; er_severity := "INFO"; er_payload := ""; er_state := "PENDING";
              er_attempt_count := 1; er_next_attempt_at := Some 1700000000 |} in
  due 1700000001 r = textDue 1700000001 r /\ due 1700000001 r = true.
Proof.
  split; [|reflexivity]. apply due_compares_texts; [split; [discriminate|reflexivity]|].
  intros n [= <-]. split; [discriminate|reflexivity].
Defined.
