(* ===== verification/EventJson.v ===== *)
(** The canonical event as JSON (pkg/events/canonical.go: the struct tags of
    CanonicalEvent, Serialize and Deserialize): what [json.Marshal] and
    [json.Unmarshal] make of the struct, field by field. *)
From Corelib Require Import SpecFloat.
From Stdlib Require Import Strings.Byte Strings.Ascii.
From S2P Require Import Prelude GoStrings GoText GoFloat GoTime GoDate Events RetryTime GoNumber GoJson GoStruct.

Local Open Scope string_scope.
Local Open Scope list_scope.
Open Scope Z_scope.

(** ** Encoding *)

(** The keys of a map are written in order. *)
Fixpoint insertEntry {A} (e : string * A) (l : list (string * A)) : list (string * A) :=
  match l with
  | [] => [e]
  | x :: l' => if String.leb e.1 x.1 then e :: l else x :: insertEntry e l'
  end.

Definition sortedEntries {A} (l : list (string * A)) : list (string * A) := foldr insertEntry [] l.

Definition jsonFloat (f : float64) : result JSON :=
  if finite f then Ok (JNum (formatFloat f))
  else Err (ErrNew ("json: unsupported value: "
                    ^^ match f with S754_infinity false => "+Inf" | S754_infinity true => "-Inf" | _ => "NaN" end)).

Fixpoint encodeMeta (v : MetaValue) : result JSON :=
  match v with
  | VNil => Ok JNull
  | VStr s => Ok (jsonString s)
  | VInt z | VUint8 z | VUint16 z | VUint32 z | VInt64 z => Ok (JNum (fmt_d z))
  | VBool b => Ok (JBool b)
  | VFloat f => jsonFloat f
  | VStrings l => Ok (jsonStrings l)
  | VList l => JArr <$> sequence (map encodeMeta l)
  | VMap entries => jsonObject (sortedEntries (map (fun kv => (kv.1, encodeMeta kv.2)) entries))
  | VStruct _ fields => jsonObject (map (fun kv => (kv.1, encodeMeta kv.2)) fields)
  end.

Definition encodeMap (m : MetaMap) : result JSON := encodeMeta (VMap (map_to_list m)).

Section Encode.
(** A [time.Time] carries a location; [zone t] is the UTC offset, in seconds,
    of the location of a time with instant [t].  What the agent and the server
    take from the clock is in UTC. *)
Context (zone : Time -> Z).

(** [time.Time.MarshalJSON] *)
Definition encodeTime (t : Time) : result JSON :=
  let fail msg := Err (ErrWrap ("json: error calling MarshalJSON for type time.Time: Time.MarshalJSON: " ^^ msg)
                               [ErrNew ("Time.MarshalJSON: " ^^ msg)]) in
  let o := zone t in
  let sec := t / Second + o in
  if negb (bool_decide (inYears sec)) then fail "year outside of range [0,9999]"
  else if 86400 <=? Z.abs o then fail "timezone hour outside of range [0,23]"
  else Ok (JStr (bytes_of (rfc3339Nano sec (t mod Second) (if o =? 0 then None else Some o)))).

Definition omitMap (m : option MetaMap) : option (result JSON) :=
  match m with Some m => if decide (m = ∅) then None else Some (encodeMap m) | None => None end.

(** The struct tags, in the order of the fields. *)
Definition eventFields (e : CanonicalEvent) : list (string * option (result JSON)) :=
  let str s := Some (Ok (jsonString s)) in
  [ ("event_id", str (EventID e)); ("tenant_id", str (TenantID e)); ("site_id", str (SiteID e));
    ("asset_id", omitString (AssetID e)); ("sensor_id", omitString (SensorID e));
    ("occurred_at", Some (encodeTime (OccurredAt e))); ("received_at", Some (encodeTime (ReceivedAt e)));
    ("seq_no", Some (Ok (JNum (fmt_d (i64 (SeqNo e))))));
    ("source", str (Source e)); ("category", str (Category e)); ("severity", str (Severity e));
    ("confidence", jsonFloat <$> Confidence e);
    ("protocol", omitString (Protocol e)); ("src", omitString (Src e)); ("dst", omitString (Dst e));
    ("action", omitString (Action e)); ("metadata", omitMap (Metadata e));
    ("rule_id", omitString (RuleID e)); ("rule_version", omitString (RuleVersion e));
    ("attck_enterprise", omitStrings (AttckEnterprise e)); ("attck_ics", omitStrings (AttckICS e));
    ("quality_flags", omitStrings (QualityFlags e)); ("schema_version", str (SchemaVersion e)) ].

Definition Event_Serialize (e : CanonicalEvent) : result string := structText (eventFields e).
End Encode.

(** ** Decoding *)

(** The entries of an object, as the assignments [m[key] = value] in order. *)
Fixpoint assignAll (entries : list (option (string * MetaValue))) (m : MetaMap) : option MetaMap :=
  match entries with
  | [] => Some m
  | Some (k, v) :: entries => assignAll entries (<[k := v]> m)
  | None :: _ => None
  end.

(** A value decoded into an [interface{}]. *)
Fixpoint decodeMeta (v : JSON) : option MetaValue :=
  let entry kv := let! k := unquote kv.1 in let! x := decodeMeta kv.2 in Some (k, x) in
  match v with
  | JNull => Some VNil
  | JBool b => Some (VBool b)
  | JNum lit => VFloat <$> ParseFloat lit
  | JStr raw => VStr <$> unquote raw
  | JArr l => VList <$> mapM id (map decodeMeta l)
  | JObj fs => (fun m => VMap (map_to_list m)) <$> assignAll (map entry fs) ∅
  end.

Definition decodeEntry (kv : list byte * JSON) : option (string * MetaValue) :=
  let! k := unquote kv.1 in let! x := decodeMeta kv.2 in Some (k, x).

Definition intoTime (t : Time) (v : JSON) : option Time :=
  match v with JNull => Some t | JStr raw => timeParse noZone RFC3339 (string_of raw) | _ => None end.

Definition intoInt64 (n : Z) (v : JSON) : option Z :=
  match v with JNull => Some n | JNum lit => Atoi lit | _ => None end.

Definition intoFloat (_ : option float64) (v : JSON) : option (option float64) :=
  match v with JNull => Some None | JNum lit => Some <$> ParseFloat lit | _ => None end.

Definition intoMap (m : option MetaMap) (v : JSON) : option (option MetaMap) :=
  match v with
  | JNull => Some None
  | JObj fs => Some <$> assignAll (map decodeEntry fs) (default ∅ m)
  | _ => None
  end.

Definition emptyEvent : CanonicalEvent := {|
  EventID := ""; TenantID := ""; SiteID := ""; AssetID := ""; SensorID := ""; OccurredAt := zeroTime;
  ReceivedAt := zeroTime; SeqNo := 0; Source := ""; Category := ""; Severity := ""; Confidence := None;
  Protocol := ""; Src := ""; Dst := ""; Action := ""; Metadata := None; RuleID := ""; RuleVersion := "";
  AttckEnterprise := []; AttckICS := []; QualityFlags := []; SchemaVersion := "" |}.

Definition decodeFields (fs : list (list byte * JSON)) : option CanonicalEvent :=
  let str name := foldField intoString "" (occurrences name fs) in
  let strs name := fst <$> foldField intoStrings ([], []) (occurrences name fs) in
  let! event_id := str "event_id" in
  let! tenant_id := str "tenant_id" in
  let! site_id := str "site_id" in
  let! asset_id := str "asset_id" in
  let! sensor_id := str "sensor_id" in
  let! occurred_at := foldField intoTime zeroTime (occurrences "occurred_at" fs) in
  let! received_at := foldField intoTime zeroTime (occurrences "received_at" fs) in
  let! seq_no := foldField intoInt64 0 (occurrences "seq_no" fs) in
  let! source := str "source" in
  let! category := str "category" in
  let! severity := str "severity" in
  let! confidence := foldField intoFloat None (occurrences "confidence" fs) in
  let! protocol := str "protocol" in
  let! src := str "src" in
  let! dst := str "dst" in
  let! action := str "action" in
  let! metadata := foldField intoMap None (occurrences "metadata" fs) in
  let! rule_id := str "rule_id" in
  let! rule_version := str "rule_version" in
  let! attck_enterprise := strs "attck_enterprise" in
  let! attck_ics := strs "attck_ics" in
  let! quality_flags := strs "quality_flags" in
  let! schema_version := str "schema_version" in
  Some {| EventID := event_id; TenantID := tenant_id; SiteID := site_id; AssetID := asset_id; SensorID := sensor_id;
          OccurredAt := occurred_at; ReceivedAt := received_at; SeqNo := seq_no; Source := source; Category := category;
          Severity := severity; Confidence := confidence; Protocol := protocol; Src := src; Dst := dst; Action := action;
          Metadata := metadata; RuleID := rule_id; RuleVersion := rule_version; AttckEnterprise := attck_enterprise;
          AttckICS := attck_ics; QualityFlags := quality_flags; SchemaVersion := schema_version |}.

(** [decodeError] is the text of the error. *)
Definition Event_Deserialize (decodeError : string -> error) (data : string) : result CanonicalEvent :=
  structRead emptyEvent decodeFields decodeError data.

(** ** Metadata *)

Section MetaValue_ind'.
Context (P : MetaValue -> Prop) (Hnil : P VNil) (Hstr : forall s, P (VStr s)) (Hint : forall z, P (VInt z))
        (Hu8 : forall z, P (VUint8 z)) (Hu16 : forall z, P (VUint16 z)) (Hu32 : forall z, P (VUint32 z))
        (Hi64 : forall z, P (VInt64 z)) (Hbool : forall b, P (VBool b)) (Hfloat : forall f, P (VFloat f))
        (Hstrs : forall l, P (VStrings l)) (Hlist : forall l, Forall P l -> P (VList l))
        (Hmap : forall es, Forall (fun kv => P kv.2) es -> P (VMap es))
        (Hstruct : forall n es, Forall (fun kv => P kv.2) es -> P (VStruct n es)).

Fixpoint MetaValue_ind' (v : MetaValue) : P v :=
  let entries := fix go es := match es return Forall (fun kv : string * MetaValue => P kv.2) es with
                              | [] => List.Forall_nil _
                              | kv :: es => List.Forall_cons _ kv es (MetaValue_ind' kv.2) (go es)
                              end in
  match v with
  | VNil => Hnil | VStr s => Hstr s | VInt z => Hint z | VUint8 z => Hu8 z | VUint16 z => Hu16 z
  | VUint32 z => Hu32 z | VInt64 z => Hi64 z | VBool b => Hbool b | VFloat f => Hfloat f | VStrings l => Hstrs l
  | VList l => Hlist l ((fix go l := match l return Forall P l with
                                     | [] => List.Forall_nil P
                                     | v :: l => List.Forall_cons P v l (MetaValue_ind' v) (go l)
                                     end) l)
  | VMap es => Hmap es (entries es)
  | VStruct n es => Hstruct n es (entries es)
  end.
End MetaValue_ind'.

(** A value of the types it is made of, with at most [d] levels of nesting. *)
Fixpoint fitsMeta (d : nat) (v : MetaValue) {struct v} : bool :=
  match v with
  | VInt z | VUint8 z | VUint16 z | VUint32 z | VInt64 z => (- 2 ^ 64 <? z) && (z <? 2 ^ 64)
  | VFloat f => validFloat f
  | VStrings _ => match d with O => false | S _ => true end
  | VList l => match d with O => false | S d => forallb (fitsMeta d) l end
  | VMap es | VStruct _ es => match d with O => false | S d => forallb (fun kv => fitsMeta d kv.2) es end
  | _ => true
  end.

(** The assignments [m[key] = value] in order. *)
Fixpoint putAll (entries : list (string * MetaValue)) (m : MetaMap) : MetaMap :=
  match entries with [] => m | (k, v) :: entries => putAll entries (<[k := v]> m) end.

Definition plainKey (kv : string * MetaValue) : string * MetaValue := (sanitize kv.1, kv.2).

Definition intFloat (z : Z) : float64 := default fzero (ParseFloat (fmt_d z)).

(** What a value comes back as: text without invalid UTF-8, numbers as float64,
    structs as maps. *)
Fixpoint decodedMeta (v : MetaValue) : MetaValue :=
  match v with
  | VNil => VNil
  | VStr s => VStr (sanitize s)
  | VInt z | VUint8 z | VUint16 z | VUint32 z | VInt64 z => VFloat (intFloat z)
  | VBool b => VBool b
  | VFloat f => VFloat f
  | VStrings l => VList (map (fun s => VStr (sanitize s)) l)
  | VList l => VList (map decodedMeta l)
  | VMap es => VMap (map_to_list (putAll (map plainKey (sortedEntries (map (fun kv => (kv.1, decodedMeta kv.2)) es))) ∅))
  | VStruct _ es => VMap (map_to_list (putAll (map plainKey (map (fun kv => (kv.1, decodedMeta kv.2)) es)) ∅))
  end.

(** *** Lists of entries *)
Section Entries.
Context {A B : Type} (f : A -> B).
Definition onValue (kv : string * A) : string * B := (kv.1, f kv.2).

Lemma insert_map e l : insertEntry (onValue e) (map onValue l) = map onValue (insertEntry e l).
Proof. induction l as [|x l IH]; [done|]. cbn [map insertEntry onValue fst]. destruct (String.leb e.1 x.1); [done|]. by rewrite IH. Qed.

Lemma sorted_map l : sortedEntries (map onValue l) = map onValue (sortedEntries l).
Proof. induction l as [|e l IH]; [done|]. unfold sortedEntries in *. cbn [map foldr]. by rewrite IH, insert_map. Qed.
End Entries.

Lemma insert_perm {A} (e : string * A) l : insertEntry e l ≡ₚ e :: l.
Proof. induction l as [|x l IH]; [done|]. cbn [insertEntry]. destruct (String.leb e.1 x.1); [done|]. rewrite IH. apply Permutation_swap. Qed.

Lemma sorted_perm {A} (l : list (string * A)) : sortedEntries l ≡ₚ l.
Proof. induction l as [|e l IH]; [done|]. cbn. rewrite insert_perm. by f_equiv. Qed.

Lemma putAll_map l m : NoDup l.*1 -> putAll l m = list_to_map l ∪ m.
Proof.
  revert m. induction l as [|[k v] l IH]; intros m; cbn; [by rewrite (left_id_L ∅ (∪))|]. intros [Hk Hl]%NoDup_cons.
  rewrite IH by done. rewrite <- insert_union_l. symmetry. apply insert_union_r. by apply not_elem_of_list_to_map_1.
Qed.

(** Assigning the entries of a map in any order gives the map. *)
Lemma putAll_perm l m : l ≡ₚ map_to_list m -> putAll l ∅ = m.
Proof.
  intros Hp. assert (NoDup l.*1) as Hn by (rewrite Hp; apply NoDup_fst_map_to_list).
  rewrite putAll_map, (right_id_L ∅ (∪)) by done. rewrite <- (list_to_map_to_list m). by apply list_to_map_proper.
Qed.

Lemma assignAll_some l m : assignAll (map Some l) m = Some (putAll l m).
Proof. revert m. induction l as [|[k v] l IH]; [done|]. intros m. apply IH. Qed.

Lemma assignAll_forall (P : string -> MetaValue -> Prop) entries m m' :
  (forall k v, Some (k, v) ∈ entries -> P k v) -> map_Forall P m -> assignAll entries m = Some m' -> map_Forall P m'.
Proof.
  revert m. induction entries as [|[[k v]|] entries IH]; intros m He Hm; [by intros [= <-]| |done]. cbn [assignAll].
  apply IH; [intros k' v' Hin; apply He; by right|]. apply map_Forall_insert_2; [apply He; left|done].
Qed.

Lemma mapM_map_id {A B C} (f : A -> option C) (g : B -> C) (l : list A) (l' : list B) :
  map f l = map (fun x => Some (g x)) l' -> mapM id (map f l) = Some (map g l').
Proof. intros ->. clear. induction l' as [|x l IH]; [done|]. cbn. cbn in IH. by rewrite IH. Qed.

(** *** What is encoded is read back *)
Definition readsBack (v : MetaValue) : Prop := forall d j,
  fitsMeta d v = true -> encodeMeta v = Ok j -> wfJSON d j /\ decodeMeta j = Some (decodedMeta v).

Lemma object_reads es d j :
  Forall (fun kv => readsBack kv.2) es -> forallb (fun kv => fitsMeta d kv.2) es = true ->
  jsonObject (map (onValue encodeMeta) es) = Ok j ->
  wfJSON (S d) j /\ decodeMeta j = Some (VMap (map_to_list (putAll (map plainKey (map (onValue decodedMeta) es)) ∅))).
Proof.
  intros Hes Hfit Hj. unfold jsonObject in Hj. apply result_fmap_ok in Hj as (fs & Hseq%sequence_ok & ->).
  rewrite map_map in Hseq.
  assert (Forall (fun kv => rawString kv.1 /\ wfJSON d kv.2) fs /\
          map decodeEntry fs = map Some (map plainKey (map (onValue decodedMeta) es))) as [Hwf Hdec].
  { revert fs Hseq Hfit. induction Hes as [|[k v] es Hv _ IH]; intros [|[rk x] fs] Hseq Hfit; try done.
    cbn [map forallb fst snd onValue] in *. apply andb_prop in Hfit as [Hf Hfit].
    injection Hseq as Hkv Hseq. apply result_fmap_ok in Hkv as (y & Hy & [= -> ->]). destruct (Hv d y Hf Hy) as [Hw Hd].
    destruct (IH fs Hseq Hfit) as [Hws Hds]. split; [constructor; [split; [apply escape_raw|done]|done]|].
    rewrite Hds. f_equal. unfold decodeEntry. cbn [fst snd]. by rewrite unquote_encode, Hd. }
  split; [by constructor|]. cbn [decodeMeta]. change (map _ fs) with (map decodeEntry fs). by rewrite Hdec, assignAll_some.
Qed.

Lemma Forall_perm_of {A} (P : A -> Prop) l l' : l ≡ₚ l' -> Forall P l -> Forall P l'.
Proof. by intros ->. Qed.

Lemma forallb_Forall {A} (f : A -> bool) l : forallb f l = true <-> Forall (fun x => f x = true) l.
Proof. rewrite forallb_forall, List.Forall_forall. done. Qed.

Lemma meta_reads v : readsBack v.
Proof.
  induction v as [|s|z|z|z|z|z|b|f|l|l IH|es IH|n es IH] using MetaValue_ind'; intros d j Hf Hj; cbn [encodeMeta] in Hj.
  1,2,8: injection Hj as <-; (split; [first [apply jsonString_wf|apply wf_null|apply wf_bool]|first [done|cbn; by rewrite unquote_encode]]).
  1-5: cbn [fitsMeta] in Hf; injection Hj as <-; destruct (ParseFloat_int z ltac:(lia)) as [f Hz];
    (split; [constructor; unfold ParseFloat in Hz; by destruct (scanNumber (fmt_d z))|]); cbn; unfold intFloat; by rewrite Hz.
  - unfold jsonFloat in Hj. destruct (finite f) eqn:Hfin; [|done]. injection Hj as <-.
    split; [constructor; by apply scanNumber_format|]. cbn. by rewrite formatFloat_value.
  - injection Hj as <-. cbn [fitsMeta] in Hf. destruct d; [done|]. split.
    + constructor. apply List.Forall_map, Forall_true. intros s. apply jsonString_wf.
    + cbn. rewrite map_map. erewrite mapM_map_id; [reflexivity|]. apply map_ext. intros s. cbn. by rewrite unquote_encode.
  - cbn [fitsMeta] in Hf. destruct d as [|d]; [done|]. apply result_fmap_ok in Hj as (l' & Hl%sequence_ok & ->).
    assert (Forall (wfJSON d) l' /\ map decodeMeta l' = map (fun v => Some (decodedMeta v)) l) as [Hw Hd].
    { revert l' Hl Hf. induction IH as [|v l Hv _ IH]; intros [|j l'] Hl Hf; try done. cbn [map forallb] in *.
      apply andb_prop in Hf as [Hf1 Hf2]. injection Hl as Hj Hl. destruct (Hv d j Hf1 Hj). destruct (IH l' Hl Hf2) as [? ->].
      split; [by constructor|]. by f_equal. }
    split; [by constructor|]. cbn [decodeMeta]. by erewrite mapM_map_id.
  - cbn [fitsMeta] in Hf. destruct d as [|d]; [done|]. cbn [decodedMeta].
    change (map _ es) with (map (onValue encodeMeta) es) in Hj. change (map _ es) with (map (onValue decodedMeta) es).
    rewrite (sorted_map encodeMeta) in Hj. rewrite (sorted_map decodedMeta). apply object_reads; [| |done].
    + eapply Forall_perm_of; [symmetry; apply sorted_perm|exact IH].
    + apply forallb_Forall. apply forallb_Forall in Hf. eapply Forall_perm_of; [symmetry; apply sorted_perm|exact Hf].
  - cbn [fitsMeta] in Hf. destruct d as [|d]; [done|]. by apply object_reads.
Qed.

(** *** What was decoded comes back as it is *)
Record settled (d : nat) (v : MetaValue) : Prop := {
  st_fits : fitsMeta d v = true;
  st_same : decodedMeta v = v;
  st_encodes : is_ok (encodeMeta v) = true;
}.

Definition settledMap (d : nat) : MetaMap -> Prop := map_Forall (fun k v => plainText k /\ settled d v).

Lemma settledMap_entries d m : settledMap d m -> Forall (fun kv => plainText kv.1 /\ settled d kv.2) (map_to_list m).
Proof. intros Hm. apply List.Forall_forall. intros [k v] Hin%list_elem_of_In%elem_of_map_to_list. exact (Hm k v Hin). Qed.

(** The map that is written and read back is the map. *)
Definition mapBack (m : MetaMap) : MetaMap :=
  putAll (map plainKey (sortedEntries (map (onValue decodedMeta) (map_to_list m)))) ∅.

Lemma settled_back d m : settledMap d m -> mapBack m = m.
Proof.
  intros Hm%settledMap_entries. unfold mapBack. apply putAll_perm. rewrite (map_fixed (onValue decodedMeta)).
  - rewrite map_fixed; [apply sorted_perm|]. eapply Forall_perm_of; [symmetry; apply sorted_perm|].
    eapply Forall_impl; [exact Hm|]. intros [k v] [Hk _]. unfold plainKey. cbn [fst snd] in *. by rewrite Hk.
  - eapply Forall_impl; [exact Hm|]. intros [k v] [_ [_ Hs _]]. unfold onValue. cbn [fst snd] in *. by rewrite Hs.
Qed.

Lemma settled_encodes d m : settledMap d m -> is_ok (encodeMap m) = true.
Proof.
  intros Hm%settledMap_entries. unfold encodeMap. cbn [encodeMeta]. change (map _ (map_to_list m)) with (map (onValue encodeMeta) (map_to_list m)).
  rewrite (sorted_map encodeMeta). unfold jsonObject. rewrite result_fmap_is_ok. apply sequence_all.
  rewrite map_map, List.Forall_map. eapply Forall_impl; [eapply Forall_perm_of; [symmetry; apply sorted_perm|exact Hm]|].
  intros [k v] [_ [_ _ He]]. cbn in *. by rewrite result_fmap_is_ok.
Qed.

Lemma settled_fits d m : settledMap d m -> forallb (fun kv => fitsMeta d kv.2) (map_to_list m) = true.
Proof. intros Hm%settledMap_entries. apply forallb_Forall. eapply Forall_impl; [exact Hm|]. by intros [k v] [_ [Hf _ _]]. Qed.

Lemma decodeEntry_some kv k v : decodeEntry kv = Some (k, v) -> plainText k /\ decodeMeta kv.2 = Some v.
Proof.
  unfold decodeEntry. destruct (unquote kv.1) as [k'|] eqn:Hk; [|done]. cbn. destruct (decodeMeta kv.2); [|done].
  intros [= <- <-]. split; [by eapply unquote_plain|done].
Qed.

Lemma assign_settled d fs m m' :
  Forall (fun kv => forall v, decodeMeta kv.2 = Some v -> settled d v) fs -> settledMap d m ->
  assignAll (map decodeEntry fs) m = Some m' -> settledMap d m'.
Proof.
  intros Hfs Hm. apply assignAll_forall; [|done]. intros k v Hin. apply list_elem_of_In, in_map_iff in Hin as (kv & Hkv & Hin).
  apply decodeEntry_some in Hkv as [Hk Hv]. split; [done|]. rewrite List.Forall_forall in Hfs. by eapply Hfs.
Qed.

Lemma mapM_id_Forall {A B} (f : A -> option B) (P : B -> Prop) l l' :
  Forall (fun x => forall y, f x = Some y -> P y) l -> mapM id (map f l) = Some l' -> Forall P l'.
Proof.
  intros Hl. revert l'. induction Hl as [|x l Hx _ IH]; intros l' H; [injection H as <-; constructor|].
  change (mapM id (map f (x :: l))) with (let! y := f x in let! ys := mapM id (map f l) in Some (y :: ys)) in H.
  destruct (f x) as [y|]; [|done]. destruct (mapM id (map f l)) as [ys|]; [|done]. injection H as <-. constructor; auto.
Qed.

Lemma decoded_settled d j v : wfJSON d j -> decodeMeta j = Some v -> settled d v.
Proof.
  revert d v. induction j as [|b|lit|raw|l IH|fs IH] using JSON_ind'; intros d v Hwf H.
  - injection H as <-. by split.
  - injection H as <-. by split.
  - cbn in H. destruct (ParseFloat lit) as [f|] eqn:Hf; [|done]. injection H as <-. apply ParseFloat_finite in Hf as [Hv Hfin].
    split; [done|done|]. cbn. unfold jsonFloat. by rewrite Hfin.
  - cbn in H. destruct (unquote raw) as [s|] eqn:Hs; [|done]. injection H as <-. split; [done| |done]. cbn. f_equal.
    by apply unquote_plain in Hs.
  - inversion Hwf as [| | | |d' l' Hl|]; subst. cbn in H. destruct (mapM id (map decodeMeta l)) as [vs|] eqn:E; [|done]. injection H as <-.
    apply (mapM_id_Forall decodeMeta (settled d')) in E.
    2:{ clear -IH Hl. induction Hl as [|j l Hj _ IHl]; [done|]. apply Forall_cons in IH as [H1 H2]. constructor; eauto. }
    split; cbn.
    + apply forallb_Forall. eapply Forall_impl; [exact E|]. by intros v [].
    + f_equal. apply map_fixed. eapply Forall_impl; [exact E|]. by intros v [].
    + rewrite result_fmap_is_ok. apply sequence_all, List.Forall_map. eapply Forall_impl; [exact E|]. by intros v [].
  - inversion Hwf as [| | | | |d' fs' Hfs]; subst. cbn [decodeMeta] in H. change (map _ fs) with (map decodeEntry fs) in H.
    destruct (assignAll (map decodeEntry fs) ∅) as [m|] eqn:E; [|done]. injection H as <-.
    assert (settledMap d' m) as Hm.
    { eapply assign_settled; [|apply map_Forall_empty|exact E]. clear -IH Hfs.
      induction Hfs as [|kv fs [_ Hj] _ IHfs]; [done|]. apply Forall_cons in IH as [H1 H2]. constructor; eauto. }
    split; [exact (settled_fits d' m Hm)| |exact (settled_encodes d' m Hm)].
    cbn [decodedMeta]. do 2 f_equal. exact (settled_back d' m Hm).
Qed.

(** *** The metadata of an event *)
Lemma map_reads d m j :
  forallb (fun kv => fitsMeta d kv.2) (map_to_list m) = true -> encodeMap m = Ok j ->
  wfJSON (S d) j /\ intoMap None j = Some (Some (mapBack m)) /\ settledMap d (mapBack m).
Proof.
  intros Hf Hj. destruct (meta_reads (VMap (map_to_list m)) (S d) j Hf Hj) as [Hwf Hdec]. split; [done|].
  unfold encodeMap in Hj. cbn [encodeMeta] in Hj. apply result_fmap_ok in Hj as (fs & _ & ->).
  cbn [decodeMeta] in Hdec. change (map _ fs) with (map decodeEntry fs) in Hdec. cbn [intoMap default].
  change (default ∅ None) with (∅ : MetaMap).
  destruct (assignAll (map decodeEntry fs) ∅) as [m'|] eqn:E; [|done].
  assert (settledMap d m') as Hm.
  { inversion Hwf as [| | | | |d' fs' Hfs]; subst. eapply assign_settled; [|apply map_Forall_empty|exact E].
    eapply Forall_impl; [exact Hfs|]. intros kv [_ Hkv] v Hv. by eapply decoded_settled. }
  assert (m' = mapBack m) as ->; [|done].
  cbn in Hdec. injection Hdec as Hdec. apply (f_equal (list_to_map (M := MetaMap))) in Hdec. by rewrite !list_to_map_to_list in Hdec.
Qed.

(** ** Times *)

Definition timeChar (a : ascii) : bool := isDigit a || existsb (Ascii.eqb a) ["-"; ":"; "T"; "Z"; "+"; "."]%char.

Lemma digits_timeChar s : allChars isDigit s = true -> allChars timeChar s = true.
Proof. apply allChars_impl. intros a Ha. unfold timeChar. by rewrite Ha. Qed.

Lemma fracDigits_digits k n : allChars isDigit (fracDigits k n) = true.
Proof.
  revert n. induction k as [|k IH]; intros n; cbn [fracDigits]; [done|]. destruct (n mod 10 =? 0); [apply IH|apply pad_digits].
Qed.

Lemma pad_time k n : allChars timeChar (pad k n) = true.
Proof. apply digits_timeChar, pad_digits. Qed.

Lemma rfc3339_chars sec ns o : allChars timeChar (rfc3339Nano sec ns o) = true.
Proof.
  unfold rfc3339Nano, stamp. destruct (civil (sec / 86400)) as [[y m] d].
  rewrite !allChars_append, !pad_time. cbn [allChars andb]. rewrite ?andb_true_l. apply andb_true_intro. split.
  - unfold fracText. destruct (ns =? 0); [done|]. rewrite allChars_append. cbn [allChars]. apply digits_timeChar, fracDigits_digits.
  - destruct o as [o|]; [|done]. unfold offColon, signText. rewrite !allChars_append, !pad_time. by destruct (o <? 0).
Qed.

Lemma time_raw s : allChars timeChar s = true -> rawString (bytes_of s).
Proof.
  induction s as [|a s IH]; [done|]. cbn [allChars]. intros [Ha Hs]%andb_prop. rewrite bytes_of_cons.
  apply scan_plain; [| | |by apply IH]; clear -Ha; by destruct a as [[] [] [] [] [] [] [] []].
Qed.

Lemma parse_time sec ns o :
  inYears sec -> 0 <= ns < Second -> (forall v, o = Some v -> wholeMinutes v) ->
  timeParse noZone RFC3339 (rfc3339Nano sec ns o) = Some ((sec - default 0 o) * Second + ns).
Proof.
  intros Hs Hns Ho. unfold timeParse, RFC3339, rfc3339Nano. rewrite parse_stamp by auto. unfold withFraction. cbn [nextIsFrac].
  set (zoneText := match o with None => "Z" | Some o => offColon o end).
  assert (endsFraction zoneText = true) as He.
  { unfold zoneText. destruct o as [o|]; [|done]. unfold offColon, signText. by destruct (o <? 0). }
  assert (forall p, parseElems [ISO8601ColonTZ] p zoneText =
    Some (match o with Some v => setZone (ps_utc p) (Some v) (ps_zone p) p | None => setZone true (ps_offset p) (ps_zone p) p end)) as Hz.
  { intros p. unfold zoneText. destruct o as [o|]; [|done]. erewrite parseElems_cons.
    2:{ unfold parseElem. pose proof (zoneOffset_text true o "" (Ho o eq_refl)) as Hz. rewrite append_nil_r in Hz. rewrite Hz.
    replace (HasPrefix (offColon o) "Z") with false by (unfold offColon, signText; by destruct (o <? 0)). reflexivity. }
    reflexivity. }
  assert (match fraction (fracText ns ^^ zoneText) with
    | Some (ns, rest) => parseElems [ISO8601ColonTZ] (withNsec ns (fields sec unparsed)) rest
    | None => parseElems [ISO8601ColonTZ] (fields sec unparsed) (fracText ns ^^ zoneText)
    end = parseElems [ISO8601ColonTZ] (withNsec ns (fields sec unparsed)) zoneText) as Hf.
  { destruct (Z.eq_dec ns 0) as [->|Hn].
    - change (fracText 0 ^^ zoneText) with zoneText. by rewrite fraction_none.
    - by rewrite fraction_text by (done || lia). }
  unfold withNsec in Hf. rewrite Hf, Hz. cbn [mbind option_bind]. destruct o as [o|].
  - exact (parsedTime_fields noZone sec ns false (Some o) "" Hs).
  - etrans; [exact (parsedTime_fields noZone sec ns true None "" Hs)|]. cbn. do 2 f_equal. lia.
Qed.

Lemma encodeTime_reads zone d t t0 j :
  (forall t, wholeMinutes (zone t)) -> encodeTime zone t = Ok j -> wfJSON d j /\ intoTime t0 j = Some t.
Proof.
  intros Hz. unfold encodeTime. case_bool_decide as Hy; cbn [negb]; [|done]. destruct (86400 <=? _); [done|]. intros [= <-].
  split; [constructor; apply time_raw, rfc3339_chars|]. cbn [intoTime]. rewrite string_of_bytes_of, parse_time; [|done|..].
  - f_equal. destruct (Z.eqb_spec (zone t) 0) as [->|_]; cbn; pose proof (Z.div_mod t Second); unfold Second in *; lia.
  - by apply Z.mod_pos_bound.
  - intros v. destruct (zone t =? 0); [done|]. intros [= <-]. apply Hz.
Qed.

(** ** The fields of an object *)

Definition fieldNames : list string :=
  ["event_id"; "tenant_id"; "site_id"; "asset_id"; "sensor_id"; "occurred_at"; "received_at"; "seq_no"; "source"; "category";
   "severity"; "confidence"; "protocol"; "src"; "dst"; "action"; "metadata"; "rule_id"; "rule_version"; "attck_enterprise";
   "attck_ics"; "quality_flags"; "schema_version"].

Lemma fieldNames_distinct : NoDup (map nameOf fieldNames).
Proof. apply (bool_decide_unpack (NoDup (map nameOf fieldNames))). vm_compute. exact I. Qed.

Lemma eventFields_named zone e : fieldNamed (eventFields zone e).
Proof.
  assert (map fst (eventFields zone e) = fieldNames) as Hn by reflexivity.
  split; rewrite Hn; [apply fieldNames_distinct|]. repeat (constructor; [vm_compute; reflexivity|]). constructor.
Qed.

(** ** An event, encoded and decoded *)

(** What [Deserialize] makes of the text of an event: every string without
    invalid UTF-8, and no metadata for none. *)
Definition decodedEvent (e : CanonicalEvent) : CanonicalEvent := {|
  EventID := sanitize (EventID e); TenantID := sanitize (TenantID e); SiteID := sanitize (SiteID e);
  AssetID := sanitize (AssetID e); SensorID := sanitize (SensorID e); OccurredAt := OccurredAt e;
  ReceivedAt := ReceivedAt e; SeqNo := i64 (SeqNo e); Source := sanitize (Source e);
  Category := sanitize (Category e); Severity := sanitize (Severity e); Confidence := Confidence e;
  Protocol := sanitize (Protocol e); Src := sanitize (Src e); Dst := sanitize (Dst e); Action := sanitize (Action e);
  Metadata := match Metadata e with Some m => if decide (m = ∅) then None else Some (mapBack m) | None => None end;
  RuleID := sanitize (RuleID e); RuleVersion := sanitize (RuleVersion e);
  AttckEnterprise := map sanitize (AttckEnterprise e); AttckICS := map sanitize (AttckICS e);
  QualityFlags := map sanitize (QualityFlags e); SchemaVersion := sanitize (SchemaVersion e) |}.

(** The floats are float64 values, and the metadata is not nested deeper than
    the decoder allows. *)
Record fitsEvent (e : CanonicalEvent) : Prop := {
  fe_confidence : forall f, Confidence e = Some f -> validFloat f = true;
  fe_metadata : forall m, Metadata e = Some m -> forallb (fun kv => fitsMeta metaLevels kv.2) (map_to_list m) = true;
}.

Section Encoded.
Context (zone : Time -> Z) (Hzone : forall t, wholeMinutes (zone t)).

Lemma time_reads t t0 : fieldReads intoTime t0 t (Some (encodeTime zone t)).
Proof. unfold fieldReads. destruct (encodeTime zone t) as [j|] eqn:E; [|done]. by apply (encodeTime_reads zone). Qed.

Lemma int_reads n n0 : fieldReads intoInt64 n0 (i64 n) (Some (Ok (JNum (fmt_d (i64 n))))).
Proof.
  split; [|apply Atoi_fmt_d, i64_range]. constructor. pose proof (i64_range n) as Hr.
  destruct (ParseFloat_int (i64 n)) as [f Hf]; [int_lits; lia|]. unfold ParseFloat in Hf. by destruct (scanNumber _).
Qed.

Lemma confidence_reads c : (forall f, c = Some f -> validFloat f = true) -> fieldReads intoFloat None c (jsonFloat <$> c).
Proof.
  intros Hc. destruct c as [f|]; [|done]. cbn. unfold jsonFloat. destruct (finite f) eqn:Hf; [|done].
  specialize (Hc f eq_refl). split; [constructor; by apply scanNumber_format|]. cbn. by rewrite formatFloat_value.
Qed.

Lemma metadata_reads m :
  (forall m', m = Some m' -> forallb (fun kv => fitsMeta metaLevels kv.2) (map_to_list m') = true) ->
  fieldReads intoMap None (match m with Some m => if decide (m = ∅) then None else Some (mapBack m) | None => None end) (omitMap m).
Proof.
  intros Hm. destruct m as [m|]; [|done]. specialize (Hm m eq_refl). cbn [omitMap]. destruct (decide (m = ∅)); [done|].
  cbn [fieldReads]. destruct (encodeMap m) as [j|] eqn:E; [|done]. by destruct (map_reads _ _ _ Hm E) as (? & ? & _).
Qed.

Lemma fields_decode e fs :
  fitsEvent e -> writtenAs (eventFields zone e) fs ->
  decodeFields fs = Some (decodedEvent e).
Proof.
  intros [Hc Hm] Hfs. unfold decodeFields.
  repeat match goal with
  | |- context [foldField intoString "" (occurrences ?n fs)] =>
      rewrite (field_decodes (eventFields zone e) intoString fs n _ "" _ (eventFields_named zone e) Hfs ltac:(in_fields)) by first [apply string_reads|apply omitString_reads]
  | |- context [foldField intoTime zeroTime (occurrences ?n fs)] =>
      rewrite (field_decodes (eventFields zone e) intoTime fs n _ zeroTime _ (eventFields_named zone e) Hfs ltac:(in_fields)) by apply time_reads
  | |- context [foldField intoInt64 0 (occurrences ?n fs)] =>
      rewrite (field_decodes (eventFields zone e) intoInt64 fs n _ 0 _ (eventFields_named zone e) Hfs ltac:(in_fields)) by apply int_reads
  | |- context [foldField intoFloat None (occurrences ?n fs)] =>
      rewrite (field_decodes (eventFields zone e) intoFloat fs n _ None _ (eventFields_named zone e) Hfs ltac:(in_fields)) by by apply confidence_reads
  | |- context [foldField intoMap None (occurrences ?n fs)] =>
      rewrite (field_decodes (eventFields zone e) intoMap fs n _ None _ (eventFields_named zone e) Hfs ltac:(in_fields)) by by apply metadata_reads
  | |- context [foldField intoStrings ([], []) (occurrences ?n fs)] =>
      rewrite (field_decodes (eventFields zone e) intoStrings fs n _ ([], []) _ (eventFields_named zone e) Hfs ltac:(in_fields)) by apply omitStrings_reads
  end.
  reflexivity.
Qed.

(** Every value written is well-formed. *)
Lemma fields_wf e :
  fitsEvent e -> Forall (fun f => forall j, f.2 = Some (Ok j) -> wfJSON (S metaLevels) j) (eventFields zone e).
Proof.
  intros [Hc Hm]. unfold eventFields.
  repeat apply List.Forall_cons; cbn [snd]; try apply List.Forall_nil;
    first [eapply fieldReads_wf, string_reads|eapply fieldReads_wf, omitString_reads|eapply fieldReads_wf, (time_reads _ 0)|eapply fieldReads_wf, (int_reads _ 0)
          |eapply fieldReads_wf, omitStrings_reads|by eapply fieldReads_wf, confidence_reads|by eapply fieldReads_wf, metadata_reads].
Qed.

(** The text of an event is read back as the event, its strings valid UTF-8. *)
Lemma serialized_decodes decodeError e data :
  fitsEvent e -> Event_Serialize zone e = Ok data -> Event_Deserialize decodeError data = Ok (decodedEvent e).
Proof.
  intros Hfit. apply struct_reads; [by apply fields_wf|]. intros fs. by apply fields_decode.
Qed.

(** *** What was decoded *)

Record settledEvent (e : CanonicalEvent) : Prop := {
  se_text : Forall plainText [EventID e; TenantID e; SiteID e; AssetID e; SensorID e; Source e; Category e; Severity e;
    Protocol e; Src e; Dst e; Action e; RuleID e; RuleVersion e; SchemaVersion e];
  se_lists : Forall plainText (AttckEnterprise e) /\ Forall plainText (AttckICS e) /\ Forall plainText (QualityFlags e);
  se_seq : in_i64 (SeqNo e);
  se_confidence : forall f, Confidence e = Some f -> validFloat f = true /\ finite f = true;
  se_metadata : forall m, Metadata e = Some m -> settledMap metaLevels m;
}.

Lemma empty_settled : settledEvent emptyEvent.
Proof. split; try done. repeat (constructor; [vm_compute; reflexivity|]). constructor. Qed.

Lemma fields_settled fs e :
  Forall (fun kv => rawString kv.1 /\ wfJSON (S metaLevels) kv.2) fs -> decodeFields fs = Some e -> settledEvent e.
Proof.
  intros Hfs.
  assert (forall n s, foldField intoString "" (occurrences n fs) = Some s -> plainText s) as Hstr.
  { intros n s. apply (foldField_inv _ plainText (fun _ => True)); [|by vm_compute|by apply Forall_true].
    intros x v y Hx _. by apply intoString_plain. }
  assert (forall n s, fst <$> foldField intoStrings ([], []) (occurrences n fs) = Some s -> Forall plainText s) as Hstrs.
  { intros n s Hs. destruct (foldField intoStrings _ _) as [[v st]|] eqn:E; [|done]. injection Hs as <-.
    apply (foldField_inv _ (fun s => Forall plainText (s.1 ++ s.2)) (fun _ => True)) in E; [apply Forall_app in E as [E _]; exact E| | |by apply Forall_true].
    - intros x j y Hx _. by apply intoStrings_plain.
    - constructor. }
  assert (forall n z, foldField intoInt64 0 (occurrences n fs) = Some z -> in_i64 z) as Hint.
  { intros n z. apply (foldField_inv _ in_i64 (fun _ => True)); [|done|by apply Forall_true].
    intros x v y Hx _ Hy. destruct v; try discriminate Hy; cbn [intoInt64] in Hy; [by injection Hy as <-|by eapply Atoi_range]. }
  assert (forall n c, foldField intoFloat None (occurrences n fs) = Some c -> forall f, c = Some f -> validFloat f = true /\ finite f = true) as Hfl.
  { intros n c. apply (foldField_inv _ (fun c => forall f, c = Some f -> _) (fun _ => True)); [|done|by apply Forall_true].
    intros x v y _ _ Hy f Hf.  destruct v; try done; cbn in Hy; [by subst y|]. subst y. destruct (ParseFloat lit) as [f'|] eqn:E; [|done].
    injection Hy as <-. by eapply ParseFloat_finite. }
  assert (forall n c, foldField intoMap None (occurrences n fs) = Some c -> forall m, c = Some m -> settledMap metaLevels m) as Hmap.
  { intros n c. apply (foldField_inv _ (fun c => forall m, c = Some m -> _) (wfJSON (S metaLevels))); [|done|by apply occurrences_wf].
    intros x v y Hx Hv Hy m Hm. destruct v; try done; cbn in Hy; [by subst y|]. subst y.
    destruct (assignAll (map decodeEntry fields) (default ∅ x)) as [m'|] eqn:E; [|done]. injection Hy as <-.
    inversion Hv as [| | | | |d' fs' Hfs']; subst. eapply assign_settled; [| |exact E].
    - eapply Forall_impl; [exact Hfs'|]. intros kv [_ Hkv] v Hd. by eapply decoded_settled.
    - destruct x as [m0|]; [by apply Hx|apply map_Forall_empty]. }
  intros H. unfold decodeFields in H.
  repeat (let E := fresh "E" in apply bind_Some in H as (? & E & H);
          first [apply Hstrs in E|apply Hstr in E|apply Hint in E|pose proof (Hfl _ _ E)|pose proof (Hmap _ _ E)|idtac]).
  injection H as <-. split; cbn; try done. repeat constructor; done.
Qed.

Lemma deserialized_settled decodeError data e : Event_Deserialize decodeError data = Ok e -> settledEvent e.
Proof.
  intros (v & Hp & Hv)%structRead_ok. apply jsonParse_wf in Hp.
  destruct v as [| | | | |fs]; try done; [injection Hv as <-; apply empty_settled|].
  rewrite nesting in Hp. inversion Hp; subst. by eapply fields_settled.
Qed.

Lemma settled_fitsEvent e : settledEvent e -> fitsEvent e.
Proof.
  intros [_ _ _ Hc Hm]. split.
  - intros f Hf. by apply Hc.
  - intros m Hme. by apply settled_fits, Hm.
Qed.

(** An empty metadata object is not written. *)
Definition dropEmptyMetadata (e : CanonicalEvent) : CanonicalEvent := {|
  EventID := EventID e; TenantID := TenantID e; SiteID := SiteID e; AssetID := AssetID e;
  SensorID := SensorID e; OccurredAt := OccurredAt e; ReceivedAt := ReceivedAt e; SeqNo := SeqNo e;
  Source := Source e; Category := Category e; Severity := Severity e; Confidence := Confidence e;
  Protocol := Protocol e; Src := Src e; Dst := Dst e; Action := Action e;
  Metadata := match Metadata e with Some m => if decide (m = ∅) then None else Some m | None => None end;
  RuleID := RuleID e; RuleVersion := RuleVersion e; AttckEnterprise := AttckEnterprise e;
  AttckICS := AttckICS e; QualityFlags := QualityFlags e; SchemaVersion := SchemaVersion e |}.

Lemma settled_decoded e : settledEvent e -> decodedEvent e = dropEmptyMetadata e.
Proof.
  intros [Ht (H1 & H2 & H3) Hs _ Hm]. unfold decodedEvent, dropEmptyMetadata.
  repeat match goal with H : Forall plainText (_ :: _) |- _ => apply Forall_cons in H as [?Hp H] end.
  repeat match goal with H : plainText ?s |- _ => rewrite (H : sanitize s = s); clear H end.
  rewrite i64_small by done. rewrite !(map_fixed sanitize) by done. f_equal.
  destruct (Metadata e) as [m|]; [|done]. destruct (decide (m = ∅)); [done|]. f_equal. by eapply settled_back, Hm.
Qed.

(** What was decoded can be encoded, when its times can. *)
Lemma settled_serializes e :
  settledEvent e -> is_ok (encodeTime zone (OccurredAt e)) = true -> is_ok (encodeTime zone (ReceivedAt e)) = true ->
  is_ok (Event_Serialize zone e) = true.
Proof.
  intros [_ _ _ Hc Hm] Ho Hr. unfold Event_Serialize, structText, jsonObject. rewrite !result_fmap_is_ok. apply sequence_all, List.Forall_map.
  assert (Forall (fun f => forall r, f.2 = Some r -> is_ok r = true) (eventFields zone e)) as Hall.
  { assert (forall s r, omitString s = Some r -> is_ok r = true) as Hs
      by (intros s r; unfold omitString; destruct (s =s ""); [done|by intros [= <-]]).
    assert (forall l r, omitStrings l = Some r -> is_ok r = true) as Hl
      by (intros l r; unfold omitStrings; destruct l; [done|by intros [= <-]]).
    unfold eventFields. repeat apply List.Forall_cons; cbn [snd]; try apply List.Forall_nil; try apply Hs; try apply Hl;
      try (intros r [= <-]; done).
    - intros r. destruct (Confidence e) as [f|]; [|done]. cbn. intros [= <-]. unfold jsonFloat. by destruct (Hc f eq_refl) as [_ ->].
    - intros r. destruct (Metadata e) as [m|]; [|done]. cbn [omitMap]. destruct (decide (m = ∅)); [done|]. intros [= <-].
      by eapply settled_encodes, Hm. }
  generalize dependent (eventFields zone e). clear. intros l Hl.
  induction Hl as [|[k [r|]] l Hk _ IH]; [constructor| |done]. cbn. constructor; [cbn [snd]; rewrite result_fmap_is_ok; by apply Hk|done].
Qed.

Lemma serialized_times e data : Event_Serialize zone e = Ok data ->
  is_ok (encodeTime zone (OccurredAt e)) = true /\ is_ok (encodeTime zone (ReceivedAt e)) = true.
Proof.
  intros (fs & Hfs & _)%structText_fields.
  pose proof (field_value _ fs "occurred_at" _ (eventFields_named zone e) Hfs ltac:(in_fields)) as H1.
  pose proof (field_value _ fs "received_at" _ (eventFields_named zone e) Hfs ltac:(in_fields)) as H2.
  cbn [option_list] in H1, H2. split.
  - destruct (occurrences "occurred_at" fs); [done|]. by injection H1 as <- _.
  - destruct (occurrences "received_at" fs); [done|]. by injection H2 as <- _.
Qed.

(** *** Validity *)
Lemma sanitize_identifier s : validIdentifier s -> sanitize s = s.
Proof.
  intros (_ & Hs & _). by apply sanitize_idChars.
Qed.

Lemma decoded_wf e : in_i64 (SeqNo e) -> WellFormedEvent e -> WellFormedEvent (decodedEvent e).
Proof.
  intros Hi [Htime Hsrc Hcat Hten Hsite Hseq Hsev Hlim Hconf Hsch].
  split; cbn [decodedEvent OccurredAt Source Category TenantID SiteID SeqNo Severity Confidence SchemaVersion]; try done.
  - by apply sanitize_nonempty.
  - by apply sanitize_nonempty.
  - by rewrite sanitize_identifier.
  - by rewrite sanitize_identifier.
  - by rewrite i64_small.
  - replace (sanitize (Severity e)) with (Severity e); [done|]. symmetry. apply sanitize_ascii.
    apply list_elem_of_In in Hsev. cbn [In] in Hsev. by repeat destruct Hsev as [<-|Hsev].
  - unfold limitedFields in *. cbn [decodedEvent AssetID SensorID Source Category Protocol Src Dst Action RuleID RuleVersion].
    repeat match goal with H : Forall _ (_ :: _) |- _ => apply Forall_cons in H as [?Hl H] end. cbn [fst snd] in *.
    repeat (apply Forall_cons; split; [cbn [fst snd]; by rewrite sanitize_runes|]). done.
  - rewrite Hsch. by vm_compute.
Qed.
End Encoded.

(** ** Properties *)

(** C9: Events survive their JSON form.  The text of any event of float64 values
    and bounded nesting is decoded, to the event with its strings made valid
    UTF-8 and its metadata in decoded form, which is valid if the event was;
    and whatever text an event was decoded from, encoding it and decoding again
    gives the same event, an empty metadata object becoming none. *)
Theorem event_json_roundtrip zone decodeError e data :
  (forall t, wholeMinutes (zone t)) -> Event_Serialize zone e = Ok data ->
  (fitsEvent e -> Event_Deserialize decodeError data = Ok (decodedEvent e) /\
     (in_i64 (SeqNo e) -> WellFormedEvent e -> WellFormedEvent (decodedEvent e))) /\
  ((exists text, Event_Deserialize decodeError text = Ok e) ->
     Event_Deserialize decodeError data = Ok (dropEmptyMetadata e)).
Proof.
  intros Hz Hs. split.
  - intros Hfit. split; [by apply (serialized_decodes zone Hz)|by apply decoded_wf].
  - intros [text Ht]. apply deserialized_settled in Ht. rewrite <- settled_decoded by done.
    apply (serialized_decodes zone Hz); [by apply settled_fitsEvent|done].
Qed.

(** ** Witnesses *)

Definition utc (_ : Time) : Z := 0.

(** An event with nested metadata, a fraction and text to escape, in the
    encoding of a client 5:30 hours east. *)
Definition wireEvent : CanonicalEvent := {|
  EventID := "id<1>"; TenantID := "tenant-1"; SiteID := "site-1"; AssetID := ""; SensorID := "s";
  OccurredAt := time_Unix 1700000000 5000000; ReceivedAt := time_Unix 1700000001 0; SeqNo := 7;
  Source := "agent"; Category := "network"; Severity := "INFO"; Confidence := Some (f_lit 1 3);
  Protocol := ""; Src := ""; Dst := ""; Action := "A";
  Metadata := Some (<["b" := VMap [("y", VInt 3); ("x", VStrings ["p"; "q"])]]> (<["a" := VFloat (f_of_Z 5)]> ∅));
  RuleID := ""; RuleVersion := ""; AttckEnterprise := ["T1059"]; AttckICS := []; QualityFlags := []; SchemaVersion := "1.0.0" |}.

Lemma utc_minutes t : wholeMinutes (utc t).
Proof. split; [reflexivity|unfold utc; lia]. Qed.

Lemma event_json_roundtrip_witness :
  let zone := fun _ => 19800 in
  exists data, Event_Serialize zone wireEvent = Ok data /\ Event_Deserialize ErrNew data = Ok (decodedEvent wireEvent).
Proof.
  eexists. split; [vm_compute; reflexivity|].
  apply (event_json_roundtrip (fun _ => 19800) ErrNew wireEvent _).
  - intros t. split; [reflexivity|lia].
  - vm_compute. reflexivity.
  - split; [intros f [= <-]; vm_compute; reflexivity|intros m [= <-]; vm_compute; reflexivity].
Defined.
