(* ===== verification/UsbValidator.v ===== *)
(** The USB validator (agent/cmd/usbvalidator/main.go): a console tool that runs
    the USB collector and prints its events, hiding what identifies a device
    unless it is asked not to. *)
From S2P Require Import Prelude GoStrings GoTime Events GoStruct EventJson Collectors Usb.
From S2P Require Config.

Local Open Scope string_scope.
Local Open Scope list_scope.

Section Validator.
(** [Time.String], which may show a monotonic clock reading, and what [%s] prints
    for a metadata value that is not a string. *)
Context (Time_String : Time -> string) (badVerb : MetaValue -> string).

(** [%s] *)
Definition printValue (v : MetaValue) : string := match v with VStr s => s | v => badVerb v end.

(** [if v, ok := ev.Metadata[key]; ok { fmt.Printf(label + "%s\n", v) }] *)
Definition printMeta (label key : string) (ev : CanonicalEvent) : list string :=
  match Metadata ev with
  | None => []
  | Some m => match m !! key with Some v => [label ^^ printValue v] | None => [] end
  end.

(** [json.MarshalIndent], whose error is ignored; a USB event is stamped in UTC. *)
Definition MarshalIndent (ev : CanonicalEvent) : string :=
  match structIndented (eventFields utc ev) with Ok text => text | Err _ => "" end.

(** The lines of [printEvent]. *)
Definition printEvent (ev : CanonicalEvent) (verbose : bool) : list string :=
  [""; "--- Captured Event ---"; "Category:    " ^^ Category ev; "Action:      " ^^ Action ev;
   "Event ID:    " ^^ EventID ev; "Occurred At: " ^^ Time_String (OccurredAt ev)] ++
  printMeta "Vendor ID:   " "vendor_id" ev ++ printMeta "Product ID:  " "product_id" ev ++
  (if verbose then
     printMeta "Serial Num:  " "serial_number" ev ++ printMeta "Device Path: " "device_path" ev ++
     ["Raw JSON:"; MarshalIndent ev]
   else ["(Sensitive fields like serial_number hidden. Use --verbose to view)"]) ++
  ["----------------------"].

Definition banner : list string :=
  ["====================================================="; "Phase 2E.3.1 Windows USB Real-Host Validator";
   "====================================================="; "Instructions:";
   "1. Plug in a USB device (e.g. flash drive, mouse, keyboard)."; "2. Observe the USB_INSERT event.";
   "3. Unplug the device."; "4. Observe the USB_REMOVE event."; "5. Press Ctrl+C to exit and verify clean shutdown.";
   "====================================================="].

Definition validatorConfig : Config.Config := {|
  Config.APIAddr := ""; Config.TenantID := "validator-tenant"; Config.SiteID := "validator-site";
  Config.ProcessInterval := ""; Config.InventoryInterval := ""; Config.NetworkInterval := ""; Config.MonitorPaths := [] |}.

(** What the select of main takes, and the goroutine of the signal, which
    prints and cancels. *)
Inductive ValidatorSelect := GotEvent (ev : CanonicalEvent) | OutClosed | SignalReceived | CtxDone.

(** The loop: the lines, the collector afterwards, and whether it returned. *)
Fixpoint validatorLoop (verbose : bool) (c : usbCollector) (steps : list ValidatorSelect)
    : list string * usbCollector * bool :=
  match steps with
  | [] => ([], c, false)
  | OutClosed :: _ => ([], c, true)
  | CtxDone :: _ => (["Shutdown complete."], usbStop c, true)
  | SignalReceived :: steps =>
      let '(lines, c, done) := validatorLoop verbose c steps in
      (["" ; "Received interrupt, shutting down collector..."] ++ lines, c, done)
  | GotEvent ev :: steps =>
      let '(lines, c, done) := validatorLoop verbose c steps in (printEvent ev verbose ++ lines, c, done)
  end.

(** [None]: [log.Fatalf]. *)
Definition validatorMain (verbose : bool) (steps : list ValidatorSelect) : option (list string * usbCollector * bool) :=
  match usbStart newUsbCollector with
  | (_, Some _) => None
  | (c, None) => let '(lines, c, done) := validatorLoop verbose c steps in Some (banner ++ lines, c, done)
  end.
End Validator.

(** ** Lemmas *)

Definition sensitiveKeys : list string := ["serial_number"; "device_path"].

(** Equal in everything that is printed, but for the sensitive keys. *)
Record sameButSensitive (ev1 ev2 : CanonicalEvent) : Prop := {
  sb_category : Category ev1 = Category ev2;
  sb_action : Action ev1 = Action ev2;
  sb_id : EventID ev1 = EventID ev2;
  sb_time : OccurredAt ev1 = OccurredAt ev2;
  sb_meta : forall key, key ∉ sensitiveKeys ->
    (Metadata ev1 ≫= lookup key) = (Metadata ev2 ≫= lookup key);
}.

Inductive sameStep : ValidatorSelect -> ValidatorSelect -> Prop :=
  | same_event ev1 ev2 : sameButSensitive ev1 ev2 -> sameStep (GotEvent ev1) (GotEvent ev2)
  | same_other s : sameStep s s.

Section ValidatorProofs.
Context (Time_String : Time -> string) (badVerb : MetaValue -> string).

Lemma printMeta_lookup label key ev :
  printMeta badVerb label key ev =
    match (Metadata ev ≫= lookup key) with Some v => [label ^^ printValue badVerb v] | None => [] end.
Proof. unfold printMeta. by destruct (Metadata ev). Qed.

Lemma printEvent_hides ev1 ev2 :
  sameButSensitive ev1 ev2 ->
  printEvent Time_String badVerb ev1 false = printEvent Time_String badVerb ev2 false.
Proof.
  intros [Hc Ha Hi Ht Hm]. unfold printEvent. rewrite !printMeta_lookup, Hc, Ha, Hi, Ht.
  rewrite !Hm; [done|apply (proj1 (bool_decide_eq_false _)); vm_compute; reflexivity..].
Qed.

Lemma validatorLoop_hides c steps1 steps2 :
  Forall2 sameStep steps1 steps2 ->
  validatorLoop Time_String badVerb false c steps1 =
  validatorLoop Time_String badVerb false c steps2.
Proof.
  induction 1 as [|s1 s2 steps1 steps2 Hs _ IH]; [done|]. destruct Hs as [ev1 ev2 He|s]; cbn [validatorLoop].
  - by rewrite IH, (printEvent_hides _ _ He).
  - destruct s; by rewrite ?IH.
Qed.

Lemma validatorLoop_stops verbose c steps lines c' ended :
  validatorLoop Time_String badVerb verbose c steps = (lines, c', ended) -> started c = true ->
  started c' = true /\ (OutClosed ∉ steps -> ended = true -> stopped c' = true).
Proof.
  revert lines. induction steps as [|s steps IH]; intros lines; cbn [validatorLoop]; [by intros [= <- <- <-]|].
  destruct s as [ev| | |]; intros H Hc.
  - destruct (validatorLoop _ _ _ c steps) as [[ls c1] e1]. injection H as <- <- <-.
    destruct (IH _ eq_refl Hc) as [? Hs]. split; [done|]. intros Hn. apply Hs. intros ?. apply Hn. by right.
  - injection H as <- <- <-. split; [done|]. intros Hn. destruct Hn. left.
  - destruct (validatorLoop _ _ _ c steps) as [[ls c1] e1]. injection H as <- <- <-.
    destruct (IH _ eq_refl Hc) as [? Hs]. split; [done|]. intros Hn. apply Hs. intros ?. apply Hn. by right.
  - injection H as <- <- <-. unfold usbStop, collectorStop. rewrite Hc. cbn [negb orb].
    destruct (stopped c) eqn:Hst; [by split|done].
Qed.

Lemma metaIf_lookup key value m k : k <> key -> metaIf key value m !! k = m !! k.
Proof. intros Hk. unfold metaIf. destruct (value =s ""); [done|]. by rewrite lookup_insert_ne. Qed.

Lemma usb_sameButSensitive cfg id u1 u2 :
  usb_Action u1 = usb_Action u2 -> VendorID u1 = VendorID u2 -> ProductID u1 = ProductID u2 ->
  usb_OccurredAt u1 = usb_OccurredAt u2 ->
  sameButSensitive (usbCanonical cfg id u1) (usbCanonical cfg id u2).
Proof.
  intros Ha Hv Hp Ht. split; cbn; try done.
  intros key [Hs [Hd _]%not_elem_of_cons]%not_elem_of_cons.
  rewrite !(metaIf_lookup "device_path"), !(metaIf_lookup "serial_number") by done. by rewrite Hv, Hp.
Qed.
End ValidatorProofs.

(** ** Properties *)

(** Without the verbose flag the validator reveals nothing sensitive.  Two runs
    whose USB events differ only in serial number and device path print the
    same lines, whatever the devices reported and whenever the tool is
    interrupted; the collector is started once, and it is stopped when the run
    ends by an interrupt. *)
Theorem validator_hides Time_String badVerb cfg (ids : list (string * USBEvent * USBEvent)) tail :
  Forall (fun x => usb_Action x.1.2 = usb_Action x.2 /\ VendorID x.1.2 = VendorID x.2 /\
                   ProductID x.1.2 = ProductID x.2 /\ usb_OccurredAt x.1.2 = usb_OccurredAt x.2) ids ->
  let run evs := validatorMain Time_String badVerb false (map GotEvent evs ++ tail) in
  run (map (fun x => usbCanonical cfg x.1.1 x.1.2) ids) = run (map (fun x => usbCanonical cfg x.1.1 x.2) ids) /\
  exists lines c ended, run (map (fun x => usbCanonical cfg x.1.1 x.1.2) ids) = Some (lines, c, ended) /\ started c = true /\
    (OutClosed ∉ tail -> ended = true -> stopped c = true).
Proof.
  intros Hids run. split.
  - unfold run, validatorMain. cbn [usbStart newUsbCollector collectorStart newCollectorState stopped started].
    erewrite validatorLoop_hides; [done|]. apply Forall2_app; [|clear; induction tail; constructor; [apply same_other|done]].
    rewrite !map_map. induction Hids as [|x ids (? & ? & ? & ?) _ IH]; constructor; [|exact IH].
    constructor. by apply usb_sameButSensitive.
  - unfold run, validatorMain. cbn [usbStart newUsbCollector collectorStart newCollectorState stopped started].
    set (c0 := {| cancel := true |}). set (evs := map _ ids). clearbody evs.
    destruct (validatorLoop _ _ _ c0 _) as [[lines c] ended] eqn:Hl.
    exists (banner ++ lines), c, ended. split; [done|].
    destruct (validatorLoop_stops _ _ _ _ _ _ _ _ Hl eq_refl) as [? Hs]. split; [done|]. intros Hn. apply Hs.
    intros [Hin|?]%elem_of_app; [|done]. by apply list_elem_of_fmap in Hin as (? & ? & _).
Qed.

Definition stick (serial path : string) : USBEvent := {|
  usb_Action := "USB_INSERT"; VendorID := "046d"; ProductID := "c52b"; SerialNumber := serial;
  DevicePath := path; usb_OccurredAt := 7 |}.

Lemma validator_hides_witness :
  let run u := validatorMain (fun _ => "t") (fun _ => "") false
                 ([GotEvent (usbCanonical validatorConfig "e1" u)] ++ [SignalReceived; CtxDone]) in
  run (stick "SN01" "/dev/bus/usb/1") = run (stick "" "") /\
  exists lines c ended, run (stick "SN01" "/dev/bus/usb/1") = Some (lines, c, ended) /\ started c = true.
Proof.
  destruct (validator_hides (fun _ => "t") (fun _ => "") validatorConfig
    [("e1", stick "SN01" "/dev/bus/usb/1", stick "" "")] [SignalReceived; CtxDone]) as [He (lines & c & ended & Hr & Hs & _)].
  - repeat constructor.
  - split; [exact He|]. exists lines, c, ended. split; [exact Hr|exact Hs].
Defined.
