(* ===== verification/StorageSpec.v ===== *)
(** Properties of the durable event store of [Storage]: the well-formedness of
    the tables and its preservation by every operation, what each outcome of
    [Store] means, what quota enforcement may delete, the dead-letter
    transaction, the retry schedule and the pending batch. *)
From S2P Require Import Prelude GoStrings GoFloat GoTime Events Storage.

Open Scope Z_scope.

(** ** Selection and deletion *)

#[export] Instance seqLe_total : Total seqLe.
Proof. intros a b. unfold seqLe. lia. Qed.
#[export] Instance seqLe_trans : Transitive seqLe.
Proof. intros a b c. unfold seqLe. lia. Qed.

(** Rows are stored under their event id. *)
Definition keyed (m : gmap string EventRow) : Prop := forall id r, m !! id = Some r -> er_event_id r = id.

Definition matching (P : EventRow -> bool) (m : gmap string EventRow) : list EventRow :=
  filter (fun r => P r = true) (map_to_list m).*2.

Lemma matching_elem P m r : r ∈ matching P m <-> P r = true /\ exists id, m !! id = Some r.
Proof.
  unfold matching. rewrite list_elem_of_filter, list_elem_of_fmap. split.
  - intros [? ([id r'] & -> & Hin)]. split; [done|]. exists id. by apply elem_of_map_to_list.
  - intros [? [id Hid]]. split; [done|]. exists (id, r). split; [done|]. by apply elem_of_map_to_list.
Qed.

Lemma matching_nodup P m : keyed m -> NoDup (er_event_id <$> matching P m).
Proof.
  intros Hk. unfold matching.
  assert (NoDup (er_event_id <$> (map_to_list m).*2)) as Hnd.
  { rewrite <- list_fmap_compose. erewrite list_fmap_ext; [apply NoDup_fst_map_to_list|].
    intros i [id r] Hi%list_elem_of_lookup_2. cbn. apply Hk. by apply elem_of_map_to_list. }
  revert Hnd. generalize ((map_to_list m).*2). intros l. induction l as [|r l IH]; [done|].
  rewrite filter_cons. cbn. rewrite NoDup_cons. intros [Hr Hnd]. case_decide; [|by apply IH].
  cbn. rewrite NoDup_cons. split; [|by apply IH]. intros (x & Hx & Hin)%list_elem_of_fmap.
  apply Hr. rewrite Hx. apply list_elem_of_fmap_2. by apply list_elem_of_filter in Hin as [_ ?].
Qed.

Lemma select_split P n m : exists rest, selectBySeq P n m ++ rest ≡ₚ matching P m /\
  StronglySorted seqLe (selectBySeq P n m) /\ forall x y, x ∈ selectBySeq P n m -> y ∈ rest -> seqLe x y.
Proof.
  unfold selectBySeq. fold (matching P m). set (l := merge_sort seqLe (matching P m)).
  assert (StronglySorted seqLe l) as Hs by apply (StronglySorted_merge_sort seqLe).
  exists (drop n l). rewrite take_drop. split; [apply merge_sort_Permutation|].
  rewrite <- (take_drop n l) in Hs. apply StronglySorted_app in Hs as (H1 & H2 & H3). done.
Qed.

Lemma select_elem P n m r : r ∈ selectBySeq P n m -> P r = true /\ exists id, m !! id = Some r.
Proof.
  intros Hr. destruct (select_split P n m) as (rest & Hp & _). apply matching_elem. rewrite <- Hp.
  apply elem_of_app. by left.
Qed.

Lemma select_nodup P n m : keyed m -> NoDup (er_event_id <$> selectBySeq P n m).
Proof.
  intros Hk. destruct (select_split P n m) as (rest & Hp & _).
  pose proof (matching_nodup P m Hk) as Hnd. rewrite <- Hp, fmap_app in Hnd.
  by apply NoDup_app in Hnd as [? _].
Qed.

Lemma select_length P n m : (length (selectBySeq P n m) <= n)%nat.
Proof. unfold selectBySeq. rewrite length_take. lia. Qed.

(** The rows that match but were not selected come later. *)
Lemma select_first P n m r r' :
  keyed m -> r ∈ selectBySeq P n m -> P r' = true -> m !! er_event_id r' = Some r' ->
  r' ∉ selectBySeq P n m -> er_seq_no r <= er_seq_no r'.
Proof.
  intros Hk Hr HP Hr' Hn. destruct (select_split P n m) as (rest & Hp & _ & Hle).
  apply (Hle r r' Hr). assert (r' ∈ matching P m) as Hin by (apply matching_elem; eauto).
  rewrite <- Hp in Hin. apply elem_of_app in Hin as [?|?]; done.
Qed.

Lemma select_full P n m :
  length (selectBySeq P n m) = n \/
  forall r, P r = true -> m !! er_event_id r = Some r -> r ∈ selectBySeq P n m.
Proof.
  unfold selectBySeq. fold (matching P m). set (l := merge_sort seqLe (matching P m)).
  destruct (decide (n <= length l)%nat) as [Hle|Hgt]; [left; rewrite length_take; lia|right].
  intros r Hr Hm. rewrite take_ge by lia. unfold l. rewrite merge_sort_Permutation. apply matching_elem. eauto.
Qed.

Lemma select_nil P n m : (0 < n)%nat -> selectBySeq P n m = [] -> forall id r, m !! id = Some r -> P r = false.
Proof.
  intros Hn Hnil id r Hr. destruct (P r) eqn:HP; [|done].
  assert (r ∈ matching P m) as Hin by (apply matching_elem; eauto).
  unfold selectBySeq in Hnil. fold (matching P m) in Hnil.
  assert (merge_sort seqLe (matching P m) = []) as Hm.
  { destruct (merge_sort seqLe (matching P m)); [done|]. by destruct n; [lia|]. }
  rewrite <- (merge_sort_Permutation seqLe), Hm in Hin. by apply elem_of_nil in Hin.
Qed.

Lemma deleteRows_lookup ids m id :
  deleteRows ids m !! id = if decide (id ∈ ids) then None else m !! id.
Proof.
  unfold deleteRows. induction ids as [|k ids IH]; cbn [foldr]; [rewrite decide_False by set_solver; done|].
  destruct (decide (id = k)) as [->|Hne].
  - rewrite lookup_delete_eq, decide_True; [done|set_solver].
  - rewrite lookup_delete_ne, IH by done.
    destruct (decide (id ∈ ids)); [rewrite decide_True by set_solver|rewrite decide_False by set_solver]; done.
Qed.

Lemma deleteRows_subseteq ids m : deleteRows ids m ⊆ m.
Proof. apply map_subseteq_spec. intros id r. rewrite deleteRows_lookup. by case_decide. Qed.

Lemma deleteRows_size ids m :
  NoDup ids -> (forall id, id ∈ ids -> is_Some (m !! id)) ->
  size m = (length ids + size (deleteRows ids m))%nat.
Proof.
  induction ids as [|k ids IH]; intros Hnd Hin; [done|].
  apply NoDup_cons in Hnd as [Hk Hnd]. rewrite (IH Hnd) by (intros; apply Hin; by right).
  cbn [deleteRows foldr length]. fold (deleteRows ids m).
  assert (is_Some (deleteRows ids m !! k)) as [r Hr].
  { rewrite deleteRows_lookup, decide_False by done. apply Hin. by left. }
  rewrite map_size_delete_Some by by eexists.
  assert (size (deleteRows ids m) <> 0%nat); [|lia].
  intros H0%map_size_empty_inv. by rewrite H0, lookup_empty in Hr.
Qed.

(** ** Pruning *)

Definition countSev (sev : string) (m : gmap string EventRow) : nat :=
  length (matching (fun r => er_severity r =s sev) m).

(** The columns quota enforcement leaves alone, and the counters it moves. *)
Definition agentIdentity (a : AgentState) : string * Z := (as_device_id a, as_next_seq_no a).
Definition droppedBySeverity (a : AgentState) : Z :=
  as_dropped_debug a + as_dropped_info a + as_dropped_warning a.

(** [sevs] lists severities in pruning order. *)
Definition sevBefore (sevs : list string) (a b : string) : Prop :=
  exists l1 l2 l3, sevs = l1 ++ a :: l2 ++ b :: l3.

(** What pruning severities [sevs] does to the tables. *)
Record pruned (sevs : list string) (db db' : DB) : Prop := {
  pr_sub : db_events db' ⊆ db_events db;
  pr_dlq : db_dlq db' = db_dlq db;
  pr_agent : agentIdentity <$> db_agent db' = agentIdentity <$> db_agent db;
  pr_gone : forall id r, db_events db !! id = Some r -> db_events db' !! id = None -> er_severity r ∈ sevs;
  pr_order : forall id r id' r',
    db_events db !! id = Some r -> db_events db' !! id = None ->
    db_events db' !! id' = Some r' -> er_severity r' ∈ sevs ->
    sevBefore sevs (er_severity r) (er_severity r') \/
    (er_severity r = er_severity r' /\ er_seq_no r <= er_seq_no r');
}.

(** The loss counters account for every deleted row. *)
Definition counted (db db' : DB) : Prop :=
  let lost := Z.of_nat (size (db_events db)) - Z.of_nat (size (db_events db')) in
  (as_dropped_total <$> db_agent db') = (fun a => as_dropped_total a + lost) <$> db_agent db /\
  (droppedBySeverity <$> db_agent db') = (fun a => droppedBySeverity a + lost) <$> db_agent db.

Lemma pruned_refl sevs db : pruned sevs db db.
Proof. split; try done; intros; congruence. Qed.

Lemma counted_refl db : counted db db.
Proof.
  unfold counted. rewrite Z.sub_diag. destruct (db_agent db); cbn; [|done]. by rewrite !Z.add_0_r.
Qed.

Lemma counted_trans db1 db2 db3 : counted db1 db2 -> counted db2 db3 -> counted db1 db3.
Proof.
  unfold counted. intros [H1 H2] [H3 H4].
  destruct (db_agent db1), (db_agent db2), (db_agent db3); cbn in *; simplify_eq; try done.
  split; f_equal; lia.
Qed.

(** One iteration of the loop. *)
Definition pruneOnce (t : Z) (sev : string) (db : DB) : DB :=
  let victims := pruneVictims sev (db_events db) in
  updateAgent (countDropped t sev (Z.of_nat (length victims)))
    (setEvents (deleteRows (er_event_id <$> victims) (db_events db)) db).

Lemma victim_lookup sev m r : keyed m -> r ∈ pruneVictims sev m -> m !! er_event_id r = Some r.
Proof.
  intros Hk [_ [id Hid]]%select_elem. by rewrite (Hk _ _ Hid).
Qed.

Lemma victim_deleted sev m id r :
  keyed m -> m !! id = Some r ->
  (deleteRows (er_event_id <$> pruneVictims sev m) m !! id = None <-> r ∈ pruneVictims sev m).
Proof.
  intros Hk Hr. rewrite deleteRows_lookup. case_decide as Hin.
  - apply list_elem_of_fmap in Hin as (x & -> & Hx). pose proof (victim_lookup _ _ _ Hk Hx) as Hx'.
    rewrite Hx' in Hr. by injection Hr as <-.
  - rewrite Hr. split; [done|]. intros Hv. destruct Hin. rewrite <- (Hk _ _ Hr). by apply list_elem_of_fmap_2.
Qed.

Lemma pruneOnce_size t sev db :
  keyed (db_events db) ->
  size (db_events db) = (length (pruneVictims sev (db_events db)) + size (db_events (pruneOnce t sev db)))%nat.
Proof.
  intros Hk. unfold pruneOnce. cbn [db_events updateAgent setEvents].
  rewrite <- (length_fmap er_event_id (pruneVictims sev (db_events db))).
  apply deleteRows_size; [by apply select_nodup|].
  intros id (r & -> & Hr)%list_elem_of_fmap. exists r. by eapply victim_lookup.
Qed.

Lemma pruned_delete sevs sev db agent :
  keyed (db_events db) -> sev ∈ sevs -> agentIdentity <$> agent = agentIdentity <$> db_agent db ->
  (forall r, er_severity r ∈ sevs -> (exists id, db_events db !! id = Some r) ->
             er_severity r = sev \/ sevBefore sevs sev (er_severity r)) ->
  pruned sevs db {| db_events := deleteRows (er_event_id <$> pruneVictims sev (db_events db)) (db_events db);
                    db_dlq := db_dlq db; db_agent := agent |}.
Proof.
  intros Hk Hsev Ha Hfirst. split; cbn [db_events db_dlq db_agent]; [apply deleteRows_subseteq|done|done| |].
  - intros id r Hr [Hs _]%(victim_deleted _ _ _ _ Hk Hr)%select_elem.
    apply String.eqb_eq in Hs. by rewrite Hs.
  - intros id r id' r' Hr Hv%(victim_deleted _ _ _ _ Hk Hr) Hr' Hs'.
    pose proof (select_elem _ _ _ _ Hv) as [Hs _]. apply String.eqb_eq in Hs.
    assert (db_events db !! id' = Some r') as Hr'0 by (eapply lookup_weaken; [done|apply deleteRows_subseteq]).
    destruct (Hfirst r' Hs' ltac:(eauto)) as [Heq|Hb]; [right|left; by rewrite Hs].
    split; [congruence|]. pose proof (Hk _ _ Hr'0) as Hid. subst id'.
    eapply select_first; [exact Hk|exact Hv|by apply String.eqb_eq|done|].
    intros Hv'. apply (victim_deleted sev _ _ _ Hk Hr'0) in Hv'. congruence.
Qed.

Lemma sub_lookup (m m' : gmap string EventRow) id r r2 :
  m !! id = Some r -> m' !! id = Some r2 -> m' ⊆ m -> r2 = r.
Proof. intros Hr H2 Hs. apply (lookup_weaken _ m) in H2; [congruence|done]. Qed.

Lemma pruned_trans sevs db1 db2 db3 : pruned sevs db1 db2 -> pruned sevs db2 db3 -> pruned sevs db1 db3.
Proof.
  intros [S1 D1 A1 G1 O1] [S2 D2 A2 G2 O2]. split; [by etrans|congruence|congruence| |].
  - intros id r H1 H3. destruct (db_events db2 !! id) as [r2|] eqn:H2; [|by eapply G1].
    assert (r2 = r) as -> by exact (sub_lookup _ _ _ _ _ H1 H2 S1). by eapply G2.
  - intros id r id' r' H1 H3 H3' Hs.
    destruct (db_events db2 !! id) as [r2|] eqn:H2.
    + assert (r2 = r) as -> by exact (sub_lookup _ _ _ _ _ H1 H2 S1). by eapply O2.
    + eapply O1; eauto. by eapply lookup_weaken.
Qed.

Lemma pruneOnce_pruned t sev db : keyed (db_events db) -> pruned [sev] db (pruneOnce t sev db).
Proof.
  intros Hk. unfold pruneOnce, updateAgent, setEvents. cbn [db_events db_dlq db_agent].
  apply pruned_delete; [done|set_solver| |].
  - cbn. by destruct (db_agent db).
  - intros r Hr%list_elem_of_singleton _. by left.
Qed.

Lemma pruneOnce_counted t sev db :
  keyed (db_events db) -> sev ∈ prunableSeverities -> counted db (pruneOnce t sev db).
Proof.
  intros Hk Hsev. pose proof (pruneOnce_size t sev db Hk) as Hsz.
  assert (db_agent (pruneOnce t sev db) =
    countDropped t sev (Z.of_nat (length (pruneVictims sev (db_events db)))) <$> db_agent db) as Ha by done.
  unfold counted. rewrite Hsz, Ha. clear Ha Hsz. destruct (db_agent db) as [a|]; cbn; [|done].
  unfold droppedBySeverity. cbn. split; f_equal; [lia|]. unfold prunableSeverities in Hsev.
  apply list_elem_of_In in Hsev. destruct Hsev as [<-|[<-|[<-|[]]]]; cbn; lia.
Qed.

Lemma keyed_sub m m' : m' ⊆ m -> keyed m -> keyed m'.
Proof. intros Hs Hk id r Hr. apply Hk. by eapply lookup_weaken. Qed.

(** The inner loop: with as much fuel as there are rows it ends, and its exit
    tells what happened. *)
Definition countsOk (env : Env) : Prop := forall sev i, sqlErr env (PruneCount sev i) = None.

Record SeverityResult (env : Env) (sev : string) (db : DB) (exit : PruneExit) (db' : DB) : Prop := {
  sr_pruned : pruned [sev] db db';
  sr_counted : countsOk env -> counted db db';
  sr_exhausted : exit = Exhausted -> forall id r, db_events db' !! id = Some r -> er_severity r <> sev;
}.

Lemma pruneSeverity_spec env quota est sev fuel i db :
  keyed (db_events db) -> sev ∈ prunableSeverities -> (size (db_events db) < fuel)%nat ->
  exists exit db', pruneSeverity env quota est sev fuel i db = Some (exit, db') /\
    SeverityResult env sev db exit db'.
Proof.
  revert i db. induction fuel as [|fuel IH]; intros i db Hk Hsev Hf; [lia|]. cbn [pruneSeverity].
  destruct (_ <? _).
  { eexists _, _. split; [done|]. split; [apply pruned_refl|intros _; apply counted_refl|done]. }
  destruct (sqlErr env (PruneDelete sev i)).
  { eexists _, _. split; [done|]. split; [apply pruned_refl|intros _; apply counted_refl|done]. }
  pose proof (pruneOnce_size (now env) sev db Hk) as Hsz.
  destruct (Z.eqb_spec (Z.of_nat (length (pruneVictims sev (db_events db)))) 0) as [H0|H0].
  - eexists _, _. split; [done|].
    assert (pruneVictims sev (db_events db) = []) as Hnil.
    { apply nil_length_inv. lia. }
    rewrite Hnil. cbn [fmap list_fmap deleteRows foldr]. split.
    + destruct db. apply pruned_refl.
    + intros _. destruct db. apply counted_refl.
    + intros _ id r Hr Hs. pose proof (select_nil _ 50 _ ltac:(lia) Hnil id r Hr) as HP. cbn in HP.
      apply String.eqb_neq in HP. done.
  - destruct (sqlErr env (PruneCount sev i)) as [err|] eqn:Herr.
    { eexists _, _. split; [done|]. split; [|intros Hok; by rewrite Hok in Herr|done].
      apply pruned_delete; [done|set_solver|done|]. intros r Hr%list_elem_of_singleton _. by left. }
    change (updateAgent _ _) with (pruneOnce (now env) sev db).
    pose proof (pruneOnce_pruned (now env) sev db Hk) as Hp.
    pose proof (pruneOnce_counted (now env) sev db Hk Hsev) as Hc.
    destruct (IH (S i) (pruneOnce (now env) sev db)) as (exit & db' & -> & [Hp' Hc' He]); [|done|lia|].
    { eapply keyed_sub; [apply Hp|done]. }
    exists exit, db'. split; [done|]. split; [by eapply pruned_trans| |done].
    intros Hok. eapply counted_trans; [done|by apply Hc'].
Qed.

Lemma sevBefore_cons sev sevs a b : sevBefore sevs a b -> sevBefore (sev :: sevs) a b.
Proof. intros (l1 & l2 & l3 & ->). by exists (sev :: l1), l2, l3. Qed.

Lemma sevBefore_head sev sevs b : b ∈ sevs -> sevBefore (sev :: sevs) sev b.
Proof. intros (l2 & l3 & ->)%list_elem_of_split. by exists [], l2, l3. Qed.

(** Severities are pruned one after the other, so losses come in severity
    order first. *)
Lemma pruned_sequence sev sevs db1 db2 db3 :
  pruned [sev] db1 db2 -> (forall id r, db_events db2 !! id = Some r -> er_severity r <> sev) ->
  pruned sevs db2 db3 -> pruned (sev :: sevs) db1 db3.
Proof.
  intros [S1 D1 A1 G1 O1] Hnone [S2 D2 A2 G2 O2]. split; [by etrans|congruence|congruence| |].
  - intros id r H1 H3. destruct (db_events db2 !! id) as [r2|] eqn:H2.
    + assert (r2 = r) as -> by exact (sub_lookup _ _ _ _ _ H1 H2 S1).
      right. by eapply G2.
    + pose proof (G1 _ _ H1 H2) as Hs%list_elem_of_singleton. rewrite Hs. left.
  - intros id r id' r' H1 H3 H3' Hs.
    assert (db_events db2 !! id' = Some r') as H2' by by eapply lookup_weaken.
    apply elem_of_cons in Hs as [Hs|Hs]; [by destruct (Hnone _ _ H2')|].
    destruct (db_events db2 !! id) as [r2|] eqn:H2.
    + assert (r2 = r) as -> by exact (sub_lookup _ _ _ _ _ H1 H2 S1).
      destruct (O2 _ _ _ _ H2 H3 H3' Hs) as [?|?]; [left; by apply sevBefore_cons|by right].
    + pose proof (G1 _ _ H1 H2) as Hs1%list_elem_of_singleton. left. rewrite Hs1. by apply sevBefore_head.
Qed.

Lemma pruned_more sev sevs db db' :
  pruned [sev] db db' -> (forall id r, db_events db' !! id = Some r -> er_severity r ∈ sevs -> er_severity r <> sev) ->
  pruned (sev :: sevs) db db'.
Proof.
  intros [S1 D1 A1 G1 O1] Hd. split; try done.
  - intros id r H1 H2. pose proof (G1 _ _ H1 H2) as Hs%list_elem_of_singleton. rewrite Hs. left.
  - intros id r id' r' H1 H3 H3' Hs. pose proof (G1 _ _ H1 H3) as Hr%list_elem_of_singleton.
    apply elem_of_cons in Hs as [Hs|Hs].
    + destruct (O1 _ _ _ _ H1 H3 H3') as [(l1 & l2 & l3 & Hl)|?]; [rewrite Hs; set_solver| |by right].
      destruct l1 as [|? [|]]; simplify_eq/=; by destruct l2.
    + left. rewrite Hr. by apply sevBefore_head.
Qed.

Lemma pruneAll_spec env quota est sevs db :
  keyed (db_events db) -> NoDup sevs -> (forall sev, sev ∈ sevs -> sev ∈ prunableSeverities) ->
  exists exit db', pruneAll env quota est sevs db = Some (exit, db') /\ pruned sevs db db' /\
    (countsOk env -> counted db db') /\
    (exit = Exhausted -> forall id r, db_events db' !! id = Some r -> er_severity r ∉ sevs).
Proof.
  revert db. induction sevs as [|sev sevs IH]; intros db Hk Hnd Hin; cbn [pruneAll].
  { eexists _, _. split; [done|]. split_and!; [apply pruned_refl|intros _; apply counted_refl|set_solver]. }
  apply NoDup_cons in Hnd as [Hsev Hnd].
  destruct (pruneSeverity_spec env quota est sev (S (size (db_events db))) 0 db Hk (Hin _ (list_elem_of_here _ _)) ltac:(lia))
    as (exit & db1 & -> & [Hp Hc Hx]). cbn [mbind option_bind].
  assert (pruned (sev :: sevs) db db1) as Hmore.
  { apply pruned_more; [done|]. intros ? r _ Hr' Heq. by rewrite Heq in Hr'. }
  destruct exit as [|err|].
  - eexists _, _. split; [done|]. split_and!; done.
  - eexists _, _. split; [done|]. split_and!; done.
  - specialize (Hx eq_refl).
    destruct (IH db1) as (exit & db2 & -> & Hp2 & Hc2 & Hx2); [by eapply keyed_sub; [apply Hp|]|done| |].
    { intros ? ?. apply Hin. by right. }
    exists exit, db2. split; [done|]. split_and!; [by eapply pruned_sequence| |].
    + intros Hok. eapply counted_trans; [by apply Hc|by apply Hc2].
    + intros He id r Hr. rewrite not_elem_of_cons. split; [|by eapply Hx2].
      eapply Hx. eapply lookup_weaken; [done|apply Hp2].
Qed.

Lemma pruned_setAgent sevs db db' f :
  (forall a, agentIdentity (f a) = agentIdentity a) -> pruned sevs db db' -> pruned sevs db (updateAgent f db').
Proof.
  intros Hf [S1 D1 A1 G1 O1]. split; try done. cbn. rewrite <- A1. destruct (db_agent db'); cbn; [|done].
  by rewrite Hf.
Qed.

Lemma counted_setAgent db db' f :
  (forall a, as_dropped_total (f a) = as_dropped_total a /\ droppedBySeverity (f a) = droppedBySeverity a) ->
  counted db db' -> counted db (updateAgent f db').
Proof.
  intros Hf [H1 H2]. unfold counted. cbn [db_agent db_events updateAgent]. rewrite <- H1, <- H2.
  destruct (db_agent db') as [a|]; cbn; [|done]. destruct (Hf a) as [-> ->]. done.
Qed.

Lemma prunable_nodup : NoDup prunableSeverities.
Proof. by apply (bool_decide_eq_true_1 (NoDup prunableSeverities)); vm_compute. Qed.

(** Quota enforcement always ends; it only prunes. *)
Lemma enforceQuota_spec env quota sev est db :
  keyed (db_events db) ->
  exists err db', enforceQuota env quota sev est db = Some (err, db') /\
    pruned prunableSeverities db db' /\ (countsOk env -> counted db db').
Proof.
  intros Hk. unfold enforceQuota. destruct (getTotalSize env SizeFirst) as [sz|e].
  2:{ eexists _, _. split_and!; [done|apply pruned_refl|intros _; apply counted_refl]. }
  destruct (_ <? _). { eexists _, _. split_and!; [done|apply pruned_refl|intros _; apply counted_refl]. }
  destruct (pruneAll_spec env quota est prunableSeverities db Hk prunable_nodup ltac:(done))
    as (exit & db' & -> & Hp & Hc & _). cbn [mbind option_bind].
  destruct exit as [|err|]; [by eexists _, _|by eexists _, _|].
  destruct (quota <=? _).
  - destruct (sqlErr env SetEmergency); [by eexists _, _|].
    assert (pruned prunableSeverities db (updateAgent (setPressure "EMERGENCY" (Some (now env))) db') /\
            (countsOk env -> counted db (updateAgent (setPressure "EMERGENCY" (Some (now env))) db'))) as [? ?].
    { split; [by apply pruned_setAgent|]. intros Hok. by apply counted_setAgent, Hc. }
    destruct (isCritical sev); by eexists _, _.
  - destruct (sqlErr env SetOK); [by eexists _, _|]. eexists _, _. split; [done|]. split.
    + apply pruned_setAgent; [|done]. intros a. destruct (as_pressure_state a); [|done]. by destruct (_ =s _).
    + intros Hok. apply counted_setAgent; [|by apply Hc].
      intros a. destruct (as_pressure_state a); [|done]. by destruct (_ =s _).
Qed.

(** ** The tables *)

Record wfDB (dev : string) (db : DB) : Prop := {
  wf_keyed : keyed (db_events db);
  wf_row : forall id r, db_events db !! id = Some r -> er_device_id r = dev /\ er_state r = "PENDING"%string;
  wf_unique : forall id1 id2 r1 r2, db_events db !! id1 = Some r1 -> db_events db !! id2 = Some r2 ->
    er_seq_no r1 = er_seq_no r2 -> id1 = id2;
  wf_agent : exists a, db_agent db = Some a /\ as_device_id a = dev /\
    forall id r, db_events db !! id = Some r -> er_seq_no r < as_next_seq_no a;
  wf_dlq : forall id r, db_dlq db !! id = Some r -> dl_event_id r = id /\ db_events db !! id = None;
}.

(** Event [id] is durably recorded, in one of the two tables. *)
Definition durable (db : DB) (id : string) (seq : Z) (payload : string) : Prop :=
  (exists r, db_events db !! id = Some r /\ er_seq_no r = seq /\ er_payload r = payload) \/
  (exists r, db_dlq db !! id = Some r /\ dl_seq_no r = seq /\ dl_payload r = payload).

Lemma wf_sub dev db db' :
  wfDB dev db -> db_events db' ⊆ db_events db -> db_dlq db' = db_dlq db ->
  agentIdentity <$> db_agent db' = agentIdentity <$> db_agent db -> wfDB dev db'.
Proof.
  intros [Hk Hr Hu (a & Ha & Hd & Hs) Hq] Hsub Hdlq Hag. split.
  - by eapply keyed_sub.
  - intros id r Hid. apply (Hr id). by eapply lookup_weaken.
  - intros id1 id2 r1 r2 H1 H2. apply Hu; by eapply lookup_weaken.
  - rewrite Ha in Hag. destruct (db_agent db') as [a'|]; [|done]. injection Hag as Had Hseq.
    exists a'. split_and!; [done|congruence|]. intros id r Hid. rewrite Hseq. apply (Hs id). by eapply lookup_weaken.
  - rewrite Hdlq. intros id r Hid. destruct (Hq id r Hid) as [? Hn]. split; [done|].
    destruct (db_events db' !! id) eqn:E; [|done]. apply (lookup_weaken _ (db_events db)) in E; [congruence|done].
Qed.

Lemma wf_pruned dev sevs db db' : wfDB dev db -> pruned sevs db db' -> wfDB dev db'.
Proof. intros Hwf [? ? ? _ _]. by eapply wf_sub. Qed.

(** Inserting a new event with the next sequence number. *)
Lemma wf_insert dev db a ev payload :
  wfDB dev db -> db_agent db = Some a -> db_events db !! EventID ev = None -> db_dlq db !! EventID ev = None ->
  SeqNo ev = as_next_seq_no a ->
  wfDB dev (updateAgent bumpSeq (setEvents (<[EventID ev := newRow dev payload ev]> (db_events db)) db)).
Proof.
  intros [Hk Hr Hu (a' & Ha' & Hd & Hs) Hq] Ha Hev Hdl Hseq.
  rewrite Ha in Ha'. injection Ha' as <-. split; cbn [db_events db_dlq db_agent updateAgent setEvents].
  - intros id r. rewrite lookup_insert_Some. intros [[<- <-]|[_ ?]]; [done|by apply Hk].
  - intros id r. rewrite lookup_insert_Some. intros [[<- <-]|[_ ?]]; [done|by eapply Hr].
  - intros id1 id2 r1 r2. rewrite !lookup_insert_Some. intros [[<- <-]|[? H1]] [[<- <-]|[? H2]]; try done.
    + cbn. intros Heq. pose proof (Hs _ _ H2). lia.
    + cbn. intros Heq. pose proof (Hs _ _ H1). lia.
    + by apply Hu.
  - rewrite Ha. eexists. split; [done|]. split; [done|]. intros id r. rewrite lookup_insert_Some.
    intros [[<- <-]|[_ H]]; cbn; [lia|]. pose proof (Hs _ _ H). lia.
  - intros id r Hid. destruct (Hq id r Hid) as [? Hn]. split; [done|]. rewrite lookup_insert_ne; [done|].
    intros <-. congruence.
Qed.

Lemma unique_holds dev db a ev payload :
  wfDB dev db -> db_agent db = Some a -> db_events db !! EventID ev = None -> SeqNo ev = as_next_seq_no a ->
  violatesUnique (newRow dev payload ev) (db_events db) = false.
Proof.
  intros [_ _ _ (a' & Ha' & _ & Hs) _] Ha Hev Hseq. rewrite Ha in Ha'. injection Ha' as <-.
  apply bool_decide_eq_false. intros (id & r & Hid & [Heq|[_ Heq]]); cbn in Heq.
  - congruence.
  - pose proof (Hs _ _ Hid). lia.
Qed.

Section Specification.
Context (Serialize : CanonicalEvent -> result string) (Deserialize : string -> result CanonicalEvent).

(** The outcome of [Store] on event [ev], from tables [db] to [db']. *)
Definition storeOutcome (db db' : DB) (ev ev' : CanonicalEvent) (res : option error) : Prop :=
  match res with
  | None => durable db' (EventID ev) (SeqNo ev') (bytesOrNil (Serialize ev'))
  | Some e =>
      (errors_Is e ErrStoreFailedBeforeCommit = true /\ db_events db' !! EventID ev = db_events db !! EventID ev)
      \/ (errors_Is e ErrStoreUncertain = true /\ db_events db !! EventID ev = None /\
          (db_events db' !! EventID ev = None \/
           durable db' (EventID ev) (SeqNo ev') (bytesOrNil (Serialize ev'))))
  end.

(** Only the event itself and rows lost to quota change. *)
Definition storeFrame (db db' : DB) (ev : CanonicalEvent) : Prop :=
  db_dlq db' = db_dlq db /\
  forall id, id <> EventID ev ->
    db_events db' !! id = db_events db !! id \/
    (db_events db' !! id = None /\
     exists r, db_events db !! id = Some r /\ er_severity r ∈ prunableSeverities).

Lemma failed_is e : errors_Is (wrapBoth ErrStoreFailedBeforeCommit e) ErrStoreFailedBeforeCommit = true.
Proof. reflexivity. Qed.
Lemma uncertain_is e : errors_Is (wrapBoth ErrStoreUncertain e) ErrStoreUncertain = true.
Proof. reflexivity. Qed.

Lemma pruned_frame db db' ev : pruned prunableSeverities db db' -> storeFrame db db' ev.
Proof.
  intros [Hs Hd _ Hg _]. split; [done|]. intros id _. destruct (db_events db' !! id) as [r'|] eqn:E.
  - left. symmetry. by eapply lookup_weaken.
  - destruct (db_events db !! id) as [r|] eqn:E0; [|by left]. right. split; [done|].
    exists r. split; [done|]. by eapply Hg.
Qed.

(** The transaction, on an event in neither table. *)
Lemma storeTx_spec env dev db ev :
  wfDB dev db -> db_events db !! EventID ev = None -> db_dlq db !! EventID ev = None ->
  exists db' ev' res, storeTx Serialize env dev db ev = (db', ev', res) /\ ev' = setSeqNo (SeqNo ev') ev /\
    wfDB dev db' /\ storeOutcome db db' ev ev' res /\
    (db' = db \/ exists row, db' = updateAgent bumpSeq (setEvents (<[EventID ev := row]> (db_events db)) db)).
Proof.
  intros Hwf Hev Hdl. unfold storeTx.
  assert (ev = setSeqNo (SeqNo ev) ev) as Hid by by destruct ev.
  assert (forall e, storeOutcome db db ev ev (failBefore e)) as Hfail by (intros e; by left).
  destruct (sqlErr env BeginTx); [by eexists _, _, _; split_and!; [..|left]|].
  rewrite Hev. rewrite (bool_decide_false (is_Some None)) by (by intros []). rewrite andb_false_r.
  destruct (sqlErr env TxNextSeq); [by eexists _, _, _; split_and!; [..|left]|].
  destruct (wf_agent _ _ Hwf) as (a & Ha & _ & Hseq). rewrite Ha.
  set (ev1 := setSeqNo (as_next_seq_no a) ev).
  assert (forall e, storeOutcome db db ev ev1 (failBefore e)) as Hfail1 by (intros e; by left).
  assert (ev1 = setSeqNo (SeqNo ev1) ev) as Hid1 by done.
  destruct (Serialize ev1) as [payload|err] eqn:Hser; [|by eexists _, _, _; split_and!; [..|left]].
  destruct (sqlErr env TxInsertEvent); [by eexists _, _, _; split_and!; [..|left]|].
  rewrite (unique_holds dev db a ev1 payload Hwf Ha Hev eq_refl).
  destruct (sqlErr env TxBumpSeq); [by eexists _, _, _; split_and!; [..|left]|].
  pose proof (wf_insert dev db a ev1 payload Hwf Ha Hev Hdl eq_refl) as Hwf'.
  change (EventID ev1) with (EventID ev) in *.
  set (tx := updateAgent bumpSeq _) in *.
  assert (durable tx (EventID ev) (SeqNo ev1) (bytesOrNil (Serialize ev1))) as Hdur.
  { left. exists (newRow dev payload ev1). cbn. rewrite lookup_insert_eq, Hser. done. }
  destruct (sqlErr env CommitHook) as [err|].
  { eexists _, _, _. split_and!; [done|done|done| |by left]. right. split_and!; [done|done|by left]. }
  destruct (sqlErr env CommitTx) as [err|].
  - destruct (commitApplied env); eexists _, _, _; (split_and!; [done|done|done| |]).
    + right. split_and!; [done|done|by right].
    + right. by eexists.
    + right. split_and!; [done|done|by left].
    + by left.
  - eexists _, _, _. split_and!; [done|done|done|done|]. right. by eexists.
Qed.

Lemma replay_outcome db ev row_seq row_payload msg ev' res :
  durable db (EventID ev) row_seq row_payload ->
  replayCheck Serialize row_seq row_payload msg ev = (ev', res) ->
  ev' = setSeqNo (SeqNo ev') ev /\ storeOutcome db db ev ev' res.
Proof.
  intros Hd. unfold replayCheck. destruct (String.eqb_spec row_payload (bytesOrNil (Serialize (setSeqNo row_seq ev))));
    intros [= <- <-]; (split; [done|]).
  - cbn. by subst.
  - by left.
Qed.

(** [Store] from start to end.  It always returns (the pruning loop ends),
    keeps the tables well formed and the event unchanged but for its sequence
    number. *)
Record StoreResult (s s' : SQLiteStorage) (db db' : DB) (ev ev' : CanonicalEvent) (res : option error) : Prop := {
  st_db : s_db s' = Some db';
  st_static : quotaBytes s' = quotaBytes s /\ deviceID s' = deviceID s;
  st_event : ev' = setSeqNo (SeqNo ev') ev;
  st_wf : wfDB (deviceID s) db';
  st_frame : storeFrame db db' ev;
  st_outcome : storeOutcome db db' ev ev' res;
}.

Lemma frame_refl db ev : storeFrame db db ev.
Proof. split; [done|]. intros. by left. Qed.

Lemma frame_insert db db1 ev row :
  storeFrame db db1 ev ->
  storeFrame db (updateAgent bumpSeq (setEvents (<[EventID ev := row]> (db_events db1)) db1)) ev.
Proof.
  intros [Hd Hf]. split; [done|]. intros id Hne. cbn. rewrite lookup_insert_ne by done. by apply Hf.
Qed.

Lemma store_result env s db ev :
  s_db s = Some db -> wfDB (deviceID s) db ->
  exists s' ev' res db', Store Serialize env s ev = Some (s', ev', res) /\
    StoreResult s s' db db' ev ev' res.
Proof.
  intros Hdb Hwf. unfold Store. rewrite Hdb.
  assert (forall res ev', ev' = setSeqNo (SeqNo ev') ev -> storeOutcome db db ev ev' res ->
            StoreResult s s db db ev ev' res) as Hsame.
  { intros res ev' Hev Ho. split; try done. apply frame_refl. }
  assert (forall m, StoreResult s s db db ev ev (Some (wrapMsg ErrStoreFailedBeforeCommit m))) as Hmsg.
  { intros m. apply Hsame; [by destruct ev|by left]. }
  assert (forall e, StoreResult s s db db ev ev (failBefore e)) as Hfail.
  { intros e. apply Hsame; [by destruct ev|by left]. }
  destruct (EventID ev =s ""); [by eexists _, _, _, _|].
  destruct (sqlErr env QEventById); [by eexists _, _, _, _|].
  destruct (db_events db !! EventID ev) as [row|] eqn:Hev.
  { destruct (replayCheck _ _ _ _ ev) as [ev' res] eqn:Hr. eexists _, _, _, _. split; [done|].
    eapply replay_outcome in Hr as [? ?]; [by apply Hsame|]. left. by exists row. }
  destruct (sqlErr env QDLQById); [by eexists _, _, _, _|].
  destruct (db_dlq db !! EventID ev) as [row|] eqn:Hdl.
  { destruct (replayCheck _ _ _ _ ev) as [ev' res] eqn:Hr. eexists _, _, _, _. split; [done|].
    eapply replay_outcome in Hr as [? ?]; [by apply Hsame|]. right. by exists row. }
  destruct (enforceQuota_spec env (quotaBytes s) (Severity ev)
    (i64 (go_len (bytesOrNil (Serialize ev)) + 1024)) db (wf_keyed _ _ Hwf)) as (err & db1 & -> & Hp & _).
  cbn [mbind option_bind]. pose proof (pruned_frame _ _ ev Hp) as Hf. pose proof (wf_pruned _ _ _ _ Hwf Hp) as Hwf1.
  assert (db_events db1 !! EventID ev = None) as Hev1.
  { destruct (db_events db1 !! EventID ev) eqn:E; [|done].
    apply (lookup_weaken _ (db_events db)) in E; [congruence|apply Hp]. }
  destruct err as [err|].
  { eexists _, _, _, _. split; [done|]. split; try done; [by destruct ev|]. left. by rewrite Hev1, Hev. }
  assert (db_dlq db1 !! EventID ev = None) as Hdl1 by by rewrite (pr_dlq _ _ _ Hp).
  destruct (storeTx_spec env (deviceID s) db1 ev Hwf1 Hev1 Hdl1) as (db2 & ev' & res & -> & Hid & Hwf2 & Ho & Hdb2).
  eexists _, _, _, db2. split; [done|]. split; try done.
  - destruct Hdb2 as [->|[row ->]]; [done|by apply frame_insert].
  - unfold storeOutcome in *. by rewrite Hev1 in Ho; rewrite Hev.
Qed.

(** *** Dead-letter transaction *)

(** The event leaves [events] and is in the queue with this payload; a row
    already there is kept. *)
Record movedToDLQ (db db' : DB) (id : string) (seq : Z) (payload : string) : Prop := {
  mv_events : db_events db' = delete id (db_events db);
  mv_agent : db_agent db' = db_agent db;
  mv_row : exists row, db_dlq db' !! id = Some row /\ dl_payload row = payload /\
    (db_dlq db !! id = None -> dl_seq_no row = seq /\ dl_event_id row = id);
  mv_others : forall id', id' <> id -> db_dlq db' !! id' = db_dlq db !! id';
  mv_keep : forall r, db_dlq db !! id = Some r -> db_dlq db' !! id = Some r;
}.

Lemma moveRaw_spec env db id dev seq payload ft fr :
  exists db' res, moveRawToDLQLocked env db id dev seq payload ft fr = (db', res) /\
    (db' = db \/ movedToDLQ db db' id seq payload) /\
    (res = None -> movedToDLQ db db' id seq payload).
Proof.
  unfold moveRawToDLQLocked.
  destruct (sqlErr env BeginTx); [by eexists _, _; split_and!; [|left|]|].
  destruct (sqlErr env TxDLQById); [by eexists _, _; split_and!; [|left|]|].
  match goal with |- exists _ _, match ?ins with _ => _ end = _ /\ _ => destruct ins as [tx|err] eqn:Htx end.
  2:{ eexists _, _. split_and!; [done|by left|done]. }
  assert (movedToDLQ db (setEvents (delete id (db_events tx)) tx) id seq payload) as Hmv.
  { destruct (db_dlq db !! id) as [row|] eqn:Hdl.
    - destruct (String.eqb_spec (dl_payload row) payload); [|done]. injection Htx as <-.
      split; cbn; try done. by exists row; split_and!; [|done|congruence].
    - destruct (sqlErr env TxInsertDLQ); [done|]. injection Htx as <-. split; cbn; try done.
      + eexists. by rewrite lookup_insert_eq.
      + intros. by rewrite lookup_insert_ne.
      + congruence. }
  destruct (sqlErr env TxDeleteEvent); [by eexists _, _; split_and!; [|left|]|]. cbv zeta.
  destruct (sqlErr env CommitTx); [destruct (commitApplied env)|]; eexists _, _; (split_and!; [done| |try done]).
  - by right.
  - by left.
  - by right.
Qed.

Lemma moveRaw_wf env dev db id seq payload ft fr :
  wfDB dev db -> wfDB dev (moveRawToDLQLocked env db id dev seq payload ft fr).1.
Proof.
  intros Hwf. destruct (moveRaw_spec env db id dev seq payload ft fr) as (db' & res & -> & H & _). cbn.
  destruct H as [->|[He Ha (row & Hrow & _ & Hnew) Hoth Hkeep]]; [done|].
  destruct Hwf as [Hk Hr Hu (a & Hag & Hd & Hs) Hq].
  assert (db_events db' ⊆ db_events db) as Hsub by (rewrite He; apply delete_subseteq).
  split.
  - by eapply keyed_sub.
  - intros i r Hi. apply (Hr i). by eapply lookup_weaken.
  - intros i1 i2 r1 r2 H1 H2. apply Hu; by eapply lookup_weaken.
  - exists a. rewrite Ha. split_and!; [done|done|]. intros i r Hi. apply (Hs i). by eapply lookup_weaken.
  - intros i r Hi. rewrite He. destruct (decide (i = id)) as [->|Hne].
    + rewrite lookup_delete_eq. split; [|done]. destruct (db_dlq db !! id) as [r0|] eqn:Hd0.
      * rewrite (Hkeep r0 eq_refl) in Hi. injection Hi as <-. by apply Hq in Hd0 as [? _].
      * rewrite Hrow in Hi. injection Hi as <-. by apply Hnew.
    + rewrite Hoth in Hi by done. rewrite lookup_delete_ne by done. by apply Hq.
Qed.
(** *** The pending batch *)

Definition decodes (r : EventRow) : bool := is_ok (Deserialize (er_payload r)).

Lemma decodeRows_spec rows :
  Forall2 (fun r ev => Deserialize (er_payload r) = Ok ev) (filter (fun r => decodes r = true) rows) (decodeRows Deserialize rows).1 /\
  (decodeRows Deserialize rows).2 = filter (fun r => decodes r = false) rows.
Proof.
  induction rows as [|r rows [IH1 IH2]]; [done|]. cbn [decodeRows].
  assert (decodes r = is_ok (Deserialize (er_payload r))) as Hd by done.
  destruct (decodeRows Deserialize rows) as [evs bad]. cbn [fst snd] in *.
  destruct (Deserialize (er_payload r)) as [ev|err] eqn:E; cbn [is_ok] in Hd.
  - rewrite filter_cons_True, filter_cons_False by congruence. split; [by constructor|done].
  - rewrite filter_cons_False, filter_cons_True by congruence. cbn [fst snd]. split; [done|by subst].
Qed.

(** The tables after quarantining [rows]: each is deleted and in the queue. *)
Record quarantined (rows : list EventRow) (db db' : DB) : Prop := {
  qr_events : db_events db' = deleteRows (er_event_id <$> rows) (db_events db);
  qr_agent : db_agent db' = db_agent db;
  qr_rows : forall r, r ∈ rows -> exists q, db_dlq db' !! er_event_id r = Some q /\ dl_payload q = er_payload r;
  qr_others : forall id, id ∉ er_event_id <$> rows -> db_dlq db' !! id = db_dlq db !! id;
}.

Lemma quarantine_wf dev envs db rows :
  wfDB dev db -> (forall r, r ∈ rows -> er_device_id r = dev) -> wfDB dev (quarantine envs db rows).1.
Proof.
  revert db. induction rows as [|r rows IH]; intros db Hwf Hdev; [done|]. cbn [quarantine].
  rewrite (Hdev r) by left.
  pose proof (moveRaw_wf (envs (er_event_id r)) dev db (er_event_id r) (er_seq_no r) (er_payload r)
    "local_deserialization_error" "Failed to deserialize JSON" Hwf) as Hwf'.
  destruct (moveRawToDLQLocked _ _ _ _ _ _ _ _) as [db' [err|]]; [done|]. cbn in Hwf'.
  apply IH; [done|]. intros x Hx. apply Hdev. by right.
Qed.

Lemma deleteRows_delete ids k m : deleteRows ids (delete k m) = deleteRows (k :: ids) m.
Proof.
  apply map_eq. intros id. rewrite !deleteRows_lookup. destruct (decide (id = k)) as [->|Hne].
  - rewrite lookup_delete_eq. rewrite (decide_True (P := k ∈ k :: ids)) by left. by case_decide.
  - rewrite lookup_delete_ne by done. destruct (decide (id ∈ ids)).
    + by rewrite decide_True by by right.
    + rewrite decide_False; [done|]. rewrite not_elem_of_cons. done.
Qed.

Lemma quarantine_spec envs db rows db' :
  NoDup (er_event_id <$> rows) -> quarantine envs db rows = (db', None) -> quarantined rows db db'.
Proof.
  revert db. induction rows as [|r rows IH]; intros db Hnd; cbn [quarantine].
  { intros [= <-]. split; try done. set_solver. }
  apply NoDup_cons in Hnd as [Hr Hnd].
  destruct (moveRaw_spec (envs (er_event_id r)) db (er_event_id r) (er_device_id r) (er_seq_no r) (er_payload r)
    "local_deserialization_error" "Failed to deserialize JSON") as (db1 & res & -> & _ & Hmv).
  destruct res as [err|]; [done|]. destruct (Hmv eq_refl) as [He Ha (q & Hq & Hp & _) Hoth _].
  intros [He' Ha' Hrows Hoth']%IH; [|done]. split.
  - rewrite He', He. apply deleteRows_delete.
  - congruence.
  - intros x [->|Hx]%elem_of_cons; [|by apply Hrows]. exists q. by rewrite Hoth'.
  - intros id [Hne Hn]%not_elem_of_cons. rewrite Hoth' by done. by apply Hoth.
Qed.

(** *** Operations preserve well-formedness *)
Lemma wf_markFailed dev db id r n t :
  wfDB dev db -> db_events db !! id = Some r ->
  wfDB dev (setEvents (<[id := rescheduled n t r]> (db_events db)) db).
Proof.
  intros [Hk Hr Hu (a & Ha & Hd & Hs) Hq] Hid. split; cbn [db_events db_dlq db_agent setEvents].
  - intros i x. rewrite lookup_insert_Some. intros [[<- <-]|[_ ?]]; [exact (Hk _ _ Hid)|by apply Hk].
  - intros i x. rewrite lookup_insert_Some. intros [[<- <-]|[_ ?]]; [exact (Hr _ _ Hid)|by eapply Hr].
  - intros i1 i2 r1 r2. rewrite !lookup_insert_Some.
    intros [[<- <-]|[? H1]] [[<- <-]|[? H2]]; cbn; try done; intros Heq;
      [by apply (Hu _ _ _ _ Hid H2)|by apply (Hu _ _ _ _ H1 Hid)|by apply (Hu _ _ _ _ H1 H2)].
  - exists a. split_and!; try done. intros i x. rewrite lookup_insert_Some.
    intros [[<- <-]|[_ H]]; [exact (Hs _ _ Hid)|by eapply Hs].
  - intros i x Hi. destruct (Hq i x Hi) as [? Hn]. split; [done|]. rewrite lookup_insert_ne; [done|]. intros <-. congruence.
Qed.

Lemma wf_delete dev db id :
  wfDB dev db -> wfDB dev (setEvents (delete id (db_events db)) db).
Proof. intros Hwf. eapply wf_sub; [done| |done|done]. apply delete_subseteq. Qed.

(** The operations, with the environment each ran in. *)
Inductive storageStep : SQLiteStorage -> SQLiteStorage -> Prop :=
  | step_store env s ev s' ev' res : Store Serialize env s ev = Some (s', ev', res) -> storageStep s s'
  | step_dlq env s ev ft fr s' res : MoveToDLQ Serialize env s ev ft fr = (s', res) -> storageStep s s'
  | step_remove env s id s' res : RemoveEvent env s id = (s', res) -> storageStep s s'
  | step_failed env s id ra s' res : MarkFailed env s id ra = (s', res) -> storageStep s s'
  | step_pending env envs s n s' res : GetPendingEvents Deserialize env envs s n = (s', res) -> storageStep s s'.

Definition wfStorage (s : SQLiteStorage) : Prop :=
  match s_db s with Some db => wfDB (deviceID s) db | None => True end.

Lemma step_wf s s' : storageStep s s' -> wfStorage s -> wfStorage s'.
Proof.
  unfold wfStorage. intros Hstep Hwf. destruct (s_db s) as [db|] eqn:Hdb.
  2:{ destruct Hstep as [env s ev s' ev' res H|env s ev ft fr s' res H|env s id s' res H|env s id ra s' res H
                        |env envs s n s' res H];
      [unfold Store in H|unfold MoveToDLQ in H|unfold RemoveEvent in H|unfold MarkFailed in H|unfold GetPendingEvents in H];
      rewrite Hdb in H; try destruct (Serialize ev); simplify_eq; by rewrite Hdb. }
  destruct Hstep as [env s ev s' ev' res H|env s ev ft fr s' res H|env s id s' res H|env s id ra s' res H
                    |env envs s n s' res H].
  - destruct (store_result env s db ev Hdb Hwf) as (? & ? & ? & db' & H' & [Hs' [_ Hd] _ Hwf' _ _]).
    rewrite H in H'. simplify_eq. by rewrite Hs', Hd.
  - unfold MoveToDLQ in H. rewrite Hdb in H. destruct (Serialize ev); [|by simplify_eq; rewrite Hdb].
    pose proof (moveRaw_wf env (deviceID s) db (EventID ev) (SeqNo ev) a ft fr Hwf) as Hwf'.
    destruct (moveRawToDLQLocked _ _ _ _ _ _ _ _). by simplify_eq.
  - unfold RemoveEvent in H. rewrite Hdb in H. destruct (sqlErr env DeleteEvent); simplify_eq; [by rewrite Hdb|].
    by apply wf_delete.
  - unfold MarkFailed in H. rewrite Hdb in H. destruct (sqlErr env QAttempts); [by simplify_eq; rewrite Hdb|].
    destruct (db_events db !! id) as [r|] eqn:Hid; [|by simplify_eq; rewrite Hdb].
    destruct (sqlErr env UpdateAttempt); simplify_eq; [by rewrite Hdb|]. by apply wf_markFailed.
  - unfold GetPendingEvents in H. rewrite Hdb in H.
    destruct (sqlErr env QPending), (sqlErr env ScanPending); try (by simplify_eq; rewrite Hdb).
    destruct (decodeRows_spec (selectBySeq (due (now env)) n (db_events db))) as [_ Hbad].
    destruct (decodeRows _ _) as [evs bad]. cbn in Hbad. subst bad.
    set (bad := filter _ _) in *.
    assert (wfDB (deviceID s) (quarantine envs db bad).1) as Hq.
    { apply quarantine_wf; [done|]. intros r [_ [_ [id Hr]]%select_elem]%list_elem_of_filter.
      by apply (wf_row _ _ Hwf id). }
    destruct (quarantine _ _ _) as [db' [err|]]; simplify_eq; done.
Qed.
End Specification.

(** *** Pruning when the files do not shrink *)

Definition noSqlErrors (env : Env) : Prop := forall c, sqlErr env c = None.

Lemma pruneSeverity_stuck env quota est sev fuel i db r :
  noSqlErrors env ->
  (forall c, pruneTarget quota <= i64 (sizeOrZero (getTotalSize env c) + est)) ->
  pruneSeverity env quota est sev fuel i db = Some r -> r.1 = Exhausted.
Proof.
  intros Hno Hsz. revert i db. induction fuel as [|fuel IH]; intros i db; cbn [pruneSeverity]; [done|].
  rewrite (proj2 (Z.ltb_ge _ _) (Hsz _)), !Hno. destruct (_ =? 0); [by intros [= <-]|apply IH].
Qed.

Lemma pruneAll_stuck env quota est sevs db r :
  noSqlErrors env ->
  (forall c, pruneTarget quota <= i64 (sizeOrZero (getTotalSize env c) + est)) ->
  pruneAll env quota est sevs db = Some r -> r.1 = Exhausted.
Proof.
  intros Hno Hsz. revert db. induction sevs as [|sev sevs IH]; intros db; cbn [pruneAll]; [by intros [= <-]|].
  destruct (pruneSeverity _ _ _ _ _ _ _) as [[exit db']|] eqn:E; [|done]. cbn [mbind option_bind].
  apply pruneSeverity_stuck in E; [|done|done]. cbn in E. subst exit. apply IH.
Qed.

(** The backoff formula of the source comment. *)
Definition exponentialBackoff (n : Z) : Z := Z.min maxBackoffSeconds (5 * 2 ^ n).

Lemma backoff_formula n : 0 <= n -> backoffSeconds n = exponentialBackoff n.
Proof.
  intros Hn. unfold backoffSeconds, exponentialBackoff, maxBackoffSeconds.
  destruct (Z.leb_spec 10 n) as [H|H].
  - assert (2 ^ 10 <= 2 ^ n) by (apply Z.pow_le_mono_r; lia). change (2 ^ 10) with 1024 in *. lia.
  - rewrite Z.shiftl_mul_pow2, Z.mul_1_l by lia. destruct (Z.ltb_spec 3600 (5 * 2 ^ n)); lia.
Qed.

(** A codec and an environment for the witnesses: the payload is the event's
    id, severity and sequence number. *)
Definition demoSerialize (e : CanonicalEvent) : result string :=
  Ok (EventID e ^^ "/" ^^ Severity e ^^ "/" ^^ fmt_d (SeqNo e)).

Definition quietEnv : Env := {|
  sqlErr := fun _ => None; commitApplied := false; txCheckOk := true;
  stat := fun _ _ => StatSize 1000; now := 1700000000; nowNano := 17 |}.

Definition emptyDB : DB := {| db_events := ∅; db_dlq := ∅; db_agent := None |}.

Definition freshDB : DB :=
  match initIdentity FileMissing "device-1" emptyDB with Ok (db, _) => db | Err _ => emptyDB end.

Definition freshStorage : SQLiteStorage :=
  {| quotaBytes := 104857600; deviceID := "device-1"; s_db := Some freshDB |}.

Lemma wf_init dev a :
  as_device_id a = dev -> wfDB dev {| db_events := ∅; db_dlq := ∅; db_agent := Some a |}.
Proof. intros Ha. split; cbn; try (by intros; simplify_map_eq). by exists a. Qed.

Lemma freshDB_wf : wfDB "device-1" freshDB.
Proof. by apply wf_init. Qed.

(** Storing an event again finds its own row. *)
Lemma store_again Serialize env env' s db ev s' ev' n :
  s_db s = Some db -> wfDB (deviceID s) db ->
  Store Serialize env s ev = Some (s', ev', None) ->
  EventID ev <> ""%string ->
  sqlErr env' QEventById = None -> sqlErr env' QDLQById = None ->
  Store Serialize env' s' (setSeqNo n ev) = Some (s', ev', None).
Proof.
  intros Hdb Hwf Hst Hne Hq1 Hq2.
  destruct (store_result Serialize env s db ev Hdb Hwf) as (? & ? & ? & db' & H & [Hs' [_ Hd] Hev Hwf' _ Ho]).
  rewrite Hst in H. simplify_eq. cbn in Ho. unfold Store. rewrite Hs'.
  change (EventID (setSeqNo n ev)) with (EventID ev).
  rewrite (proj2 (String.eqb_neq _ _) Hne), Hq1.
  assert (forall seq p m, seq = SeqNo ev' -> p = bytesOrNil (Serialize ev') ->
            replayCheck Serialize seq p m (setSeqNo n ev) = (ev', None)) as Hreplay.
  { intros seq p m -> ->. unfold replayCheck.
    assert (setSeqNo (SeqNo ev') (setSeqNo n ev) = ev') as -> by (rewrite Hev; done).
    by rewrite String.eqb_refl. }
  destruct Ho as [(r & Hr & Hseq & Hp)|(r & Hr & Hseq & Hp)].
  - by rewrite Hr, (Hreplay _ _ _ Hseq Hp).
  - destruct (wf_dlq _ _ Hwf' _ _ Hr) as [_ Hn]. by rewrite Hn, Hq2, Hr, (Hreplay _ _ _ Hseq Hp).
Qed.

(** ** Properties *)

(** C6: [Store] means what its result says.  On well-formed tables it always
    returns, for any database failure at any statement.  A nil result means the
    event is durably recorded with the sequence number now in the event and a
    payload that serialises it; [ErrStoreFailedBeforeCommit] means nothing was
    recorded for it; [ErrStoreUncertain] means it is either absent or recorded
    exactly so.  Nothing else changes except rows of prunable severity lost to
    the quota, and the tables stay well formed. *)
Theorem store_sound Serialize env s db ev :
  s_db s = Some db -> wfDB (deviceID s) db ->
  exists s' ev' res db', Store Serialize env s ev = Some (s', ev', res) /\
    s_db s' = Some db' /\ wfDB (deviceID s) db' /\ ev' = setSeqNo (SeqNo ev') ev /\
    storeOutcome Serialize db db' ev ev' res /\ storeFrame db db' ev.
Proof.
  intros Hdb Hwf. destruct (store_result Serialize env s db ev Hdb Hwf) as (s' & ev' & res & db' & ? & []).
  by exists s', ev', res, db'.
Qed.

Lemma store_sound_witness :
  exists s' ev' res db', Store demoSerialize quietEnv freshStorage (sampleEvent "e1" "INFO") = Some (s', ev', res) /\
    s_db s' = Some db' /\ wfDB "device-1" db' /\ ev' = setSeqNo (SeqNo ev') (sampleEvent "e1" "INFO") /\
    storeOutcome demoSerialize freshDB db' (sampleEvent "e1" "INFO") ev' res /\
    storeFrame freshDB db' (sampleEvent "e1" "INFO").
Proof.
  apply (store_sound demoSerialize quietEnv freshStorage freshDB); [reflexivity|apply freshDB_wf].
Defined.

(** C15: [Store] is idempotent.  After a successful call, storing the same event
    again, whatever sequence number the caller's copy carries, succeeds, changes
    nothing in the tables (no quota pruning either) and gives the event its
    original sequence number, provided the two lookups do not fail. *)
Theorem store_idempotent Serialize env env' s db ev s' ev' n :
  s_db s = Some db -> wfDB (deviceID s) db ->
  Store Serialize env s ev = Some (s', ev', None) ->
  EventID ev <> ""%string ->
  sqlErr env' QEventById = None -> sqlErr env' QDLQById = None ->
  Store Serialize env' s' (setSeqNo n ev) = Some (s', ev', None).
Proof. apply store_again. Qed.

Lemma store_idempotent_witness :
  exists s' ev', Store demoSerialize quietEnv freshStorage (sampleEvent "e1" "INFO") = Some (s', ev', None) /\
    Store demoSerialize quietEnv s' (setSeqNo 99 (sampleEvent "e1" "INFO")) = Some (s', ev', None).
Proof.
  eexists _, _.
  match goal with |- ?A /\ _ => assert A as H by (vm_compute; reflexivity) end.
  split; [exact H|].
  exact (store_idempotent demoSerialize quietEnv quietEnv freshStorage freshDB (sampleEvent "e1" "INFO") _ _ 99
           eq_refl freshDB_wf H ltac:(discriminate) eq_refl eq_refl).
Defined.

(** C17: The quota never touches what matters.  Enforcing it always ends; it
    deletes only DEBUG, INFO and WARNING events, never CRITICAL or FATAL ones or
    dead letters, always the least severe and among those the oldest first; it
    leaves the device id and the next sequence number alone; and unless a
    counter update failed, the loss counters grow by exactly the number of rows
    deleted. *)
Theorem quota_prunes_in_order env quota sev est db dev :
  wfDB dev db ->
  exists err db', enforceQuota env quota sev est db = Some (err, db') /\
    pruned ["DEBUG"; "INFO"; "WARNING"]%string db db' /\
    (forall id r, db_events db !! id = Some r -> isCritical (er_severity r) = true ->
                  db_events db' !! id = Some r) /\
    (countsOk env -> counted db db').
Proof.
  intros Hwf. destruct (enforceQuota_spec env quota sev est db (wf_keyed _ _ Hwf)) as (err & db' & He & Hp & Hc).
  exists err, db'. split_and!; try done. intros id r Hr Hcrit.
  destruct (db_events db' !! id) as [r'|] eqn:E.
  - f_equal. exact (sub_lookup _ _ _ _ _ Hr E (pr_sub _ _ _ Hp)).
  - pose proof (pr_gone _ _ _ Hp _ _ Hr E) as Hin. apply list_elem_of_In in Hin.
    by destruct Hin as [H|[H|[H|[]]]]; rewrite <- H in Hcrit.
Qed.

Lemma quota_prunes_in_order_witness :
  exists err db', enforceQuota quietEnv 100 "INFO" 50 freshDB = Some (err, db') /\
    pruned prunableSeverities freshDB db' /\
    (forall id r, db_events freshDB !! id = Some r -> isCritical (er_severity r) = true ->
                  db_events db' !! id = Some r) /\
    (countsOk quietEnv -> counted freshDB db').
Proof. apply (quota_prunes_in_order quietEnv 100 "INFO" 50 freshDB "device-1"), freshDB_wf. Defined.

(** C16: Every reachable database is well formed.  After [initIdentity] on an
    empty database and any sequence of storage operations, each with any
    database failures, two stored events never share a sequence number, every
    stored number is below the next one to be assigned, and no event is both
    pending and dead-lettered. *)
Theorem storage_invariant Serialize Deserialize file newID quota db0 d s db :
  initIdentity file newID emptyDB = Ok (db0, d) ->
  rtc (storageStep Serialize Deserialize) {| quotaBytes := quota; deviceID := d; s_db := Some db0 |} s ->
  s_db s = Some db ->
  (forall id1 id2 r1 r2, db_events db !! id1 = Some r1 -> db_events db !! id2 = Some r2 ->
     er_seq_no r1 = er_seq_no r2 -> id1 = id2) /\
  (exists a, db_agent db = Some a /\
     forall id r, db_events db !! id = Some r -> er_event_id r = id /\ er_seq_no r < as_next_seq_no a) /\
  (forall id, is_Some (db_events db !! id) -> db_dlq db !! id = None).
Proof.
  intros Hinit Hr Hdb.
  assert (wfStorage {| quotaBytes := quota; deviceID := d; s_db := Some db0 |}) as Hwf.
  { unfold initIdentity in Hinit. cbn in *. destruct (migrateOrGenerateID file newID); [|done].
    simplify_eq. by apply wf_init. }
  assert (wfStorage s) as Hs.
  { clear Hinit Hdb. induction Hr as [|s1 s2 s3 Hst _ IH]; [done|]. apply IH. by eapply step_wf. }
  unfold wfStorage in Hs. rewrite Hdb in Hs. destruct Hs as [Hk _ Hu (a & Ha & _ & Hs) Hq].
  split_and!; [done| |].
  - exists a. split; [done|]. intros id r Hid. split; [by apply Hk|by eapply Hs].
  - intros id [r Hid]. destruct (db_dlq db !! id) as [q|] eqn:E; [|done].
    destruct (Hq _ _ E). congruence.
Qed.

Definition afterStore : SQLiteStorage :=
  match Store demoSerialize quietEnv freshStorage (sampleEvent "e1" "INFO") with
  | Some (s, _, _) => s
  | None => freshStorage
  end.

Lemma storage_invariant_witness :
  exists db, s_db afterStore = Some db /\ is_Some (db_events db !! "e1"%string) /\
    forall id, is_Some (db_events db !! id) -> db_dlq db !! id = None.
Proof.
  destruct (s_db afterStore) as [db|] eqn:Hdb; [|vm_compute in Hdb; discriminate].
  exists db. split; [reflexivity|]. split.
  - assert (H : match s_db afterStore with Some db => is_Some (db_events db !! "e1"%string) | None => False end)
      by (vm_compute; eexists; reflexivity).
    rewrite Hdb in H. exact H.
  - apply (storage_invariant demoSerialize (fun _ => Err (ErrNew "bad")) FileMissing "device-1" 104857600
             freshDB "device-1" afterStore db); [reflexivity| |exact Hdb].
    eapply rtc_l; [|apply rtc_refl].
    apply (step_store _ _ quietEnv freshStorage (sampleEvent "e1" "INFO") afterStore
             (match Store demoSerialize quietEnv freshStorage (sampleEvent "e1" "INFO") with
              | Some (_, e, _) => e | None => sampleEvent "e1" "INFO" end) None).
    vm_compute. reflexivity.
Defined.

(** C19: Dead-lettering is atomic.  Whatever fails, moving an event to the queue
    either leaves the tables as they were or completes; a nil result means the
    event is out of [events] and in the queue with the serialised payload; and
    no event, this one or another, is ever lost from both tables. *)
Theorem dlq_atomic Serialize env s db ev ft fr s' res :
  s_db s = Some db -> MoveToDLQ Serialize env s ev ft fr = (s', res) ->
  exists db', s_db s' = Some db' /\
    (db' = db \/ movedToDLQ db db' (EventID ev) (SeqNo ev) (bytesOrNil (Serialize ev))) /\
    (res = None -> db_events db' !! EventID ev = None /\
       exists q, db_dlq db' !! EventID ev = Some q /\ Serialize ev = Ok (dl_payload q)) /\
    (forall id, is_Some (db_events db !! id) \/ is_Some (db_dlq db !! id) ->
                is_Some (db_events db' !! id) \/ is_Some (db_dlq db' !! id)).
Proof.
  intros Hdb. unfold MoveToDLQ. destruct (Serialize ev) as [payload|err]; rewrite ?Hdb.
  2:{ intros [= <- <-]. exists db. rewrite Hdb. split_and!; try done. by left. }
  destruct (moveRaw_spec env db (EventID ev) (deviceID s) (SeqNo ev) payload ft fr)
    as (db' & r & -> & Hcase & Hok).
  intros [= <- <-]. exists db'. split_and!; [done|done| |].
  - intros Hr. destruct (Hok Hr) as [He _ (q & Hq & Hp & _) _ _]. rewrite He, lookup_delete_eq.
    split; [done|]. exists q. by rewrite Hp.
  - destruct Hcase as [->|[He _ (q & Hq & _) Hoth _]]; [done|]. intros id.
    destruct (decide (id = EventID ev)) as [->|Hne]; [right; by exists q|].
    by rewrite He, lookup_delete_ne, Hoth by done.
Qed.

Lemma dlq_atomic_witness :
  exists db', s_db (MoveToDLQ demoSerialize quietEnv freshStorage (sampleEvent "e1" "INFO") "http_400" "bad").1 = Some db' /\
    db_dlq db' !! "e1"%string <> None.
Proof.
  destruct (dlq_atomic demoSerialize quietEnv freshStorage freshDB (sampleEvent "e1" "INFO") "http_400" "bad"
              (MoveToDLQ demoSerialize quietEnv freshStorage (sampleEvent "e1" "INFO") "http_400" "bad").1 None
              eq_refl eq_refl) as (db' & Hdb & _ & Hok & _).
  exists db'. split; [exact Hdb|]. destruct (Hok eq_refl) as [_ (q & Hq & _)].
  change (EventID (sampleEvent "e1" "INFO")) with "e1"%string in Hq. rewrite Hq. discriminate.
Defined.

Lemma nextAttemptCount_range n : 0 <= nextAttemptCount n <= MaxInt64.
Proof.
  unfold nextAttemptCount. cbv zeta. pose proof (i64_range (n + 1)) as H. unfold in_i64 in H.
  destruct (Z.ltb_spec (i64 (n + 1)) 0); [int_lits; lia|lia].
Qed.

(** C39: The retry schedule is bounded and grows, for every attempt count an
    int64 column can hold, its largest value included: the count goes up by
    one, or restarts at 1 where that would overflow, and is never negative.
    On a clock past 1970 the event then waits min(3600, 5 * 2^attempt) seconds
    plus 0 to 9 seconds of jitter, or the server's Retry-After capped at a day;
    never less than a second, never an int64 overflow when converted to a
    Duration; and more attempts never shorten the backoff. *)
Theorem retry_schedule nano attempts retryAfter :
  in_i64 attempts -> 0 <= nano ->
  let n := nextAttemptCount attempts in
  let d := retryDelay nano n retryAfter in
  in_i64 n /\ (0 <= attempts < MaxInt64 -> n = attempts + 1) /\ (attempts = MaxInt64 -> n = 1) /\
  1 <= d <= maxRetryAfterSeconds /\ in_i64 (d * Second) /\
  (0 < retryAfter -> d = Z.min retryAfter maxRetryAfterSeconds) /\
  (retryAfter <= 0 -> let b := exponentialBackoff n in b <= d <= b + 9) /\
  (forall n m, 0 <= n <= m -> backoffSeconds n <= backoffSeconds m).
Proof.
  intros Ha Hn n d. pose proof (nextAttemptCount_range attempts) as Hc. fold n in Hc.
  pose proof (backoff_formula n ltac:(lia)) as Hb. pose proof (Z.rem_bound_pos nano 10 Hn ltac:(lia)) as Hrem.
  assert (1 <= 2 ^ n) by (pose proof (Z.pow_pos_nonneg 2 n); lia).
  assert (forall n m, 0 <= n <= m -> backoffSeconds n <= backoffSeconds m) as Hmono.
  { intros x y Hxy. rewrite !backoff_formula by lia. unfold exponentialBackoff.
    pose proof (Z.pow_le_mono_r 2 x y ltac:(lia) ltac:(lia)). lia. }
  split; [int_lits; lia|]. split.
  { intros Hlt. unfold n, nextAttemptCount. rewrite i64_small by (int_lits; lia). cbv zeta.
    destruct (Z.ltb_spec (attempts + 1) 0); [lia|done]. }
  split; [intros E; unfold n; rewrite E; vm_compute; reflexivity|].
  unfold d, retryDelay, exponentialBackoff, maxRetryAfterSeconds, maxBackoffSeconds, Second, in_i64 in *. rewrite Hb.
  destruct (Z.ltb_spec 0 retryAfter), (Z.ltb_spec 86400 retryAfter); int_lits;
    (split_and!; [lia..| | |done]); cbv zeta; lia.
Qed.

(** The third attempt, and the attempt after the largest count. *)
Lemma retry_schedule_witness :
  (nextAttemptCount 2 = 3 /\ 40 <= retryDelay 17 (nextAttemptCount 2) 0 <= 49) /\
  (nextAttemptCount MaxInt64 = 1 /\ 1 <= retryDelay 17 (nextAttemptCount MaxInt64) 0 <= maxRetryAfterSeconds).
Proof.
  split.
  - destruct (retry_schedule 17 2 0 ltac:(vm_compute; split; congruence) ltac:(lia))
      as (_ & Hn & _ & _ & _ & _ & Hd & _).
    split; [apply Hn; vm_compute; split; congruence|]. specialize (Hd ltac:(lia)). exact Hd.
  - destruct (retry_schedule 17 MaxInt64 0 ltac:(vm_compute; split; congruence) ltac:(lia))
      as (_ & _ & Hn & Hd & _).
    split; [by apply Hn|exact Hd].
Defined.

(** C18: The forwarder's batch is complete, ordered and loss-free.  When
    [GetPendingEvents] succeeds, there is a list of distinct rows, due at the
    time of the call, sorted by sequence number, such that it holds every due
    row or else exactly [limit] rows, each before every due row it leaves out;
    the result is the decoding, in order, of those that decode, and exactly the
    others have left [events] for the dead-letter queue with their payload. *)
Theorem pending_batch Deserialize env envs s db limit s' evs :
  s_db s = Some db -> wfDB (deviceID s) db ->
  GetPendingEvents Deserialize env envs s limit = (s', Ok evs) ->
  exists db' batch, s_db s' = Some db' /\
    StronglySorted seqLe batch /\ NoDup (er_event_id <$> batch) /\ (length batch <= limit)%nat /\
    (length batch = limit \/
     forall r, due (now env) r = true -> db_events db !! er_event_id r = Some r -> r ∈ batch) /\
    (forall r, r ∈ batch -> due (now env) r = true /\ db_events db !! er_event_id r = Some r) /\
    (forall r r', r ∈ batch -> due (now env) r' = true -> db_events db !! er_event_id r' = Some r' ->
                  r' ∉ batch -> er_seq_no r <= er_seq_no r') /\
    Forall2 (fun r ev => Deserialize (er_payload r) = Ok ev) (filter (fun r => decodes Deserialize r = true) batch) evs /\
    quarantined (filter (fun r => decodes Deserialize r = false) batch) db db' /\ wfDB (deviceID s) db'.
Proof.
  intros Hdb Hwf H.
  assert (wfStorage s') as Hwf'.
  { apply (step_wf demoSerialize Deserialize s s'); [by eapply step_pending|]. unfold wfStorage. by rewrite Hdb. }
  unfold GetPendingEvents in H. rewrite Hdb in H.
  destruct (sqlErr env QPending), (sqlErr env ScanPending); try done.
  set (batch := selectBySeq (due (now env)) limit (db_events db)) in *.
  destruct (decodeRows_spec Deserialize batch) as [Hgood Hbad].
  destruct (decodeRows Deserialize batch) as [results corrupt]. cbn in Hgood, Hbad. subst corrupt.
  destruct (quarantine _ _ _) as [db' [err|]] eqn:Hq; [done|]. injection H as <- <-.
  pose proof (wf_keyed _ _ Hwf) as Hk.
  exists db', batch. split_and!; try done.
  - by destruct (select_split (due (now env)) limit (db_events db)) as (_ & _ & ? & _).
  - by apply select_nodup.
  - apply select_length.
  - apply select_full.
  - intros r [Hd [id Hr]]%select_elem. split; [done|]. by rewrite (Hk _ _ Hr).
  - intros r r' Hr Hd Hr' Hn. by eapply select_first.
  - apply (quarantine_spec envs); [|exact Hq].
    pose proof (select_nodup (due (now env)) limit (db_events db) Hk) as Hnd. fold batch in Hnd.
    clear -Hnd. induction batch as [|r l IH]; [constructor|]. rewrite filter_cons.
    apply NoDup_cons in Hnd as [Hr Hnd]. case_decide; [|by apply IH]. cbn. apply NoDup_cons. split; [|by apply IH].
    intros (x & Hx & Hin)%list_elem_of_fmap. apply Hr. rewrite Hx. apply list_elem_of_fmap_2.
    by apply list_elem_of_filter in Hin as [_ ?].
Qed.

(** A store holding one row whose payload no longer decodes. *)
Definition corruptRow : EventRow := {|
  er_event_id := "e1"; er_device_id := "device-1"; er_seq_no := 0; er_severity := "INFO"; er_payload := "{";
  er_state := "PENDING"; er_attempt_count := 0; er_next_attempt_at := None |}.
Definition corruptStorage : SQLiteStorage :=
  setDB (setEvents {["e1"%string := corruptRow]} freshDB) freshStorage.

Lemma corruptStorage_wf : wfDB "device-1" (setEvents {["e1"%string := corruptRow]} freshDB).
Proof.
  split; cbn.
  - intros id r. rewrite lookup_singleton_Some. by intros [<- <-].
  - intros id r. rewrite lookup_singleton_Some. by intros [<- <-].
  - intros id1 id2 r1 r2. rewrite !lookup_singleton_Some. by intros [<- _] [<- _].
  - eexists. split_and!; [done|done|]. intros id r. rewrite lookup_singleton_Some. intros [<- <-]. cbn. lia.
  - intros id r. by rewrite lookup_empty.
Qed.

Lemma pending_batch_witness :
  let s' := (GetPendingEvents (fun _ => Err (ErrNew "bad")) quietEnv (fun _ => quietEnv) corruptStorage 50).1 in
  exists db' batch, s_db s' = Some db' /\ batch = [corruptRow] /\
    quarantined (filter (fun r => decodes (fun _ => Err (ErrNew "bad")) r = false) batch)
      (setEvents {["e1"%string := corruptRow]} freshDB) db'.
Proof.
  intros s'. destruct (pending_batch (fun _ => Err (ErrNew "bad")) quietEnv (fun _ => quietEnv) corruptStorage
    (setEvents {["e1"%string := corruptRow]} freshDB) 50 s' []
    eq_refl corruptStorage_wf ltac:(vm_compute; reflexivity)) as (db' & batch & Hdb & _ & Hnd & _ & Hall & Hin & _ & _ & Hq & _).
  exists db', batch. split; [exact Hdb|split; [|exact Hq]].
  clear Hdb Hq.
  assert (forall r, r ∈ batch -> r = corruptRow) as Hone.
  { intros r [_ Hr]%Hin. cbn in Hr. apply lookup_singleton_Some in Hr as [_ Hr]. by symmetry. }
  destruct batch as [|r1 [|r2 batch]].
  - destruct Hall as [H|H]; [discriminate|]. exfalso. apply (not_elem_of_nil corruptRow), H; reflexivity.
  - f_equal. apply Hone. left.
  - exfalso. rewrite (Hone r1), (Hone r2) in Hnd by (repeat constructor).
    apply NoDup_cons in Hnd as [Hnd _]. apply Hnd. left.
Defined.

(** Pruning cannot relieve a database file that does not shrink.  SQLite
    returns the pages of deleted rows to the file's free list, not to the file
    system, and the code never runs VACUUM; when therefore the measured size
    stays at or above the quota, enforcing it deletes every DEBUG, INFO and
    WARNING event in the store and still refuses the incoming one unless it is
    CRITICAL or FATAL. *)
Theorem pruning_cannot_free_space env quota sev est db dev :
  wfDB dev db -> noSqlErrors env ->
  (forall c, exists n, getTotalSize env c = Ok n /\ quota <= i64 (n + est) /\ pruneTarget quota <= i64 (n + est)) ->
  exists err db', enforceQuota env quota sev est db = Some (err, db') /\
    (forall id r, db_events db' !! id = Some r -> er_severity r ∉ ["DEBUG"; "INFO"; "WARNING"]%string) /\
    (isCritical sev = false -> err <> None).
Proof.
  intros Hwf Hno Hsz. unfold enforceQuota. destruct (Hsz SizeFirst) as (n0 & -> & Hq0 & _).
  rewrite (proj2 (Z.ltb_ge _ _) Hq0).
  destruct (pruneAll_spec env quota est prunableSeverities db (wf_keyed _ _ Hwf) prunable_nodup ltac:(done))
    as (exit & db' & Hrun & _ & _ & Hx).
  pose proof (pruneAll_stuck env quota est prunableSeverities db (exit, db') Hno) as Hstuck.
  rewrite Hrun. cbn [mbind option_bind].
  assert (exit = Exhausted) as ->.
  { apply Hstuck; [|done]. intros c. by destruct (Hsz c) as (n & -> & _ & ?). }
  destruct (Hsz SizeLast) as (n1 & -> & Hq1 & _). cbn [sizeOrZero].
  rewrite (proj2 (Z.leb_le _ _) Hq1), Hno.
  destruct (isCritical sev); eexists _, _; (split; [done|]); (split; [by apply Hx|done]).
Qed.

Definition fullEnv : Env := {|
  sqlErr := fun _ => None; commitApplied := false; txCheckOk := true;
  stat := fun _ f => if f =s "" then StatSize 104857600 else StatNotExist; now := 1700000000; nowNano := 0 |}.

Lemma pruning_cannot_free_space_witness :
  exists err db', enforceQuota fullEnv 104857600 "INFO" 2048 (setEvents {["e1"%string := corruptRow]} freshDB)
      = Some (err, db') /\
    (forall id r, db_events db' !! id = Some r -> er_severity r ∉ prunableSeverities) /\
    (isCritical "INFO" = false -> err <> None).
Proof.
  apply (pruning_cannot_free_space fullEnv 104857600 "INFO" 2048 _ "device-1" corruptStorage_wf).
  - intros c. reflexivity.
  - intros c. exists 104857600. vm_compute. split_and!; congruence.
Defined.

(** Dead letters can share a sequence number with live events.  When a
    commit fails and was rolled back, [Store] has already written the tentative
    number into the event; recovering that event to the dead-letter queue
    stores the number there, and the next successful [Store] assigns the same
    number to another event. *)
Theorem dlq_seq_reused :
  exists env s1 a' res1 s2 s3 b' db,
    Store demoSerialize env freshStorage (sampleEvent "a" "INFO") = Some (s1, a', Some res1) /\
    errors_Is res1 ErrStoreUncertain = true /\
    MoveToDLQ demoSerialize quietEnv s1 a' "uncertain_commit" "x" = (s2, None) /\
    Store demoSerialize quietEnv s2 (sampleEvent "b" "INFO") = Some (s3, b', None) /\
    s_db s3 = Some db /\
    exists q r, db_dlq db !! "a"%string = Some q /\ db_events db !! "b"%string = Some r /\
      dl_seq_no q = er_seq_no r.
Proof.
  exists {| sqlErr := fun c => match c with CommitTx => Some (ErrNew "disk I/O error") | _ => None end;
            commitApplied := false; txCheckOk := true; stat := fun _ _ => StatSize 1000;
            now := 1700000000; nowNano := 0 |}.
  eexists _, _, _, _, _, _, _. split_and!; [vm_compute; reflexivity..|].
  eexists _, _. split_and!; vm_compute; reflexivity.
Qed.
