(* ===== verification/Identity.v ===== *)
(** The identity file (agent/internal/identity/identity.go) and the heartbeat
    signal (agent/internal/health/health.go).

    A disk maps file names to their bytes.  [LoadOrInitialize] gives every disk
    that a crash during the call could leave behind, the last one when it
    returns. *)
From S2P Require Import Prelude GoStrings GoText GoJson GoStruct GoTime.

Local Open Scope string_scope.
Local Open Scope list_scope.
Open Scope Z_scope.

Notation Disk := (gmap string string).

(** The struct [Identity] is its one field. *)
Definition identityFields (device_id : string) : list (string * option (result JSON)) :=
  [("device_id", Some (Ok (jsonString device_id)))].

Definition decodeIdentity (fs : list (list byte * JSON)) : option string :=
  foldField intoString "" (occurrences "device_id" fs).

Definition Marshal (id : string) : result string := structText (identityFields id).

(** [decodeError] is the text of an error of [json.Unmarshal]. *)
Definition Unmarshal (decodeError : string -> error) (data : string) : result string :=
  structRead "" decodeIdentity decodeError data.

Section Identity.
Context (decodeError : string -> error).

(** What the operating system decides: a failure of each call, the contents the
    temporary file goes through while it is written, and the new UUID. *)
Record IdentityEnv := {
  ie_read : option error;            (* other than os.ErrNotExist *)
  ie_partial : list string;
  ie_write : option error;
  ie_rename : option error;
  ie_remove : option error;
  ie_uuid : string;
}.

(** From the new UUID to the end. *)
Definition initialize (env : IdentityEnv) (path : string) (d : Disk) : list Disk * result string :=
  match Marshal (ie_uuid env) with
  | Err err => ([d], Err err)
  | Ok outData =>
      let tmpPath := path ^^ ".tmp" in
      let during := map (fun c => <[tmpPath := c]> d) (ie_partial env) in
      match ie_write env with
      | Some err => (d :: during, Err (ErrWrap ("failed to write tmp identity: " ^^ error_Error err) [err]))
      | None =>
          let written := <[tmpPath := outData]> d in
          match ie_rename env with
          | Some err =>
              (d :: during ++ [written] ++ (match ie_remove env with None => [delete tmpPath written] | Some _ => [] end),
               Err (ErrWrap ("failed to commit identity: " ^^ error_Error err) [err]))
          | None =>
              (d :: during ++ [written; <[path := outData]> (delete tmpPath written)], Ok (ie_uuid env))
          end
      end
  end.

Definition LoadOrInitialize (env : IdentityEnv) (path : string) (d : Disk) : list Disk * result string :=
  match ie_read env with
  | Some err => ([d], Err (ErrWrap ("failed to read identity file: " ^^ error_Error err) [err]))
  | None =>
      match d !! path with
      | None => initialize env path d
      | Some data =>
          match Unmarshal decodeError data with
          | Ok id => if negb (id =s "") then ([d], Ok id) else initialize env path d
          | Err _ => initialize env path d
          end
      end
  end.

(** The id a file holds for the next start. *)
Definition storedID (path : string) (d : Disk) : option string :=
  match d !! path with
  | Some data => match Unmarshal decodeError data with Ok id => if negb (id =s "") then Some id else None | Err _ => None end
  | None => None
  end.

Definition lastDisk (d : Disk) (ds : list Disk) : Disk := List.last ds d.

(** ** Lemmas *)

(** The contents of the file of an identity. *)
Definition identityText (id : string) : string := string_of (jsonText (JObj [(encodeString "device_id", jsonString id)])).

Lemma Marshal_text id : Marshal id = Ok (identityText id).
Proof. reflexivity. Qed.

Lemma identityFields_named id : fieldNamed (identityFields id).
Proof. split; [repeat constructor; by intros ?%elem_of_nil|repeat constructor; by vm_compute]. Qed.

(** An identity is read back with its id in valid UTF-8. *)
Lemma identity_reads id : Unmarshal decodeError (identityText id) = Ok (sanitize id).
Proof.
  apply (struct_reads (identityFields id)).
  - repeat constructor. cbn. eapply fieldReads_wf, string_reads.
  - intros fs Hfs. apply (field_decodes (identityFields id) intoString fs "device_id" _ _ _ (identityFields_named id) Hfs ltac:(in_fields)).
    apply string_reads.
  - apply Marshal_text.
Qed.

Lemma tmp_neq path : path <> path ^^ ".tmp".
Proof. intros E. symmetry in E. by apply append_self in E. Qed.

Lemma LoadOrInitialize_stored env path d id :
  ie_read env = None -> storedID path d = Some id -> LoadOrInitialize env path d = ([d], Ok id).
Proof.
  intros Hr. unfold storedID, LoadOrInitialize. rewrite Hr. destruct (d !! path) as [data|]; [|done].
  destruct (Unmarshal decodeError data) as [id'|]; [|done]. destruct (negb (id' =s "")); [|done]. by intros [= ->].
Qed.

Lemma LoadOrInitialize_fresh env path d :
  ie_read env = None -> storedID path d = None -> LoadOrInitialize env path d = initialize env path d.
Proof.
  intros Hr Hs. unfold storedID in Hs. unfold LoadOrInitialize. rewrite Hr. destruct (d !! path) as [data|]; [|done].
  destruct (Unmarshal decodeError data) as [id'|]; [|done]. by destruct (negb (id' =s "")).
Qed.

Lemma last_two {A} (d a w x : A) l : List.last (a :: l ++ [w; x]) d = x.
Proof.
  replace (a :: l ++ [w; x]) with ((a :: l ++ [w]) ++ [x]) by (cbn; by rewrite <- app_assoc).
  apply List.last_last.
Qed.

(** The disks of a call that writes a new identity. *)
Lemma initialize_disks env path d ds r :
  initialize env path d = (ds, r) ->
  forall d', d' ∈ ds -> d' !! path = d !! path \/ d' !! path = Some (identityText (ie_uuid env)).
Proof.
  unfold initialize. rewrite Marshal_text.
  set (tmpPath := path ^^ ".tmp"). cbv zeta.
  set (during := map _ _). intros H.
  assert (forall c : string, (<[tmpPath := c]> d : Disk) !! path = d !! path) as Htmp.
  { intros c. rewrite lookup_insert_ne; [done|]. intros E. symmetry in E. by apply tmp_neq in E. }
  set (written := <[tmpPath := identityText _]> d) in *. pose proof (Htmp _ : written !! path = _) as Hwritten.
  assert ((delete tmpPath written : Disk) !! path = d !! path) as Hdel.
  { unfold written. rewrite lookup_delete_ne; [apply Htmp|]. intros E. symmetry in E. by apply tmp_neq in E. }
  apply Forall_forall. assert (Forall (fun d' : Disk => d' !! path = d !! path \/ d' !! path = Some (identityText (ie_uuid env))) during) as Hduring.
  { apply Forall_map, Forall_true. intros c. left. apply Htmp. }
  destruct (ie_write env); [|destruct (ie_rename env); [destruct (ie_remove env)|]]; injection H as <- <-;
    rewrite ?Forall_cons, ?Forall_app, ?Forall_cons, ?Forall_nil, ?Hdel; split_and!; auto.
  right. by rewrite lookup_insert_eq.
Qed.

(** The id a call returned is the id of the file it left. *)
Lemma LoadOrInitialize_ok env path d ds id :
  LoadOrInitialize env path d = (ds, Ok id) -> allChars idChar (ie_uuid env) = true -> ie_uuid env <> "" ->
  storedID path (lastDisk d ds) = Some id.
Proof.
  intros H Hchars Hne. destruct (ie_read env) as [err|] eqn:Hr; [unfold LoadOrInitialize in H; by rewrite Hr in H|].
  destruct (storedID path d) as [id'|] eqn:Hs.
  { rewrite (LoadOrInitialize_stored _ _ _ _ Hr Hs) in H. by injection H as <- <-. }
  rewrite (LoadOrInitialize_fresh _ _ _ Hr Hs) in H.
  unfold initialize in H. rewrite Marshal_text in H.
  destruct (ie_write env); [done|]. destruct (ie_rename env); [done|]. injection H as <- <-.
  unfold storedID, lastDisk. rewrite last_two, lookup_insert_eq, identity_reads, sanitize_idChars by done.
  by rewrite (proj2 (String.eqb_neq _ _) Hne).
Qed.

(** ** Property *)

(** The identity file is replaced atomically.  At whatever moment the call
    is interrupted, the file holds what it held before or the complete new
    identity, never a part of one; an id the file held is returned and nothing
    is written; and an id the call returned is the id of every later call,
    whatever the disk does in between that leaves the file alone. *)
Theorem identity_file_atomic env path d ds r :
  LoadOrInitialize env path d = (ds, r) ->
  allChars idChar (ie_uuid env) = true -> ie_uuid env <> "" ->
  (forall d', d' ∈ ds -> d' !! path = d !! path \/ d' !! path = Some (identityText (ie_uuid env))) /\
  (forall id, storedID path d = Some id -> ie_read env = None -> ds = [d] /\ r = Ok id) /\
  (forall id, r = Ok id ->
     forall env2 d2, d2 !! path = lastDisk d ds !! path -> ie_read env2 = None ->
       LoadOrInitialize env2 path d2 = ([d2], Ok id)).
Proof.
  intros H Hchars Hne. split; [|split].
  - destruct (ie_read env) as [err|] eqn:Hr.
    { unfold LoadOrInitialize in H. rewrite Hr in H. injection H as <- <-. intros d' ->%list_elem_of_singleton. by left. }
    destruct (storedID path d) as [id|] eqn:Hs.
    { rewrite (LoadOrInitialize_stored _ _ _ _ Hr Hs) in H. injection H as <- <-. intros d' ->%list_elem_of_singleton. by left. }
    rewrite (LoadOrInitialize_fresh _ _ _ Hr Hs) in H. by eapply initialize_disks.
  - intros id Hs Hr. rewrite (LoadOrInitialize_stored _ _ _ _ Hr Hs) in H. by injection H as <- <-.
  - intros id -> env2 d2 H2 Hr2. apply LoadOrInitialize_stored; [done|].
    rewrite <- (LoadOrInitialize_ok _ _ _ _ _ H) by done. unfold storedID. by rewrite H2.
Qed.
End Identity.

(** ** The heartbeat *)

Module Health.

Record Signal := { Type_ : string; sg_OccurredAt : Time }.

Record Manager := { hm_deviceID : string; hm_tenantID : string; hm_siteID : string }.

Definition NewManager (deviceID tenantID siteID : string) : Manager :=
  {| hm_deviceID := deviceID; hm_tenantID := tenantID; hm_siteID := siteID |}.

(** [emitHeartbeat]: the signal, when the channel took it before the context
    ended. *)
Definition emitHeartbeat (now : Time) (sent : bool) : list Signal :=
  if sent then [{| Type_ := "heartbeat"; sg_OccurredAt := now |}] else [].

(** The select of [Start]: the end, or a tick with the clock and the fate of
    its heartbeat. *)
Inductive HealthSelect := HealthDone | HealthTick (now : Time) (sent : bool).

Fixpoint ticks (steps : list HealthSelect) : list Signal :=
  match steps with
  | [] | HealthDone :: _ => []
  | HealthTick now sent :: steps => emitHeartbeat now sent ++ ticks steps
  end.

Definition Manager_Start (now : Time) (sent : bool) (steps : list HealthSelect) : list Signal :=
  emitHeartbeat now sent ++ ticks steps.

Definition Manager_Stop (m : Manager) : Manager * option error := (m, None).

(** One heartbeat at the start and one per tick until the context ends, unless
    the receiver was gone. *)
Lemma heartbeats now steps :
  Forall (fun s => s <> HealthDone) steps ->
  (length (Manager_Start now true steps) <= S (length steps))%nat /\
  (Forall (fun s => match s with HealthTick _ sent => sent = true | HealthDone => True end) steps ->
   length (Manager_Start now true steps) = S (length steps)).
Proof.
  unfold Manager_Start. cbn. intros H. assert (length (ticks steps) <= length steps /\
    (Forall (fun s => match s with HealthTick _ sent => sent = true | HealthDone => True end) steps ->
     length (ticks steps) = length steps))%nat as [H1 H2]; [|split; [lia|intros Hs; f_equal; auto]].
  induction H as [|[|t sent] steps Hs _ [IH1 IH2]]; [by split|done|]. cbn. rewrite length_app. split.
  - destruct sent; cbn; lia.
  - intros [-> Hsteps]%Forall_cons. cbn. f_equal. auto.
Qed.
End Health.

(** ** Witness *)

Definition sampleIdentityEnv : IdentityEnv :=
  {| ie_read := None; ie_partial := [""; "{"]; ie_write := None; ie_rename := None; ie_remove := None; ie_uuid := "dev-9" |}.

Definition firstStart : list Disk * result string := LoadOrInitialize ErrNew sampleIdentityEnv "identity.json" ∅.

Lemma identity_file_atomic_witness :
  length firstStart.1 = 5%nat /\ firstStart.2 = Ok "dev-9" /\
  LoadOrInitialize ErrNew sampleIdentityEnv "identity.json" (lastDisk ∅ firstStart.1)
    = ([lastDisk ∅ firstStart.1], Ok "dev-9").
Proof.
  split; [reflexivity|]. split; [reflexivity|].
  refine (proj2 (proj2 (identity_file_atomic ErrNew sampleIdentityEnv
    "identity.json" ∅ firstStart.1 firstStart.2 (surjective_pairing _) _ _)) "dev-9" _ _ _ _ _);
    first [reflexivity|discriminate].
Defined.
