(* ===== verification/StorageInit.v ===== *)
(** Opening the event store (agent/internal/storage/sqlite.go: Init,
    initIdentity, degradeStorage, Close) over the files it touches.

    A [Disk] maps file names to contents of an abstract type; opening and
    configuring the database may change its three files in any way.  Which call
    fails is the argument [InitEnv].  The migration of legacy retry timestamps
    that follows, of which [Init] only logs the failure, is in [RetryTime]. *)
From S2P Require Import Prelude GoStrings GoText GoStruct Events Storage.
From S2P Require Identity.

Local Open Scope string_scope.
Local Open Scope list_scope.
Open Scope Z_scope.

Section Init.
Context {F : Type}.

Notation Disk := (gmap string F).

Record InitEnv := {
  mkdirErr : option error;
  openErr : option error;
  pragmaErr : string -> option error;
  integrity : result string;              (* PRAGMA integrity_check *)
  schemaErr : option error;
  beginErr : option error;
  queryErr : option error;                (* other than sql.ErrNoRows *)
  insertErr : option error;
  commitErr : option error;
  identityApplied : bool;                 (* a commit that reports an error was applied all the same *)
  removeErr : option error;
  renameErr : string -> option error;     (* os.Rename of that file, other than a missing file *)
  unixNow : Z;
  newUUID : string;
  readFile : F -> result string;          (* os.ReadFile of an existing file *)
  decodeError : string -> error;          (* the text of an error of json.Unmarshal *)
}.

(** What [migrateOrGenerateID] finds at [s.identityPath]. *)
Definition identityFile (env : InitEnv) (identityPath : string) (d : Disk) : IdentityFile :=
  if identityPath =s "" then FileMissing
  else match d !! identityPath with
       | None => FileMissing
       | Some f =>
           match readFile env f with
           | Err e => FileReadError e
           | Ok data =>
               match Identity.Unmarshal (decodeError env) data with
               | Err e => FileParseError e
               | Ok id => FileIdentity id
               end
           end
       end.

(** [os.Rename]: [None] when the file is missing ([os.ErrNotExist], which the
    caller ignores). *)
Definition renameFile (env : InitEnv) (d : Disk) (old new : string) : Disk * option error :=
  match d !! old with
  | None => (d, None)
  | Some f =>
      match renameErr env old with
      | Some e => (d, Some e)
      | None => (<[new := f]> (delete old d), None)
      end
  end.

Definition degraded (msg : string) (err : error) : error :=
  ErrWrap ("DEGRADED_STORAGE: " ^^ error_Error err ^^ msg) [err].

(** [degradeStorage]: the files moved aside and the error reported. *)
Definition degradeStorage (env : InitEnv) (dbPath : string) (d : Disk) (err : error) : Disk * error :=
  let corruptPath := dbPath ^^ ".corrupt." ^^ fmt_d (unixNow env) in
  match renameFile env d dbPath corruptPath with
  | (d, Some r) => (d, degraded (" (additionally failed to move DB: " ^^ error_Error r ^^ ")") err)
  | (d, None) =>
      match renameFile env d (dbPath ^^ "-wal") (corruptPath ^^ "-wal") with
      | (d, Some r) => (d, degraded (" (additionally failed to move WAL: " ^^ error_Error r ^^ ")") err)
      | (d, None) =>
          match renameFile env d (dbPath ^^ "-shm") (corruptPath ^^ "-shm") with
          | (d, Some r) => (d, degraded (" (additionally failed to move SHM: " ^^ error_Error r ^^ ")") err)
          | (d, None) => (d, degraded (" (moved to " ^^ corruptPath ^^ ")") err)
          end
      end
  end.

(** [filepath.Glob(s.dbPath + ".corrupt.*")], for a path without pattern
    characters: some file name continues the prefix.  (A directory of that name
    shows as the files below it.) *)
Definition corruptBackup (dbPath : string) (d : Disk) : bool :=
  existsb (fun kv => HasPrefix kv.1 (dbPath ^^ ".corrupt.")) (map_to_list d).

Definition pragmas : list string :=
  ["PRAGMA journal_mode = WAL;"; "PRAGMA synchronous = NORMAL;"; "PRAGMA temp_store = MEMORY;"; "PRAGMA busy_timeout = 5000;"].

(** The first pragma that fails. *)
Fixpoint failedPragma (env : InitEnv) (ps : list string) : option error :=
  match ps with
  | [] => None
  | p :: ps =>
      match pragmaErr env p with
      | Some e => Some (ErrWrap ("failed to set pragma " ^^ p ^^ ": " ^^ error_Error e) [e])
      | None => failedPragma env ps
      end
  end.

Definition integrityError (env : InitEnv) : option error :=
  match integrity env with
  | Err e => Some (ErrNew ("database corrupted or integrity check failed: " ^^ error_Error e))
  | Ok check => if check =s "ok" then None
                else Some (ErrNew "database corrupted or integrity check failed: <nil>")
  end.

(** [initIdentity] with its transaction: the new tables, the disk, the id.
    Whether a commit that failed was applied is an argument. *)
Definition initIdentityTx (env : InitEnv) (identityPath : string) (db : DB) (d : Disk)
    : DB * Disk * result string :=
  match beginErr env with
  | Some e => (db, d, Err e)
  | None =>
      match queryErr env with
      | Some e => (db, d, Err (ErrWrap ("failed to query agent_state: " ^^ error_Error e) [e]))
      | None =>
          match initIdentity (identityFile env identityPath d) (newUUID env) db with
          | Err e => (db, d, Err e)
          | Ok (tx, deviceID) =>
              match (match db_agent db with None => insertErr env | Some _ => None end) with
              | Some e => (db, d, Err (ErrWrap ("failed to insert device_id: " ^^ error_Error e) [e]))
              | None =>
                  match commitErr env with
                  | Some e => (if identityApplied env then tx else db, d, Err e)
                  | None =>
                      let d := match d !! identityPath, removeErr env with
                               | Some _, None => delete identityPath d
                               | _, _ => d
                               end in
                      (tx, d, Ok deviceID)
                  end
              end
          end
      end
  end.

(** [Init]: [opened] is the disk once the database is open.  The result is the
    device id; with an error [s.db] stays nil. *)
Definition Init (env : InitEnv) (dbPath identityPath : string) (db : DB)
    (d opened : Disk) : DB * Disk * result string :=
  match mkdirErr env with
  | Some e => (db, d, Err (ErrWrap ("failed to create db dir: " ^^ error_Error e) [e]))
  | None =>
      if corruptBackup dbPath d
      then (db, d, Err (ErrNew "DEGRADED_STORAGE: corrupt DB backup found, manual recovery required"))
      else match openErr env with
      | Some e => (db, d, Err e)
      | None =>
          match failedPragma env pragmas with
          | Some e => let '(d, e) := degradeStorage env dbPath opened e in (db, d, Err e)
          | None =>
              match integrityError env with
              | Some e => let '(d, e) := degradeStorage env dbPath opened e in (db, d, Err e)
              | None =>
                  match schemaErr env with
                  | Some e => (db, opened, Err (ErrWrap ("failed to init schema: " ^^ error_Error e) [e]))
                  | None => initIdentityTx env identityPath db opened
                  end
              end
          end
      end
  end.

(** ** Lemmas *)

Definition dbFile (dbPath name : string) : Prop :=
  name = dbPath \/ name = dbPath ^^ "-wal" \/ name = dbPath ^^ "-shm".

(** Opening touches only the database's own files. *)
Definition opens (dbPath : string) (d opened : Disk) : Prop :=
  forall name, ~ dbFile dbPath name -> opened !! name = d !! name.

Lemma corruptBackup_spec dbPath (d : Disk) :
  corruptBackup dbPath d = true <-> exists name f, d !! name = Some f /\ HasPrefix name (dbPath ^^ ".corrupt.") = true.
Proof.
  unfold corruptBackup. rewrite existsb_exists. split.
  - intros ([name f] & Hin & Hp). apply list_elem_of_In, elem_of_map_to_list in Hin. by exists name, f.
  - intros (name & f & Hin & Hp). exists (name, f). split; [|done]. by apply list_elem_of_In, elem_of_map_to_list.
Qed.

Lemma prefix_cancel s p t : String.prefix (s ^^ p) (s ^^ t) = String.prefix p t.
Proof.
  induction s as [|a s IH]; [done|]. rewrite !append_cons. cbn [String.prefix].
  by destruct (Ascii.ascii_dec a a).
Qed.

Lemma HasPrefix_db dbPath name : dbFile dbPath name -> HasPrefix name (dbPath ^^ ".corrupt.") = false.
Proof.
  unfold HasPrefix. intros [->|[->| ->]]; [|by rewrite prefix_cancel..].
  rewrite <- (append_nil_r dbPath) at 2. by rewrite prefix_cancel.
Qed.

Lemma corruptName_prefix dbPath now t :
  HasPrefix ((dbPath ^^ ".corrupt." ^^ fmt_d now) ^^ t) (dbPath ^^ ".corrupt.") = true.
Proof. rewrite append_assoc. apply HasPrefix_append. Qed.

Lemma corruptName_fresh dbPath (d : Disk) now t :
  corruptBackup dbPath d = false -> d !! ((dbPath ^^ ".corrupt." ^^ fmt_d now) ^^ t) = None.
Proof.
  intros Hc. destruct (d !! _) as [f|] eqn:E; [|done]. apply not_true_iff_false in Hc. destruct Hc.
  apply corruptBackup_spec. eexists _, f. split; [exact E|]. apply corruptName_prefix.
Qed.

(** Where the degraded store keeps a file. *)
Definition movedName (dbPath : string) (now : Z) (name : string) : option string :=
  let corruptPath := dbPath ^^ ".corrupt." ^^ fmt_d now in
  if name =s dbPath then Some corruptPath
  else if name =s dbPath ^^ "-wal" then Some (corruptPath ^^ "-wal")
  else if name =s dbPath ^^ "-shm" then Some (corruptPath ^^ "-shm")
  else None.

(** A file is kept: under its own name or under its backup's. *)
Definition keptIn (dbPath : string) (now : Z) (d d' : Disk) : Prop :=
  forall name f, d !! name = Some f ->
    d' !! name = Some f \/ exists name', movedName dbPath now name = Some name' /\ d' !! name' = Some f.

(** One rename to a fresh name keeps every file and touches no other name. *)
Lemma renameFile_spec env (d d' : Disk) old new e :
  renameFile env d old new = (d', e) -> d !! new = None ->
  (forall f, d !! old = Some f -> (e = None /\ d' !! new = Some f /\ d' !! old = None) \/ (e <> None /\ d' = d)) /\
  (d !! old = None -> d' = d /\ e = None) /\
  (forall name, name <> old -> name <> new -> d' !! name = d !! name) /\
  (e <> None -> is_Some (d !! old)).
Proof.
  unfold renameFile. intros H Hn. destruct (d !! old) as [f|] eqn:Ho.
  - assert (old <> new) as Hne by congruence. destruct (renameErr env old) as [r|]; injection H as <- <-.
    + split_and!; [intros g [= <-]; by right|done|done|by eexists].
    + split_and!; [|done| |by eexists].
      * intros g [= <-]. left. split_and!; [done|by rewrite lookup_insert_eq|].
        rewrite lookup_insert_ne by done. by rewrite lookup_delete_eq.
      * intros name H1 H2. by rewrite lookup_insert_ne, lookup_delete_ne by done.
  - injection H as <- <-. split_and!; done.
Qed.

Lemma movedName_plain dbPath now name name' :
  movedName dbPath now name = Some name' ->
  dbFile dbPath name /\ exists t, name' = (dbPath ^^ ".corrupt." ^^ fmt_d now) ^^ t.
Proof.
  unfold movedName, dbFile. repeat case_match; intros [= <-];
    repeat match goal with H : (_ =s _) = true |- _ => apply String.eqb_eq in H end; (split; [by auto|]).
  - exists "". by rewrite append_nil_r.
  - by eexists.
  - by eexists.
Qed.

(** One step of [degradeStorage] keeps what the earlier ones kept. *)
Lemma renameFile_kept env dbPath (d0 d d' : Disk) old new e :
  movedName dbPath (unixNow env) old = Some new -> d !! new = None ->
  renameFile env d old new = (d', e) ->
  keptIn dbPath (unixNow env) d0 d -> keptIn dbPath (unixNow env) d0 d'.
Proof.
  intros Hm Hn Hr Hk name f Hf. destruct (renameFile_spec _ _ _ _ _ _ Hr Hn) as (Hmv & Hno & Hother & _).
  destruct (Hk _ _ Hf) as [H|(name' & Hm' & H)].
  - destruct (decide (name = old)) as [->|Hne].
    + destruct (Hmv _ H) as [(_ & H' & _)|(_ & ->)]; [right; by exists new|by left].
    + left. rewrite Hother; [done|done|congruence].
  - right. exists name'. split; [done|]. destruct (movedName_plain _ _ _ _ Hm) as (Hdb & _).
    rewrite Hother; [done| |congruence]. intros ->.
    destruct (movedName_plain _ _ _ _ Hm') as (_ & t & Ht). apply HasPrefix_db in Hdb.
    rewrite Ht, corruptName_prefix in Hdb. done.
Qed.

Lemma renameFile_fresh env (d d' : Disk) old new e name :
  renameFile env d old new = (d', e) -> d !! new = None -> name <> new -> d !! name = None -> d' !! name = None.
Proof.
  intros Hr Hn Hne Hd. destruct (renameFile_spec _ _ _ _ _ _ Hr Hn) as (Hmv & Hno & Hother & _).
  destruct (decide (name = old)) as [->|Ho]; [by destruct (Hno Hd) as (-> & _)|]. by rewrite Hother.
Qed.

Lemma movedName_db dbPath now : movedName dbPath now dbPath = Some (dbPath ^^ ".corrupt." ^^ fmt_d now).
Proof. unfold movedName. by rewrite String.eqb_refl. Qed.

Lemma append_neq s t u : t <> u -> (s ^^ t =s s ^^ u) = false.
Proof. intros H. apply String.eqb_neq. intros E. by apply append_inj in E. Qed.

Lemma append_neq_self s t : t <> "" -> (s ^^ t =s s) = false.
Proof. intros H. apply String.eqb_neq. intros E. by apply append_self in E. Qed.

Lemma movedName_wal dbPath now :
  movedName dbPath now (dbPath ^^ "-wal") = Some ((dbPath ^^ ".corrupt." ^^ fmt_d now) ^^ "-wal").
Proof. unfold movedName. rewrite append_neq_self by done. by rewrite String.eqb_refl. Qed.

Lemma movedName_shm dbPath now :
  movedName dbPath now (dbPath ^^ "-shm") = Some ((dbPath ^^ ".corrupt." ^^ fmt_d now) ^^ "-shm").
Proof. unfold movedName. rewrite append_neq_self, append_neq by done. by rewrite String.eqb_refl. Qed.

(** The degraded store keeps every file, and says what happened. *)
Lemma degradeStorage_spec env dbPath (d d' : Disk) err e :
  corruptBackup dbPath d = false -> degradeStorage env dbPath d err = (d', e) ->
  keptIn dbPath (unixNow env) d d' /\ exists msg, e = degraded msg err.
Proof.
  intros Hc H. pose proof (fun t => corruptName_fresh dbPath d (unixNow env) t Hc) as Hfresh.
  pose proof (Hfresh "") as F0. rewrite append_nil_r in F0.
  assert (keptIn dbPath (unixNow env) d d) as K0 by (intros ? ? ?; by left).
  unfold degradeStorage in H. set (cp := dbPath ^^ ".corrupt." ^^ fmt_d (unixNow env)) in *.
  assert (forall t, t <> "" -> cp ^^ t <> cp) as Hself by (intros t Ht E; by apply append_self in E).
  destruct (renameFile env d dbPath cp) as [d1 r1] eqn:R1.
  pose proof (renameFile_kept _ _ d _ _ _ _ _ (movedName_db _ _) F0 R1 K0) as K1.
  destruct r1 as [r1|]; [injection H as <- <-; split; [done|by eexists]|].
  assert (d1 !! (cp ^^ "-wal") = None) as F1 by (eapply renameFile_fresh; eauto).
  destruct (renameFile env d1 (dbPath ^^ "-wal") (cp ^^ "-wal")) as [d2 r2] eqn:R2.
  pose proof (renameFile_kept _ _ d _ _ _ _ _ (movedName_wal _ _) F1 R2 K1) as K2.
  destruct r2 as [r2|]; [injection H as <- <-; split; [done|by eexists]|].
  assert (d2 !! (cp ^^ "-shm") = None) as F2.
  { eapply (renameFile_fresh env d1 d2); [exact R2|exact F1| |].
    - intros E. by apply append_inj in E.
    - eapply (renameFile_fresh env d d1); eauto. }
  destruct (renameFile env d2 (dbPath ^^ "-shm") (cp ^^ "-shm")) as [d3 r3] eqn:R3.
  pose proof (renameFile_kept _ _ d _ _ _ _ _ (movedName_shm _ _) F2 R3 K2) as K3.
  destruct r3 as [r3|]; injection H as <- <-; (split; [done|by eexists]).
Qed.




(** What a failed commit of [initIdentity] can leave in the tables: the row of
    the new device id, when there was none, and nothing else. *)
Definition identityRecorded (env : InitEnv) (identityPath : string) (d : Disk) (db db' : DB) : Prop :=
  commitErr env <> None /\ identityApplied env = true /\ db_agent db = None /\
  db_events db' = db_events db /\ db_dlq db' = db_dlq db /\
  exists a, db_agent db' = Some a /\ as_next_seq_no a = 1 /\
    migrateOrGenerateID (identityFile env identityPath d) (newUUID env) = Ok (as_device_id a).

Lemma initIdentityTx_spec env identityPath db (d : Disk) db' d' r :
  initIdentityTx env identityPath db d = (db', d', r) ->
  match r with
  | Ok id =>
      (exists a, db_agent db' = Some a /\ as_device_id a = id /\ (db_agent db = None \/ db' = db)) /\
      (forall name, name <> identityPath -> d' !! name = d !! name)
  | Err _ => (db' = db \/ identityRecorded env identityPath d db db') /\ d' = d
  end.
Proof.
  unfold initIdentityTx, initIdentity. intros H.
  assert (forall name, name <> identityPath -> (match d !! identityPath, removeErr env with
     | Some _, None => delete identityPath d | _, _ => d end) !! name = d !! name) as Hd.
  { intros name Hn. destruct (d !! identityPath); [|done]. destruct (removeErr env); [done|]. by rewrite lookup_delete_ne. }
  destruct (beginErr env); [injection H as <- <- <-; auto|].
  destruct (queryErr env); [injection H as <- <- <-; auto|].
  destruct (db_agent db) as [a|] eqn:Ha.
  - destruct (commitErr env); injection H as <- <- <-; [by destruct (identityApplied env); auto|].
    split; [|exact Hd]. exists a. auto.
  - destruct (migrateOrGenerateID _ _) as [id|] eqn:Hid; [|injection H as <- <- <-; auto].
    destruct (insertErr env); [injection H as <- <- <-; auto|].
    destruct (commitErr env) as [e|] eqn:Hc; injection H as <- <- <-.
    + split; [|done]. destruct (identityApplied env) eqn:Happ; [right|by left].
      split_and!; try done; [by rewrite Hc|]. eexists. split_and!; [done|done|exact Hid].
    + split; [|exact Hd]. eexists. split_and!; [done|done|by left].
Qed.


(** Why an opened database is moved aside. *)
Definition damage (env : InitEnv) : option error :=
  match failedPragma env pragmas with Some e => Some e | None => integrityError env end.

Lemma Init_body env dbPath identityPath db (d opened : Disk) :
  mkdirErr env = None -> corruptBackup dbPath d = false -> openErr env = None ->
  Init env dbPath identityPath db d opened =
    match damage env with
    | Some e => let '(d, e) := degradeStorage env dbPath opened e in (db, d, Err e)
    | None =>
        match schemaErr env with
        | Some e => (db, opened, Err (ErrWrap ("failed to init schema: " ^^ error_Error e) [e]))
        | None => initIdentityTx env identityPath db opened
        end
    end.
Proof.
  intros H1 H2 H3. unfold Init, damage. rewrite H1, H2, H3. by destruct (failedPragma _ _).
Qed.

Lemma Init_refuses env dbPath identityPath db (d opened : Disk) :
  mkdirErr env = None -> corruptBackup dbPath d = true ->
  Init env dbPath identityPath db d opened =
    (db, d, Err (ErrNew "DEGRADED_STORAGE: corrupt DB backup found, manual recovery required")).
Proof. intros H1 H2. unfold Init. by rewrite H1, H2. Qed.

Lemma opens_backup dbPath (d opened : Disk) :
  opens dbPath d opened -> corruptBackup dbPath d = false -> corruptBackup dbPath opened = false.
Proof.
  intros Ho. rewrite <- !not_true_iff_false. intros Hc (name & f & Hf & Hp)%corruptBackup_spec. apply Hc.
  apply corruptBackup_spec. exists name, f. split; [|done]. rewrite <- Ho; [done|].
  intros Hdb. apply HasPrefix_db in Hdb. congruence.
Qed.

Lemma keptIn_refl dbPath now (d : Disk) : keptIn dbPath now d d.
Proof. intros ? ? ?. by left. Qed.

(** Every way [Init] can end, for the theorems below. *)
Lemma Init_cases env dbPath identityPath db (d opened d' : Disk) db' r :
  opens dbPath d opened -> Init env dbPath identityPath db d opened = (db', d', r) ->
  match r with
  | Err _ => (db' = db \/ identityRecorded env identityPath opened db db') /\
             (d' = d \/ keptIn dbPath (unixNow env) opened d')
  | Ok id => initIdentityTx env identityPath db opened = (db', d', Ok id)
  end.
Proof.
  intros Ho H. destruct (mkdirErr env) as [e|] eqn:E1; [unfold Init in H; rewrite E1 in H; injection H as <- <- <-; auto|].
  destruct (corruptBackup dbPath d) eqn:E2; [rewrite Init_refuses in H by done; injection H as <- <- <-; auto|].
  destruct (openErr env) as [e|] eqn:E3; [unfold Init in H; rewrite E1, E2, E3 in H; injection H as <- <- <-; auto|].
  rewrite Init_body in H by done. destruct (damage env) as [e|].
  - destruct (degradeStorage env dbPath opened e) as [d1 e1] eqn:E4. injection H as <- <- <-.
    apply degradeStorage_spec in E4 as [? _]; [auto|by eapply opens_backup].
  - destruct (schemaErr env); [injection H as <- <- <-; auto using keptIn_refl|].
    destruct r; [done|]. apply initIdentityTx_spec in H as [H ->]. auto using keptIn_refl.
Qed.

(** ** Properties *)


(** An id of the legacy file is adopted when none is stored yet. *)
Lemma adopted_id env dbPath identityPath db (d opened d' : Disk) db' id :
  opens dbPath d opened -> Init env dbPath identityPath db d opened = (db', d', Ok id) ->
  forall legacy, db_agent db = None -> identityFile env identityPath opened = FileIdentity legacy -> legacy <> "" -> id = legacy.
Proof.
  intros Hopens Hinit legacy Hnone Hfile Hne. pose proof (Init_cases _ _ _ _ _ _ _ _ _ Hopens Hinit) as H. revert H.
  unfold initIdentityTx, initIdentity. rewrite Hnone, Hfile. unfold migrateOrGenerateID.
  replace (legacy =s "") with false by (symmetry; by apply String.eqb_neq). cbn [negb].
  destruct (beginErr env), (queryErr env), (insertErr env), (commitErr env); intros [=]; congruence.
Qed.

(** C14: the device keeps its id.  A store that opened with id [id] has it in its
    tables, adopted from the legacy identity file when there was one with a
    nonempty id and no id was stored yet; and whatever a later opening finds in
    the identity file, on the disk or from the random source, it changes no
    table and, when it succeeds, it succeeds with the same id. *)
Theorem device_identity_stable env dbPath identityPath db (d opened d' : Disk) db' id
    (Hopens : opens dbPath d opened)
    (Hinit : Init env dbPath identityPath db d opened = (db', d', Ok id)) :
  (exists a, db_agent db' = Some a /\ as_device_id a = id) /\
  (forall legacy, db_agent db = None -> identityFile env identityPath opened = FileIdentity legacy ->
     legacy <> "" -> id = legacy) /\
  (forall env2 d2 opened2 db2 d2' r, opens dbPath d2 opened2 ->
     Init env2 dbPath identityPath db' d2 opened2 = (db2, d2', r) ->
     db2 = db' /\ forall id2, r = Ok id2 -> id2 = id).
Proof.
  pose proof (Init_cases _ _ _ _ _ _ _ _ _ Hopens Hinit) as H.
  destruct (initIdentityTx_spec _ _ _ _ _ _ _ H) as ((a & Ha & Hid & _) & _). split_and!.
  - by exists a.
  - by eapply adopted_id.
  - intros env2 d2 opened2 db2 d2' r Ho2 H2. apply Init_cases in H2; [|done]. destruct r as [id2|e].
    + assert (db2 = db' /\ as_device_id a = id2) as [-> <-].
      { revert H2. unfold initIdentityTx, initIdentity. rewrite Ha.
        destruct (beginErr env2), (queryErr env2), (commitErr env2); intros [=]; auto. }
      split; [done|]. intros id2 [= <-]. congruence.
    + destruct H2 as [[->|(_ & _ & Hn & _)] _]; [done|]. by rewrite Ha in Hn.
Qed.
End Init.

Lemma Unmarshal_any err1 err2 data id : Identity.Unmarshal err1 data = Ok id -> Identity.Unmarshal err2 data = Ok id.
Proof. unfold Identity.Unmarshal. by rewrite !structRead_ok. Qed.

(** The store adopts the identity that [identity.LoadOrInitialize] left: whatever
    happened to the rest of the disk since, a first opening that succeeds gives
    the device the id that call returned. *)
Lemma identity_migrates decodeErr ienv (d0 : gmap string string) ds legacy env dbPath identityPath db d opened db' d' id :
  Identity.LoadOrInitialize decodeErr ienv identityPath d0 = (ds, Ok legacy) ->
  allChars idChar (Identity.ie_uuid ienv) = true -> Identity.ie_uuid ienv <> "" ->
  identityPath <> "" -> opened !! identityPath = Identity.lastDisk d0 ds !! identityPath ->
  (forall f, readFile env f = Ok f) -> opens dbPath d opened -> db_agent db = None ->
  Init env dbPath identityPath db d opened = (db', d', Ok id) -> id = legacy.
Proof.
  intros Hload Hchars Hne Hpath Hsame Hread Hopens Hnone Hinit.
  pose proof (Identity.LoadOrInitialize_ok _ _ _ _ _ _ Hload Hchars Hne) as Hs. unfold Identity.storedID in Hs.
  rewrite <- Hsame in Hs. destruct (opened !! identityPath) as [data|] eqn:Hd; [|done].
  destruct (Identity.Unmarshal decodeErr data) as [id'|] eqn:Hu; [|done].
  destruct (negb (id' =s "")) eqn:Hn; [|done]. injection Hs as ->.
  assert (identityFile env identityPath opened = FileIdentity legacy) as Hfile.
  { unfold identityFile. rewrite (proj2 (String.eqb_neq _ _) Hpath), Hd, Hread. by rewrite (Unmarshal_any _ (decodeError env) _ _ Hu). }
  eapply (adopted_id env dbPath identityPath db d opened d' db' id Hopens Hinit legacy Hnone Hfile).
  intros ->. done.
Qed.

(** ** Maintenance and closing *)

(** [maintenanceCancel != nil]; the goroutine runs; the database handle. *)
Inductive Handle := NoDatabase | OpenDatabase | ClosedDatabase.
Record Opened := { maintenanceCancel : bool; maintaining : bool; handle : Handle }.

(** The select of [maintenanceTask]: the checkpoints it asks for. *)
Inductive MaintenanceSelect := MaintenanceDone | MaintenanceTick.

Fixpoint maintenanceTask (h : Handle) (steps : list MaintenanceSelect) : list string :=
  match steps with
  | [] | MaintenanceDone :: _ => []
  | MaintenanceTick :: steps =>
      (match h with NoDatabase => [] | _ => ["PRAGMA wal_checkpoint(PASSIVE);"] end) ++ maintenanceTask h steps
  end.

(** [Close]: the goroutine has ended before the handle is closed. *)
Definition Close (closeErr : option error) (s : Opened) : Opened * option error :=
  let s := if maintenanceCancel s
           then {| maintenanceCancel := true; maintaining := false; handle := handle s |} else s in
  match handle s with
  | NoDatabase => (s, None)
  | OpenDatabase | ClosedDatabase =>
      ({| maintenanceCancel := maintenanceCancel s; maintaining := maintaining s; handle := ClosedDatabase |},
       match handle s with OpenDatabase => closeErr | _ => None end)
  end.

(** A store whose maintenance goroutine was started by [Init] has none left
    after [Close], and closing twice is closing once. *)
Lemma Close_once e1 e2 s :
  (maintaining s = true -> maintenanceCancel s = true) ->
  let s1 := (Close e1 s).1 in maintaining s1 = false /\ Close e2 s1 = (s1, None).
Proof.
  intros H. unfold Close. destruct s as [[] [] []]; cbn; try (by split); by specialize (H eq_refl).
Qed.

(** ** Witnesses *)

Definition sampleInitEnv (check : string) : InitEnv (F := string) :=
  {| mkdirErr := None; openErr := None; pragmaErr := fun _ => None; integrity := Ok check;
     schemaErr := None; beginErr := None; queryErr := None; insertErr := None; commitErr := None; identityApplied := true;
     removeErr := None; renameErr := fun _ => None; unixNow := 1700000000; newUUID := "fresh";
     readFile := fun f => Ok f; decodeError := ErrNew |}.

Definition sampleInitDisk : gmap string string :=
  {[ "a.db" := "SQLite"; "a.db-wal" := "wal"; "id.json" := Identity.identityText "dev-9" ]}.

Definition emptyDB : DB := {| db_events := ∅; db_dlq := ∅; db_agent := None |}.

Lemma opens_refl {F} dbPath (d : gmap string F) : opens dbPath d d.
Proof. done. Qed.


Lemma device_identity_stable_witness :
  let r := Init (sampleInitEnv "ok") "a.db" "id.json" emptyDB sampleInitDisk sampleInitDisk in
  r.2 = Ok "dev-9" /\ r.1.2 !! "id.json" = None /\ db_agent r.1.1 <> None.
Proof.
  split_and!; [done|by vm_compute|].
  destruct (device_identity_stable (sampleInitEnv "ok") "a.db" "id.json" emptyDB sampleInitDisk sampleInitDisk
              _ _ "dev-9" (opens_refl _ _) eq_refl) as ((a & Ha & _) & _).
  intros E. pose proof (eq_trans (eq_sym Ha) E) as H. discriminate.
Defined.
