(* ===== verification/Provider.v ===== *)
(** The resource providers of the governor
    (agent/internal/governor/provider.go, provider_linux.go,
    sqlite_provider.go) and the sampling loop (sampling.go).

    The interface of provider.go is the class [OSResourceProvider], its
    documented return semantics the class [ProviderLaws].  The readings of the
    operating system are inputs: the text of /proc/self/statm and
    /proc/self/io, the times of getrusage, what [os.Stat] answers.  A method
    returns the new provider and the Go results; an error text that the code
    builds from an error of strconv carries the offending field only. *)
From S2P Require Import Prelude GoStrings GoText GoFloat GoTime Governor Metrics Coordinator.
From S2P Require Storage.
From Stdlib Require Import Strings.Ascii.

Open Scope Z_scope.

(** ** The interface *)

Class OSResourceProvider (P OS : Type) := {
  SampleCPU : P -> option error -> Time -> OS -> P * ValidFloat64 * Time * option error;
  SampleMemory : P -> option error -> Time -> OS -> ValidUint64 * Time * option error;
  SampleStorage : P -> option error -> Time -> OS -> P * ValidUint64 * ValidFloat64 * Time * option error;
}.

(** What an implementation promises: an error comes with an unavailable
    measurement, a CPU value is a percentage, byte counts are uint64, a write
    rate is not negative. *)
Class ProviderLaws (P OS : Type) `{OSResourceProvider P OS} := {
  provider_wf : P -> Prop;
  cpu_law p ctx now os : provider_wf p ->
    let '(p', v, _, e) := SampleCPU p ctx now os in
    provider_wf p' /\ (e <> None -> vf_Valid v = false) /\
    (vf_Valid v = true -> nonneg (vf_Value v) = true /\ fleb (vf_Value v) (f_of_Z 100) = true);
  memory_law p ctx now os : provider_wf p ->
    let '(v, _, e) := SampleMemory p ctx now os in
    (e <> None -> vu_Valid v = false) /\ in_u64 (vu_Value v);
  storage_law p ctx now os : provider_wf p ->
    let '(p', used, write, _, e) := SampleStorage p ctx now os in
    provider_wf p' /\ (e <> None -> vu_Valid used = false /\ vf_Valid write = false) /\
    in_u64 (vu_Value used) /\ (vf_Valid write = true -> nonneg (vf_Value write) = true);
}.

(** ** Linux *)

Inductive FileKind := RegularFile | DirectoryFile | OtherFile.
Inductive StatReply :=
  | Found (kind : FileKind) (size : Z)
  | NotExist (e : error)
  | StatFailed (e : error).

Record linuxProvider := {
  storagePaths : list string;
  numCPU : Z;
  pageSize : Z;
  lastCPUSampleTime : Time;
  lastProcessTime : Z;
  lastStorageSampleTime : Time;
  lastWriteBytes : Z;
}.

Definition NewLinuxProvider (paths : list string) (cpus pagesize : Z) : linuxProvider := {|
  storagePaths := paths; numCPU := cpus; pageSize := pagesize;
  lastCPUSampleTime := zeroTime; lastProcessTime := 0;
  lastStorageSampleTime := zeroTime; lastWriteBytes := 0 |}.

(** [Utime] and [Stime] of the rusage, in seconds and microseconds. *)
Definition defaultGetrusage (r : result (Z * Z * Z * Z)) : result Z :=
  match r with
  | Err e => Err e
  | Ok (usec, uusec, ssec, susec) => Ok (i64 (i64 (i64 (usec + ssec) * 1000000) + i64 (uusec + susec)))
  end.

Definition normalizeCPULinux (elapsedProcUs elapsedWallNs cpus : Z) : float64 * bool :=
  if (elapsedWallNs <=? 0) || (elapsedProcUs <? 0) || (cpus <=? 0) || (MaxInt64 / 1000 <? elapsedProcUs)
  then (fzero, false)
  else
    let elapsedProcNs := i64 (elapsedProcUs * 1000) in
    let cpuFraction := fdiv (f_of_Z elapsedProcNs) (f_of_Z elapsedWallNs) in
    let cpuPercent := fmul (fdiv cpuFraction (f_of_Z cpus)) (f_of_Z 100) in
    (if fltb (f_of_Z 100) cpuPercent then f_of_Z 100 else cpuPercent, true).

Definition accumulateStorageSize (totalUsed fileSize : Z) : result Z :=
  if fileSize <? 0 then Err (ErrNew ("negative file size: " ^^ fmt_d fileSize))
  else if MaxUint64 - totalUsed <? fileSize then
    Err (ErrNew ("storage size addition overflow: " ^^ fmt_d totalUsed ^^ " + " ^^ fmt_d fileSize
                 ^^ " exceeds math.MaxUint64"))
  else Ok (u64 (totalUsed + fileSize)).

Definition linux_SampleCPU (p : linuxProvider) (ctxErr : option error) (now : Time) (rusage : result Z)
    : linuxProvider * ValidFloat64 * Time * option error :=
  match ctxErr with
  | Some e => (p, invalidFloat64, zeroTime, Some e)
  | None =>
      match rusage with
      | Err e => (p, invalidFloat64, now, Some e)
      | Ok totalUs =>
          let p' := {| storagePaths := storagePaths p; numCPU := numCPU p; pageSize := pageSize p;
                       lastCPUSampleTime := now; lastProcessTime := totalUs;
                       lastStorageSampleTime := lastStorageSampleTime p; lastWriteBytes := lastWriteBytes p |} in
          if IsZero (lastCPUSampleTime p) then (p', invalidFloat64, now, None)
          else
            let elapsedWallNs := Sub now (lastCPUSampleTime p) in
            let elapsedProcUs := i64 (totalUs - lastProcessTime p) in
            let '(cpuPercent, valid) := normalizeCPULinux elapsedProcUs elapsedWallNs (numCPU p) in
            (p', {| vf_Value := cpuPercent; vf_Valid := valid |}, now, None)
      end
  end.

Definition linux_SampleMemory (p : linuxProvider) (ctxErr : option error) (now : Time) (statm : result string)
    : ValidUint64 * Time * option error :=
  match ctxErr with
  | Some e => (invalidUint64, zeroTime, Some e)
  | None =>
      match statm with
      | Err e => (invalidUint64, now, Some e)
      | Ok data =>
          match Fields data with
          | _ :: f1 :: _ =>
              match ParseUint f1 with
              | None => (invalidUint64, now, Some (ErrNew ("failed to parse rss from statm: " ^^ f1)))
              | Some rssPages =>
                  if pageSize p <=? 0 then (invalidUint64, now, Some (ErrNew ("invalid page size: " ^^ fmt_d (pageSize p))))
                  else if MaxUint64 / pageSize p <? rssPages then
                    (invalidUint64, now, Some (ErrNew ("rss byte conversion overflow: pages=" ^^ fmt_d rssPages
                                                       ^^ ", pageSize=" ^^ fmt_d (pageSize p))))
                  else ({| vu_Value := u64 (rssPages * pageSize p); vu_Valid := true |}, now, None)
              end
          | _ => (invalidUint64, now, Some (ErrNew "invalid statm format"))
          end
      end
  end.

(** The loop over the configured paths. *)
Fixpoint sumStorage (stat : string -> StatReply) (paths : list string) (totalUsed : Z) : result Z :=
  match paths with
  | [] => Ok totalUsed
  | path :: paths =>
      match stat path with
      | NotExist e | StatFailed e => Err e
      | Found DirectoryFile _ =>
          Err (ErrNew ("storage path " ^^ path ^^ " is a directory, which is prohibited"))
      | Found OtherFile _ =>
          Err (ErrNew ("storage path " ^^ path ^^ " is not a regular file, which is prohibited"))
      | Found RegularFile size =>
          match accumulateStorageSize totalUsed size with
          | Err e => Err (ErrWrap ("storage path " ^^ path ^^ ": " ^^ error_Error e) [e])
          | Ok total => sumStorage stat paths total
          end
      end
  end.

(** The first line of /proc/self/io that starts with [write_bytes:]. *)
Fixpoint findWriteBytes (lines : list string) : option Z :=
  match lines with
  | [] => None
  | line :: lines =>
      if HasPrefix line "write_bytes:" then
        match Fields line with
        | [_; f1] => ParseUint f1
        | _ => None
        end
      else findWriteBytes lines
  end.

Definition linux_SampleStorage (p : linuxProvider) (ctxErr : option error) (now : Time)
    (stat : string -> StatReply) (io : result string)
    : linuxProvider * ValidUint64 * ValidFloat64 * Time * option error :=
  let failed at_ e := (p, invalidUint64, invalidFloat64, at_, Some e) in
  match ctxErr with
  | Some e => failed zeroTime e
  | None =>
      match storagePaths p with
      | [] => failed now (ErrNew "storage paths configuration is empty: at least one regular file path must be configured")
      | paths =>
          match sumStorage stat paths 0, io with
          | Err e, _ | Ok _, Err e => failed now e
          | Ok totalUsed, Ok ioData =>
              match findWriteBytes (Split ioData (ascii_of_nat 10)) with
              | None => failed now (ErrNew "write_bytes not found in /proc/self/io")
              | Some writeBytes =>
                  let elapsedSec := Seconds (Sub now (lastStorageSampleTime p)) in
                  let write :=
                    if negb (IsZero (lastStorageSampleTime p)) && fltb fzero elapsedSec
                       && (lastWriteBytes p <=? writeBytes)
                    then {| vf_Value := fdiv (f_of_Z (u64 (writeBytes - lastWriteBytes p))) elapsedSec; vf_Valid := true |}
                    else invalidFloat64 in
                  ({| storagePaths := storagePaths p; numCPU := numCPU p; pageSize := pageSize p;
                      lastCPUSampleTime := lastCPUSampleTime p; lastProcessTime := lastProcessTime p;
                      lastStorageSampleTime := now; lastWriteBytes := writeBytes |},
                   {| vu_Value := totalUsed; vu_Valid := true |}, write, now, None)
              end
          end
      end
  end.

(** The operating system as one round of readings. *)
Record LinuxOS := {
  os_getrusage : result (Z * Z * Z * Z);
  os_statm : result string;
  os_io : result string;
  os_stat : string -> StatReply;
}.

#[export] Instance linux_provider : OSResourceProvider linuxProvider LinuxOS := {
  SampleCPU p ctx now os := linux_SampleCPU p ctx now (defaultGetrusage (os_getrusage os));
  SampleMemory p ctx now os := linux_SampleMemory p ctx now (os_statm os);
  SampleStorage p ctx now os := linux_SampleStorage p ctx now (os_stat os) (os_io os);
}.

(** ** The provider for the SQLite store, over any platform provider *)

Record sqliteResourceProvider (P : Type) := { base : P; dbPath : string }.
Arguments base {P}.
Arguments dbPath {P}.

Definition NewSQLiteResourceProvider {P} (NewOSResourceProvider : list string -> result P) (path : string)
    : result (sqliteResourceProvider P) :=
  if path =s "" then Err (ErrNew "SQLite database path is required")
  else match NewOSResourceProvider [path] with
       | Err e => Err e
       | Ok b => Ok {| base := b; dbPath := path |}
       end.

(** The loop over the WAL and SHM files; [ctx] is [ctx.Err()] before each. *)
Fixpoint addSidecars (path : string) (ctx : string -> option error) (stat : string -> StatReply)
    (suffixes : list string) (used : Z) : result Z :=
  match suffixes with
  | [] => Ok used
  | suffix :: suffixes =>
      match ctx suffix with
      | Some e => Err e
      | None =>
          let file := path ^^ suffix in
          match stat file with
          | NotExist _ => addSidecars path ctx stat suffixes used
          | StatFailed e => Err (ErrWrap ("stat SQLite sidecar " ^^ file ^^ ": " ^^ error_Error e) [e])
          | Found kind size =>
              match kind with
              | RegularFile =>
                  if size <? 0 then Err (ErrNew ("SQLite sidecar " ^^ file ^^ " is not a regular file"))
                  else if MaxUint64 - used <? size then Err (ErrNew "SQLite footprint exceeds uint64")
                  else addSidecars path ctx stat suffixes (u64 (used + size))
              | _ => Err (ErrNew ("SQLite sidecar " ^^ file ^^ " is not a regular file"))
              end
          end
      end
  end.

(** The embedded provider's readings, the context before each side file and the
    replies of [os.Stat] for the side files. *)
Record SQLiteOS (OS : Type) := { base_os : OS; ctx_Err : string -> option error; side_stat : string -> StatReply }.
Arguments base_os {OS}.
Arguments ctx_Err {OS}.
Arguments side_stat {OS}.

Definition sqlite_SampleStorage {P OS} `{OSResourceProvider P OS} (p : sqliteResourceProvider P)
    (ctx : option error) (now : Time) (os : SQLiteOS OS)
    : sqliteResourceProvider P * ValidUint64 * ValidFloat64 * Time * option error :=
  let '(b, used, writeRate, sampledAt, err) := SampleStorage (base p) ctx now (base_os os) in
  let p := {| base := b; dbPath := dbPath p |} in
  match err with
  | Some _ => (p, used, writeRate, sampledAt, err)
  | None =>
      if negb (vu_Valid used) then (p, used, writeRate, sampledAt, err)
      else match addSidecars (dbPath p) (ctx_Err os) (side_stat os) ["-wal"; "-shm"]%string (vu_Value used) with
           | Err e => (p, invalidUint64, invalidFloat64, sampledAt, Some e)
           | Ok total => (p, {| vu_Value := total; vu_Valid := true |}, writeRate, sampledAt, None)
           end
  end.

#[export] Instance sqlite_provider {P OS} `{OSResourceProvider P OS} :
    OSResourceProvider (sqliteResourceProvider P) (SQLiteOS OS) := {
  SampleCPU p ctx now os :=
    let '(b, v, t, e) := SampleCPU (base p) ctx now (base_os os) in
    ({| base := b; dbPath := dbPath p |}, v, t, e);
  SampleMemory p ctx now os := SampleMemory (base p) ctx now (base_os os);
  SampleStorage := sqlite_SampleStorage;
}.

(** ** The laws *)
Lemma percent_capped f :
  nonneg f = true ->
  nonneg (if fltb (f_of_Z 100) f then f_of_Z 100 else f) = true /\
  fleb (if fltb (f_of_Z 100) f then f_of_Z 100 else f) (f_of_Z 100) = true.
Proof.
  intros Hf. destruct (fltb (f_of_Z 100) f) eqn:E; [done|]. split; [done|].
  rewrite fleb_negb; [by rewrite E|by apply nonneg_fleb|done].
Qed.

(** A share of wall-clock time in percent: both operands positive int64. *)
Lemma cpuPercent_nonneg proc wall cpus :
  0 <= proc <= MaxInt64 -> 0 < wall <= MaxInt64 -> 0 < cpus <= MaxInt64 ->
  nonneg (fmul (fdiv (fdiv (f_of_Z proc) (f_of_Z wall)) (f_of_Z cpus)) (f_of_Z 100)) = true.
Proof.
  unfold MaxInt64. intros. apply fmul_nonneg; [|done]. apply fdiv_nonneg; [|apply f_of_Z_posfin; lia].
  apply fdiv_nonneg; [apply f_of_Z_nonneg|apply f_of_Z_posfin]; lia.
Qed.

Lemma normalizeCPULinux_range proc wall cpus :
  in_i64 wall -> in_i64 cpus ->
  let '(v, valid) := normalizeCPULinux proc wall cpus in
  nonneg v = true /\ fleb v (f_of_Z 100) = true.
Proof.
  intros Hw Hc. unfold normalizeCPULinux. destruct (_ || _) eqn:E; [done|].
  rewrite !orb_false_iff in E. destruct E as [[[E1 E2] E3] E4].
  apply Z.leb_gt in E1, E3. apply Z.ltb_ge in E2, E4.
  assert (proc <= 9223372036854775) by (exact E4).
  assert (i64 (proc * 1000) = proc * 1000) as -> by (apply i64_small; int_lits; lia).
  apply percent_capped, cpuPercent_nonneg; int_lits; lia.
Qed.

(** A write rate over a positive interval. *)
Lemma writeRate_nonneg n d :
  in_u64 n -> fltb fzero d = true -> nonneg (fdiv (f_of_Z n) d) = true.
Proof.
  intros Hn Hd. assert (0 <= n < 2 ^ 64) as Hn' by (int_lits; lia).
  apply fdiv_nonneg'; [apply (f_of_Z_nonneg n Hn')..|]. by destruct d as [|[]| |[]].
Qed.

Lemma sumStorage_range stat paths total used :
  in_u64 total -> sumStorage stat paths total = Ok used -> in_u64 used.
Proof.
  revert total. induction paths as [|path paths IH]; intros total Ht; cbn [sumStorage]; [by intros [= <-]|].
  destruct (stat path) as [[] size| |]; try done. unfold accumulateStorageSize.
  destruct (_ <? 0); [done|]. destruct (_ <? size); [done|]. apply IH, u64_range.
Qed.

Lemma addSidecars_range path ctx stat suffixes used total :
  in_u64 used -> addSidecars path ctx stat suffixes used = Ok total -> in_u64 total.
Proof.
  revert used. induction suffixes as [|x xs IH]; intros used Hu; cbn [addSidecars]; [by intros [= <-]|].
  destruct (ctx x); [done|]. destruct (stat _) as [[] size| |]; try done; [|by apply IH].
  destruct (_ <? 0); [done|]. destruct (_ <? size); [done|]. apply IH, u64_range.
Qed.

Lemma in_u64_0 : in_u64 0.
Proof. done. Qed.
#[local] Hint Resolve in_u64_0 u64_range Sub_range : core.

#[export] Program Instance linux_laws : ProviderLaws linuxProvider LinuxOS := {
  provider_wf p := in_i64 (numCPU p);
}.
Next Obligation.
  intros p ctx now os Hwf. cbn [SampleCPU linux_provider]. unfold linux_SampleCPU.
  destruct ctx; [done|]. destruct (defaultGetrusage _) as [us|]; [|done].
  destruct (IsZero _); [done|].
  pose proof (normalizeCPULinux_range (i64 (us - lastProcessTime p)) (Sub now (lastCPUSampleTime p)) (numCPU p)
    (Sub_range _ _) Hwf) as Hr.
  by destruct (normalizeCPULinux _ _ _).
Qed.
Next Obligation.
  intros p ctx now os Hwf. cbn [SampleMemory linux_provider]. unfold linux_SampleMemory.
  repeat case_match; simplify_eq; (split; [done|]); (apply in_u64_0 || apply u64_range).
Qed.
Next Obligation.
  intros p ctx now os Hwf. cbn [SampleStorage linux_provider]. unfold linux_SampleStorage.
  destruct ctx; [done|]. destruct (storagePaths p) as [|path paths]; [done|].
  destruct (sumStorage _ _ _) as [used|] eqn:Hs; [|done]. destruct (os_io os) as [io|]; [|done].
  destruct (findWriteBytes _); [|done].
  split_and!; [done..|by eapply sumStorage_range in Hs|].
  destruct (_ && _) eqn:E; [|done]. rewrite !andb_true_iff in E. destruct E as [[_ E] _]. intros _.
  apply writeRate_nonneg; [apply u64_range|done].
Qed.

#[export] Program Instance sqlite_provider_laws {P OS} `{L : ProviderLaws P OS} :
    ProviderLaws (sqliteResourceProvider P) (SQLiteOS OS) := {
  provider_wf p := provider_wf (base p);
}.
Next Obligation.
  intros P OS ? L p ctx now os Hwf. cbn [SampleCPU sqlite_provider].
  pose proof (cpu_law (base p) ctx now (base_os os) Hwf) as Hc.
  by destruct (SampleCPU _ _ _ _) as [[[b v] t] e].
Qed.
Next Obligation.
  intros P OS ? L p ctx now os Hwf. cbn [SampleMemory sqlite_provider]. by apply memory_law.
Qed.
Next Obligation.
  intros P OS ? L p ctx now os Hwf. cbn [SampleStorage sqlite_provider]. unfold sqlite_SampleStorage.
  pose proof (storage_law (base p) ctx now (base_os os) Hwf) as Hs.
  destruct (SampleStorage _ _ _ _) as [[[[b used] w] t] [e|]]; [done|].
  destruct (negb _); [done|]. destruct Hs as (Hb & _ & Hu & Hw).
  destruct (addSidecars _ _ _ _ _) as [total|] eqn:Ha; [|done].
  split_and!; [done..|by eapply addSidecars_range in Ha|done].
Qed.

(** ** Composition with the coordinator *)

(** The context, the clock and the readings at each of the three calls a step
    makes. *)
Record StepReadings (OS : Type) := {
  at_cpu : option error * Time * OS;
  at_memory : option error * Time * OS;
  at_storage : option error * Time * OS;
}.
Arguments at_cpu {OS}.
Arguments at_memory {OS}.
Arguments at_storage {OS}.

Definition sampleProviderOnce {P OS} `{OSResourceProvider P OS} (p : P) (rd : StepReadings OS) : P * ProviderSamples :=
  let '(ctx1, t1, os1) := at_cpu rd in
  let '(p, cpu, _, e1) := SampleCPU p ctx1 t1 os1 in
  let '(ctx2, t2, os2) := at_memory rd in
  let '(mem, _, e2) := SampleMemory p ctx2 t2 os2 in
  let '(ctx3, t3, os3) := at_storage rd in
  let '(p, used, write, _, e3) := SampleStorage p ctx3 t3 os3 in
  (p, {| rawCPU := cpu; cpuErr := e1; rawMem := mem; memErr := e2;
         rawUsedBytes := used; rawWriteBytesSec := write; storageErr := e3 |}).

(** [Step] with its provider: a done context samples nothing. *)
Definition stepWithProvider {P OS} `{OSResourceProvider P OS} (c : Coordinator) (p : P) (ctxErr : option error)
    (rd : StepReadings OS) (rs : RuntimeSignals) (now : Time)
    : Coordinator * P * StepResult * option error * list Transition :=
  match ctxErr with
  | Some e => (c, p, zeroStepResult, Some e, [])
  | None =>
      let '(p, samples) := sampleProviderOnce p rd in
      let '(c, r, err, trs) := Coordinator_Step c None samples rs now in
      (c, p, r, err, trs)
  end.

(** What the laws give for one round of samples. *)
Definition lawfulSamples (s : ProviderSamples) : Prop :=
  (cpuErr s <> None -> vf_Valid (rawCPU s) = false) /\
  (vf_Valid (rawCPU s) = true -> nonneg (vf_Value (rawCPU s)) = true /\ fleb (vf_Value (rawCPU s)) (f_of_Z 100) = true) /\
  (memErr s <> None -> vu_Valid (rawMem s) = false) /\ in_u64 (vu_Value (rawMem s)) /\
  (storageErr s <> None -> vu_Valid (rawUsedBytes s) = false /\ vf_Valid (rawWriteBytesSec s) = false) /\
  in_u64 (vu_Value (rawUsedBytes s)) /\
  (vf_Valid (rawWriteBytesSec s) = true -> nonneg (vf_Value (rawWriteBytesSec s)) = true).

Lemma sampleProviderOnce_lawful {P OS} `{L : ProviderLaws P OS} (p : P) (rd : StepReadings OS) :
  provider_wf p -> provider_wf (sampleProviderOnce p rd).1 /\ lawfulSamples (sampleProviderOnce p rd).2.
Proof.
  intros Hwf. unfold sampleProviderOnce, lawfulSamples.
  destruct (at_cpu rd) as [[ctx1 t1] os1]. pose proof (cpu_law p ctx1 t1 os1 Hwf) as Hc.
  destruct (SampleCPU _ _ _ _) as [[[p1 cpu] u1] e1]. destruct Hc as (Hwf1 & Hc1 & Hc2).
  destruct (at_memory rd) as [[ctx2 t2] os2]. pose proof (memory_law p1 ctx2 t2 os2 Hwf1) as Hm.
  destruct (SampleMemory _ _ _ _) as [[mem u2] e2]. destruct Hm as [Hm1 Hm2].
  destruct (at_storage rd) as [[ctx3 t3] os3]. pose proof (storage_law p1 ctx3 t3 os3 Hwf1) as Hs.
  destruct (SampleStorage _ _ _ _) as [[[[p3 used] write] u3] e3]. by destruct Hs as (? & ? & ? & ?).
Qed.

(** The three numbers of a step's signals, from the phases. *)
Lemma Step_signals c p rs now :
  let s := Step_Signals (Coordinator_Step c None p rs now).1.1.2 in
  CPUUtilizationPercent s = (resolveCPU (cpuInitDone c) (rawCPU p) (cpuErr p)).1.1.1.2 /\
  (exists e, StoragePressure s = (resolveStorage (rawUsedBytes p) (rawWriteBytesSec p) (storageErr p)
     (StorageBudgetBytes (coord_config c)) e).1.1.2) /\
  (exists e, QueueSaturation s = (resolveQueue (QueueDepth rs) (QueueCapacity rs) e).1).
Proof.
  unfold Coordinator_Step.
  destruct (resolveCPU _ _ _) as [[[[cpuM cpuV] warm] done] e1].
  destruct (resolveMemory _ _ _) as [[[memM memV] inval] e2].
  destruct (resolveStorage _ _ _ _ _) as [[[[um wm] sv] blk] e3] eqn:Hs.
  destruct (resolveQueue _ _ _) as [qv e4] eqn:Hq.
  destruct (feedMetrics _ _ _ _ _ _ _ _ _) as [ms e5].
  assert (forall (A B : Prop), A -> B -> A /\ B) as conj' by auto.
  repeat case_match; cbn; (split; [done|split; [exists e2; by rewrite Hs|exists e3; by rewrite Hq]]).
Qed.

Lemma storageRatio_valid used budget :
  in_u64 used -> 0 < budget <= MaxUint64 ->
  let ratio := fdiv (f_of_Z used) (f_of_Z budget) in
  let ratio := if fltb (f_of_Z 1) ratio then f_of_Z 1 else ratio in
  isNaN ratio || fltb ratio fzero = false /\ fltb (f_of_Z 1) ratio = false.
Proof.
  intros Hu Hb ratio. assert (nonneg ratio = true) as Hn.
  { apply fdiv_nonneg; [apply f_of_Z_nonneg|apply f_of_Z_posfin]; int_lits; lia. }
  cbv zeta. destruct (fltb (f_of_Z 1) ratio) eqn:E; [done|]. split; [by apply nonneg_not_below|done].
Qed.

Lemma queueRatio_valid depth capacity :
  0 <= depth <= capacity -> 0 < capacity < 2 ^ 64 ->
  let ratio := fdiv (f_of_Z depth) (f_of_Z capacity) in
  isNaN ratio || fltb ratio fzero = false /\ fltb (f_of_Z 1) ratio = false.
Proof.
  intros Hd Hc ratio. destruct (fdiv_ratio depth capacity Hd Hc) as [Hn Hl]. fold ratio in Hn, Hl.
  split; [by apply nonneg_not_below|]. change (f_of_Z 1) with fone.
  rewrite fleb_negb in Hl; [by apply negb_true_iff|by apply nonneg_fleb|done].
Qed.

(** Every measurement the signals need is there. *)
Definition measured (samples : ProviderSamples) (budget : Z) (rs : RuntimeSignals) : Prop :=
  vf_Valid (rawCPU samples) = true /\ vu_Valid (rawUsedBytes samples) = true /\ budget <> 0 /\
  vu_Valid (QueueDepth rs) = true /\ vu_Valid (QueueCapacity rs) = true /\
  vu_Value (QueueCapacity rs) <> 0 /\ vu_Value (QueueDepth rs) <= vu_Value (QueueCapacity rs).

#[export] Instance measured_dec samples budget rs : Decision (measured samples budget rs).
Proof. unfold measured. apply _. Defined.

Lemma measured_signals_valid c s rs now :
  lawfulSamples s -> in_u64 (StorageBudgetBytes (coord_config c)) ->
  in_u64 (vu_Value (QueueDepth rs)) -> in_u64 (vu_Value (QueueCapacity rs)) ->
  measured s (StorageBudgetBytes (coord_config c)) rs ->
  validateSignals (Step_Signals (Coordinator_Step c None s rs now).1.1.2) = None.
Proof.
  intros (C1 & C2 & _ & _ & S1 & S2 & _) Hb Hd Hc (M1 & M2 & M3 & M4 & M5 & M6 & M7).
  destruct (Step_signals c s rs now) as (E1 & (e & E2) & (e' & E3)). unfold validateSignals.
  rewrite E1, E2, E3. clear E1 E2 E3.
  assert (cpuErr s = None) as ->. { destruct (cpuErr s); [|done]. rewrite C1 in M1; done. }
  assert (storageErr s = None) as ->. { destruct (storageErr s); [|done]. destruct S1; [done|congruence]. }
  assert ((resolveCPU (cpuInitDone c) (rawCPU s) None).1.1.1.2 = vf_Value (rawCPU s)) as ->.
  { unfold resolveCPU. rewrite M1. by destruct (cpuInitDone c). }
  rewrite nonneg_not_below by (by apply C2).
  unfold resolveStorage, CalculateStoragePressure, resolveQueue, CalculateQueueSaturation.
  rewrite M2, M4, M5. destruct (Z.eqb_spec (StorageBudgetBytes (coord_config c)) 0); [done|].
  destruct (Z.eqb_spec (vu_Value (QueueCapacity rs)) 0); [done|].
  destruct (Z.ltb_spec (vu_Value (QueueCapacity rs)) (vu_Value (QueueDepth rs))); [lia|].
  cbn [negb orb fst snd vf_Valid vf_Value].
  destruct (storageRatio_valid (vu_Value (rawUsedBytes s)) (StorageBudgetBytes (coord_config c)) S2 ltac:(int_lits; lia)) as [-> ->].
  destruct (queueRatio_valid (vu_Value (QueueDepth rs)) (vu_Value (QueueCapacity rs)) ltac:(int_lits; lia) ltac:(int_lits; lia)) as [-> ->].
  done.
Qed.

Lemma valid_signals_measured c s rs now :
  lawfulSamples s ->
  validateSignals (Step_Signals (Coordinator_Step c None s rs now).1.1.2) = None ->
  measured s (StorageBudgetBytes (coord_config c)) rs.
Proof.
  intros (C1 & _ & _ & _ & S1 & _) Hv.
  assert (forall f, f = fNaN -> isNaN f = true) as HNaN by (by intros ? ->).
  pose proof (fun H => validateSignals_nan _ H Hv) as Hn.
  pose proof (Step_inv c s rs now) as (_ & _ & _ & _ & _ & Hc & Hs & Hq & _). cbv zeta in Hc, Hs, Hq.
  destruct (Step_signals c s rs now) as (_ & (e & E2) & _). cbv zeta in E2.
  split_and!.
  - destruct (vf_Valid (rawCPU s)) eqn:E; [done|]. exfalso. apply Hn. left. apply Hc. by right.
  - destruct (vu_Valid (rawUsedBytes s)) eqn:E; [done|]. exfalso. apply Hn. right. left. apply Hs. by right.
  - intros E0. apply Hn. right. left. rewrite E2. unfold resolveStorage, CalculateStoragePressure.
    rewrite E0. by destruct (storageErr s).
  - destruct (vu_Valid (QueueDepth rs)) eqn:E; [done|]. exfalso. apply Hn. right. right. apply Hq. by left.
  - destruct (vu_Valid (QueueCapacity rs)) eqn:E; [done|]. exfalso. apply Hn. right. right. apply Hq. by right; left.
  - intros E. apply Hn. right. right. apply Hq. by do 2 right; left.
  - apply Z.nlt_ge. intros E. apply Hn. right. right. apply Hq. by do 3 right.
Qed.

(** The database's footprint: what exists of its three files. *)
Definition fileSize (r : StatReply) : Z := match r with Found _ n => n | _ => 0 end.

Definition footprint (stat : string -> StatReply) (path : string) : Z :=
  fileSize (stat path) + (fileSize (stat (path ^^ "-wal")) + fileSize (stat (path ^^ "-shm"))).

(** The store's view of the same replies ([os.Stat] in getTotalSize). *)
Definition toStatResult (r : StatReply) : Storage.StatResult :=
  match r with
  | Found _ n => Storage.StatSize n
  | NotExist _ => Storage.StatNotExist
  | StatFailed e => Storage.StatError e
  end.

(** Which replies count: a side file is absent, or a regular file. *)
Definition sizedFile (r : StatReply) : Prop :=
  match r with Found RegularFile n => 0 <= n | _ => False end.
Definition sidecarOk (r : StatReply) : Prop :=
  match r with Found RegularFile n => 0 <= n | NotExist _ => True | _ => False end.

Lemma sidecarOk_size r : sidecarOk r -> 0 <= fileSize r.
Proof. by destruct r as [[]| |]. Qed.

(** The loop over the side files succeeds with the exact sum, or fails. *)
Lemma addSidecars_ok path ctx stat suffixes used total :
  in_u64 used ->
  addSidecars path ctx stat suffixes used = Ok total <->
  Forall (fun x => ctx x = None /\ sidecarOk (stat (path ^^ x))) suffixes /\
  total = used + foldr Z.add 0 (map (fun x => fileSize (stat (path ^^ x))) suffixes) /\ in_u64 total.
Proof.
  revert used. induction suffixes as [|x xs IH]; intros used Hu; cbn [addSidecars map foldr].
  { rewrite Z.add_0_r. split; [by intros [= <-]|by intros (_ & -> & _)]. }
  assert (Hpos : Forall (fun x => ctx x = None /\ sidecarOk (stat (path ^^ x))) xs ->
          0 <= foldr Z.add 0 (map (fun x => fileSize (stat (path ^^ x))) xs)).
  { clear IH. induction 1 as [|y ys [_ Hy] _ IHys]; [done|]. cbn. apply sidecarOk_size in Hy. lia. }
  rewrite Forall_cons. destruct (ctx x) as [e|]; [split; [done|by intros ([[? _] _] & _)]|].
  destruct (stat (path ^^ x)) as [kind size|e|e] eqn:Hst; cbn [sidecarOk fileSize].
  - destruct kind; [|split; [done|by intros ([[_ []] _] & _)]..].
    destruct (Z.ltb_spec size 0); [split; [done|intros ([[_ ?] _] & _); lia]|].
    destruct (Z.ltb_spec (MaxUint64 - used) size) as [Ho|Ho].
    { split; [done|]. intros ([_ Hf] & -> & Ht). apply Hpos in Hf. unfold in_u64 in *. lia. }
    rewrite u64_small by (unfold in_u64 in *; lia).
    rewrite IH by (unfold in_u64 in *; lia). rewrite Z.add_assoc. naive_solver.
  - rewrite IH by done. naive_solver.
  - split; [done|by intros ([[_ []] _] & _)].
Qed.

(** The database file alone, as the embedded provider sums it. *)
Lemma sumStorage_one stat path used :
  sumStorage stat [path] 0 = Ok used -> sizedFile (stat path) /\ used = fileSize (stat path) /\ in_u64 used.
Proof.
  cbn [sumStorage]. destruct (stat path) as [[] n| |]; try done. unfold accumulateStorageSize.
  destruct (Z.ltb_spec n 0); [done|]. destruct (Z.ltb_spec (MaxUint64 - 0) n); [done|]. intros [= <-].
  rewrite Z.add_0_l, u64_small by (split; lia). split_and!; [done|done|split; lia].
Qed.

Lemma sumStorage_one_ok stat path :
  sizedFile (stat path) -> fileSize (stat path) <= MaxUint64 ->
  sumStorage stat [path] 0 = Ok (fileSize (stat path)).
Proof.
  cbn [sumStorage]. destruct (stat path) as [[] n| |]; try done. cbn. intros. unfold accumulateStorageSize.
  destruct (Z.ltb_spec n 0); [lia|]. destruct (Z.ltb_spec (MaxUint64 - 0) n); [lia|].
  by rewrite Z.add_0_l, u64_small by (split; lia).
Qed.

(** The store sums the same replies. *)
Lemma getTotalSize_footprint stat path env c :
  (forall f, Storage.stat env c f = toStatResult (stat (path ^^ f))) ->
  sizedFile (stat path) -> sidecarOk (stat (path ^^ "-wal")) -> sidecarOk (stat (path ^^ "-shm")) ->
  footprint stat path <= MaxInt64 -> Storage.getTotalSize env c = Ok (footprint stat path).
Proof.
  intros Henv Hm Hw Hs Hn. unfold Storage.getTotalSize, Storage.dbFiles, footprint in *. cbn [Storage.sumSizes].
  rewrite !Henv, append_nil_r.
  pose proof (sidecarOk_size _ Hw). pose proof (sidecarOk_size _ Hs).
  destruct (stat path) as [[] n| |]; try done. cbn [sizedFile toStatResult fileSize] in *.
  destruct (stat (path ^^ "-wal")) as [[] w| |]; try done; destruct (stat (path ^^ "-shm")) as [[] h| |]; try done;
    cbn [toStatResult fileSize] in *; rewrite ?Z.add_0_l, ?Z.add_0_r in *;
    rewrite ?(i64_small n), ?(i64_small (n + w)), ?i64_small by (int_lits; lia);
    by rewrite ?Z.add_assoc.
Qed.

(** When the embedded Linux provider of a single path succeeds. *)
Lemma linux_SampleStorage_one p path ctx now stat io :
  storagePaths p = [path] ->
  let '(_, used, _, _, err) := linux_SampleStorage p ctx now stat io in
  (err = None -> sizedFile (stat path) /\ used = {| vu_Value := fileSize (stat path); vu_Valid := true |} /\
     fileSize (stat path) <= MaxUint64) /\
  (err = None <->
     ctx = None /\ (exists d w, io = Ok d /\ findWriteBytes (Split d (ascii_of_nat 10)) = Some w) /\
     sizedFile (stat path) /\ fileSize (stat path) <= MaxUint64).
Proof.
  intros Hp. unfold linux_SampleStorage. rewrite Hp.
  destruct ctx as [e|]; [split; [done|split; [done|by intros [? _]]]|].
  destruct (sumStorage stat [path] 0) as [used|e] eqn:Hs.
  - destruct (sumStorage_one _ _ _ Hs) as (H1 & -> & H2). destruct H2 as [_ H2].
    destruct io as [d|e]; [|split; [done|split; [done|by intros (_ & (? & ? & ? & _) & _)]]].
    destruct (findWriteBytes _) as [w|] eqn:Hw; [|split; [done|split; [done|intros (_ & (? & ? & ? & ?) & _); congruence]]].
    split; [done|]. split; [|done]. intros _. split_and!; try done. by exists d, w.
  - split; [by destruct io|]. split; [by destruct io|]. intros (_ & _ & H1 & H2).
    by rewrite (sumStorage_one_ok _ _ H1 H2) in Hs.
Qed.

(** ** Properties *)

(** Which steps evaluate: the RSS is known, the CPU baseline is established or
    this sample establishes it, and a budget is configured. *)
Definition evaluates (c : Coordinator) (samples : ProviderSamples) : Prop :=
  vu_Valid (rawMem samples) = true /\ (cpuInitDone c = true \/ vf_Valid (rawCPU samples) = true) /\
  StorageBudgetBytes (coord_config c) <> 0.

#[export] Instance evaluates_dec c samples : Decision (evaluates c samples).
Proof. unfold evaluates. apply _. Defined.

Lemma evaluates_stepReady c s :
  lawfulSamples s ->
  stepReady c s && negb (StorageBudgetBytes (coord_config c) =? 0) = bool_decide (evaluates c s).
Proof.
  intros (C1 & _ & M1 & _). unfold stepReady.
  assert (bool_decide (cpuErr s = None) && vf_Valid (rawCPU s) = vf_Valid (rawCPU s)) as ->.
  { destruct (cpuErr s); [rewrite C1 by done; done|done]. }
  assert (bool_decide (memErr s = None) && vu_Valid (rawMem s) = vu_Valid (rawMem s)) as ->.
  { destruct (memErr s); [rewrite M1 by done; done|done]. }
  symmetry. case_bool_decide as He; unfold evaluates in He;
    destruct (cpuInitDone c), (vf_Valid (rawCPU s)), (vu_Valid (rawMem s)),
      (Z.eqb_spec (StorageBudgetBytes (coord_config c)) 0); cbn; naive_solver.
Qed.

(** An evaluation of unusable signals ends in EMERGENCY. *)
Lemma Evaluate_invalid g now s :
  operating (currentState g) -> validateSignals s <> None ->
  currentState (Governor_Evaluate g now s).1 = StateEmergency.
Proof.
  intros Hop Hv. assert ((computeTargetState g s).1 = StateEmergency) as Ht.
  { unfold computeTargetState. by destruct (validateSignals s). }
  pose proof (severity_range (currentState g)).
  destruct (Evaluate_inv g now s) as (_ & _ & [(-> & _)|(-> & _ & Hc)]); [done|].
  rewrite Ht in Hc. change (stateSeverity StateEmergency) with 2 in Hc.
  apply severity_inj; [done|by right; right|]. change (stateSeverity StateEmergency) with 2. lia.
Qed.

(** C23: Missing telemetry is neither passed off as a valid signal nor
    invented.  Over any provider that keeps the interface's contract (Linux,
    Windows, or either under the SQLite provider), the signals of a step pass
    the governor's validation if and only if the CPU and storage measurements
    are available, a budget is configured, and the queue's depth and non-zero
    capacity are known and consistent; the uint64 to float64 conversions and
    the divisions never round a complete measurement into an invalid signal.
    A step with a known RSS, a CPU baseline and a budget evaluates the governor,
    and ends in EMERGENCY when one of those measurements is missing; a step
    without the RSS, before the CPU baseline or without a budget evaluates
    nothing, and leaves the governor as it is. *)
Theorem signals_valid_iff_measured {P OS} `{L : ProviderLaws P OS} (p : P) c g (rd : StepReadings OS) rs now :
  provider_wf p -> in_u64 (StorageBudgetBytes (coord_config c)) ->
  in_u64 (vu_Value (QueueDepth rs)) -> in_u64 (vu_Value (QueueCapacity rs)) ->
  coord_governor c = Some g -> operating (currentState g) ->
  let '(c', p', r, _, trs) := stepWithProvider c p None rd rs now in
  let samples := (sampleProviderOnce p rd).2 in
  let complete := measured samples (StorageBudgetBytes (coord_config c)) rs in
  provider_wf p' /\
  (validateSignals (Step_Signals r) = None <-> complete) /\
  (evaluates c samples ->
     Evaluated r = true /\
     coord_governor c' = Some (Governor_Evaluate g now (Step_Signals r)).1 /\
     (~ complete -> Step_GovernorState r = StateEmergency)) /\
  (~ evaluates c samples -> Evaluated r = false /\ coord_governor c' = Some g /\ trs = []).
Proof.
  intros Hwf Hb Hd Hc Hg Hop. unfold stepWithProvider.
  destruct (sampleProviderOnce_lawful p rd Hwf) as [Hwf' Hl].
  destruct (sampleProviderOnce p rd) as [p' s]. cbn [fst snd] in Hwf', Hl |- *.
  pose proof (measured_signals_valid c s rs now Hl Hb Hd Hc) as H1.
  pose proof (valid_signals_measured c s rs now Hl) as H2.
  pose proof (Step_inv c s rs now) as (_ & _ & _ & _ & _ & _ & _ & _ & Hm).
  rewrite Hg, (evaluates_stepReady c s Hl) in Hm. cbv zeta in Hm.
  destruct (Coordinator_Step c None s rs now) as [[[c' r] e] trs]. cbn [fst snd] in *.
  split; [done|split; [done|]].
  case_bool_decide as He; split; try done; intros _.
  - destruct Hm as (-> & -> & _ & ->). split; [done|split; [done|]]. intros Hn.
    apply Evaluate_invalid; [done|]. intros Hv. by apply Hn, H2.
  - by destruct Hm as (-> & -> & -> & _).
Qed.

(** The storage pressure the governor reacts to and the quota the event
    store enforces measure the same thing.  When the SQLite provider's storage
    sample succeeds, its value is the exact sum of the database file and the
    WAL and SHM files that exist, and it is what the store's [getTotalSize]
    computes from the same [os.Stat] replies as long as the sum fits int64.
    The sample succeeds exactly when the context stays live, the process's
    write counter can be read, the database is a regular file, each side file
    is absent or regular, and the sum fits uint64: it never wraps around. *)
Theorem sqlite_footprint_is_quota_size (p : sqliteResourceProvider linuxProvider) ctx now os stat env c :
  storagePaths (base p) = [dbPath p] ->
  os_stat (base_os os) = stat -> side_stat os = stat ->
  (forall f, Storage.stat env c f = toStatResult (stat (dbPath p ^^ f))) ->
  let '(_, used, _, _, err) := SampleStorage p ctx now os in
  let n := footprint stat (dbPath p) in
  (err = None -> used = {| vu_Value := n; vu_Valid := true |} /\
     (n <= MaxInt64 -> Storage.getTotalSize env c = Ok n)) /\
  (err = None <->
     ctx = None /\ (exists io w, os_io (base_os os) = Ok io /\ findWriteBytes (Split io (ascii_of_nat 10)) = Some w) /\
     sizedFile (stat (dbPath p)) /\
     ctx_Err os "-wal" = None /\ sidecarOk (stat (dbPath p ^^ "-wal")) /\
     ctx_Err os "-shm" = None /\ sidecarOk (stat (dbPath p ^^ "-shm")) /\ in_u64 n).
Proof.
  intros Hp Hos Hside Henv. cbn [SampleStorage sqlite_provider]. unfold sqlite_SampleStorage.
  cbn [SampleStorage linux_provider]. rewrite Hos, Hside.
  pose proof (linux_SampleStorage_one (base p) (dbPath p) ctx now stat (os_io (base_os os)) Hp) as Hb.
  destruct (linux_SampleStorage _ _ _ _ _) as [[[[b used] w] t] [e|]].
  { destruct Hb as [_ Hb]. split; [done|]. split; [done|]. intros (? & ? & Hm & _ & Hw & _ & Hs & [_ Hn]).
    apply Hb. split_and!; try done.
    pose proof (sidecarOk_size _ Hw). pose proof (sidecarOk_size _ Hs). unfold footprint in Hn. lia. }
  destruct Hb as [Hb1 Hb2]. destruct (Hb1 eq_refl) as (Hm & -> & Hmax). cbn [vu_Valid vu_Value negb].
  assert (in_u64 (fileSize (stat (dbPath p)))) as Hu.
  { split; [|done]. destruct (stat (dbPath p)) as [[]| |]; done. }
  pose proof (addSidecars_ok (dbPath p) (ctx_Err os) stat ["-wal"; "-shm"]%string
    (fileSize (stat (dbPath p)))) as Ha.
  specialize (fun t => Ha t Hu) as Ha. cbn [map foldr] in Ha. rewrite Z.add_0_r in Ha. fold (footprint stat (dbPath p)) in Ha.
  repeat setoid_rewrite Forall_cons in Ha. setoid_rewrite Forall_nil in Ha.
  destruct (addSidecars _ _ _ _ _) as [total|e].
  - destruct (proj1 (Ha total)) as (((Hc1 & Hs1) & (Hc2 & Hs2) & _) & -> & Hn); [done|].
    split; [|split; [|done]].
    + intros _. split; [done|]. intros Hi. by apply (getTotalSize_footprint _ (dbPath p)).
    + intros _. destruct (proj1 Hb2 eq_refl) as (Hctx & Hio & _). by split_and!.
  - split; [done|]. split; [done|]. intros (_ & _ & _ & Hc1 & Hs1 & Hc2 & Hs2 & Hn).
    assert (Err e = Ok (footprint stat (dbPath p))) as Hx; [|done]. apply Ha. by split_and!.
Qed.

(** The endpoint's provider on its second round of samples: 350 ms of
    processor time in one second on two processors, 2000 resident pages, a
    database of 1 MB with a write-ahead log of 64 KB. *)
Definition sampleLinuxOS (usec : Z) : LinuxOS := {|
  os_getrusage := Ok (3, usec, 1, 500000);
  os_statm := Ok "25000 2000 1500 600 0 9000 0"%string;
  os_io := Ok ("rchar: 12" ^^ String (ascii_of_nat 10) "write_bytes: 8192");
  os_stat f := if f =s "edge.db" then Found RegularFile 1000000
               else if f =s "edge.db-wal" then Found RegularFile 65536
               else NotExist (ErrNew "file does not exist") |}.

Definition sampleSQLiteOS (usec : Z) : SQLiteOS LinuxOS := {|
  base_os := sampleLinuxOS usec; ctx_Err _ := None; side_stat := os_stat (sampleLinuxOS usec) |}.

Definition sampleReadings (usec t : Z) : StepReadings (SQLiteOS LinuxOS) := {|
  at_cpu := (None, t, sampleSQLiteOS usec);
  at_memory := (None, t, sampleSQLiteOS usec);
  at_storage := (None, t, sampleSQLiteOS usec) |}.

Definition sampleSQLiteProvider : sqliteResourceProvider linuxProvider :=
  {| base := NewLinuxProvider ["edge.db"%string] 2 4096; dbPath := "edge.db"%string |}.

Definition warmProvider : sqliteResourceProvider linuxProvider :=
  (sampleProviderOnce sampleSQLiteProvider (sampleReadings 100000 (5 * Second))).1.

Lemma signals_valid_iff_measured_witness :
  let r := (stepWithProvider (sampleCoordinator 10000000) warmProvider None
              (sampleReadings 450000 (6 * Second)) (sampleRuntime 3 200) (6 * Second)).1.1.2 in
  validateSignals (Step_Signals r) = None /\ Evaluated r = true /\
  measured (sampleProviderOnce warmProvider (sampleReadings 450000 (6 * Second))).2 10000000 (sampleRuntime 3 200).
Proof.
  assert (measured (sampleProviderOnce warmProvider (sampleReadings 450000 (6 * Second))).2 10000000 (sampleRuntime 3 200)) as Hm.
  { unfold measured. split_and!; vm_compute; congruence. }
  intros r. split; [|split; [vm_compute; reflexivity|exact Hm]].
  assert (provider_wf warmProvider) as Hwf by (vm_compute; split; discriminate).
  pose proof (signals_valid_iff_measured warmProvider (sampleCoordinator 10000000) (endpointGovernor StateNormal)
    (sampleReadings 450000 (6 * Second)) (sampleRuntime 3 200) (6 * Second) Hwf
    ltac:(vm_compute; split; discriminate) ltac:(vm_compute; split; discriminate) ltac:(vm_compute; split; discriminate)
    eq_refl (or_introl eq_refl)) as H.
  unfold r. destruct (stepWithProvider _ _ _ _ _ _) as [[[[c' p'] r'] e'] t'] in H |- *.
  exact (proj2 (proj1 (proj2 H)) Hm).
Defined.

Definition sampleQuotaEnv : Storage.Env := {|
  Storage.sqlErr _ := None; Storage.commitApplied := true; Storage.txCheckOk := true;
  Storage.stat _ f := toStatResult (os_stat (sampleLinuxOS 0) ("edge.db" ^^ f));
  Storage.now := 0; Storage.nowNano := 0 |}.

Lemma sqlite_footprint_is_quota_size_witness :
  (SampleStorage sampleSQLiteProvider None (5 * Second) (sampleSQLiteOS 0)).1.1.1.2
    = {| vu_Value := 1065536; vu_Valid := true |} /\
  Storage.getTotalSize sampleQuotaEnv Storage.SizeFirst = Ok 1065536.
Proof.
  pose proof (sqlite_footprint_is_quota_size sampleSQLiteProvider None (5 * Second) (sampleSQLiteOS 0)
    (os_stat (sampleLinuxOS 0)) sampleQuotaEnv Storage.SizeFirst eq_refl eq_refl eq_refl (fun _ => eq_refl)) as H.
  destruct (SampleStorage sampleSQLiteProvider None (5 * Second) (sampleSQLiteOS 0)) as [[[[p' used] w] t] e] eqn:E.
  assert (e = None) as He by (vm_compute in E; congruence).
  destruct (proj1 H He) as [Hu Hq]. split; [exact Hu|]. apply Hq. vm_compute. discriminate.
Defined.

(** ** The sampling loop *)

(** What one turn of the select yields: the context is done, the tick channel
    is closed, or a tick; for a tick [busy] is [ctx.Err()] read after it and
    [input] what the step will see. *)
Inductive SelectOutcome := CtxDone | TicksClosed | Ticked (busy : option error) (input : StepInput).

(** [Returned]: the function returned; [Waiting]: it waits in the select. *)
Inductive LoopExit := Returned (e : option error) | Waiting.

Definition samplingStep (c : Coordinator) (i : StepInput) : Coordinator * (StepResult * option error) :=
  let '(ctxErr, p, rs, now) := i in
  let '(c, r, e, _) := Coordinator_Step c ctxErr p rs now in (c, (r, e)).

Fixpoint samplingLoop (c : Coordinator) (sel : list SelectOutcome)
    : Coordinator * list (StepResult * option error) * LoopExit :=
  match sel with
  | [] => (c, [], Waiting)
  | CtxDone :: _ | TicksClosed :: _ | Ticked (Some _) _ :: _ => (c, [], Returned None)
  | Ticked None i :: sel =>
      let '(c, seen) := samplingStep c i in
      let '(c, rest, exit) := samplingLoop c sel in (c, seen :: rest, exit)
  end.

(** The results passed to [onStep]; a nil [onStep] ignores them. *)
Definition RunSampling (coordinator : option Coordinator) (hasSignals hasTicks : bool) (ctxErr : option error)
    (first : StepInput) (sel : list SelectOutcome) : option Coordinator * list (StepResult * option error) * LoopExit :=
  match coordinator with
  | None => (None, [], Returned (Some (ErrNew "resource sampling requires a coordinator, signal source, and ticks")))
  | Some c =>
      if negb hasSignals || negb hasTicks
      then (Some c, [], Returned (Some (ErrNew "resource sampling requires a coordinator, signal source, and ticks")))
      else match ctxErr with
      | Some _ => (Some c, [], Returned None)
      | None =>
          let '(c, seen) := samplingStep c first in
          let '(c, rest, exit) := samplingLoop c sel in (Some c, seen :: rest, exit)
      end
  end.

(** The ticks taken before the loop stops. *)
Fixpoint takenTicks (sel : list SelectOutcome) : list StepInput :=
  match sel with
  | Ticked None i :: sel => i :: takenTicks sel
  | _ => []
  end.

Lemma samplingLoop_run c sel :
  let '(c', seen, _) := samplingLoop c sel in
  c' = Coordinator_run c (takenTicks sel) /\ length seen = length (takenTicks sel).
Proof.
  revert c. induction sel as [|[| |[e|] i] sel IH]; intros c; try done.
  cbn [samplingLoop takenTicks]. destruct (samplingStep c i) as [c1 seen] eqn:E.
  specialize (IH c1). destruct (samplingLoop c1 sel) as [[c2 rest] exit]. destruct IH as [-> IH].
  split; [|cbn; congruence]. unfold Coordinator_run. cbn [foldl]. f_equal.
  unfold samplingStep, Coordinator_step1 in *. destruct i as [[[ctxErr p] rs] now].
  destruct (Coordinator_Step _ _ _ _ _) as [[[? ?] ?] ?]. cbn. congruence.
Qed.

(** The sampling loop is the fold of [Step]: it takes one immediate sample
    and one per tick until the context ends or the channel closes, reports
    every step it took and no other, never steps after it has seen the
    cancelled context, and returns an error only for a missing argument, in
    which case it takes no step. *)
Theorem sampling_is_run c hasSignals hasTicks ctxErr first sel :
  let '(c', seen, exit) := RunSampling (Some c) hasSignals hasTicks ctxErr first sel in
  let taken := if hasSignals && hasTicks && bool_decide (ctxErr = None) then first :: takenTicks sel else [] in
  c' = Some (Coordinator_run c taken) /\ length seen = length taken /\
  (exit = Returned None \/ exit = Waiting <-> hasSignals && hasTicks = true).
Proof.
  unfold RunSampling. destruct hasSignals, hasTicks; cbn [negb orb andb]; try (split_and!; [done..|]; naive_solver).
  destruct ctxErr as [e|]; [split_and!; [done..|]; naive_solver|]. rewrite bool_decide_eq_true_2 by done.
  pose proof (samplingLoop_run c [Ticked None first]) as H1. cbn [samplingLoop takenTicks] in H1.
  destruct (samplingStep c first) as [c1 seen]. destruct H1 as [-> _].
  pose proof (samplingLoop_run (Coordinator_run c [first]) sel) as H.
  assert ((samplingLoop (Coordinator_run c [first]) sel).2 = Returned None \/ (samplingLoop (Coordinator_run c [first]) sel).2 = Waiting) as Hx.
  { clear. generalize (Coordinator_run c [first]) as c1.
    induction sel as [|[| |[e|] i] sel IH]; intros c1; cbn [samplingLoop]; auto.
    destruct (samplingStep c1 i) as [c2 s]. specialize (IH c2). by destruct (samplingLoop c2 sel) as [[? ?] ?]. }
  destruct (samplingLoop _ sel) as [[c2 rest] exit]. destruct H as [-> H].
  split_and!; [done|cbn; congruence|]. split; [done|auto].
Qed.
