(* ===== verification/ProviderWindows.v ===== *)
(** The Windows resource provider
    (agent/internal/governor/provider_windows.go).  The system calls are
    inputs: the four FILETIMEs of GetProcessTimes, the working set of
    GetProcessMemoryInfo, the write counter of GetProcessIoCounters. *)
From S2P Require Import Prelude GoStrings GoFloat GoTime Governor Metrics Coordinator Provider.

Open Scope Z_scope.

Record windowsProvider := {
  win_storagePaths : list string;
  win_numCPU : Z;
  win_lastCPUSampleTime : Time;
  win_lastProcessTime : Z;
  win_lastStorageSampleTime : Time;
  win_lastWriteBytes : Z;
}.

(** [proc] is the answer of GetCurrentProcess. *)
Definition NewWindowsProvider (proc : option error) (cpus : Z) (paths : list string) : result windowsProvider :=
  match proc with
  | Some e => Err e
  | None => Ok {| win_storagePaths := paths; win_numCPU := cpus; win_lastCPUSampleTime := zeroTime;
                  win_lastProcessTime := 0; win_lastStorageSampleTime := zeroTime; win_lastWriteBytes := 0 |}
  end.

(** A [windows.Filetime]: two uint32 halves of a count of 100-ns units. *)
Record Filetime := { LowDateTime : Z; HighDateTime : Z }.

(** [(int64(HighDateTime) << 32) | int64(LowDateTime)] *)
Definition filetimeUnits (t : Filetime) : Z := Z.lor (i64 (Z.shiftl (HighDateTime t) 32)) (LowDateTime t).

Definition normalizeCPU (elapsedProcUnits elapsedWallNs cpus : Z) : float64 * bool :=
  if (elapsedWallNs <=? 0) || (elapsedProcUnits <? 0) || (cpus <=? 0) || (MaxInt64 / 100 <? elapsedProcUnits)
  then (fzero, false)
  else
    let elapsedProcNs := i64 (elapsedProcUnits * 100) in
    let cpuFraction := fdiv (f_of_Z elapsedProcNs) (f_of_Z elapsedWallNs) in
    let cpuPercent := fmul (fdiv cpuFraction (f_of_Z cpus)) (f_of_Z 100) in
    (if fltb (f_of_Z 100) cpuPercent then f_of_Z 100 else cpuPercent, true).

(** [GetProcessTimes]: kernel and user time. *)
Definition windows_SampleCPU (p : windowsProvider) (ctxErr : option error) (now : Time)
    (times : result (Filetime * Filetime)) : windowsProvider * ValidFloat64 * Time * option error :=
  match ctxErr with
  | Some e => (p, invalidFloat64, zeroTime, Some e)
  | None =>
      match times with
      | Err e => (p, invalidFloat64, now, Some e)
      | Ok (kernel, user) =>
          let totalTime := i64 (filetimeUnits kernel + filetimeUnits user) in
          let p' := {| win_storagePaths := win_storagePaths p; win_numCPU := win_numCPU p;
                       win_lastCPUSampleTime := now; win_lastProcessTime := totalTime;
                       win_lastStorageSampleTime := win_lastStorageSampleTime p;
                       win_lastWriteBytes := win_lastWriteBytes p |} in
          if IsZero (win_lastCPUSampleTime p) then (p', invalidFloat64, now, None)
          else
            let elapsedWallNs := Sub now (win_lastCPUSampleTime p) in
            let elapsedProcUnits := i64 (totalTime - win_lastProcessTime p) in
            let '(cpuPercent, valid) := normalizeCPU elapsedProcUnits elapsedWallNs (win_numCPU p) in
            (p', {| vf_Value := cpuPercent; vf_Valid := valid |}, now, None)
      end
  end.

(** A call through [LazyProc.Call]: [ret], the out value and the error, which
    is an errno that may be zero, some other error, or nil. *)
Inductive CallError := ErrnoZero | CallErr (e : error) | NoCallErr.
Record ProcCall := { ret : Z; out : Z; call_err : CallError }.

Definition callFailure (name : string) (r : ProcCall) : error :=
  match call_err r with
  | CallErr e => e
  | ErrnoZero | NoCallErr => ErrNew (name ^^ " failed without reporting a Windows error code")
  end.

Definition windows_SampleMemory (p : windowsProvider) (ctxErr : option error) (now : Time) (r : ProcCall)
    : ValidUint64 * Time * option error :=
  match ctxErr with
  | Some e => (invalidUint64, zeroTime, Some e)
  | None =>
      if ret r =? 0 then (invalidUint64, now, Some (callFailure "GetProcessMemoryInfo" r))
      else ({| vu_Value := u64 (out r); vu_Valid := true |}, now, None)
  end.

Definition windows_SampleStorage (p : windowsProvider) (ctxErr : option error) (now : Time)
    (stat : string -> StatReply) (counters : ProcCall)
    : windowsProvider * ValidUint64 * ValidFloat64 * Time * option error :=
  let failed at_ e := (p, invalidUint64, invalidFloat64, at_, Some e) in
  match ctxErr with
  | Some e => failed zeroTime e
  | None =>
      match win_storagePaths p with
      | [] => failed now (ErrNew "storage paths configuration is empty: at least one regular file path must be configured")
      | paths =>
          match sumStorage stat paths 0 with
          | Err e => failed now e
          | Ok totalUsed =>
              if ret counters =? 0 then failed now (callFailure "GetProcessIoCounters" counters)
              else
                let writeBytes := u64 (out counters) in
                let elapsedSec := Seconds (Sub now (win_lastStorageSampleTime p)) in
                let write :=
                  if negb (IsZero (win_lastStorageSampleTime p)) && fltb fzero elapsedSec
                     && (win_lastWriteBytes p <=? writeBytes)
                  then {| vf_Value := fdiv (f_of_Z (u64 (writeBytes - win_lastWriteBytes p))) elapsedSec; vf_Valid := true |}
                  else invalidFloat64 in
                ({| win_storagePaths := win_storagePaths p; win_numCPU := win_numCPU p;
                    win_lastCPUSampleTime := win_lastCPUSampleTime p; win_lastProcessTime := win_lastProcessTime p;
                    win_lastStorageSampleTime := now; win_lastWriteBytes := writeBytes |},
                 {| vu_Value := totalUsed; vu_Valid := true |}, write, now, None)
          end
      end
  end.

Record WindowsOS := {
  os_times : result (Filetime * Filetime);
  os_memory : ProcCall;
  os_counters : ProcCall;
  os_files : string -> StatReply;
}.

#[export] Instance windows_provider : OSResourceProvider windowsProvider WindowsOS := {
  SampleCPU p ctx now os := windows_SampleCPU p ctx now (os_times os);
  SampleMemory p ctx now os := windows_SampleMemory p ctx now (os_memory os);
  SampleStorage p ctx now os := windows_SampleStorage p ctx now (os_files os) (os_counters os);
}.

(** ** The laws *)
Lemma normalizeCPU_range proc wall cpus :
  in_i64 wall -> in_i64 cpus ->
  let '(v, valid) := normalizeCPU proc wall cpus in
  nonneg v = true /\ fleb v (f_of_Z 100) = true.
Proof.
  intros Hw Hc. unfold normalizeCPU. destruct (_ || _) eqn:E; [done|].
  rewrite !orb_false_iff in E. destruct E as [[[E1 E2] E3] E4].
  apply Z.leb_gt in E1, E3. apply Z.ltb_ge in E2, E4.
  assert (proc <= 92233720368547758) by (exact E4).
  assert (i64 (proc * 100) = proc * 100) as -> by (apply i64_small; int_lits; lia).
  apply percent_capped, cpuPercent_nonneg; int_lits; lia.
Qed.

#[export] Program Instance windows_laws : ProviderLaws windowsProvider WindowsOS := {
  provider_wf p := in_i64 (win_numCPU p);
}.
Next Obligation.
  intros p ctx now os Hwf. cbn [SampleCPU windows_provider]. unfold windows_SampleCPU.
  destruct ctx; [done|]. destruct (os_times os) as [[k u]|]; [|done].
  destruct (IsZero _); [done|].
  pose proof (normalizeCPU_range (i64 (i64 (filetimeUnits k + filetimeUnits u) - win_lastProcessTime p))
    (Sub now (win_lastCPUSampleTime p)) (win_numCPU p) (Sub_range _ _) Hwf) as Hr.
  by destruct (normalizeCPU _ _ _).
Qed.
Next Obligation.
  intros p ctx now os Hwf. cbn [SampleMemory windows_provider]. unfold windows_SampleMemory.
  repeat case_match; simplify_eq; (split; [done|]); (apply in_u64_0 || apply u64_range).
Qed.
Next Obligation.
  intros p ctx now os Hwf. cbn [SampleStorage windows_provider]. unfold windows_SampleStorage.
  destruct ctx; [done|]. destruct (win_storagePaths p) as [|path paths]; [done|].
  destruct (sumStorage _ _ _) as [used|] eqn:Hs; [|done]. destruct (ret _ =? 0); [done|].
  split_and!; [done..|by eapply sumStorage_range in Hs|].
  destruct (_ && _) eqn:E; [|done]. rewrite !andb_true_iff in E. destruct E as [[_ E] _]. intros _.
  apply writeRate_nonneg; [apply u64_range|done].
Qed.

(** ** Properties *)

(** The two platforms normalise the same load to the same percentage:
    whenever the microseconds of getrusage and the 100-ns units of
    GetProcessTimes stand for the same processor time, and that time fits the
    Linux path's nanosecond range, [normalizeCPULinux] and [normalizeCPU]
    return the same float and the same validity for every interval and
    processor count.  Both are valid exactly for a positive interval, a
    non-negative time and a positive processor count. *)
Theorem cpu_normalisation_agrees us units wall cpus :
  units = us * 10 -> us <= MaxInt64 / 1000 ->
  normalizeCPULinux us wall cpus = normalizeCPU units wall cpus /\
  ((normalizeCPU units wall cpus).2 = true <-> 0 < wall /\ 0 <= us /\ 0 < cpus).
Proof.
  intros -> Hus. assert (us <= 9223372036854775) as Hb by (exact Hus).
  unfold normalizeCPULinux, normalizeCPU.
  assert (MaxInt64 / 1000 <? us = false) as -> by (by apply Z.ltb_ge).
  assert (MaxInt64 / 100 <? us * 10 = false) as ->.
  { apply Z.ltb_ge. change (MaxInt64 / 100) with 92233720368547758. lia. }
  rewrite !orb_false_r.
  replace (us * 10 <? 0) with (us <? 0) by (destruct (Z.ltb_spec us 0), (Z.ltb_spec (us * 10) 0); lia).
  replace (us * 10 * 100) with (us * 1000) by lia.
  destruct (Z.leb_spec wall 0), (Z.ltb_spec us 0), (Z.leb_spec cpus 0); cbn [orb snd];
    (split; [done|]); split; (done || lia).
Qed.

Lemma cpu_normalisation_agrees_witness :
  normalizeCPULinux 350000 1000000000 2 = normalizeCPU 3500000 1000000000 2 /\
  f_trunc (normalizeCPU 3500000 1000000000 2).1 = 17.
Proof.
  split; [|vm_compute; reflexivity].
  exact (proj1 (cpu_normalisation_agrees 350000 3500000 1000000000 2 eq_refl ltac:(vm_compute; discriminate))).
Defined.
