(* ===== verification/Interfaces.v ===== *)
(** The storage interface (agent/internal/interfaces/interfaces.go) and what
    its clients may rely on.

    [Storage] gives the operations; [StorageLaws] the contract, in terms of two
    observations of the store: an event is [pending] (it will be forwarded) or
    [dead] (it is in the dead-letter queue).  The ingestion engine, the
    forwarder and the detection engine are proved against the class; the
    SQLite store is its instance. *)
From S2P Require Import Prelude GoStrings Events Storage StorageSpec.

Open Scope Z_scope.

(** [E] is what decides the failures of one call. *)
Class Storage (S E : Type) := {
  storage_Store : E -> S -> CanonicalEvent -> S * CanonicalEvent * option error;
  storage_GetPendingEvents : E -> S -> nat -> S * result (list CanonicalEvent);
  storage_RemoveEvent : E -> S -> string -> S * option error;
  storage_MarkFailed : E -> S -> string -> Z -> S * option error;
  storage_MoveToDLQ : E -> S -> CanonicalEvent -> string -> string -> S * option error;
  storage_GetDeviceID : S -> string;
}.

Class StorageLaws (S E : Type) `{Storage S E} := {
  storage_ok : S -> Prop;
  pending : S -> string -> Prop;
  dead : S -> string -> Prop;
  (** An event the quota may delete to make room for another. *)
  prunable : S -> string -> Prop;

  (** [Store] touches only its event and prunable ones, and classifies its
      failures: an error that is neither sentinel does not occur. *)
  law_store e s ev s' ev' res :
    storage_ok s -> storage_Store e s ev = (s', ev', res) ->
    storage_ok s' /\ ev' = setSeqNo (SeqNo ev') ev /\
    (forall id, dead s' id <-> dead s id) /\
    (forall id, id <> EventID ev -> pending s id -> pending s' id \/ prunable s id) /\
    (forall id, id <> EventID ev -> pending s' id -> pending s id) /\
    (forall id, id <> EventID ev -> prunable s' id -> prunable s id) /\
    match res with
    | None => pending s' (EventID ev) \/ dead s' (EventID ev)
    | Some err =>
        (errors_Is err ErrStoreFailedBeforeCommit = true /\
         (pending s' (EventID ev) <-> pending s (EventID ev)))
        \/ errors_Is err ErrStoreUncertain = true
    end;

  (** [Store] of an event that is recorded already changes nothing. *)
  law_store_recorded e s ev s' ev' res :
    storage_ok s -> storage_Store e s ev = (s', ev', res) ->
    pending s (EventID ev) \/ dead s (EventID ev) -> s' = s;

  law_pending e s n s' res :
    storage_ok s -> storage_GetPendingEvents e s n = (s', res) ->
    storage_ok s' /\
    (forall id, pending s id \/ dead s id -> pending s' id \/ dead s' id) /\
    (forall id, dead s id -> dead s' id) /\
    (forall id, pending s' id -> pending s id);

  law_remove e s id s' res :
    storage_ok s -> storage_RemoveEvent e s id = (s', res) ->
    storage_ok s' /\ (forall id', dead s' id' <-> dead s id') /\
    (forall id', id' <> id -> pending s' id' <-> pending s id') /\
    match res with None => ~ pending s' id | Some _ => pending s' id <-> pending s id end;

  law_failed e s id ra s' res :
    storage_ok s -> storage_MarkFailed e s id ra = (s', res) ->
    storage_ok s' /\ (forall id', dead s' id' <-> dead s id') /\ (forall id', pending s' id' <-> pending s id');

  law_dlq e s ev ft fr s' res :
    storage_ok s -> storage_MoveToDLQ e s ev ft fr = (s', res) ->
    storage_ok s' /\
    (forall id, id <> EventID ev -> (pending s' id <-> pending s id) /\ (dead s' id <-> dead s id)) /\
    (forall id, prunable s' id -> prunable s id) /\
    (forall id, pending s' id -> pending s id) /\
    (dead s (EventID ev) -> dead s' (EventID ev)) /\
    (pending s (EventID ev) -> pending s' (EventID ev) \/ dead s' (EventID ev)) /\
    (res = None -> dead s' (EventID ev) /\ ~ pending s' (EventID ev));
}.

(** ** The SQLite store *)

Section SQLite.
Context (Serialize : CanonicalEvent -> result string) (Deserialize : string -> result CanonicalEvent).

(** The environment of a call, and of each quarantine transaction in it. *)
Record CallEnv := { ce_env : Env; ce_quarantine : string -> Env }.

(** [Store] never runs out of fuel ([store_result]); the error stands for
    the case that does not arise. *)
Definition sqliteStore (e : CallEnv) (s : SQLiteStorage) (ev : CanonicalEvent)
    : SQLiteStorage * CanonicalEvent * option error :=
  match Store Serialize (ce_env e) s ev with
  | Some r => r
  | None => (s, ev, Some (ErrNew "pruning loop out of fuel"))
  end.

#[export] Instance sqlite_storage : Storage SQLiteStorage CallEnv := {
  storage_Store := sqliteStore;
  storage_GetPendingEvents e s n := GetPendingEvents Deserialize (ce_env e) (ce_quarantine e) s n;
  storage_RemoveEvent e s id := RemoveEvent (ce_env e) s id;
  storage_MarkFailed e s id ra := MarkFailed (ce_env e) s id ra;
  storage_MoveToDLQ e s ev ft fr := MoveToDLQ Serialize (ce_env e) s ev ft fr;
  storage_GetDeviceID := deviceID;
}.

(** An initialised store with well-formed tables. *)
Definition sqlite_ok (s : SQLiteStorage) : Prop := exists db, s_db s = Some db /\ wfDB (deviceID s) db.
Definition sqlite_pending (s : SQLiteStorage) (id : string) : Prop :=
  exists db, s_db s = Some db /\ is_Some (db_events db !! id).
Definition sqlite_dead (s : SQLiteStorage) (id : string) : Prop :=
  exists db, s_db s = Some db /\ is_Some (db_dlq db !! id).
Definition sqlite_prunable (s : SQLiteStorage) (id : string) : Prop :=
  exists db r, s_db s = Some db /\ db_events db !! id = Some r /\ er_severity r ∈ prunableSeverities.

Lemma pending_iff s db id : s_db s = Some db -> sqlite_pending s id <-> is_Some (db_events db !! id).
Proof. intros H. unfold sqlite_pending. rewrite H. naive_solver. Qed.
Lemma dead_iff s db id : s_db s = Some db -> sqlite_dead s id <-> is_Some (db_dlq db !! id).
Proof. intros H. unfold sqlite_dead. rewrite H. naive_solver. Qed.

Lemma sqlite_law_store e s ev s' ev' res :
  sqlite_ok s -> sqliteStore e s ev = (s', ev', res) ->
  sqlite_ok s' /\ ev' = setSeqNo (SeqNo ev') ev /\
  (forall id, sqlite_dead s' id <-> sqlite_dead s id) /\
  (forall id, id <> EventID ev -> sqlite_pending s id -> sqlite_pending s' id \/ sqlite_prunable s id) /\
  (forall id, id <> EventID ev -> sqlite_pending s' id -> sqlite_pending s id) /\
  (forall id, id <> EventID ev -> sqlite_prunable s' id -> sqlite_prunable s id) /\
  match res with
  | None => sqlite_pending s' (EventID ev) \/ sqlite_dead s' (EventID ev)
  | Some err =>
      (errors_Is err ErrStoreFailedBeforeCommit = true /\
       (sqlite_pending s' (EventID ev) <-> sqlite_pending s (EventID ev)))
      \/ errors_Is err ErrStoreUncertain = true
  end.
Proof.
  intros (db & Hdb & Hwf) H. unfold sqliteStore in H.
  destruct (store_result Serialize (ce_env e) s db ev Hdb Hwf) as (s1 & ev1 & res1 & db' & HS & [Hdb' [_ Hdev] Hev Hwf' [Hdlq Hf] Ho]).
  rewrite HS in H. simplify_eq. split_and!.
  - exists db'. by rewrite Hdev.
  - done.
  - intros id. by rewrite (dead_iff s' db'), (dead_iff s db), Hdlq by done.
  - intros id Hne [r Hr]%(pending_iff s db); [|done].
    destruct (Hf id Hne) as [Heq|[_ (r' & Hr' & Hp)]].
    + left. apply (pending_iff s' db'); [done|]. rewrite Heq. by eexists.
    + right. by exists db, r'.
  - intros id Hne [r Hr]%(pending_iff s' db'); [|done]. apply (pending_iff s db); [done|].
    destruct (Hf id Hne) as [Heq|[Hn _]]; [rewrite <- Heq; by eexists|congruence].
  - intros id Hne (db1 & r & Hdb1 & Hr & Hp). rewrite Hdb' in Hdb1. injection Hdb1 as <-.
    exists db, r. split_and!; try done. destruct (Hf id Hne) as [Heq|[Hn _]]; congruence.
  - destruct res as [err|]; cbn in Ho.
    + destruct Ho as [[Hf1 Heq]|[Hu _]]; [left|by right]. split; [done|].
      by rewrite (pending_iff s' db'), (pending_iff s db), Heq by done.
    + destruct Ho as [(r & Hr & _)|(r & Hr & _)]; [left; exists db'|right; exists db']; by rewrite Hr.
Qed.

Lemma sqlite_law_store_recorded e s ev s' ev' res :
  sqlite_ok s -> sqliteStore e s ev = (s', ev', res) ->
  sqlite_pending s (EventID ev) \/ sqlite_dead s (EventID ev) -> s' = s.
Proof.
  intros (db & Hdb & Hwf) H Hrec. rewrite (pending_iff s db), (dead_iff s db) in Hrec by done.
  unfold sqliteStore, Store in H. rewrite Hdb in H.
  destruct (EventID ev =s ""); [congruence|]. destruct (sqlErr (ce_env e) QEventById); [congruence|].
  destruct (db_events db !! EventID ev) as [row|]; [by destruct (replayCheck _ _ _ _ _); congruence|].
  destruct (sqlErr (ce_env e) QDLQById); [congruence|].
  destruct (db_dlq db !! EventID ev) as [row|]; [by destruct (replayCheck _ _ _ _ _); congruence|].
  by destruct Hrec as [[? ?]|[? ?]].
Qed.

Lemma sqlite_law_dlq e s ev ft fr s' res :
  sqlite_ok s -> MoveToDLQ Serialize (ce_env e) s ev ft fr = (s', res) ->
  sqlite_ok s' /\
  (forall id, id <> EventID ev -> (sqlite_pending s' id <-> sqlite_pending s id) /\ (sqlite_dead s' id <-> sqlite_dead s id)) /\
  (forall id, sqlite_prunable s' id -> sqlite_prunable s id) /\
  (forall id, sqlite_pending s' id -> sqlite_pending s id) /\
  (sqlite_dead s (EventID ev) -> sqlite_dead s' (EventID ev)) /\
  (sqlite_pending s (EventID ev) -> sqlite_pending s' (EventID ev) \/ sqlite_dead s' (EventID ev)) /\
  (res = None -> sqlite_dead s' (EventID ev) /\ ~ sqlite_pending s' (EventID ev)).
Proof.
  intros (db & Hdb & Hwf) H. unfold MoveToDLQ in H.
  destruct (Serialize ev) as [payload|err]; rewrite ?Hdb in H.
  2:{ simplify_eq. split_and!; try done; [by exists db|by left]. }
  pose proof (moveRaw_wf (ce_env e) (deviceID s) db (EventID ev) (SeqNo ev) payload ft fr Hwf) as Hwf'.
  destruct (moveRaw_spec (ce_env e) db (EventID ev) (deviceID s) (SeqNo ev) payload ft fr)
    as (db' & r & Hm & Hcase & Hok). rewrite Hm in H, Hwf'. simplify_eq. cbn in Hwf'.
  set (s' := setDB db' s). assert (s_db s' = Some db') as Hdb' by done.
  split.
  { by exists db'. }
  destruct Hcase as [->|Hmv].
  { split_and!.
    - intros id _. by rewrite !(pending_iff s' db), !(dead_iff s' db), !(pending_iff s db), !(dead_iff s db).
    - intros id (db1 & r1 & Hdb1 & Hr1). injection Hdb1 as <-. by exists db, r1.
    - intros id. by rewrite (pending_iff s' db), (pending_iff s db).
    - by rewrite (dead_iff s' db), (dead_iff s db).
    - rewrite (pending_iff s' db), (pending_iff s db) by done. by left.
    - intros ->. destruct (Hok eq_refl) as [He _ (q & Hq & _) _ _].
      rewrite (dead_iff s' db), (pending_iff s' db), Hq by done. split; [by eexists|].
      rewrite He, lookup_delete_eq. by intros []. }
  destruct Hmv as [He _ (q & Hq & _) Hoth Hkeep].
  assert (sqlite_dead s' (EventID ev)) as Hdead by (apply (dead_iff s' db'); [done|by exists q]).
  split_and!; try done.
  - intros id Hne. rewrite (pending_iff s' db'), (pending_iff s db), (dead_iff s' db'), (dead_iff s db) by done.
    by rewrite He, lookup_delete_ne, Hoth by done.
  - intros id (db1 & r1 & Hdb1 & Hr1 & Hp). injection Hdb1 as <-. rewrite He in Hr1.
    apply lookup_delete_Some in Hr1 as [_ Hr1]. by exists db, r1.
  - intros id. rewrite (pending_iff s' db'), (pending_iff s db), He by done.
    intros [r Hr]. apply lookup_delete_Some in Hr as [_ ?]. by exists r.
  - by right.
  - intros _. split; [done|]. rewrite (pending_iff s' db'), He, lookup_delete_eq by done. by intros [].
Qed.

Lemma sqlite_law_remove e s id s' res :
  sqlite_ok s -> RemoveEvent (ce_env e) s id = (s', res) ->
  sqlite_ok s' /\ (forall id', sqlite_dead s' id' <-> sqlite_dead s id') /\
  (forall id', id' <> id -> sqlite_pending s' id' <-> sqlite_pending s id') /\
  match res with None => ~ sqlite_pending s' id | Some _ => sqlite_pending s' id <-> sqlite_pending s id end.
Proof.
  intros (db & Hdb & Hwf). unfold RemoveEvent. rewrite Hdb.
  destruct (sqlErr (ce_env e) DeleteEvent); intros [= <- <-]; [split_and!; try done; by exists db|].
  set (s' := setDB _ s). set (db' := setEvents (delete id (db_events db)) db).
  assert (s_db s' = Some db') as Hdb' by done. split_and!.
  - exists db'. split; [done|]. by apply wf_delete.
  - intros id'. by rewrite (dead_iff s' db'), (dead_iff s db).
  - intros id' Hne. rewrite (pending_iff s' db'), (pending_iff s db) by done. cbn. by rewrite lookup_delete_ne.
  - rewrite (pending_iff s' db') by done. cbn. rewrite lookup_delete_eq. by intros [].
Qed.

Lemma sqlite_law_failed e s id ra s' res :
  sqlite_ok s -> MarkFailed (ce_env e) s id ra = (s', res) ->
  sqlite_ok s' /\ (forall id', sqlite_dead s' id' <-> sqlite_dead s id') /\
  (forall id', sqlite_pending s' id' <-> sqlite_pending s id').
Proof.
  intros (db & Hdb & Hwf). unfold MarkFailed. rewrite Hdb.
  assert (sqlite_ok s) as Hok by by exists db.
  destruct (sqlErr (ce_env e) QAttempts); [by intros [= <- <-]|].
  destruct (db_events db !! id) as [r|] eqn:Hid; [|by intros [= <- <-]].
  destruct (sqlErr (ce_env e) UpdateAttempt); [by intros [= <- <-]|]. intros [= <- <-].
  match goal with |- context [setDB ?d s] => set (db' := d) end. set (s' := setDB db' s). assert (s_db s' = Some db') as Hdb' by done.
  split_and!.
  - exists db'. split; [done|]. by apply wf_markFailed.
  - intros id'. by rewrite (dead_iff s' db'), (dead_iff s db).
  - intros id'. rewrite (pending_iff s' db'), (pending_iff s db) by done. cbn.
    destruct (decide (id' = id)) as [->|Hne]; [by rewrite lookup_insert_eq, Hid|by rewrite lookup_insert_ne].
Qed.

Lemma quarantine_keeps envs db rows :
  db_events (quarantine envs db rows).1 ⊆ db_events db /\
  (forall id, is_Some (db_dlq db !! id) -> is_Some (db_dlq (quarantine envs db rows).1 !! id)) /\
  forall id, is_Some (db_events db !! id) \/ is_Some (db_dlq db !! id) ->
    is_Some (db_events (quarantine envs db rows).1 !! id) \/ is_Some (db_dlq (quarantine envs db rows).1 !! id).
Proof.
  revert db. induction rows as [|r rows IH]; intros db; [done|]. cbn [quarantine].
  destruct (moveRaw_spec (envs (er_event_id r)) db (er_event_id r) (er_device_id r) (er_seq_no r) (er_payload r)
    "local_deserialization_error" "Failed to deserialize JSON") as (db1 & res & -> & Hcase & _).
  assert (db_events db1 ⊆ db_events db /\
          (forall id, is_Some (db_dlq db !! id) -> is_Some (db_dlq db1 !! id)) /\ forall id, is_Some (db_events db !! id) \/ is_Some (db_dlq db !! id) ->
            is_Some (db_events db1 !! id) \/ is_Some (db_dlq db1 !! id)) as (Hsub & Hdead & Hkeep).
  { destruct Hcase as [->|[He _ (q & Hq & _) Hoth Hold]]; [done|]. split_and!; [rewrite He; apply delete_subseteq| |].
    { intros id [x Hx]. destruct (decide (id = er_event_id r)) as [->|Hne]; [by exists q|].
      rewrite Hoth by done. by exists x. }
    intros id. destruct (decide (id = er_event_id r)) as [->|Hne]; [right; by exists q|].
    by rewrite He, lookup_delete_ne, Hoth. }
  destruct res as [err|]; [done|]. destruct (IH db1) as (Hsub' & Hdead' & Hkeep'). split_and!; [by etrans| |]; auto.
Qed.

Lemma sqlite_law_pending e s n s' res :
  sqlite_ok s -> GetPendingEvents Deserialize (ce_env e) (ce_quarantine e) s n = (s', res) ->
  sqlite_ok s' /\
  (forall id, sqlite_pending s id \/ sqlite_dead s id -> sqlite_pending s' id \/ sqlite_dead s' id) /\
  (forall id, sqlite_dead s id -> sqlite_dead s' id) /\
  (forall id, sqlite_pending s' id -> sqlite_pending s id).
Proof.
  intros (db & Hdb & Hwf) H. assert (sqlite_ok s) as Hok by by exists db.
  assert (wfStorage s') as Hwf'.
  { apply (step_wf Serialize Deserialize s s'); [by eapply step_pending|]. unfold wfStorage. by rewrite Hdb. }
  unfold GetPendingEvents in H. rewrite Hdb in H.
  destruct (sqlErr (ce_env e) QPending); [by simplify_eq|].
  destruct (sqlErr (ce_env e) ScanPending); [by simplify_eq|].
  destruct (decodeRows _ _) as [evs bad].
  destruct (quarantine_keeps (ce_quarantine e) db bad) as (Hsub & Hdead & Hkeep).
  destruct (quarantine _ _ _) as [db' err]. cbn in Hsub, Hdead, Hkeep.
  assert (s' = setDB db' s) as -> by (destruct err; by simplify_eq).
  set (s' := setDB db' s) in *. assert (s_db s' = Some db') as Hdb' by done. split_and!.
  - by exists db'.
  - intros id. rewrite (pending_iff s db), (dead_iff s db), (pending_iff s' db'), (dead_iff s' db') by done. auto.
  - intros id. rewrite (dead_iff s db), (dead_iff s' db') by done. auto.
  - intros id. rewrite (pending_iff s db), (pending_iff s' db') by done. intros [r Hr].
    exists r. by eapply lookup_weaken.
Qed.

#[export] Instance sqlite_laws : StorageLaws SQLiteStorage CallEnv := {
  storage_ok := sqlite_ok;
  pending := sqlite_pending;
  dead := sqlite_dead;
  prunable := sqlite_prunable;
  law_store := sqlite_law_store;
  law_store_recorded := sqlite_law_store_recorded;
  law_pending := sqlite_law_pending;
  law_remove := sqlite_law_remove;
  law_failed := sqlite_law_failed;
  law_dlq := sqlite_law_dlq;
}.
End SQLite.
