(* ===== verification/Contents.v ===== *)
(** What the SQLite store keeps in its rows (agent/internal/storage/sqlite.go),
    as a second interface on top of [Interfaces]: a row decodes to an event of
    its own id, and only events offered with a low severity are expendable. *)
From S2P Require Import Prelude GoStrings GoTime Events Storage StorageSpec RetryTime GoJson EventJson Interfaces.

Open Scope Z_scope.

(** ** The encoding

    What the program relies on in the text of an event: an event whose ids the
    text can carry is decoded with the same identity, valid if it was, and the
    decoded event can be encoded again, also with a new time of receipt; every
    decoded event is such an event; the empty input is not JSON. *)
Class EventCodec (Serialize : CanonicalEvent -> result string) (Deserialize : string -> result CanonicalEvent) := {
  codec_event : CanonicalEvent -> Prop;
  codec_clock : Time -> Prop;
  codec_seq n ev : codec_event ev -> codec_event (setSeqNo n ev);
  codec_received t ev : codec_event ev -> codec_event (setReceivedAt t ev);
  codec_image data ev : Deserialize data = Ok ev -> codec_event ev /\ in_i64 (SeqNo ev);
  codec_decodes ev data : codec_event ev -> Serialize ev = Ok data -> exists ev', Deserialize data = Ok ev' /\
    EventID ev' = EventID ev /\ TenantID ev' = TenantID ev /\
    (in_i64 (SeqNo ev) -> WellFormedEvent ev -> WellFormedEvent ev') /\
    is_ok (Serialize ev') = true /\ (forall now, codec_clock now -> is_ok (Serialize (setReceivedAt now ev')) = true);
  codec_empty ev : Deserialize "" <> Ok ev;
}.

(** JSON is such an encoding: an event's ids come through when they are valid
    UTF-8. *)
Record jsonEvent (ev : CanonicalEvent) : Prop := {
  je_id : plainText (EventID ev);
  je_tenant : plainText (TenantID ev);
  je_fits : fitsEvent ev;
}.

(** Every location of a time is a whole number of minutes off UTC. *)
Class WholeZones (zone : Time -> Z) : Prop := whole_zones t : wholeMinutes (zone t).

#[export] Instance utc_whole : WholeZones utc := utc_minutes.

Lemma settled_jsonEvent ev : settledEvent ev -> jsonEvent ev.
Proof. intros Hs. pose proof (settled_fitsEvent ev Hs). destruct Hs as [Ht _ _ _ _]. by repeat apply Forall_cons in Ht as [? Ht]. Qed.

Lemma settled_received t ev : settledEvent ev -> settledEvent (setReceivedAt t ev).
Proof. by intros []. Qed.

#[export] Program Instance json_codec zone `{HZ : !WholeZones zone} decodeError :
  EventCodec (Event_Serialize zone) (Event_Deserialize decodeError) := {
  codec_event := jsonEvent;
  codec_clock t := is_ok (encodeTime zone t) = true;
}.
Next Obligation. intros zone HZ err n ev [? ? []]. by split. Qed.
Next Obligation. intros zone HZ err t ev [? ? []]. by split. Qed.
Next Obligation.
  intros zone HZ err data ev H. apply deserialized_settled in H. split; [by apply settled_jsonEvent|by destruct H].
Qed.
Next Obligation.
  intros zone HZ err ev data [Hid Hten Hfit] Hs. pose proof (serialized_decodes zone HZ err ev data Hfit Hs) as Hd.
  pose proof (deserialized_settled _ _ _ Hd) as Hset. destruct (serialized_times zone ev data Hs) as [Ho Hr].
  exists (decodedEvent ev). split_and!; [done|exact Hid|exact Hten|by apply decoded_wf|by apply settled_serializes|].
  intros now Hn. apply settled_serializes; [by apply settled_received|done|done].
Qed.
Next Obligation. intros zone HZ err ev. by vm_compute. Qed.

(** An event the quota may sacrifice. *)
Definition lowSeverity (ev : CanonicalEvent) : bool := bool_decide (Severity ev ∈ prunableSeverities).

(** [good] is what the codec asks of an event. *)
Class StorageContents (S E : Type) `{StorageLaws S E} (good : CanonicalEvent -> Prop) := {
  contents_ok : S -> Prop;

  law_store_contents e s ev s' ev' res :
    good ev -> storage_ok s -> contents_ok s -> storage_Store e s ev = (s', ev', res) ->
    contents_ok s' /\ (pending s (EventID ev) -> pending s' (EventID ev)) /\
    (prunable s' (EventID ev) -> prunable s (EventID ev) \/ lowSeverity ev = true);

  law_batch e s n s' res :
    storage_ok s -> contents_ok s -> storage_GetPendingEvents e s n = (s', res) ->
    contents_ok s' /\ (forall id, prunable s' id -> prunable s id) /\
    match res with Ok evs => forall ev, ev ∈ evs -> pending s (EventID ev) /\ good ev | Err _ => True end;

  law_remove_contents e s id s' res :
    storage_ok s -> contents_ok s -> storage_RemoveEvent e s id = (s', res) ->
    contents_ok s' /\ (forall id', prunable s' id' -> prunable s id');

  law_failed_contents e s id ra s' res :
    storage_ok s -> contents_ok s -> storage_MarkFailed e s id ra = (s', res) ->
    contents_ok s' /\ (forall id', prunable s' id' -> prunable s id');

  law_dlq_contents e s ev ft fr s' res :
    storage_ok s -> contents_ok s -> storage_MoveToDLQ e s ev ft fr = (s', res) -> contents_ok s';
}.

(** ** The rows of the SQLite store *)

Section SQLite.
Context (Serialize : CanonicalEvent -> result string) (Deserialize : string -> result CanonicalEvent).

Definition sqlite_contents (s : SQLiteStorage) : Prop :=
  forall db id r ev, s_db s = Some db -> db_events db !! id = Some r ->
    Deserialize (er_payload r) = Ok ev -> EventID ev = id /\ is_ok (Serialize ev) = true.

(** Every row was there before, with the same payload and severity. *)
Definition rowsFrom (db db' : DB) : Prop :=
  forall id r', db_events db' !! id = Some r' -> exists r, db_events db !! id = Some r /\
    er_payload r' = er_payload r /\ er_severity r' = er_severity r.

Lemma rowsFrom_refl db : rowsFrom db db.
Proof. intros id r Hr. by exists r. Qed.

Lemma rowsFrom_sub db db' : db_events db' ⊆ db_events db -> rowsFrom db db'.
Proof. intros Hs id r Hr. exists r. split_and!; [by eapply lookup_weaken|done..]. Qed.

Lemma rowsFrom_keeps s s' db db' :
  s_db s = Some db -> s_db s' = Some db' -> rowsFrom db db' ->
  (sqlite_contents s -> sqlite_contents s') /\ (forall id, sqlite_prunable s' id -> sqlite_prunable s id).
Proof.
  intros Hdb Hdb' Hrows. split.
  - intros Hc d id r' ev Hd Hr' Hev. rewrite Hdb' in Hd. injection Hd as <-.
    destruct (Hrows id r' Hr') as (r & Hr & Hp & _). apply (Hc db id r ev Hdb Hr). by rewrite <- Hp.
  - intros id (d & r' & Hd & Hr' & Hsev). rewrite Hdb' in Hd. injection Hd as <-.
    destruct (Hrows id r' Hr') as (r & Hr & _ & Hs). exists db, r. by rewrite <- Hs.
Qed.

(** The transaction inserts the event itself, encoded. *)
Lemma storeTx_row env dev db ev db' ev' res id r :
  storeTx Serialize env dev db ev = (db', ev', res) -> db_events db' !! id = Some r ->
  db_events db !! id = Some r \/
  (id = EventID ev /\ er_severity r = Severity ev /\ exists n, Serialize (setSeqNo n ev) = Ok (er_payload r)).
Proof.
  intros H Hr. unfold storeTx in H.
  destruct (sqlErr env BeginTx); [simplify_eq; by left|].
  destruct (_ && _); [simplify_eq; by left|].
  destruct (sqlErr env TxNextSeq); [simplify_eq; by left|].
  destruct (db_agent db) as [a|]; [|simplify_eq; by left].
  destruct (Serialize (setSeqNo (as_next_seq_no a) ev)) as [payload|] eqn:Hs; [|simplify_eq; by left].
  destruct (sqlErr env TxInsertEvent); [simplify_eq; by left|].
  destruct (violatesUnique _ _); [simplify_eq; by left|].
  destruct (sqlErr env TxBumpSeq); [simplify_eq; by left|].
  destruct (sqlErr env CommitHook); [simplify_eq; by left|].
  set (row := newRow dev payload (setSeqNo (as_next_seq_no a) ev)) in *.
  assert (db' = db \/ db' = updateAgent bumpSeq (setEvents (<[EventID ev := row]> (db_events db)) db)) as [->| ->].
  { destruct (sqlErr env CommitTx); [destruct (commitApplied env)|]; simplify_eq; auto. }
  { by left. }
  cbn [updateAgent setEvents db_events] in Hr. apply lookup_insert_Some in Hr as [[<- <-]|[_ ?]]; [right|by left].
  split_and!; [done|done|]. by exists (as_next_seq_no a).
Qed.

Lemma store_row env s db ev s' ev' res db' id r :
  s_db s = Some db -> keyed (db_events db) -> Store Serialize env s ev = Some (s', ev', res) ->
  s_db s' = Some db' -> db_events db' !! id = Some r ->
  db_events db !! id = Some r \/
  (id = EventID ev /\ er_severity r = Severity ev /\ exists n, Serialize (setSeqNo n ev) = Ok (er_payload r)).
Proof.
  intros Hdb Hk H Hdb' Hr. unfold Store in H. rewrite Hdb in H.
  destruct (EventID ev =s ""); [simplify_eq; by left|].
  destruct (sqlErr env QEventById); [simplify_eq; by left|].
  destruct (db_events db !! EventID ev).
  { destruct (replayCheck _ _ _ _ _). simplify_eq. by left. }
  destruct (sqlErr env QDLQById); [simplify_eq; by left|].
  destruct (db_dlq db !! EventID ev).
  { destruct (replayCheck _ _ _ _ _). simplify_eq. by left. }
  destruct (enforceQuota_spec env (quotaBytes s) (Severity ev)
    (i64 (go_len (bytesOrNil (Serialize ev)) + 1024)) db Hk) as (err & db1 & Hq & Hp & _).
  rewrite Hq in H. cbn [mbind option_bind] in H.
  destruct err as [err|].
  { simplify_eq. cbn in Hdb'. simplify_eq. left. eapply lookup_weaken; [done|apply Hp]. }
  destruct (storeTx Serialize env (deviceID s) db1 ev) as [[db2 ev2] r2] eqn:Htx. simplify_eq.
  cbn in Hdb'. simplify_eq. destruct (storeTx_row _ _ _ _ _ _ _ _ _ Htx Hr) as [H1|H1]; [left|by right].
  eapply lookup_weaken; [done|apply Hp].
Qed.

Context `{HC : !EventCodec Serialize Deserialize}.

Lemma sqlite_store_contents e s ev s' ev' res :
  codec_event ev -> sqlite_ok s -> sqlite_contents s -> sqliteStore Serialize e s ev = (s', ev', res) ->
  sqlite_contents s' /\ (sqlite_pending s (EventID ev) -> sqlite_pending s' (EventID ev)) /\
  (sqlite_prunable s' (EventID ev) -> sqlite_prunable s (EventID ev) \/ lowSeverity ev = true).
Proof.
  intros Hev (db & Hdb & Hwf) Hc H. unfold sqliteStore in H.
  destruct (store_result Serialize (ce_env e) s db ev Hdb Hwf)
    as (s1 & ev1 & res1 & db' & HS & [Hdb' _ _ _ _ Ho]). rewrite HS in H. simplify_eq.
  assert (forall id r, db_events db' !! id = Some r -> _) as Hrow
    by (intros id r Hr; exact (store_row _ _ _ _ _ _ _ _ id r Hdb (wf_keyed _ _ Hwf) HS Hdb' Hr)).
  split_and!.
  - intros d id r x Hd Hr Hx. rewrite Hdb' in Hd. injection Hd as <-.
    destruct (Hrow id r Hr) as [Hold|(-> & _ & n & Hy)]; [by eapply Hc|].
    destruct (codec_decodes _ _ (codec_seq n ev Hev) Hy) as (y' & Hy' & Hid & _ & _ & Hs & _). rewrite Hx in Hy'. injection Hy' as ->. done.
  - intros [r Hr]%(pending_iff Deserialize s db); [|done]. apply (pending_iff Deserialize s' db'); [done|].
    destruct res as [err|]; cbn in Ho.
    + destruct Ho as [[_ ->]|(_ & Hn & _)]; [by exists r|congruence].
    + unfold Store in HS. rewrite Hdb in HS. assert (s' = s) as ->; [|simplify_eq; by exists r].
      destruct (EventID ev =s ""); [by simplify_eq|]. destruct (sqlErr (ce_env e) QEventById); [by simplify_eq|].
      rewrite Hr in HS. destruct (replayCheck _ _ _ _ _). by simplify_eq.
  - intros (d & r & Hd & Hr & Hp). rewrite Hdb' in Hd. injection Hd as <-.
    destruct (Hrow _ _ Hr) as [Hold|(_ & Hs & _)]; [left; by exists db, r|right].
    unfold lowSeverity. apply bool_decide_eq_true. by rewrite <- Hs.
Qed.

Lemma quarantine_events envs db rows : db_events (quarantine envs db rows).1 ⊆ db_events db.
Proof. apply quarantine_keeps. Qed.

Lemma sqlite_batch e s n s' res :
  sqlite_ok s -> sqlite_contents s -> GetPendingEvents Deserialize (ce_env e) (ce_quarantine e) s n = (s', res) ->
  sqlite_contents s' /\ (forall id, sqlite_prunable s' id -> sqlite_prunable s id) /\
  match res with Ok evs => forall ev, ev ∈ evs -> sqlite_pending s (EventID ev) /\ codec_event ev | Err _ => True end.
Proof.
  intros (db & Hdb & Hwf) Hc H. unfold GetPendingEvents in H. rewrite Hdb in H.
  destruct (sqlErr (ce_env e) QPending); [by simplify_eq|].
  destruct (sqlErr (ce_env e) ScanPending); [by simplify_eq|].
  set (batch := selectBySeq _ _ _) in *. destruct (decodeRows_spec Deserialize batch) as [Hgood _].
  destruct (decodeRows Deserialize batch) as [evs bad]. cbn [fst] in Hgood.
  pose proof (quarantine_events (ce_quarantine e) db bad) as Hsub.
  destruct (quarantine (ce_quarantine e) db bad) as [db' err]. cbn [fst] in Hsub.
  assert (s' = setDB db' s /\ (res = Ok evs \/ exists x, res = Err x)) as [-> Hres]
    by (destruct err; simplify_eq; eauto).
  destruct (rowsFrom_keeps s (setDB db' s) db db' Hdb eq_refl (rowsFrom_sub _ _ Hsub)) as [Hc' Hp'].
  split_and!; [auto|done|]. destruct Hres as [->|[x ->]]; [|done].
  intros ev Hev. destruct (list_elem_of_lookup_1 _ _ Hev) as [i Hi].
  destruct (Forall2_lookup_r _ _ _ _ _ Hgood Hi) as (r & Hr & Hd).
  apply list_elem_of_lookup_2, list_elem_of_filter in Hr as [_ [_ [id Hid]]%select_elem].
  split; [|by eapply codec_image]. destruct (Hc db id r ev Hdb Hid Hd) as [-> _]. exists db. split; [done|by exists r].
Qed.

Lemma sqlite_remove_contents e s id s' res :
  sqlite_ok s -> sqlite_contents s -> RemoveEvent (ce_env e) s id = (s', res) ->
  sqlite_contents s' /\ (forall id', sqlite_prunable s' id' -> sqlite_prunable s id').
Proof.
  intros (db & Hdb & _) Hc H. unfold RemoveEvent in H. rewrite Hdb in H.
  destruct (sqlErr (ce_env e) DeleteEvent); simplify_eq; [done|].
  destruct (rowsFrom_keeps s (setDB (setEvents (delete id (db_events db)) db) s) _ _ Hdb eq_refl) as [? ?]; [|by auto].
  apply rowsFrom_sub, delete_subseteq.
Qed.

Lemma sqlite_failed_contents e s id ra s' res :
  sqlite_ok s -> sqlite_contents s -> MarkFailed (ce_env e) s id ra = (s', res) ->
  sqlite_contents s' /\ (forall id', sqlite_prunable s' id' -> sqlite_prunable s id').
Proof.
  intros (db & Hdb & _) Hc H. unfold MarkFailed in H. rewrite Hdb in H.
  destruct (sqlErr (ce_env e) QAttempts); [by simplify_eq|].
  destruct (db_events db !! id) as [r|] eqn:Hid; [|by simplify_eq].
  destruct (sqlErr (ce_env e) UpdateAttempt); [by simplify_eq|]. simplify_eq.
  match goal with |- context [setDB ?d s] => destruct (rowsFrom_keeps s (setDB d s) _ _ Hdb eq_refl) as [? ?]; [|by auto] end.
  intros id' r' Hr'. cbn in Hr'. apply lookup_insert_Some in Hr' as [[<- <-]|[_ Hr']]; [by exists r|by exists r'].
Qed.

Lemma sqlite_dlq_contents e s ev ft fr s' res :
  sqlite_ok s -> sqlite_contents s -> MoveToDLQ Serialize (ce_env e) s ev ft fr = (s', res) -> sqlite_contents s'.
Proof.
  intros (db & Hdb & _) Hc H. unfold MoveToDLQ in H. destruct (Serialize ev) as [payload|]; rewrite ?Hdb in H; [|by simplify_eq].
  destruct (moveRaw_spec (ce_env e) db (EventID ev) (deviceID s) (SeqNo ev) payload ft fr) as (db' & r & Hm & Hcase & _).
  rewrite Hm in H. simplify_eq. eapply (rowsFrom_keeps s (setDB db' s)); [done|done| |done].
  destruct Hcase as [->|[He _ _ _ _]]; [apply rowsFrom_refl|]. apply rowsFrom_sub. rewrite He. apply delete_subseteq.
Qed.

(** The SQLite store keeps the promises. *)
#[export] Instance sqlite_contents_laws :
  StorageContents SQLiteStorage CallEnv (H := sqlite_storage Serialize Deserialize)
    (H0 := sqlite_laws Serialize Deserialize) codec_event := {
  contents_ok := sqlite_contents;
  law_store_contents := sqlite_store_contents;
  law_batch := sqlite_batch;
  law_remove_contents := sqlite_remove_contents;
  law_failed_contents := sqlite_failed_contents;
  law_dlq_contents := sqlite_dlq_contents;
}.
End SQLite.
