(* ===== verification/Ingestion.v ===== *)
(** The ingestion engine (agent/internal/ingestion/engine.go): enrichment, the
    retry loop around [Store], recovery to the dead-letter queue and the
    emergency spill file.  Everything is stated against the storage interface.

    What the loop observes and does not control is an [Iteration]: the failures
    of the storage call, whether the retry wait ended by cancellation, the state
    of the context afterwards, and the outcome of serialising and spilling. *)
From S2P Require Import Prelude GoStrings GoTime Events Storage StorageSpec Interfaces.

Open Scope Z_scope.

Inductive EventOutcome :=
  | OutcomeCommitted | OutcomeFailedBeforeCommit | OutcomeRecoveredDLQ
  | OutcomeSpilledDisk | OutcomeDropped.

(** How [ProcessEvent] ends; [log.Fatalf] ends the process instead. *)
Inductive Ending := Returned (o : EventOutcome) | Terminated.

(** The calls to the configured callbacks. *)
Inductive Callback :=
  | OnCommitted (ev : CanonicalEvent)
  | OnDropped (ev : CanonicalEvent) (reason : string)
  | OnDLQ (ev : CanonicalEvent)
  | OnFatal (ev : CanonicalEvent).

(** [has...]: the callback is not nil. *)
Record IngestConfig := {
  ic_TenantID : string;
  ic_SiteID : string;
  ic_AssetID : string;
  ic_RetryDelay : Duration;
  ic_EmergencySpillPath : string;
  hasOnCommitted : bool;
  hasOnDropped : bool;
  hasOnDLQ : bool;
  hasOnFatal : bool;
}.

(** [NewEngine]: the defaults of the retry delay and the spill file. *)
Definition NewEngine (cfg : IngestConfig) : IngestConfig := {|
  ic_TenantID := ic_TenantID cfg; ic_SiteID := ic_SiteID cfg; ic_AssetID := ic_AssetID cfg;
  ic_RetryDelay := if ic_RetryDelay cfg =? 0 then 100 * Millisecond else ic_RetryDelay cfg;
  ic_EmergencySpillPath := if ic_EmergencySpillPath cfg =s "" then "agent_emergency_spill.log"
                           else ic_EmergencySpillPath cfg;
  hasOnCommitted := hasOnCommitted cfg; hasOnDropped := hasOnDropped cfg;
  hasOnDLQ := hasOnDLQ cfg; hasOnFatal := hasOnFatal cfg |}.

Definition enrich (cfg : IngestConfig) (ev : CanonicalEvent) : CanonicalEvent :=
  let fill c f := if negb (c =s "") && (f =s "") then c else f in
  setIdentity (fill (ic_TenantID cfg) (TenantID ev)) (fill (ic_SiteID cfg) (SiteID ev))
    (fill (ic_AssetID cfg) (AssetID ev)) ev.

(** [appendEmergencySpill]: the new file contents and the error. *)
Record SpillFaults := {
  sp_open : option error;
  sp_write : nat;                 (* bytes written, when fewer than the record *)
  sp_writeErr : option error;
  sp_sync : option error;
  sp_close : option error;
}.

Definition appendEmergencySpill (f : SpillFaults) (file record : list Byte.byte)
    : list Byte.byte * option error :=
  match sp_open f with
  | Some e => (file, Some e)
  | None =>
      let n := Nat.min (sp_write f) (length record) in
      let writeErr := match sp_writeErr f with
                      | Some e => Some e
                      | None => if (n =? length record)%nat then None else Some (ErrNew "short write")
                      end in
      let writeErr := match writeErr with Some e => Some e | None => sp_sync f end in
      (file ++ take n record,
       match writeErr with Some e => Some e | None => sp_close f end)
  end.

Section Engine.
Context {S E : Type} `{HS : Storage S E}.
(** [json.Marshal] of the event, for the spill file. *)
Context (Serialize : CanonicalEvent -> result string).

Record Iteration := {
  it_inject : option (option error);  (* the result of TestInjectError, when that hook is set *)
  it_store : E;
  it_dlq : E;
  it_done : bool;                     (* the wait ended by case <-storeCtx.Done() *)
  it_expired : bool;                  (* storeCtx.Err() != nil after the wait *)
  it_spill : SpillFaults;
}.

Record IngestState := {
  is_store : S;
  is_spill : list Byte.byte;
  is_calls : list Callback;
}.

Definition withStore (s : S) (st : IngestState) : IngestState :=
  {| is_store := s; is_spill := is_spill st; is_calls := is_calls st |}.
Definition withCall (has : bool) (c : Callback) (st : IngestState) : IngestState :=
  {| is_store := is_store st; is_spill := is_spill st;
     is_calls := if has then is_calls st ++ [c] else is_calls st |}.

Definition newline : Byte.byte := Byte.x0a.

(** The recovery after the third uncertain commit. *)
Definition recover (cfg : IngestConfig) (it : Iteration) (st : IngestState) (ev : CanonicalEvent) (storeErr : error)
    : IngestState * Ending :=
  match storage_MoveToDLQ (it_dlq it) (is_store st) ev "uncertain_commit" (error_Error storeErr) with
  | (s, None) => (withCall (hasOnDLQ cfg) (OnDLQ ev) (withStore s st), Returned OutcomeRecoveredDLQ)
  | (s, Some _) =>
      let st := withStore s st in
      match Serialize ev with
      | Err _ => (withCall (hasOnFatal cfg) (OnFatal ev) st, Returned OutcomeDropped)
      | Ok text =>
          let '(file, spillErr) := appendEmergencySpill (it_spill it) (is_spill st) (bytes_of text ++ [newline]) in
          let st := {| is_store := is_store st; is_spill := file; is_calls := is_calls st |} in
          match spillErr with
          | None => (st, Returned OutcomeSpilledDisk)
          | Some _ =>
              if hasOnFatal cfg then (withCall true (OnFatal ev) st, Returned OutcomeDropped)
              else (st, Terminated)
          end
      end
  end.

(** One turn of the loop: it ends, or goes on with the context it uses next
    and the number of uncertain attempts.  [onCtx] is [storeCtx == ctx] and
    [same] is [drainCtx == ctx]. *)
Definition turn (cfg : IngestConfig) (same onCtx : bool) (attempts : Z) (it : Iteration)
    (st : IngestState) (ev : CanonicalEvent) : IngestState * CanonicalEvent * (Ending + bool * Z) :=
  let '(s, ev, storeErr) :=
    match it_inject it with
    | Some r => (is_store st, ev, r)
    | None => storage_Store (it_store it) (is_store st) ev
    end in
  let st := withStore s st in
  match storeErr with
  | None => (withCall (hasOnCommitted cfg) (OnCommitted ev) st, ev, inl (Returned OutcomeCommitted))
  | Some err =>
      if errors_Is err ErrStoreFailedBeforeCommit then
        if errors_Is err "context canceled" && onCtx then (st, ev, inr (same, attempts))
        else (withCall (hasOnDropped cfg) (OnDropped ev "failed_before_commit") st, ev,
              inl (Returned OutcomeFailedBeforeCommit))
      else if errors_Is err ErrStoreUncertain then
        let attempts := attempts + 1 in
        if 3 <=? attempts then
          let '(st, r) := recover cfg it st ev err in (st, ev, inl r)
        else if it_done it && onCtx then (st, ev, inr (same, attempts))
        else if it_expired it && negb onCtx then
          (withCall (hasOnDropped cfg) (OnDropped ev "uncertain_deadline_expired") st, ev, inl (Returned OutcomeDropped))
        else (st, ev, inr (onCtx, attempts))
      else
        (withCall (hasOnDropped cfg) (OnDropped ev "unknown_storage_error") st, ev, inl (Returned OutcomeDropped))
  end.

(** The loop; [None] when [fuel] turns were not enough. *)
Fixpoint loop (cfg : IngestConfig) (same onCtx : bool) (attempts : Z) (its : nat -> Iteration) (fuel i : nat)
    (st : IngestState) (ev : CanonicalEvent) : option (IngestState * CanonicalEvent * Ending) :=
  match fuel with
  | O => None
  | Datatypes.S fuel =>
      match turn cfg same onCtx attempts (its i) st ev with
      | (st, ev, inl r) => Some (st, ev, r)
      | (st, ev, inr (onCtx, attempts)) =>
          loop cfg same onCtx attempts its fuel (Datatypes.S i) st ev
      end
  end.

(** [cancelled] is [ctx.Err() != nil] on entry. *)
Definition ProcessEvent (cfg : IngestConfig) (same cancelled : bool) (its : nat -> Iteration) (fuel : nat)
    (st : IngestState) (ev : CanonicalEvent) : option (IngestState * CanonicalEvent * Ending) :=
  let onCtx := if cancelled then same else true in
  loop cfg same onCtx 0 its fuel 0 st (enrich cfg ev).

(** [Run]: the events of the channel in order, until it is closed or the
    process ends; four turns are enough for each ([process_terminates]). *)
Fixpoint Run (cfg : IngestConfig) (evs : list (CanonicalEvent * bool * (nat -> Iteration))) (st : IngestState)
    : option (IngestState * list (CanonicalEvent * Ending)) :=
  match evs with
  | [] => Some (st, [])
  | (ev, cancelled, its) :: evs =>
      let! r := ProcessEvent cfg false cancelled its 4 st (enrich cfg ev) in
      match r with
      | (st, ev, Terminated) => Some (st, [(ev, Terminated)])
      | (st, ev, ending) =>
          let! r := Run cfg evs st in
          let '(st, outs) := r in Some (st, (ev, ending) :: outs)
      end
  end.
End Engine.

Arguments IngestState : clear implicits.
Arguments Iteration : clear implicits.

(** ** Lemmas *)

Section EngineProofs.
Context {S E : Type} `{HS : Storage S E, HL : !StorageLaws S E} (Serialize : CanonicalEvent -> result string).

Definition idOf (cfg : IngestConfig) (ev : CanonicalEvent) : string := EventID (enrich cfg ev).

(** What processing event [id] may do to the rest of the store. *)
Record otherKept (id : string) (s s' : S) : Prop := {
  ok_after : storage_ok s';
  ok_dead : forall id', id' <> id -> dead s' id' <-> dead s id';
  ok_pending : forall id', id' <> id -> pending s id' -> pending s' id' \/ prunable s id';
  ok_new : forall id', id' <> id -> pending s' id' -> pending s id';
  ok_prunable : forall id', id' <> id -> prunable s' id' -> prunable s id';
}.

(** The first [n] calls of [Store] for an event, from turn [i] on: the store
    and the event after them, and what each returned. *)
Fixpoint storeCalls (its : nat -> Iteration E) (i n : nat) (s : S) (ev : CanonicalEvent)
    : S * CanonicalEvent * list (option error) :=
  match n with
  | O => (s, ev, [])
  | Datatypes.S n =>
      let '(s, ev, r) := storage_Store (it_store (its i)) s ev in
      let '(s, ev, rs) := storeCalls its (Datatypes.S i) n s ev in (s, ev, r :: rs)
  end.

Definition isUncertain (res : option error) : bool :=
  match res with
  | Some err => negb (errors_Is err ErrStoreFailedBeforeCommit) && errors_Is err ErrStoreUncertain
  | None => false
  end.

(** A result after which the store is tried again. *)
Definition retried (res : option error) : bool :=
  isUncertain res ||
  match res with
  | Some err => errors_Is err ErrStoreFailedBeforeCommit && errors_Is err "context canceled"
  | None => false
  end.

Fixpoint uncertains (results : list (option error)) : Z :=
  match results with [] => 0 | r :: rs => Z.b2z (isUncertain r) + uncertains rs end.

(** The call of a callback that is set. *)
Definition announced (has : bool) (c : Callback) : list Callback := if has then [c] else [].

(** The record the spill file is to get, and whether the disk takes it. *)
Definition spillOf (text : string) : list Byte.byte := bytes_of text ++ [newline].

Definition spillFails (it : Iteration E) (file : list Byte.byte) (text : string) : Prop :=
  (appendEmergencySpill (it_spill it) file (spillOf text)).2 <> None.

(** The meaning of an ending for event [ev'], from state [st] to [st'], by the
    last result of [Store], which left the store as [s], and the number of
    uncertain ones: what became of the event, and exactly the callbacks that were
    called.  [it] is what the last turn met: whether the context of the drain had
    expired, and the answers of the dead-letter queue and the disk. *)
Definition endingMeans (cfg : IngestConfig) (st : IngestState S) (s : S) (st' : IngestState S) (ev' : CanonicalEvent)
    (res : option error) (uncertain : Z) (it : Iteration E) (r : Ending) : Prop :=
  let calls cs := is_calls st' = is_calls st ++ cs in
  let unspilled := is_spill st' = is_spill st in
  let deadLettered reason := (storage_MoveToDLQ (it_dlq it) s ev' "uncertain_commit" reason).2 = None in
  match res with
  | None =>
      r = Returned OutcomeCommitted /\ unspilled /\ calls (announced (hasOnCommitted cfg) (OnCommitted ev')) /\
      (pending (is_store st') (EventID ev') \/ dead (is_store st') (EventID ev'))
  | Some err =>
      if errors_Is err ErrStoreFailedBeforeCommit then
        r = Returned OutcomeFailedBeforeCommit /\ unspilled /\
        calls (announced (hasOnDropped cfg) (OnDropped ev' "failed_before_commit"))
      else if errors_Is err ErrStoreUncertain then
        if uncertain <? 3 then
          r = Returned OutcomeDropped /\ it_expired it = true /\ unspilled /\
          calls (announced (hasOnDropped cfg) (OnDropped ev' "uncertain_deadline_expired"))
        else
          match r with
          | Returned OutcomeRecoveredDLQ =>
              deadLettered (error_Error err) /\ unspilled /\ calls (announced (hasOnDLQ cfg) (OnDLQ ev')) /\
              dead (is_store st') (EventID ev') /\ ~ pending (is_store st') (EventID ev')
          | Returned OutcomeSpilledDisk =>
              ~ deadLettered (error_Error err) /\ calls [] /\
              exists text, Serialize ev' = Ok text /\ is_spill st' = is_spill st ++ spillOf text
          | Returned OutcomeDropped =>
              ~ deadLettered (error_Error err) /\ calls (announced (hasOnFatal cfg) (OnFatal ev')) /\
              ((exists e, Serialize ev' = Err e) /\ unspilled \/
               hasOnFatal cfg = true /\ exists text, Serialize ev' = Ok text /\ spillFails it (is_spill st) text)
          | Terminated =>
              ~ deadLettered (error_Error err) /\ hasOnFatal cfg = false /\ calls [] /\
              exists text, Serialize ev' = Ok text /\ spillFails it (is_spill st) text
          | _ => False
          end
      else
        r = Returned OutcomeDropped /\ unspilled /\
        calls (announced (hasOnDropped cfg) (OnDropped ev' "unknown_storage_error"))
  end.

Lemma withCall_calls has c (st : IngestState S) : is_calls (withCall has c st) = is_calls st ++ announced has c.
Proof. destruct has; [done|]. cbn. by rewrite app_nil_r. Qed.

Lemma turn_decreases cfg onCtx attempts (it : Iteration E) st ev st' ev' onCtx' attempts' :
  attempts < 3 ->
  turn Serialize cfg false onCtx attempts it st ev = (st', ev', inr (onCtx', attempts')) ->
  attempts' < 3 /\ attempts <= attempts' /\
  (Z.to_nat (3 - attempts') + Nat.b2n onCtx' < Z.to_nat (3 - attempts) + Nat.b2n onCtx)%nat.
Proof.
  intros Ha. unfold turn.
  destruct (match it_inject it with Some _ => _ | None => _ end) as [[s1 ev1] [err|]]; [|done].
  destruct (errors_Is err ErrStoreFailedBeforeCommit).
  - destruct (errors_Is err "context canceled"), onCtx; cbn; try done. intros [= <- <- <- <-]. cbn. lia.
  - destruct (errors_Is err ErrStoreUncertain); [|done]. destruct (Z.leb_spec 3 (attempts + 1)).
    { by destruct (recover Serialize cfg it (withStore s1 st) ev1 err). }
    destruct (it_done it), onCtx, (it_expired it); cbn; try done; intros [= <- <- <- <-]; cbn; lia.
Qed.

Lemma loop_terminates cfg onCtx attempts (its : nat -> Iteration E) fuel i st ev :
  attempts < 3 -> (Z.to_nat (3 - attempts) + Nat.b2n onCtx <= fuel)%nat ->
  is_Some (loop Serialize cfg false onCtx attempts its fuel i st ev).
Proof.
  revert onCtx attempts i st ev. induction fuel as [|fuel IH]; intros onCtx attempts i st ev Ha Hf; [lia|].
  cbn [loop]. destruct (turn _ _ _ _ _ _ _ _) as [[st' ev'] [r|[onCtx' attempts']]] eqn:Ht; [by eexists|].
  apply turn_decreases in Ht as (? & ? & ?); [|done]. apply IH; [done|lia].
Qed.

Lemma otherKept_refl id s : storage_ok s -> otherKept id s s.
Proof. intros. split; auto; done. Qed.

Lemma otherKept_trans id s1 s2 s3 : otherKept id s1 s2 -> otherKept id s2 s3 -> otherKept id s1 s3.
Proof.
  intros [_ D1 P1 N1 R1] [O2 D2 P2 N2 R2]. split; try done; intros id' Hne.
  - by rewrite D2, D1.
  - intros [H|H]%P1; [|by right|done]. apply P2 in H as [?|?]; [by left|right; by apply R1|done].
  - intros H. apply N1; [done|]. by apply N2.
  - intros H. apply R1; [done|]. by apply R2.
Qed.

Lemma store_kept e s ev s' ev' res :
  storage_ok s -> storage_Store e s ev = (s', ev', res) -> otherKept (EventID ev) s s'.
Proof.
  intros Hok H. destruct (law_store _ _ _ _ _ _ Hok H) as (? & _ & Hd & ? & ? & ? & _). by split.
Qed.

Lemma dlq_kept e s ev ft fr s' res :
  storage_ok s -> storage_MoveToDLQ e s ev ft fr = (s', res) -> otherKept (EventID ev) s s'.
Proof.
  intros Hok H. destruct (law_dlq _ _ _ _ _ _ _ Hok H) as (? & Ho & ? & _). split; try done; intros id Hne.
  - by destruct (Ho id Hne).
  - destruct (Ho id Hne) as [-> _]. by left.
  - by destruct (Ho id Hne) as [-> _].
  - auto.
Qed.

Lemma recover_sound cfg (it : Iteration E) st ev err st' r n :
  storage_ok (is_store st) -> recover Serialize cfg it st ev err = (st', r) ->
  errors_Is err ErrStoreFailedBeforeCommit = false -> errors_Is err ErrStoreUncertain = true -> 3 <= n ->
  otherKept (EventID ev) (is_store st) (is_store st') /\ endingMeans cfg st (is_store st) st' ev (Some err) n it r.
Proof.
  intros Hok H Hf Hu Hn. unfold endingMeans. rewrite Hf, Hu. destruct (Z.ltb_spec n 3); [lia|]. cbv zeta.
  revert H. unfold recover, spillFails. destruct (storage_MoveToDLQ _ _ _ _ _) as [s1 [derr|]] eqn:Hd; cbn [snd].
  - pose proof (dlq_kept _ _ _ _ _ _ _ Hok Hd) as Hk. destruct (Serialize ev) as [text|merr] eqn:Hs.
    2:{ intros [= <- <-]. split; [done|]. split; [done|]. split; [by rewrite withCall_calls|]. left. split; [by exists merr|done]. }
    fold (spillOf text). destruct (appendEmergencySpill _ _ _) as [file serr] eqn:Hsp. destruct serr as [serr|].
    + assert (exists x, Ok text = Ok x /\ (appendEmergencySpill (it_spill it) (is_spill st) (spillOf x)).2 <> None) as Hfail
        by (exists text; split; [done|]; change (is_spill st) with (is_spill (withStore s1 st)); by rewrite Hsp).
      destruct (hasOnFatal cfg) eqn:Hfat; intros [= <- <-]; (split; [done|]); [by auto|].
      split_and!; try done. cbn. by rewrite app_nil_r.
    + intros [= <- <-]. split; [done|]. split; [done|]. split; [by rewrite app_nil_r|]. exists text. split; [done|]. cbn.
      unfold appendEmergencySpill in Hsp. cbn [withStore is_spill] in Hsp. destruct (sp_open (it_spill it)); [done|].
      injection Hsp as Hfile He. destruct (sp_writeErr (it_spill it)); [done|].
      destruct (Nat.eqb_spec (Nat.min (sp_write (it_spill it)) (length (spillOf text))) (length (spillOf text))) as [Hm|]; [|done].
      rewrite <- Hfile, Hm. by rewrite firstn_all.
  - destruct (law_dlq _ _ _ _ _ _ _ Hok Hd) as (_ & _ & _ & _ & _ & _ & Hdead).
    pose proof (dlq_kept _ _ _ _ _ _ _ Hok Hd) as Hk. intros [= <- <-]. split; [done|].
    split; [done|]. split; [done|]. split; [by rewrite withCall_calls|by apply Hdead].
Qed.

Lemma turn_sound cfg same onCtx attempts (it : Iteration E) st ev st' ev' next s1 ev1 res :
  it_inject it = None -> storage_ok (is_store st) ->
  storage_Store (it_store it) (is_store st) ev = (s1, ev1, res) ->
  turn Serialize cfg same onCtx attempts it st ev = (st', ev', next) ->
  otherKept (EventID ev) (is_store st) (is_store st') /\ ev' = ev1 /\ ev' = setSeqNo (SeqNo ev') ev /\
  match next with
  | inl r => endingMeans cfg st s1 st' ev' res (attempts + Z.b2z (isUncertain res)) it r
  | inr (_, attempts') =>
      st' = withStore s1 st /\ retried res = true /\ attempts' = attempts + Z.b2z (isUncertain res)
  end.
Proof.
  intros Hinj Hok Hs. unfold turn. rewrite Hinj, Hs.
  pose proof (store_kept _ _ _ _ _ _ Hok Hs) as Hk.
  destruct (law_store _ _ _ _ _ _ Hok Hs) as (Hok1 & Hev & _ & _ & _ & _ & Hres).
  assert (EventID ev1 = EventID ev) as Hid by by rewrite Hev.
  destruct res as [err|].
  2:{ intros [= <- <- <-]. split_and!; try done. cbn [endingMeans]. cbv zeta.
      rewrite withCall_calls. split_and!; try done. by rewrite Hid. }
  destruct (errors_Is err ErrStoreFailedBeforeCommit) eqn:Hf.
  { destruct (errors_Is err "context canceled") eqn:Hc, onCtx; cbn [andb]; intros [= <- <- <-]; split_and!; try done;
      try (cbn [endingMeans]; rewrite Hf; cbv zeta; by rewrite withCall_calls);
      unfold retried, isUncertain; rewrite Hf, ?Hc; cbn; try done; lia. }
  destruct (errors_Is err ErrStoreUncertain) eqn:Hu.
  2:{ intros [= <- <- <-]. split_and!; try done. cbn [endingMeans]. rewrite Hf, Hu. cbv zeta. by rewrite withCall_calls. }
  assert (isUncertain (Some err) = true) as Hunc by (cbn; by rewrite Hf, Hu). rewrite Hunc. cbn [Z.b2z].
  destruct (Z.leb_spec 3 (attempts + 1)) as [H3|H3].
  { destruct (recover _ _ _ _ _ _) as [st2 r] eqn:Hr. intros [= <- <- <-].
    eapply recover_sound in Hr as [Hk2 Hm]; [|exact Hok1|done..]. rewrite Hid in Hk2. cbn in Hk2.
    split_and!; [by eapply otherKept_trans|done|done|]. exact Hm. }
  assert (retried (Some err) = true) as Hretry by (unfold retried; by rewrite Hunc).
  destruct (it_done it && onCtx); [intros [= <- <- <-]; by split_and!|].
  destruct (it_expired it) eqn:Hexp, onCtx; cbn [andb negb]; intros [= <- <- <-]; split_and!; try done.
  cbn [endingMeans]. rewrite Hf, Hu. destruct (Z.ltb_spec (attempts + 1) 3); [|lia]. cbv zeta. by rewrite withCall_calls.
Qed.

Lemma endingMeans_from cfg st1 st s st' ev' res n it r :
  is_calls st1 = is_calls st -> is_spill st1 = is_spill st ->
  endingMeans cfg st1 s st' ev' res n it r -> endingMeans cfg st s st' ev' res n it r.
Proof. unfold endingMeans. by intros -> ->. Qed.

Lemma loop_sound cfg same onCtx attempts (its : nat -> Iteration E) fuel i st ev st' ev' r :
  (forall i, it_inject (its i) = None) -> storage_ok (is_store st) ->
  loop Serialize cfg same onCtx attempts its fuel i st ev = Some (st', ev', r) ->
  otherKept (EventID ev) (is_store st) (is_store st') /\ ev' = setSeqNo (SeqNo ev') ev /\
  exists before res s, storeCalls its i (length before + 1) (is_store st) ev = (s, ev', before ++ [res]) /\
    Forall (fun r => retried r = true) before /\
    endingMeans cfg st s st' ev' res (attempts + uncertains (before ++ [res])) (its (i + length before)%nat) r.
Proof.
  intros Hinj. revert onCtx attempts i st ev. induction fuel as [|fuel IH]; intros onCtx attempts i st ev Hok; [done|].
  cbn [loop]. destruct (storage_Store (it_store (its i)) (is_store st) ev) as [[s1 ev0] res] eqn:Hs.
  destruct (turn _ _ _ _ _ _ _ _) as [[st1 ev1] next] eqn:Ht.
  destruct (turn_sound _ _ _ _ _ _ _ _ _ _ _ _ _ (Hinj i) Hok Hs Ht) as (Hk & -> & Hev & Hm).
  destruct next as [r1|[onCtx1 attempts1]].
  - intros [= <- <- <-]. split; [done|split; [done|]]. exists [], res, s1. cbn [length Nat.add storeCalls app uncertains].
    rewrite Hs, Nat.add_0_r, Z.add_0_r. split_and!; [done|constructor|exact Hm].
  - destruct Hm as (-> & Hretry & ->). intros H. apply IH in H as (Hk2 & Hev2 & before & res' & s2 & H2 & H3 & H4); [|apply Hk].
    assert (EventID ev0 = EventID ev) as Hid by by rewrite Hev. rewrite Hid in Hk2.
    split; [by eapply otherKept_trans|split; [by rewrite Hev2, Hev|]]. exists (res :: before), res', s2.
    cbn [length Nat.add storeCalls app uncertains]. cbn [withStore is_store] in H2. rewrite Hs, H2.
    split_and!; [done|by constructor|].
    apply (endingMeans_from _ (withStore s1 st)); [done..|]. rewrite Nat.add_succ_r. rewrite Z.add_assoc. exact H4.
Qed.
End EngineProofs.

Lemma run_total {S E} `{HS : Storage S E} Serialize cfg (evs : list (CanonicalEvent * bool * (nat -> Iteration E))) st :
  exists st' outs, Run Serialize cfg evs st = Some (st', outs) /\
    ((length outs = length evs /\ Forall (fun o => o.2 <> Terminated) outs) \/
     exists outs' o, outs = outs' ++ [(o, Terminated)] /\ Forall (fun o => o.2 <> Terminated) outs').
Proof.
  revert st. induction evs as [|[[ev cancelled] its] evs IH]; intros st; cbn [Run].
  { eexists _, _. split; [done|]. left. split; [done|constructor]. }
  destruct (loop_terminates Serialize cfg (if cancelled then false else true) 0 its 4 0 st (enrich cfg (enrich cfg ev)))
    as [[[st1 ev1] r] Hl]; [lia|by destruct cancelled; cbn; lia|].
  unfold ProcessEvent. rewrite Hl. cbn [mbind option_bind].
  destruct r as [o|].
  - destruct (IH st1) as (st2 & outs & -> & Hcase). eexists _, _. split; [reflexivity|].
    destruct Hcase as [[Hl1 Hf]|(outs' & x & -> & Hf)].
    + left. split; [cbn; lia|]. by constructor.
    + right. exists ((ev1, Returned o) :: outs'), x. split; [done|]. by constructor.
  - eexists _, _. split; [reflexivity|]. right. exists [], ev1. split; [done|constructor].
Qed.

(** ** Properties *)

(** C4: Ingestion neither loops nor misreports.  With distinct contexts,
    [ProcessEvent] returns within four turns whatever fails, and tries the store
    again only after a cancellation or an uncertain commit.  Its ending is fixed
    by the last result of [Store], the number of uncertain ones and the answers of
    the dead-letter queue and the disk, and over any store that satisfies the
    interface it is true: COMMITTED means the event is recorded, RECOVERED_DLQ
    that it is in the dead-letter queue, SPILLED_DISK that this failed and its
    record was appended, intact, to the spill file.  The callbacks are exact and,
    where set, called once: OnCommitted; OnDLQ; none for a spilled event;
    OnDropped, with the code's reason, for a failure before the commit, an expired
    drain or an unknown error; and OnFatal, not OnDropped, when an event is dropped
    because it could be neither dead-lettered nor serialised or spilled.  No other
    event is affected, but for those the quota may prune. *)
Theorem process_event_sound {S E} `{HS : Storage S E, HL : !StorageLaws S E} Serialize cfg cancelled
    (its : nat -> Iteration E) (st : IngestState S) ev :
  (forall i, it_inject (its i) = None) -> storage_ok (is_store st) ->
  exists st' ev' r before res s, ProcessEvent Serialize cfg false cancelled its 4 st ev = Some (st', ev', r) /\
    ev' = setSeqNo (SeqNo ev') (enrich cfg ev) /\
    storeCalls its 0 (length before + 1) (is_store st) (enrich cfg ev) = (s, ev', before ++ [res]) /\
    Forall (fun r => retried r = true) before /\
    endingMeans Serialize cfg st s st' ev' res (uncertains (before ++ [res])) (its (length before)) r /\
    otherKept (EventID ev) (is_store st) (is_store st').
Proof.
  intros Hinj Hok. unfold ProcessEvent.
  destruct (loop_terminates Serialize cfg (if cancelled then false else true) 0 its 4 0 st (enrich cfg ev))
    as [[[st' ev'] r] Hl]; [lia|by destruct cancelled; cbn; lia|].
  destruct (loop_sound Serialize _ _ _ _ _ _ _ _ _ _ _ _ Hinj Hok Hl) as (Hk & Hev & before & res & s & H2 & H3 & H4).
  exists st', ev', r, before, res, s. by split_and!.
Qed.

(** The SQLite store, the configuration of the endpoint and a plain iteration. *)
Definition demoStorage : Storage SQLiteStorage CallEnv := sqlite_storage demoSerialize (fun _ => Err (ErrNew "bad")).

Definition endpointIngest : IngestConfig := NewEngine {|
  ic_TenantID := "tenant-1"; ic_SiteID := "site-1"; ic_AssetID := "device-1";
  ic_RetryDelay := 0; ic_EmergencySpillPath := "";
  hasOnCommitted := true; hasOnDropped := false; hasOnDLQ := false; hasOnFatal := false |}.

Definition noSpillFaults : SpillFaults :=
  {| sp_open := None; sp_write := 4096; sp_writeErr := None; sp_sync := None; sp_close := None |}.

Definition iterationWith (env : Env) : Iteration CallEnv := {|
  it_inject := None; it_store := {| ce_env := env; ce_quarantine := fun _ => env |};
  it_dlq := {| ce_env := env; ce_quarantine := fun _ => env |};
  it_done := false; it_expired := false; it_spill := noSpillFaults |}.

Definition startState : IngestState SQLiteStorage :=
  {| is_store := freshStorage; is_spill := []; is_calls := [] |}.

(** Every commit fails, that of the dead-letter queue too, and the
    disk is full: with all callbacks set, the event is announced to OnFatal. *)
Definition stuckEnv : Env := {|
  sqlErr := fun c => match c with CommitTx => Some (ErrNew "disk I/O error") | _ => None end;
  commitApplied := false; txCheckOk := true; stat := fun _ _ => StatSize 1000; now := 1700000000; nowNano := 0 |}.

Definition stuckIteration : Iteration CallEnv := {|
  it_inject := None; it_store := {| ce_env := stuckEnv; ce_quarantine := fun _ => stuckEnv |};
  it_dlq := {| ce_env := stuckEnv; ce_quarantine := fun _ => stuckEnv |}; it_done := false; it_expired := false;
  it_spill := {| sp_open := Some (ErrNew "no space left on device"); sp_write := 0; sp_writeErr := None;
                 sp_sync := None; sp_close := None |} |}.

Definition watchedIngest : IngestConfig := NewEngine {|
  ic_TenantID := "tenant-1"; ic_SiteID := "site-1"; ic_AssetID := "device-1";
  ic_RetryDelay := 0; ic_EmergencySpillPath := "";
  hasOnCommitted := true; hasOnDropped := true; hasOnDLQ := true; hasOnFatal := true |}.

Lemma process_event_sound_witness :
  exists st' ev' r before res s,
    ProcessEvent (HS := demoStorage) demoSerialize watchedIngest false false (fun _ => stuckIteration) 4
      startState (sampleEvent "e1" "INFO") = Some (st', ev', r) /\
    r = Returned OutcomeDropped /\ length (is_calls st') = 1%nat /\
    endingMeans (HS := demoStorage) (HL := sqlite_laws demoSerialize (fun _ => Err (ErrNew "bad"))) demoSerialize
      watchedIngest startState s st' ev' res (uncertains (before ++ [res])) stuckIteration r.
Proof.
  destruct (process_event_sound (HS := demoStorage) (HL := sqlite_laws demoSerialize (fun _ => Err (ErrNew "bad")))
              demoSerialize watchedIngest false (fun _ => stuckIteration) startState (sampleEvent "e1" "INFO"))
    as (st' & ev' & r & before & res & s & Hrun & _ & _ & _ & Hm & _).
  - reflexivity.
  - exists freshDB. split; [reflexivity|apply freshDB_wf].
  - exists st', ev', r, before, res, s. split; [exact Hrun|].
    pose proof (f_equal (fun x => match x with Some (st, _, r) => (length (is_calls st), r) | None => (0%nat, r) end) Hrun) as Hx.
    vm_compute in Hx. split; [|split; [|exact Hm]].
    + exact (eq_sym (f_equal snd Hx)).
    + exact (eq_sym (f_equal fst Hx)).
Defined.

(** [Run] processes every event of the channel once and in order: it always
    returns, with one ending per event, unless an ending terminated the
    process, which is then the last. *)
Theorem run_processes_all {S E} `{HS : Storage S E} Serialize cfg
    (evs : list (CanonicalEvent * bool * (nat -> Iteration E))) st :
  exists st' outs, Run Serialize cfg evs st = Some (st', outs) /\
    ((length outs = length evs /\ Forall (fun o => o.2 <> Terminated) outs) \/
     exists outs' o, outs = outs' ++ [(o, Terminated)] /\ Forall (fun o => o.2 <> Terminated) outs').
Proof. apply run_total. Qed.

(** The environment of a store whose context is cancelled: the first query
    fails with [context.Canceled]. *)
Definition cancelledEnv : Env := {|
  sqlErr := fun c => match c with QEventById => Some (ErrNew "context canceled") | _ => None end;
  commitApplied := false; txCheckOk := true; stat := fun _ _ => StatSize 1000; now := 1700000000; nowNano := 0 |}.

(** Passing one context for both roles makes a cancelled ingestion spin.
    When [drainCtx] is [ctx], switching to it changes nothing, so an event
    whose store fails with a cancellation is retried without bound: no number
    of turns ends the loop.  (The endpoint passes two contexts; the
    integration tests pass one.) *)
Theorem same_context_diverges cfg fuel :
  ProcessEvent (HS := demoStorage) demoSerialize cfg true true (fun _ => iterationWith cancelledEnv) fuel
    startState (sampleEvent "e1" "INFO") = None.
Proof.
  unfold ProcessEvent. generalize 0%nat at 1 as i.
  assert (EventID (enrich cfg (sampleEvent "e1" "INFO")) = "e1"%string) as Hid by done.
  revert Hid. generalize (enrich cfg (sampleEvent "e1" "INFO")) as ev.
  induction fuel as [|fuel IH]; intros ev Hid i; [done|]. cbn [loop].
  assert (turn (HS := demoStorage) demoSerialize cfg true true 0 (iterationWith cancelledEnv) startState ev
          = (startState, ev, inr (true, 0))) as ->; [|by apply IH].
  unfold turn, iterationWith. cbn [it_inject it_store storage_Store demoStorage sqlite_storage].
  unfold sqliteStore, Store. cbn [ce_env is_store startState freshStorage s_db]. rewrite Hid. reflexivity.
Qed.
