(* ===== verification/Forwarder.v ===== *)
(** The forwarder (agent/internal/forwarder/forwarder.go): pending events are
    posted to the ingest API one by one and, by the response, removed,
    dead-lettered or rescheduled.  Stated against the storage interface. *)
From S2P Require Import Prelude GoStrings GoTime Events Storage StorageSpec Interfaces.

Open Scope Z_scope.

(** [networkState]: the observed connectivity. *)
Inductive Connectivity := networkUnknown | networkOnline | networkOffline.

Record Forwarder := {
  fw_apiURL : string;
  fw_tenantID : string;
  fw_networkState : Connectivity;
  fw_cancel : bool;                 (* [f.cancel != nil] *)
  fw_started : bool;
  fw_stopped : bool;
  fw_wakeup : bool;                 (* the one-slot wakeup channel holds a token *)
}.

Definition NewForwarder (apiURL tenantID : string) : Forwarder := {|
  fw_apiURL := TrimRight apiURL (Ascii.ascii_of_nat 47); fw_tenantID := tenantID;
  fw_networkState := networkUnknown; fw_cancel := false; fw_started := false; fw_stopped := false;
  fw_wakeup := false |}.

Definition setNetwork (n : Connectivity) (f : Forwarder) : Forwarder := {|
  fw_apiURL := fw_apiURL f; fw_tenantID := fw_tenantID f; fw_networkState := n; fw_cancel := fw_cancel f;
  fw_started := fw_started f; fw_stopped := fw_stopped f; fw_wakeup := fw_wakeup f |}.

Definition Wakeup (f : Forwarder) : Forwarder := {|
  fw_apiURL := fw_apiURL f; fw_tenantID := fw_tenantID f; fw_networkState := fw_networkState f;
  fw_cancel := fw_cancel f; fw_started := fw_started f; fw_stopped := fw_stopped f; fw_wakeup := true |}.

Definition Forwarder_Start (f : Forwarder) : Forwarder * option error :=
  if fw_stopped f then (f, Some (ErrNew "forwarder cannot be restarted"))
  else if fw_started f then (f, Some (ErrNew "forwarder already started"))
  else ({| fw_apiURL := fw_apiURL f; fw_tenantID := fw_tenantID f; fw_networkState := fw_networkState f;
           fw_cancel := true; fw_started := true; fw_stopped := fw_stopped f; fw_wakeup := fw_wakeup f |}, None).

Definition Forwarder_Stop (f : Forwarder) : Forwarder := {|
  fw_apiURL := fw_apiURL f; fw_tenantID := fw_tenantID f; fw_networkState := fw_networkState f;
  fw_cancel := false; fw_started := fw_started f; fw_stopped := true; fw_wakeup := fw_wakeup f |}.

(** The parts of an HTTP response the code reads. *)
Record Response := {
  StatusCode : Z;
  Body : string;
  RetryAfterHeader : string;
}.

(** A POST that was answered or failed: the event and the response, if any. *)
Record Exchange := {
  x_event : CanonicalEvent;
  x_url : string;
  x_tenant : string;                (* the query parameter *)
  x_payload : string;
  x_response : option Response;
}.

(** [if len(bodyStr) > 512 { bodyStr = bodyStr[:512] + "...(truncated)" }] *)
Definition truncateBody (body : string) : string :=
  if 512 <? go_len body then prefixString 512 body ^^ "...(truncated)" else body.

(** [retryAfter] of a response other than 202 and 400. *)
Definition retryAfterOf (r : Response) : Z :=
  if StatusCode r =? 429 then
    if negb (RetryAfterHeader r =s "") then
      match Atoi (RetryAfterHeader r) with Some s => s | None => 0 end
    else 0
  else 0.

Section Sending.
Context {S E : Type} `{HS : Storage S E}.
Context (Serialize : CanonicalEvent -> result string).

(** What the world decides about one send. *)
Record SendInput := {
  si_env : E;                             (* the storage call *)
  si_request : option error;              (* http.NewRequestWithContext *)
  si_response : result Response;          (* httpClient.Do *)
  si_ctxCancelled : bool;                 (* ctx.Err() != nil after a failed Do *)
}.

Record ForwardState := {
  fs_forwarder : Forwarder;
  fs_store : S;
  fs_exchanges : list Exchange;
}.

Definition sendEvent (inp : SendInput) (st : ForwardState) (event : CanonicalEvent) : ForwardState :=
  let f := fs_forwarder st in
  let after s := {| fs_forwarder := f; fs_store := s; fs_exchanges := fs_exchanges st |} in
  let failed f s xs ra :=
    {| fs_forwarder := f; fs_store := (storage_MarkFailed (si_env inp) s (EventID event) ra).1; fs_exchanges := xs |} in
  if negb (TenantID event =s fw_tenantID f) then
    after (storage_MoveToDLQ (si_env inp) (fs_store st) event "tenant_mismatch"
             ("Event tenant " ^^ TenantID event ^^ " != forwarder tenant " ^^ fw_tenantID f)).1
  else match Serialize event with
  | Err err => after (storage_MoveToDLQ (si_env inp) (fs_store st) event "serialization_error" (error_Error err)).1
  | Ok payload =>
      match si_request inp with
      | Some err => failed f (fs_store st) (fs_exchanges st) 0
      | None =>
          let exchange r := {| x_event := event; x_url := fw_apiURL f ^^ "/v1/ingest"; x_tenant := fw_tenantID f;
                               x_payload := payload; x_response := r |} in
          match si_response inp with
          | Err err =>
              failed (if negb (si_ctxCancelled inp) then setNetwork networkOffline f else f)
                (fs_store st) (fs_exchanges st ++ [exchange None]) 0
          | Ok resp =>
              let f := setNetwork networkOnline f in
              let xs := fs_exchanges st ++ [exchange (Some resp)] in
              if StatusCode resp =? 202 then
                {| fs_forwarder := f; fs_store := (storage_RemoveEvent (si_env inp) (fs_store st) (EventID event)).1;
                   fs_exchanges := xs |}
              else if StatusCode resp =? 400 then
                {| fs_forwarder := f;
                   fs_store := (storage_MoveToDLQ (si_env inp) (fs_store st) event "http_400" (truncateBody (Body resp))).1;
                   fs_exchanges := xs |}
              else failed f (fs_store st) xs (retryAfterOf resp)
          end
      end
  end.

(** The loop over the batch; the flag is [ctx.Err() != nil] before each. *)
Fixpoint sendAll (inputs : list (bool * SendInput)) (st : ForwardState) (evs : list CanonicalEvent) : ForwardState :=
  match evs, inputs with
  | ev :: evs, (cancelled, inp) :: inputs =>
      if (cancelled : bool) then st else sendAll inputs (sendEvent inp st ev) evs
  | _, _ => st
  end.

Definition processPending (e : E) (inputs : list (bool * SendInput)) (st : ForwardState) : ForwardState :=
  match storage_GetPendingEvents e (fs_store st) 50 with
  | (s, Err _) => {| fs_forwarder := fs_forwarder st; fs_store := s; fs_exchanges := fs_exchanges st |}
  | (s, Ok evs) =>
      sendAll inputs {| fs_forwarder := fs_forwarder st; fs_store := s; fs_exchanges := fs_exchanges st |} evs
  end.

(** The [run] goroutine: one round, then a wakeup, a tick or the end. *)
Fixpoint run (rounds : list (E * list (bool * SendInput))) (st : ForwardState) : ForwardState :=
  match rounds with
  | [] => st
  | (e, inputs) :: rounds => run rounds (processPending e inputs st)
  end.
End Sending.

Arguments ForwardState : clear implicits.
Arguments SendInput : clear implicits.

(** ** Lemmas *)

(** An exchange the server acknowledged. *)
Definition acked (id : string) (x : Exchange) : Prop :=
  EventID (x_event x) = id /\ exists r, x_response x = Some r /\ StatusCode r = 202.

Definition wasAcked (id : string) (xs : list Exchange) : Prop := Exists (acked id) xs.

(** Every exchange carries an event of the forwarder's tenant, serialised. *)
Definition properExchange (Serialize : CanonicalEvent -> result string) (f : Forwarder) (x : Exchange) : Prop :=
  TenantID (x_event x) = fw_tenantID f /\ x_tenant x = fw_tenantID f /\
  Serialize (x_event x) = Ok (x_payload x) /\ x_url x = fw_apiURL f ^^ "/v1/ingest".

Section SendingProofs.
Context {S E : Type} `{HS : Storage S E, HL : !StorageLaws S E}.
Context (Serialize : CanonicalEvent -> result string).

(** What sending may do to the store and the log. *)
Record sendResult (st st' : ForwardState S) : Prop := {
  sr_ok : storage_ok (fs_store st');
  sr_identity : fw_tenantID (fs_forwarder st') = fw_tenantID (fs_forwarder st) /\
                fw_apiURL (fs_forwarder st') = fw_apiURL (fs_forwarder st);
  sr_log : fs_exchanges st `prefix_of` fs_exchanges st';
  sr_kept : forall id, pending (fs_store st) id \/ dead (fs_store st) id ->
    pending (fs_store st') id \/ dead (fs_store st') id \/ wasAcked id (fs_exchanges st');
  sr_dead : forall id, dead (fs_store st) id -> dead (fs_store st') id;
  sr_new : forall id, pending (fs_store st') id -> pending (fs_store st) id;
  sr_proper : Forall (properExchange Serialize (fs_forwarder st)) (fs_exchanges st) ->
    Forall (properExchange Serialize (fs_forwarder st')) (fs_exchanges st');
}.

Lemma wasAcked_prefix id xs ys : xs `prefix_of` ys -> wasAcked id xs -> wasAcked id ys.
Proof. intros [zs ->]. unfold wasAcked. rewrite Exists_app. by left. Qed.

Lemma sendResult_refl st : storage_ok (fs_store st) -> sendResult st st.
Proof. intros. split; try done. intros id [?|?]; auto. Qed.

Lemma sendResult_trans st1 st2 st3 : sendResult st1 st2 -> sendResult st2 st3 -> sendResult st1 st3.
Proof.
  intros [_ [T1 U1] L1 K1 D1 N1 P1] [O2 [T2 U2] L2 K2 D2 N2 P2].
  split; [done|split; congruence|by etrans| |auto|auto|auto].
  intros id [H|[H|H]]%K1; [apply K2; by left|apply K2; by right|].
  right. right. by eapply wasAcked_prefix.
Qed.

(** One storage operation, after zero or one new exchange. *)
Lemma sendResult_op st f' s' xs :
  fw_tenantID f' = fw_tenantID (fs_forwarder st) -> fw_apiURL f' = fw_apiURL (fs_forwarder st) ->
  storage_ok s' -> Forall (properExchange Serialize (fs_forwarder st)) xs ->
  (forall id, dead (fs_store st) id -> dead s' id) ->
  (forall id, pending s' id -> pending (fs_store st) id) ->
  (forall id, pending (fs_store st) id -> pending s' id \/ dead s' id \/ wasAcked id xs) ->
  sendResult st {| fs_forwarder := f'; fs_store := s'; fs_exchanges := fs_exchanges st ++ xs |}.
Proof.
  intros Ht Hu Hok Hxs Hd Hn Hk. split; cbn; try done.
  - by apply prefix_app_r.
  - intros id [Hp|Hp]; [|right; left; by apply Hd].
    destruct (Hk id Hp) as [?|[?|?]]; auto. right. right. unfold wasAcked. rewrite Exists_app. by right.
  - intros H. assert (forall x, properExchange Serialize (fs_forwarder st) x -> properExchange Serialize f' x) as Hp.
    { intros x. unfold properExchange. by rewrite Ht, Hu. }
    apply Forall_app. split; eapply Forall_impl; eauto.
Qed.

Lemma op_dlq st f' e ev ft fr xs :
  storage_ok (fs_store st) ->
  fw_tenantID f' = fw_tenantID (fs_forwarder st) -> fw_apiURL f' = fw_apiURL (fs_forwarder st) ->
  Forall (properExchange Serialize (fs_forwarder st)) xs ->
  sendResult st {| fs_forwarder := f'; fs_store := (storage_MoveToDLQ e (fs_store st) ev ft fr).1;
                   fs_exchanges := fs_exchanges st ++ xs |}.
Proof.
  intros Hok Ht Hu Hxs. destruct (storage_MoveToDLQ e (fs_store st) ev ft fr) as [s' res] eqn:H.
  destruct (law_dlq _ _ _ _ _ _ _ Hok H) as (Hok' & Hoth & _ & Hnew & Hdead & Hpend & _).
  apply sendResult_op; try done; intros id; cbn;
    (destruct (decide (id = EventID ev)) as [->|Hne]; [|pose proof (Hoth id Hne); tauto]); auto.
  intros [?|?]%Hpend; auto.
Qed.

Lemma op_failed st f' e id ra xs :
  storage_ok (fs_store st) ->
  fw_tenantID f' = fw_tenantID (fs_forwarder st) -> fw_apiURL f' = fw_apiURL (fs_forwarder st) ->
  Forall (properExchange Serialize (fs_forwarder st)) xs ->
  sendResult st {| fs_forwarder := f'; fs_store := (storage_MarkFailed e (fs_store st) id ra).1;
                   fs_exchanges := fs_exchanges st ++ xs |}.
Proof.
  intros Hok Ht Hu Hxs. destruct (storage_MarkFailed e (fs_store st) id ra) as [s' res] eqn:H.
  destruct (law_failed _ _ _ _ _ _ Hok H) as (Hok' & Hd & Hp).
  apply sendResult_op; try done; intros id'; cbn; [by rewrite Hd|by rewrite Hp|]. rewrite Hp. auto.
Qed.

Lemma op_remove st f' e id xs :
  storage_ok (fs_store st) ->
  fw_tenantID f' = fw_tenantID (fs_forwarder st) -> fw_apiURL f' = fw_apiURL (fs_forwarder st) ->
  Forall (properExchange Serialize (fs_forwarder st)) xs -> wasAcked id xs ->
  sendResult st {| fs_forwarder := f'; fs_store := (storage_RemoveEvent e (fs_store st) id).1;
                   fs_exchanges := fs_exchanges st ++ xs |}.
Proof.
  intros Hok Ht Hu Hxs Hack. destruct (storage_RemoveEvent e (fs_store st) id) as [s' res] eqn:H.
  destruct (law_remove _ _ _ _ _ Hok H) as (Hok' & Hd & Hp & Hres).
  apply sendResult_op; try done; intros id'; cbn; [by rewrite Hd| |];
    (destruct (decide (id' = id)) as [->|Hne]; [|rewrite Hp by done; auto]); [|by auto].
  destruct res; [by rewrite Hres|done].
Qed.

Lemma sendEvent_result (inp : SendInput E) st ev :
  storage_ok (fs_store st) -> sendResult st (sendEvent Serialize inp st ev).
Proof.
  intros Hok. unfold sendEvent.
  destruct (String.eqb_spec (TenantID ev) (fw_tenantID (fs_forwarder st))) as [Ht|_]; cbn [negb].
  2:{ rewrite <- (app_nil_r (fs_exchanges st)). by apply op_dlq. }
  destruct (Serialize ev) as [payload|err] eqn:Hs.
  2:{ rewrite <- (app_nil_r (fs_exchanges st)). by apply op_dlq. }
  destruct (si_request inp).
  { rewrite <- (app_nil_r (fs_exchanges st)). by apply op_failed. }
  assert (forall r, Forall (properExchange Serialize (fs_forwarder st))
    [{| x_event := ev; x_url := fw_apiURL (fs_forwarder st) ^^ "/v1/ingest"; x_tenant := fw_tenantID (fs_forwarder st);
        x_payload := payload; x_response := r |}]) as Hx.
  { intros r. by repeat constructor. }
  destruct (si_response inp) as [resp|err].
  2:{ destruct (negb (si_ctxCancelled inp)); by apply op_failed. }
  destruct (Z.eqb_spec (StatusCode resp) 202) as [H202|_].
  { apply op_remove; try done. apply Exists_cons. left. split; [done|]. by exists resp. }
  destruct (StatusCode resp =? 400); [by apply op_dlq|by apply op_failed].
Qed.

Lemma sendAll_result inputs st evs :
  storage_ok (fs_store st) -> sendResult st (sendAll Serialize inputs st evs).
Proof.
  revert inputs st. induction evs as [|ev evs IH]; intros [|[c inp] inputs] st Hok; cbn [sendAll];
    try by apply sendResult_refl.
  destruct c; [by apply sendResult_refl|].
  pose proof (sendEvent_result inp st ev Hok) as H1.
  eapply sendResult_trans; [exact H1|]. apply IH, H1.
Qed.

Lemma processPending_result e inputs st :
  storage_ok (fs_store st) -> sendResult st (processPending Serialize e inputs st).
Proof.
  intros Hok. unfold processPending. destruct (storage_GetPendingEvents e (fs_store st) 50) as [s [evs|err]] eqn:Hg;
    destruct (law_pending _ _ _ _ _ Hok Hg) as (Hok' & Hk & Hd & Hn).
  - eapply sendResult_trans; [|by apply sendAll_result].
    rewrite <- (app_nil_r (fs_exchanges st)). apply sendResult_op; try done.
    intros id Hp. destruct (Hk id (or_introl Hp)); auto.
  - rewrite <- (app_nil_r (fs_exchanges st)). apply sendResult_op; try done.
    intros id Hp. destruct (Hk id (or_introl Hp)); auto.
Qed.

Lemma run_result rounds st : storage_ok (fs_store st) -> sendResult st (run Serialize rounds st).
Proof.
  revert st. induction rounds as [|[e inputs] rounds IH]; intros st Hok; cbn [run]; [by apply sendResult_refl|].
  pose proof (processPending_result e inputs st Hok) as H1.
  eapply sendResult_trans; [exact H1|]. apply IH, H1.
Qed.
End SendingProofs.

Lemma start_once f f' : Forwarder_Start f = (f', None) ->
  Forwarder_Start f' = (f', Some (ErrNew "forwarder already started")) /\
  Forwarder_Start (Forwarder_Stop f') = (Forwarder_Stop f', Some (ErrNew "forwarder cannot be restarted")) /\
  Forwarder_Stop (Forwarder_Stop f') = Forwarder_Stop f'.
Proof.
  unfold Forwarder_Start. destruct (fw_stopped f) eqn:Hs; [done|]. destruct (fw_started f); [done|].
  by intros [= <-].
Qed.

(** Requests of a round follow the order of the batch, at most one per event. *)
Lemma sendAll_order {S E} `{HS : Storage S E} Serialize (inputs : list (bool * SendInput E)) (st : ForwardState S) evs :
  exists xs, fs_exchanges (sendAll Serialize inputs st evs) = fs_exchanges st ++ xs /\
             map x_event xs `sublist_of` evs.
Proof.
  revert inputs st. induction evs as [|ev evs IH]; intros [|[c inp] inputs] st; cbn [sendAll];
    try (exists []; split; [by rewrite app_nil_r|apply sublist_nil_l]).
  destruct c; [exists []; split; [by rewrite app_nil_r|apply sublist_nil_l]|].
  destruct (IH inputs (sendEvent Serialize inp st ev)) as (xs & -> & Hsub).
  assert (exists ys, fs_exchanges (sendEvent Serialize inp st ev) = fs_exchanges st ++ ys /\
            (ys = [] \/ exists x, ys = [x] /\ x_event x = ev)) as (ys & -> & Hys).
  { unfold sendEvent. repeat case_match; cbn;
      first [exists []; split; [by rewrite app_nil_r|by left] | eexists; split; [reflexivity|right; by eexists]]. }
  exists (ys ++ xs). split; [by rewrite app_assoc|].
  destruct Hys as [->|(x & -> & <-)]; cbn; [by apply sublist_cons|by apply sublist_skip].
Qed.

(** ** Properties *)

(** C5: The forwarder never loses an event.  Over any number of rounds, with
    any responses, network errors, cancellations and storage failures, every
    event that was pending or dead-lettered still is, or was acknowledged: some
    request carrying it was answered 202.  Dead letters stay dead, no event
    becomes pending, and every request goes to the ingest path with the
    forwarder's tenant, carrying the serialisation of an event of that
    tenant. *)
Theorem forwarder_never_loses {S E} `{HS : Storage S E, HL : !StorageLaws S E} Serialize
    (rounds : list (E * list (bool * SendInput E))) (st : ForwardState S) :
  storage_ok (fs_store st) -> fs_exchanges st = [] ->
  let st' := run Serialize rounds st in
  (forall id, pending (fs_store st) id \/ dead (fs_store st) id ->
     pending (fs_store st') id \/ dead (fs_store st') id \/ wasAcked id (fs_exchanges st')) /\
  (forall id, dead (fs_store st) id -> dead (fs_store st') id) /\
  (forall id, pending (fs_store st') id -> pending (fs_store st) id) /\
  Forall (properExchange Serialize (fs_forwarder st')) (fs_exchanges st').
Proof.
  intros Hok Hnil st'. destruct (run_result Serialize rounds st Hok) as [_ _ _ Hk Hd Hn Hp].
  split_and!; try done. apply Hp. rewrite Hnil. constructor.
Qed.

Definition demoDeserialize (text : string) : result CanonicalEvent := Ok (setSeqNo 1 (sampleEvent "e1" "INFO")).

Definition queuedStorage : SQLiteStorage :=
  match Store demoSerialize quietEnv freshStorage (sampleEvent "e1" "INFO") with
  | Some (s, _, _) => s
  | None => freshStorage
  end.

Lemma queuedStorage_ok : sqlite_ok queuedStorage.
Proof.
  destruct (store_result demoSerialize quietEnv freshStorage freshDB (sampleEvent "e1" "INFO") eq_refl freshDB_wf)
    as (s' & ev' & res & db' & H & [Hdb [_ Hd] _ Hwf _ _]).
  unfold queuedStorage. rewrite H. exists db'. by rewrite Hd.
Qed.

Definition accepted : SendInput CallEnv := {|
  si_env := {| ce_env := quietEnv; ce_quarantine := fun _ => quietEnv |}; si_request := None;
  si_response := Ok {| StatusCode := 202; Body := ""; RetryAfterHeader := "" |}; si_ctxCancelled := false |}.

Definition queuedState : ForwardState SQLiteStorage :=
  {| fs_forwarder := NewForwarder "http://api/" "tenant-1"; fs_store := queuedStorage; fs_exchanges := [] |}.

Definition oneRound : list (CallEnv * list (bool * SendInput CallEnv)) :=
  [({| ce_env := quietEnv; ce_quarantine := fun _ => quietEnv |}, [(false, accepted)])].

Definition forwardedState : ForwardState SQLiteStorage :=
  run (HS := sqlite_storage demoSerialize demoDeserialize) demoSerialize oneRound queuedState.

Definition holds (s : SQLiteStorage) (id : string) : bool :=
  match s_db s with Some db => bool_decide (is_Some (db_events db !! id)) | None => false end.

(** One round against the SQLite store holding one event: it is posted,
    acknowledged and removed. *)
Lemma forwarder_never_loses_witness :
  holds (fs_store queuedState) "e1" = true /\ holds (fs_store forwardedState) "e1" = false /\
  (sqlite_pending (fs_store queuedState) "e1" \/ sqlite_dead (fs_store queuedState) "e1" ->
   sqlite_pending (fs_store forwardedState) "e1" \/ sqlite_dead (fs_store forwardedState) "e1" \/
   wasAcked "e1" (fs_exchanges forwardedState)).
Proof.
  split; [vm_compute; reflexivity|]. split; [vm_compute; reflexivity|].
  exact (proj1 (forwarder_never_loses (HS := sqlite_storage demoSerialize demoDeserialize)
    (HL := sqlite_laws demoSerialize demoDeserialize) demoSerialize oneRound queuedState queuedStorage_ok eq_refl) "e1"%string).
Defined.
