(* ===== verification/Detection.v ===== *)
(** The local detection engine (agent/internal/detection/{engine,rules,yara_rule}.go):
    rules evaluated on committed events, findings with a deterministic identity
    stored back through the storage interface, panics contained per rule. *)
From S2P Require Import Prelude GoStrings GoFloat GoTime Events Storage StorageSpec Interfaces.

Open Scope Z_scope.

(** What a rule's [Evaluate] does: return a value or panic. *)
Inductive RuleOutcome := RuleReturns (r : result bool) | RulePanics.

(** The [Rule] interface. *)
Record Rule := {
  rule_ID : string;
  rule_Version : string;
  rule_Severity : string;
  rule_Confidence : float64;
  rule_Reason : string;
  rule_AttckEnterprise : list string;
  rule_AttckICS : list string;
  rule_Evaluate : CanonicalEvent -> RuleOutcome;
}.

(** ** Rules *)

(** [ev.Metadata[key].(string)] *)
Definition metaString (key : string) (ev : CanonicalEvent) : option string :=
  match Metadata ev with
  | None => None
  | Some m => match m !! key with Some (VStr s) => Some s | _ => None end
  end.

Definition RealIOCExecRule : Rule := {|
  rule_ID := "LOCAL-IOC-EXEC-001"; rule_Version := "1.0"; rule_Severity := "CRITICAL";
  rule_Confidence := f_of_Z 100; rule_Reason := "Deterministic IOC: Suspicious executable path detected";
  rule_AttckEnterprise := []; rule_AttckICS := [];
  rule_Evaluate := fun ev =>
    RuleReturns (Ok (match metaString "executable_path" ev with
                     | Some path => path =s "/opt/malicious/bin/miner"
                     | None => false
                     end)) |}.

(** The YARA rule.  The file system and the YARA-X scanner are inputs: the
    stat, open and read of the artifact, bounded by [io.LimitReader], and the
    number of matching rules. *)
Definition MaxArtifactSizeBytes : Z := 50 * 1024 * 1024.

Record Artifacts := {
  art_stat : string -> result Z;
  art_open : string -> option error;
  art_data : string -> result bytes;         (* the whole file *)
  art_scan : bytes -> result Z;              (* len(matches.MatchingRules()) *)
}.

Definition artifactPath (ev : CanonicalEvent) : option string :=
  let nonEmpty key := match metaString key ev with
                      | Some p => if negb (p =s "") then Some p else None
                      | None => None
                      end in
  match nonEmpty "file_path"%string with
  | Some p => Some p
  | None => nonEmpty "executable_path"%string
  end.

Definition evaluateFile (fs : Artifacts) (path : string) : result bool :=
  match art_stat fs path with
  | Err e => Err (ErrWrap ("failed to stat artifact at " ^^ path ^^ ": " ^^ error_Error e) [e])
  | Ok size =>
      if MaxArtifactSizeBytes <? size
      then Err (ErrNew ("oversized artifact: " ^^ path ^^ " (size " ^^ fmt_d size
                 ^^ " bytes exceeds provisional limit of " ^^ fmt_d MaxArtifactSizeBytes ^^ " bytes)"))
      else match art_open fs path with
      | Some e => Err (ErrWrap ("failed to open artifact at " ^^ path ^^ ": " ^^ error_Error e) [e])
      | None =>
          match art_data fs path with
          | Err e => Err (ErrWrap ("failed to read artifact at " ^^ path ^^ ": " ^^ error_Error e) [e])
          | Ok file =>
              (* io.ReadAll(io.LimitReader(f, MaxArtifactSizeBytes+1)) *)
              let data := take (Z.to_nat (MaxArtifactSizeBytes + 1)) file in
              if MaxArtifactSizeBytes <? Z.of_nat (length data)
              then Err (ErrNew ("oversized artifact detected during read: " ^^ path))
              else match art_scan fs data with
              | Err e => Err (ErrWrap ("YARA-X evaluation failed on artifact " ^^ path ^^ ": " ^^ error_Error e) [e])
              | Ok matches => Ok (0 <? matches)
              end
          end
      end
  end.

Definition YaraRule_Evaluate (fs : Artifacts) (ev : CanonicalEvent) : result bool :=
  match artifactPath ev with None => Ok false | Some p => evaluateFile fs p end.

(** [NewYaraRule] after a successful compilation. *)
Definition YaraRule (fs : Artifacts) (id version severity : string) (confidence : float64) (reason : string)
    (attckEnt attckICS : list string) : Rule := {|
  rule_ID := id; rule_Version := version; rule_Severity := severity; rule_Confidence := confidence;
  rule_Reason := reason; rule_AttckEnterprise := attckEnt; rule_AttckICS := attckICS;
  rule_Evaluate := fun ev => RuleReturns (YaraRule_Evaluate fs ev) |}.

(** ** The engine *)

Definition findingCategory : string := "detection/finding".

Section Engine.
(** [uuid.NewSHA1(namespace, ·).String()] and [uuid.Parse]. *)
Context (uuid_SHA1 : string -> string) (uuid_Parse : string -> option error).

Definition dedupString (ev : CanonicalEvent) (rule : Rule) : string :=
  TenantID ev ^^ ":" ^^ (rule_ID rule ^^ ":" ^^ (rule_Version rule ^^ ":" ^^ EventID ev)).

Definition createFinding (ev : CanonicalEvent) (rule : Rule) : CanonicalEvent := {|
  EventID := uuid_SHA1 (dedupString ev rule);
  TenantID := TenantID ev; SiteID := SiteID ev; AssetID := AssetID ev; SensorID := SensorID ev;
  OccurredAt := OccurredAt ev; ReceivedAt := zeroTime; SeqNo := 0;
  Source := "local_detection"; Category := findingCategory; Severity := rule_Severity rule;
  Confidence := Some (rule_Confidence rule);
  Protocol := ""; Src := ""; Dst := ""; Action := "";
  Metadata := Some (<[ "reason"%string := VStr (rule_Reason rule) ]>
                   (<[ "evidence_event_ids"%string := VStrings [EventID ev] ]> ∅));
  RuleID := rule_ID rule; RuleVersion := rule_Version rule;
  AttckEnterprise := rule_AttckEnterprise rule; AttckICS := rule_AttckICS rule; QualityFlags := [];
  SchemaVersion := CurrentSchemaVersion |}.

Context {S E : Type} `{HS : Storage S E}.

(** [evaluateRuleSafe]: a panic of the rule is recovered. *)
Definition evaluateRuleSafe (e : E) (ev : CanonicalEvent) (rule : Rule) (s : S) : S :=
  match rule_Evaluate rule ev with
  | RulePanics => s
  | RuleReturns (Err _) => s
  | RuleReturns (Ok false) => s
  | RuleReturns (Ok true) =>
      let finding := createFinding ev rule in
      match Event_Validate uuid_Parse finding with
      | Some _ => s
      | None => (storage_Store e s finding).1.1
      end
  end.

(** Each rule with the environment of its [Store] call. *)
Fixpoint evaluateRules (ev : CanonicalEvent) (rules : list (Rule * E)) (s : S) : S :=
  match rules with
  | [] => s
  | (rule, e) :: rules => evaluateRules ev rules (evaluateRuleSafe e ev rule s)
  end.

Definition Engine_Evaluate (rules : list (Rule * E)) (s : S) (ev : CanonicalEvent) : S :=
  if Category ev =s findingCategory then s else evaluateRules ev rules s.

(** The findings an event gives rise to. *)
Definition matches (ev : CanonicalEvent) (rule : Rule) : bool :=
  match rule_Evaluate rule ev with RuleReturns (Ok b) => b | _ => false end.
End Engine.

(** ** Lemmas *)

(** A rule whose attributes fit the event schema. *)
Definition validRule (rule : Rule) : Prop :=
  rule_Severity rule ∈ ["DEBUG"; "INFO"; "WARNING"; "CRITICAL"; "FATAL"]%string /\
  RuneCountInString (rule_ID rule) <= 255 /\ RuneCountInString (rule_Version rule) <= 64 /\
  isNaN (rule_Confidence rule) = false /\ isInf (rule_Confidence rule) = false /\
  fleb fzero (rule_Confidence rule) = true /\ fleb (rule_Confidence rule) (f_of_Z 100) = true.

Lemma RealIOCExecRule_valid : validRule RealIOCExecRule.
Proof. unfold validRule. split_and!; [set_solver|by vm_compute..]. Qed.

Lemma finding_wf uuid_SHA1 ev rule :
  WellFormedEvent ev -> validRule rule -> WellFormedEvent (createFinding uuid_SHA1 ev rule).
Proof.
  intros [Ht _ _ Hten Hsite _ _ Hlim _ _] (Hsev & Hid & Hver & Hconf). constructor; cbn; try done.
  - unfold limitedFields in *.
    repeat match goal with H : Forall _ (_ :: _) |- _ => apply Forall_cons in H as [? H] end.
    rewrite !Forall_cons. cbn [fst snd AssetID SensorID Source Category Protocol Src Dst Action RuleID RuleVersion
      createFinding] in *. split_and!; done.
  - by intros f [= <-].
Qed.

Lemma evaluateRuleSafe_no_match uuid_SHA1 uuid_Parse {S E} `{HS : Storage S E} (e : E) ev rule (s : S) :
  matches ev rule = false -> evaluateRuleSafe uuid_SHA1 uuid_Parse e ev rule s = s.
Proof. unfold matches, evaluateRuleSafe. by destruct (rule_Evaluate rule ev) as [[[]|]|]. Qed.

(** *** Colons separate *)

Definition noColon : string -> bool := noChar (Ascii.ascii_of_nat 58).

Lemma idChar_noColon s : allChars idChar s = true -> noColon s = true.
Proof.
  unfold noColon, noChar. induction s as [|a s IH]; [done|]. cbn [allChars]. intros [Ha Hs]%andb_prop.
  rewrite (IH Hs), andb_true_r. destruct (Ascii.eqb_spec a (Ascii.ascii_of_nat 58)) as [->|]; done.
Qed.

(** The deduplication string determines tenant, rule, version and event. *)
Lemma dedupString_inj ev1 ev2 r1 r2 :
  validIdentifier (TenantID ev1) -> validIdentifier (TenantID ev2) ->
  noColon (rule_ID r1) = true -> noColon (rule_ID r2) = true ->
  noColon (rule_Version r1) = true -> noColon (rule_Version r2) = true ->
  dedupString ev1 r1 = dedupString ev2 r2 ->
  TenantID ev1 = TenantID ev2 /\ rule_ID r1 = rule_ID r2 /\ rule_Version r1 = rule_Version r2 /\
  EventID ev1 = EventID ev2.
Proof.
  intros (_ & H1 & _) (_ & H2 & _) Hi1 Hi2 Hv1 Hv2 H. unfold dedupString in H.
  apply char_split in H as [-> H]; [|by apply idChar_noColon..].
  apply char_split in H as [-> H]; [|done..].
  by apply char_split in H as [-> ->].
Qed.

Section EngineProofs.
Context (uuid_SHA1 : string -> string) (uuid_Parse : string -> option error).
Context {S E : Type} `{HS : Storage S E, HL : !StorageLaws S E}.

(** [id] names a finding of one of the rules that match. *)
Definition isFinding (ev : CanonicalEvent) (rules : list (Rule * E)) (id : string) : Prop :=
  Exists (fun re => matches ev re.1 = true /\ id = uuid_SHA1 (dedupString ev re.1)) rules.

Record telemetryKept (ev : CanonicalEvent) (rules : list (Rule * E)) (s s' : S) : Prop := {
  tk_ok : storage_ok s';
  tk_dead : forall id, dead s' id <-> dead s id;
  tk_new : forall id, pending s' id -> pending s id \/ isFinding ev rules id;
  tk_kept : forall id, pending s id -> pending s' id \/ prunable s id;
  tk_prunable : forall id, pending s id -> prunable s' id -> prunable s id;
}.

Lemma rule_kept e ev rule s :
  storage_ok s -> telemetryKept ev [(rule, e)] s (evaluateRuleSafe uuid_SHA1 uuid_Parse e ev rule s).
Proof.
  intros Hok. assert (telemetryKept ev [(rule, e)] s s) as Hrefl by (split; try done; intros; by left).
  unfold evaluateRuleSafe. destruct (rule_Evaluate rule ev) as [[[]|]|] eqn:Hm; try done.
  destruct (Event_Validate _ _); [done|].
  destruct (storage_Store e s (createFinding uuid_SHA1 ev rule)) as [[s' f] res] eqn:Hs. cbn.
  destruct (law_store _ _ _ _ _ _ Hok Hs) as (Hok' & _ & Hd & Hk & Hn & Hp & _).
  change (EventID (createFinding uuid_SHA1 ev rule)) with (uuid_SHA1 (dedupString ev rule)) in *.
  assert (isFinding ev [(rule, e)] (uuid_SHA1 (dedupString ev rule))) as Hf.
  { left. split; [|done]. cbn. unfold matches. by rewrite Hm. }
  pose proof (law_store_recorded _ _ _ _ _ _ Hok Hs) as Hrec.
  change (EventID (createFinding uuid_SHA1 ev rule)) with (uuid_SHA1 (dedupString ev rule)) in *.
  split; try done; intros id; destruct (decide (id = uuid_SHA1 (dedupString ev rule))) as [->|Hne]; auto.
  - intros H. left. by rewrite (Hrec (or_introl H)).
  - intros H. by rewrite (Hrec (or_introl H)).
Qed.

Lemma rules_kept ev rules s :
  storage_ok s -> telemetryKept ev rules s (evaluateRules uuid_SHA1 uuid_Parse ev rules s).
Proof.
  revert s. induction rules as [|[rule e] rules IH]; intros s Hok; cbn [evaluateRules].
  { split; try done; intros; by left. }
  destruct (rule_kept e ev rule s Hok) as [Hok1 Hd1 Hn1 Hk1 Hp1].
  destruct (IH _ Hok1) as [Hok2 Hd2 Hn2 Hk2 Hp2].
  assert (forall id, isFinding ev [(rule, e)] id -> isFinding ev ((rule, e) :: rules) id) as Hhd.
  { intros id. unfold isFinding. rewrite !Exists_cons, Exists_nil. tauto. }
  assert (forall id, isFinding ev rules id -> isFinding ev ((rule, e) :: rules) id) as Htl.
  { intros id. unfold isFinding. rewrite Exists_cons. tauto. }
  split; try done; intros id.
  - by rewrite Hd2, Hd1.
  - intros [H|H]%Hn2; [|auto]. apply Hn1 in H as [?|?]; auto.
  - intros H. destruct (Hk1 _ H) as [H1|]; [|auto]. destruct (Hk2 _ H1); auto.
  - intros H H2. destruct (Hk1 _ H) as [H1|]; [|done]. auto.
Qed.

Lemma evaluateRules_app ev l1 l2 s :
  evaluateRules uuid_SHA1 uuid_Parse ev (l1 ++ l2) s =
  evaluateRules uuid_SHA1 uuid_Parse ev l2 (evaluateRules uuid_SHA1 uuid_Parse ev l1 s).
Proof. revert s. induction l1 as [|[r e] l1 IH]; intros s; [done|]. apply IH. Qed.
End EngineProofs.

(** ** Properties *)

(** C36: Detection never harms telemetry.  Over any storage that satisfies the
    interface, evaluating any rules, panicking or failing ones included, keeps
    every recorded event, earlier findings of the same rules included (unless
    the quota prunes it), and all dead letters, adds only findings of rules that
    matched, and does nothing at all on an event
    that is itself a finding, so detection cannot feed on its own output; and a
    rule that panics or fails is skipped without a trace on the others. *)
Theorem detection_preserves_telemetry uuid_SHA1 uuid_Parse {S E} `{HS : Storage S E, HL : !StorageLaws S E}
    (rules : list (Rule * E)) (s : S) ev :
  storage_ok s ->
  telemetryKept uuid_SHA1 ev rules s (Engine_Evaluate uuid_SHA1 uuid_Parse rules s ev) /\
  (forall rule, Engine_Evaluate uuid_SHA1 uuid_Parse rules s (createFinding uuid_SHA1 ev rule) = s) /\
  (forall l1 l2 bad e, rules = l1 ++ (bad, e) :: l2 -> matches ev bad = false ->
     Engine_Evaluate uuid_SHA1 uuid_Parse rules s ev = Engine_Evaluate uuid_SHA1 uuid_Parse (l1 ++ l2) s ev).
Proof.
  intros Hok. split_and!.
  - unfold Engine_Evaluate. destruct (Category ev =s findingCategory); [|by apply rules_kept].
    split; try done; intros; by left.
  - done.
  - intros l1 l2 bad e -> Hbad. unfold Engine_Evaluate. destruct (_ =s _); [done|].
    rewrite !evaluateRules_app. cbn [evaluateRules]. by rewrite evaluateRuleSafe_no_match.
Qed.

Definition panickingRule : Rule := {|
  rule_ID := "P"; rule_Version := "1"; rule_Severity := "INFO"; rule_Confidence := fzero; rule_Reason := "";
  rule_AttckEnterprise := []; rule_AttckICS := []; rule_Evaluate := fun _ => RulePanics |}.

Definition quietCall : CallEnv := {| ce_env := quietEnv; ce_quarantine := fun _ => quietEnv |}.

Lemma detection_preserves_telemetry_witness :
  let HS := sqlite_storage demoSerialize (fun _ => Err (ErrNew "bad")) in
  Engine_Evaluate (HS := HS) (fun s => s) (fun _ => None) [(panickingRule, quietCall); (RealIOCExecRule, quietCall)]
    freshStorage (sampleEvent "e1" "INFO")
  = Engine_Evaluate (HS := HS) (fun s => s) (fun _ => None) [(RealIOCExecRule, quietCall)]
    freshStorage (sampleEvent "e1" "INFO").
Proof.
  intros HS.
  apply (detection_preserves_telemetry (HS := HS) (HL := sqlite_laws demoSerialize (fun _ => Err (ErrNew "bad")))
    (fun s => s) (fun _ => None) [(panickingRule, quietCall); (RealIOCExecRule, quietCall)] freshStorage
    (sampleEvent "e1" "INFO")) with (l1 := []) (bad := panickingRule) (e := quietCall).
  - exists freshDB. split; [reflexivity|apply freshDB_wf].
  - reflexivity.
  - reflexivity.
Defined.

(** A finding's identity is what it is about.  When the SHA-1 UUID does not
    collide on the two deduplication strings, two findings of events with valid
    tenants and rules without colons in id and version have the same event id
    exactly when tenant, rule, rule version and event are the same. *)
Theorem finding_identity uuid_SHA1 ev1 ev2 r1 r2 :
  validIdentifier (TenantID ev1) -> validIdentifier (TenantID ev2) ->
  noColon (rule_ID r1) = true -> noColon (rule_ID r2) = true ->
  noColon (rule_Version r1) = true -> noColon (rule_Version r2) = true ->
  (uuid_SHA1 (dedupString ev1 r1) = uuid_SHA1 (dedupString ev2 r2) -> dedupString ev1 r1 = dedupString ev2 r2) ->
  EventID (createFinding uuid_SHA1 ev1 r1) = EventID (createFinding uuid_SHA1 ev2 r2) <->
  TenantID ev1 = TenantID ev2 /\ rule_ID r1 = rule_ID r2 /\ rule_Version r1 = rule_Version r2 /\
  EventID ev1 = EventID ev2.
Proof.
  intros Ht1 Ht2 Hi1 Hi2 Hv1 Hv2 Hcoll. cbn [EventID createFinding]. split.
  - intros H%Hcoll. by apply dedupString_inj.
  - intros (H1 & H2 & H3 & H4). unfold dedupString. by rewrite H1, H2, H3, H4.
Qed.

Lemma finding_identity_witness :
  EventID (createFinding (fun s => s) (sampleEvent "e1" "INFO") RealIOCExecRule)
  <> EventID (createFinding (fun s => s) (sampleEvent "e2" "INFO") RealIOCExecRule).
Proof.
  intros H.
  assert (validIdentifier (TenantID (sampleEvent "e1" "INFO"))) as Ht by (split_and!; [discriminate|reflexivity|discriminate]).
  destruct (proj1 (finding_identity (fun s => s) (sampleEvent "e1" "INFO") (sampleEvent "e2" "INFO")
    RealIOCExecRule RealIOCExecRule Ht Ht eq_refl eq_refl eq_refl eq_refl (fun h => h)) H) as (_ & _ & _ & He).
  discriminate.
Defined.

(** The production rule records its finding once.  When a validated event
    names the indicator path and the finding's store succeeds, the finding is
    durably recorded, and evaluating the same event again, in whatever
    environment its two lookups succeed, leaves the whole database as it is. *)
Theorem ioc_finding_once Serialize Deserialize uuid_SHA1 uuid_Parse e1 e2 s db ev s1 f1 :
  s_db s = Some db -> wfDB (deviceID s) db ->
  Event_Validate uuid_Parse ev = None -> Category ev <> findingCategory ->
  metaString "executable_path" ev = Some "/opt/malicious/bin/miner"%string ->
  let id := uuid_SHA1 (dedupString ev RealIOCExecRule) in
  uuid_Parse id = None -> id <> ""%string ->
  Store Serialize (ce_env e1) s (createFinding uuid_SHA1 ev RealIOCExecRule) = Some (s1, f1, None) ->
  sqlErr (ce_env e2) QEventById = None -> sqlErr (ce_env e2) QDLQById = None ->
  let evaluate e s := Engine_Evaluate (HS := sqlite_storage Serialize Deserialize) uuid_SHA1 uuid_Parse
                        [(RealIOCExecRule, e)] s ev in
  evaluate e1 s = s1 /\
  (exists db1, s_db s1 = Some db1 /\ durable db1 id (SeqNo f1) (bytesOrNil (Serialize f1))) /\
  evaluate e2 s1 = s1.
Proof.
  intros Hdb Hwf Hv Hcat Hpath id Hparse Hne Hst Hq1 Hq2 evaluate.
  set (finding := createFinding uuid_SHA1 ev RealIOCExecRule) in *.
  assert (Event_Validate uuid_Parse finding = None) as Hvf.
  { apply Validate_complete; [exact Hparse|]. apply finding_wf; [by apply (Validate_wf uuid_Parse)|].
    apply RealIOCExecRule_valid. }
  assert (forall e s', evaluate e s' = (sqliteStore Serialize e s' finding).1.1) as Heval.
  { intros e s'. unfold evaluate, Engine_Evaluate. rewrite (proj2 (String.eqb_neq _ _) Hcat).
    cbn [evaluateRules]. unfold evaluateRuleSafe. cbn [rule_Evaluate RealIOCExecRule]. rewrite Hpath, String.eqb_refl.
    fold finding. by rewrite Hvf. }
  rewrite !Heval. unfold sqliteStore. rewrite Hst. split_and!; [done| |].
  - destruct (store_result Serialize (ce_env e1) s db finding Hdb Hwf) as (? & ? & ? & db1 & H & [Hdb1 _ _ _ _ Ho]).
    rewrite Hst in H. simplify_eq. exists db1. split; [done|]. exact Ho.
  - pose proof (store_again Serialize (ce_env e1) (ce_env e2) s db finding s1 f1 (SeqNo finding)
      Hdb Hwf Hst Hne Hq1 Hq2) as H2.
    assert (setSeqNo (SeqNo finding) finding = finding) as Hid by done. rewrite Hid in H2. by rewrite H2.
Qed.

Definition minerEvent : CanonicalEvent := {|
  EventID := "e1"; TenantID := "tenant-1"; SiteID := "site-1"; AssetID := "device-1"; SensorID := "";
  OccurredAt := time_Unix 1700000000 0; ReceivedAt := zeroTime; SeqNo := 0;
  Source := "agent"; Category := "process"; Severity := "INFO"; Confidence := None;
  Protocol := ""; Src := ""; Dst := ""; Action := "PROCESS_START";
  Metadata := Some {["executable_path"%string := VStr "/opt/malicious/bin/miner"]};
  RuleID := ""; RuleVersion := ""; AttckEnterprise := []; AttckICS := []; QualityFlags := [];
  SchemaVersion := CurrentSchemaVersion |}.

Lemma ioc_finding_once_witness :
  exists s1, Engine_Evaluate (HS := sqlite_storage demoSerialize (fun _ => Err (ErrNew "bad"))) (fun s => s) (fun _ => None)
    [(RealIOCExecRule, quietCall)] freshStorage minerEvent = s1 /\
  Engine_Evaluate (HS := sqlite_storage demoSerialize (fun _ => Err (ErrNew "bad"))) (fun s => s) (fun _ => None)
    [(RealIOCExecRule, quietCall)] s1 minerEvent = s1.
Proof.
  eexists. split; [reflexivity|].
  match goal with |- Engine_Evaluate _ _ _ ?s1 _ = _ => set (s1' := s1) end.
  assert (exists f1, Store demoSerialize quietEnv freshStorage (createFinding (fun s => s) minerEvent RealIOCExecRule)
                     = Some (s1', f1, None)) as [f1 Hst] by (eexists; vm_compute; reflexivity).
  apply (ioc_finding_once demoSerialize (fun _ => Err (ErrNew "bad")) (fun s => s) (fun _ => None) quietCall quietCall
    freshStorage freshDB minerEvent s1' f1 eq_refl freshDB_wf ltac:(vm_compute; reflexivity) ltac:(discriminate)
    ltac:(vm_compute; reflexivity) eq_refl ltac:(discriminate) Hst eq_refl eq_refl).
Defined.
