(* ===== verification/Repository.v ===== *)
(** The worker's PostgreSQL repository (server/internal/db/repository.go) over
    the schema of server/migrations: events and alerts keyed by tenant and
    event id, written in one transaction.

    The conversions of the columns are idealised.  A row holds the event as it
    was inserted, where the table has a UUID, a REAL, a TIMESTAMPTZ and a JSONB
    column; its key is the text of the id, where two spellings of one UUID are
    one key.  The program's own ids are in the canonical spelling. *)
From S2P Require Import Prelude GoStrings GoFloat GoTime Events.

Open Scope Z_scope.

Notation EventKey := (string * string)%type.    (* (tenant_id, event_id) *)

Definition keyOf (ev : CanonicalEvent) : EventKey := (TenantID ev, EventID ev).

Record AlertRow := {
  al_alert_id : string;
  al_event_id : string;
  al_tenant_id : string;
  al_severity : string;
  al_description : string;
  al_created_at : Time;
}.

(** A row of [events] holds the columns of the event it was inserted from. *)
Record PG := {
  pg_events : gmap EventKey CanonicalEvent;
  pg_alerts : gmap EventKey AlertRow;
}.

(** A VARCHAR(n) column rejects longer values. *)
Definition tooWide (ev : CanonicalEvent) : bool :=
  existsb (fun c => c.2 <? RuneCountInString c.1.2) (varcharColumns ev).

(** What the database connection and the clock decide. *)
Record PersistEnv := {
  pe_begin : option error;
  pe_insertEvent : option error;
  pe_insertAlert : option error;
  pe_commit : option error;
  pe_commitApplied : bool;      (* a commit that reported an error took effect *)
  pe_alertID : string;          (* uuid.New() *)
  pe_now : Time;
}.

Definition isAlertSeverity (sev : string) : bool := (sev =s "CRITICAL") || (sev =s "FATAL").

Definition alertRow (env : PersistEnv) (ev : CanonicalEvent) : AlertRow := {|
  al_alert_id := pe_alertID env; al_event_id := EventID ev; al_tenant_id := TenantID ev;
  al_severity := Severity ev;
  al_description := "Phase-1 Alert triggered by " ^^ Severity ev ^^ " event from " ^^ Source ev;
  al_created_at := pe_now env |}.

(** [ON CONFLICT (tenant_id, event_id) DO NOTHING] *)
Definition insertAlert (row : AlertRow) (k : EventKey) (m : gmap EventKey AlertRow) : gmap EventKey AlertRow :=
  match m !! k with Some _ => m | None => <[k := row]> m end.

Definition PersistEvent (env : PersistEnv) (pg : PG) (ev : CanonicalEvent) : PG * result bool :=
  match pe_begin env with
  | Some err => (pg, Err (ErrWrap ("failed to begin tx: " ^^ error_Error err) [err]))
  | None =>
      let insertErr := match pe_insertEvent env with
                       | Some err => Some err
                       | None => if tooWide ev then Some (ErrNew "value too long for type character varying") else None
                       end in
      match insertErr with
      | Some err => (pg, Err (ErrWrap ("failed to insert event: " ^^ error_Error err) [err]))
      | None =>
          match pg_events pg !! keyOf ev with
          | Some _ => (pg, Ok false)                        (* RowsAffected() == 0; rollback *)
          | None =>
              let events := <[keyOf ev := ev]> (pg_events pg) in
              let alert : result (gmap EventKey AlertRow * bool) :=
                if isAlertSeverity (Severity ev) then
                  match pe_insertAlert env with
                  | Some err => Err (ErrWrap ("failed to insert phase-1 alert: " ^^ error_Error err) [err])
                  | None => Ok (insertAlert (alertRow env ev) (keyOf ev) (pg_alerts pg), true)
                  end
                else Ok (pg_alerts pg, false) in
              match alert with
              | Err err => (pg, Err err)
              | Ok (alerts, alertGenerated) =>
                  let tx := {| pg_events := events; pg_alerts := alerts |} in
                  match pe_commit env with
                  | Some err => (if pe_commitApplied env then tx else pg,
                                 Err (ErrWrap ("failed to commit tx: " ^^ error_Error err) [err]))
                  | None => (tx, Ok alertGenerated)
                  end
              end
          end
      end
  end.

(** ** Lemmas *)

(** Events and alerts match: alerts are exactly those of the severe events. *)
Record wfPG (pg : PG) : Prop := {
  wp_key : forall k ev, pg_events pg !! k = Some ev -> keyOf ev = k;
  wp_alert : forall k, is_Some (pg_alerts pg !! k) <->
    exists ev, pg_events pg !! k = Some ev /\ isAlertSeverity (Severity ev) = true;
}.

Lemma wf_emptyPG : wfPG {| pg_events := ∅; pg_alerts := ∅ |}.
Proof.
  split; cbn; intros k; [by rewrite lookup_empty|]. rewrite !lookup_empty. split; [by intros []|].
  by intros (? & ? & _).
Qed.

(** The database after the transaction, applied or not. *)
Lemma persist_cases env pg ev :
  exists pg' r, PersistEvent env pg ev = (pg', r) /\
    (pg' = pg \/
     (pg_events pg !! keyOf ev = None /\
      pg_events pg' = <[keyOf ev := ev]> (pg_events pg) /\
      pg_alerts pg' = (if isAlertSeverity (Severity ev)
                       then insertAlert (alertRow env ev) (keyOf ev) (pg_alerts pg) else pg_alerts pg))) /\
    (forall b, r = Ok b -> is_Some (pg_events pg' !! keyOf ev)) /\
    (forall b, r = Ok b -> pg_events pg !! keyOf ev = None -> pg_events pg' !! keyOf ev = Some ev).
Proof.
  unfold PersistEvent. destruct (pe_begin env); [by eexists _, _; split_and!; [|left|..]|].
  destruct (match pe_insertEvent env with Some _ => _ | None => _ end);
    [by eexists _, _; split_and!; [|left|..]|].
  destruct (pg_events pg !! keyOf ev) as [old|] eqn:Hold.
  { eexists _, _. split_and!; [done|by left| |done]. intros _ _. by rewrite Hold. }
  destruct (isAlertSeverity (Severity ev)) eqn:Hsev.
  - destruct (pe_insertAlert env); [by eexists _, _; split_and!; [|left|..]|].
    destruct (pe_commit env); [destruct (pe_commitApplied env)|];
      eexists _, _; (split_and!; [done| |try done..]); try (right; done); try (by left); cbn;
      intros; by rewrite lookup_insert_eq.
  - destruct (pe_commit env); [destruct (pe_commitApplied env)|];
      eexists _, _; (split_and!; [done| |try done..]); try (right; done); try (by left); cbn;
      intros; by rewrite lookup_insert_eq.
Qed.

Lemma insertAlert_is_some row k m k' :
  is_Some (insertAlert row k m !! k') <-> k' = k \/ is_Some (m !! k').
Proof.
  unfold insertAlert. destruct (m !! k) eqn:E.
  - split; [by right|]. intros [->|?]; [by rewrite E|done].
  - destruct (decide (k' = k)) as [->|Hne].
    + rewrite lookup_insert_eq. split; [by left|by eexists].
    + rewrite lookup_insert_ne by done. split; [by right|]. by intros [?|?].
Qed.

Lemma persist_wf env pg ev : wfPG pg -> wfPG (PersistEvent env pg ev).1.
Proof.
  intros [Hk Ha]. destruct (persist_cases env pg ev) as (pg' & r & -> & Hcase & _ & _). cbn.
  destruct Hcase as [->|(Hnew & He & Hal)]; [done|]. split.
  - intros k x. rewrite He, lookup_insert_Some. intros [[<- <-]|[_ ?]]; [done|by apply Hk].
  - intros k. rewrite Hal, He. destruct (decide (k = keyOf ev)) as [->|Hne].
    + rewrite lookup_insert_eq. destruct (isAlertSeverity (Severity ev)) eqn:Hsev.
      * rewrite insertAlert_is_some. split; [intros _; by exists ev|by left].
      * rewrite Ha, Hnew. split; [by intros (? & ? & _)|]. intros (x & [= <-] & ?). congruence.
    + rewrite lookup_insert_ne by done. rewrite <- Ha. destruct (isAlertSeverity (Severity ev)); [|done].
      rewrite insertAlert_is_some. split; [by intros [?|?]|by right].
Qed.

Lemma persist_mono env pg ev k x :
  pg_events pg !! k = Some x -> pg_events (PersistEvent env pg ev).1 !! k = Some x.
Proof.
  intros Hx. destruct (persist_cases env pg ev) as (pg' & r & -> & Hcase & _ & _). cbn.
  destruct Hcase as [->|(Hnew & -> & _)]; [done|]. rewrite lookup_insert_ne; [done|]. intros <-. congruence.
Qed.

Lemma tooWide_validated uuid_Parse ev : Event_Validate uuid_Parse ev = None -> tooWide ev = false.
Proof.
  intros Hv. apply fits_schema in Hv. unfold tooWide. apply not_true_iff_false. intros H.
  apply existsb_exists in H as (c & Hin & Hc). rewrite Forall_forall in Hv.
  apply list_elem_of_In in Hin. specialize (Hv c Hin). cbn in Hv. lia.
Qed.

(** With a working database an event of the schema's widths is stored. *)
Lemma persist_works env pg ev :
  pe_begin env = None -> pe_insertEvent env = None -> pe_insertAlert env = None -> pe_commit env = None ->
  tooWide ev = false ->
  exists b pg', PersistEvent env pg ev = (pg', Ok b) /\ is_Some (pg_events pg' !! keyOf ev).
Proof.
  intros Hb Hi Ha Hc Hw. destruct (persist_cases env pg ev) as (pg' & r & Hpe & _ & Hok & _).
  assert (exists b, r = Ok b) as [b ->]; [|exists b, pg'; split; [done|by eapply Hok]].
  unfold PersistEvent in Hpe. rewrite Hb, Hi, Hw, Ha, Hc in Hpe.
  destruct (pg_events pg !! keyOf ev); [|destruct (isAlertSeverity (Severity ev))]; simplify_eq; by eexists.
Qed.

(** ** Properties *)

(** C8: Persistence is idempotent, atomic and exact.  From matching tables, for
    any failure at any statement: a successful call leaves the event recorded
    under its tenant and id (the first version wins), with an alert exactly
    when that version is CRITICAL or FATAL; a failed call leaves both tables
    untouched or both written; recorded events are never changed; the
    tables still match; and a second call for the event changes nothing. *)
Theorem persist_idempotent_atomic env env' pg ev pg' r :
  wfPG pg -> PersistEvent env pg ev = (pg', r) ->
  wfPG pg' /\
  (forall k x, pg_events pg !! k = Some x -> pg_events pg' !! k = Some x) /\
  (pg' = pg \/ (pg_events pg !! keyOf ev = None /\ pg_events pg' !! keyOf ev = Some ev /\
                (is_Some (pg_alerts pg' !! keyOf ev) <-> isAlertSeverity (Severity ev) = true))) /\
  (forall b, r = Ok b ->
     is_Some (pg_events pg' !! keyOf ev) /\ (PersistEvent env' pg' ev).1 = pg').
Proof.
  intros Hwf H. pose proof (persist_wf env pg ev Hwf) as Hwf'. rewrite H in Hwf'. cbn in Hwf'.
  destruct (persist_cases env pg ev) as (pg1 & r1 & H1 & Hcase & Hok & _). rewrite H in H1. simplify_eq.
  split_and!; [done| | |].
  - intros k x Hx. pose proof (persist_mono env pg ev k x Hx) as Hm. by rewrite H in Hm.
  - destruct Hcase as [->|(Hnew & He & _)]; [by left|right]. split_and!; [done|by rewrite He, lookup_insert_eq|].
    rewrite (wp_alert _ Hwf'), He, lookup_insert_eq. split; [by intros (? & [= <-] & ?)|by exists ev].
  - intros b Hb. split; [by eapply Hok|]. destruct (Hok b Hb) as [old Hold].
    destruct (persist_cases env' pg1 ev) as (pg2 & r2 & -> & Hcase2 & _). cbn.
    destruct Hcase2 as [->|(Hnew & _)]; [done|congruence].
Qed.

Definition calmEnv : PersistEnv := {|
  pe_begin := None; pe_insertEvent := None; pe_insertAlert := None; pe_commit := None;
  pe_commitApplied := false; pe_alertID := "alert-1"; pe_now := 0 |}.

Definition emptyPG : PG := {| pg_events := ∅; pg_alerts := ∅ |}.

Lemma persist_idempotent_atomic_witness :
  wfPG (PersistEvent calmEnv emptyPG (sampleEvent "e1" "CRITICAL")).1 /\
  (PersistEvent calmEnv (PersistEvent calmEnv emptyPG (sampleEvent "e1" "CRITICAL")).1 (sampleEvent "e1" "CRITICAL")).1
  = (PersistEvent calmEnv emptyPG (sampleEvent "e1" "CRITICAL")).1.
Proof.
  destruct (persist_idempotent_atomic calmEnv calmEnv emptyPG (sampleEvent "e1" "CRITICAL")
    (PersistEvent calmEnv emptyPG (sampleEvent "e1" "CRITICAL")).1 (Ok true) wf_emptyPG
    ltac:(vm_compute; reflexivity)) as (Hwf & _ & _ & Hok).
  split; [exact Hwf|]. exact (proj2 (Hok true eq_refl)).
Defined.
