(* ===== verification/IngestApi.v ===== *)
(** The ingest endpoint (server/internal/api/ingest.go), the stream producer
    (server/internal/queue/producer.go) and the read endpoints
    (server/internal/api/read.go). *)
From S2P Require Import Prelude GoStrings GoTime Events Repository.

Open Scope Z_scope.

(** What [json.Decoder.Decode] returns on a body limited by
    [http.MaxBytesReader]. *)
Inductive DecodeResult (A : Type) :=
  | Decoded (a : A)
  | DecodeEOF
  | DecodeTooLarge
  | DecodeError.
Arguments Decoded {A} _.
Arguments DecodeEOF {A}.
Arguments DecodeTooLarge {A}.
Arguments DecodeError {A}.

(** A request: the first value of its body and what follows it. *)
Record Request := {
  req_Method : string;
  req_tenant : string;                         (* r.URL.Query().Get("tenant_id") *)
  req_event : DecodeResult CanonicalEvent;
  req_trailing : DecodeResult unit;
}.

Definition StatusAccepted : Z := 202.
Definition StatusBadRequest : Z := 400.
Definition StatusMethodNotAllowed : Z := 405.
Definition StatusRequestEntityTooLarge : Z := 413.
Definition StatusInternalServerError : Z := 500.

(** ** The producer *)

(** An XADD: what the client returned, and how often the server executed it
    without the client having seen the reply (the connection broke or timed out;
    the client may have sent the command again). *)
Record XAdd := { xa_err : option error; xa_lost : nat }.

Definition xaddDone : XAdd := {| xa_err := None; xa_lost := 0 |}.

(** The entries it added. *)
Definition xaddEntries (x : XAdd) (data : string) : list string :=
  replicate (match xa_err x with None => S (xa_lost x) | Some _ => xa_lost x end) data.

(** The stream holds the payload of each entry. *)
Definition Publish (Serialize : CanonicalEvent -> result string) (name : string) (xadd : XAdd)
    (stream : list string) (ev : CanonicalEvent) : list string * option error :=
  match Serialize ev with
  | Err err => (stream, Some (ErrWrap ("failed to serialize event: " ^^ error_Error err) [err]))
  | Ok data =>
      (stream ++ xaddEntries xadd data,
       match xa_err xadd with
       | Some err => Some (ErrWrap ("failed to publish to valkey stream " ^^ name ^^ ": " ^^ error_Error err) [err])
       | None => None
       end)
  end.

(** ** The ingest handler *)

Section Ingest.
Context (uuid_Parse : string -> option error) (Serialize : CanonicalEvent -> result string).

(** The status, and the stream after the request. *)
Definition ServeHTTP (now : Time) (xadd : XAdd) (stream : list string) (r : Request) : list string * Z :=
  if negb (req_Method r =s "POST") then (stream, StatusMethodNotAllowed)
  else if req_tenant r =s "" then (stream, StatusBadRequest)
  else match req_event r with
  | DecodeTooLarge => (stream, StatusRequestEntityTooLarge)
  | DecodeEOF | DecodeError => (stream, StatusBadRequest)
  | Decoded ev =>
      match req_trailing r with
      | DecodeTooLarge => (stream, StatusRequestEntityTooLarge)
      | Decoded _ | DecodeError => (stream, StatusBadRequest)
      | DecodeEOF =>
          if negb (TenantID ev =s req_tenant r) then (stream, StatusBadRequest)
          else
            let ev := setReceivedAt now ev in
            match Event_Validate uuid_Parse ev with
            | Some _ => (stream, StatusBadRequest)
            | None =>
                match Publish Serialize "ot_events_stream" xadd stream ev with
                | (stream, Some _) => (stream, StatusInternalServerError)
                | (stream, None) => (stream, StatusAccepted)
                end
            end
      end
  end.
End Ingest.

(** ** The read endpoints *)

Definition badTenant (t : string) : bool := (t =s "") || (128 <? go_len t) || negb (idPattern t).

Record EventView := {
  ev_event_id : string; ev_tenant_id : string; ev_site_id : string; ev_occurred_at : Time;
  ev_severity : string; ev_source : string; ev_category : string; ev_seq_no : Z;
}.

Definition viewOf (ev : CanonicalEvent) : EventView := {|
  ev_event_id := EventID ev; ev_tenant_id := TenantID ev; ev_site_id := SiteID ev;
  ev_occurred_at := OccurredAt ev; ev_severity := Severity ev; ev_source := Source ev;
  ev_category := Category ev; ev_seq_no := SeqNo ev |}.

Inductive ReadReply (A : Type) := Rows (l : list A) | Status (code : Z).
Arguments Rows {A} _.
Arguments Status {A} _.

Definition newerEvent (a b : CanonicalEvent) : Prop := OccurredAt b <= OccurredAt a.
#[export] Instance newerEvent_dec a b : Decision (newerEvent a b).
Proof. unfold newerEvent. apply _. Defined.
Definition newerAlert (a b : AlertRow) : Prop := al_created_at b <= al_created_at a.
#[export] Instance newerAlert_dec a b : Decision (newerAlert a b).
Proof. unfold newerAlert. apply _. Defined.

(** [WHERE tenant_id = $1 ORDER BY ... DESC LIMIT 50]; ties come in the order
    of the sort. *)
Definition selectEvents (tenant : string) (pg : PG) : list CanonicalEvent :=
  take 50 (merge_sort newerEvent (filter (fun e => TenantID e = tenant) (map_to_list (pg_events pg)).*2)).
Definition selectAlerts (tenant : string) (pg : PG) : list AlertRow :=
  take 50 (merge_sort newerAlert (filter (fun a => al_tenant_id a = tenant) (map_to_list (pg_alerts pg)).*2)).

(** [queryErr] is any failure of the query, a scan or the iteration. *)
Definition ServeEvents (method tenant : string) (queryErr : option error) (pg : PG) : ReadReply EventView :=
  if negb (method =s "GET") then Status StatusMethodNotAllowed
  else if badTenant tenant then Status StatusBadRequest
  else match queryErr with
  | Some _ => Status StatusInternalServerError
  | None => Rows (map viewOf (selectEvents tenant pg))
  end.

Definition ServeAlerts (method tenant : string) (queryErr : option error) (pg : PG) : ReadReply AlertRow :=
  if negb (method =s "GET") then Status StatusMethodNotAllowed
  else if badTenant tenant then Status StatusBadRequest
  else match queryErr with
  | Some _ => Status StatusInternalServerError
  | None => Rows (selectAlerts tenant pg)
  end.

(** ** Lemmas *)

#[export] Instance newerEvent_total : Total newerEvent.
Proof. intros a b. unfold newerEvent. lia. Qed.
#[export] Instance newerEvent_trans : Transitive newerEvent.
Proof. intros a b c. unfold newerEvent. lia. Qed.

Lemma selectEvents_spec tenant pg :
  (length (selectEvents tenant pg) <= 50)%nat /\
  StronglySorted newerEvent (selectEvents tenant pg) /\
  (forall e, e ∈ selectEvents tenant pg -> TenantID e = tenant /\ exists k, pg_events pg !! k = Some e) /\
  (forall k e, pg_events pg !! k = Some e -> TenantID e = tenant ->
     e ∈ selectEvents tenant pg \/
     (length (selectEvents tenant pg) = 50%nat /\ forall x, x ∈ selectEvents tenant pg -> newerEvent x e)).
Proof.
  unfold selectEvents. set (rows := filter _ _). set (l := merge_sort newerEvent rows).
  assert (StronglySorted newerEvent l) as Hs by apply (StronglySorted_merge_sort newerEvent).
  assert (l ≡ₚ rows) as Hp by apply merge_sort_Permutation.
  rewrite <- (take_drop 50 l) in Hs. apply StronglySorted_app in Hs as (Hle & Hs & _).
  assert (forall e, e ∈ rows <-> TenantID e = tenant /\ exists k, pg_events pg !! k = Some e) as Hrows.
  { intros e. unfold rows. rewrite list_elem_of_filter, list_elem_of_fmap. split.
    - intros [? ([k x] & -> & Hin)]. split; [done|]. exists k. by apply elem_of_map_to_list.
    - intros [? [k Hk]]. split; [done|]. exists (k, e). split; [done|]. by apply elem_of_map_to_list. }
  split_and!; [rewrite length_take; lia|done| |].
  - intros e He. apply Hrows. rewrite <- Hp, <- (take_drop 50 l). apply elem_of_app. by left.
  - intros k e Hk He. assert (e ∈ l) as Hin by (rewrite Hp; apply Hrows; eauto).
    rewrite <- (take_drop 50 l) in Hin. apply elem_of_app in Hin as [?|Hd]; [by left|right].
    split; [|intros x Hx; by apply Hle]. rewrite length_take.
    assert (length (drop 50 l) <> 0%nat) by (intros H0%nil_length_inv; rewrite H0 in Hd; by apply elem_of_nil in Hd).
    rewrite length_drop in *. lia.
Qed.

(** ** Properties *)

(** 202 means queued.  The handler answers 202 exactly when the method is POST,
    the body was decoded to a single event for the tenant of the query, the
    event (stamped with the reception time) passes validation and the client
    reported its serialisation as added.  Nothing but that serialisation is
    ever added, and without a 202 only when an executed XADD was reported as
    failed, which is answered 500. *)
Theorem accepted_iff_queued uuid_Parse Serialize now xadd stream r :
  let '(stream', code) := ServeHTTP uuid_Parse Serialize now xadd stream r in
  (code = StatusAccepted <->
     req_Method r = "POST"%string /\ req_tenant r <> ""%string /\ req_trailing r = DecodeEOF /\ xa_err xadd = None /\
     exists ev data, req_event r = Decoded ev /\ TenantID ev = req_tenant r /\
       Event_Validate uuid_Parse (setReceivedAt now ev) = None /\
       Serialize (setReceivedAt now ev) = Ok data) /\
  (code = StatusAccepted -> exists ev data, req_event r = Decoded ev /\
     Serialize (setReceivedAt now ev) = Ok data /\ stream' = stream ++ xaddEntries xadd data) /\
  (code <> StatusAccepted -> stream' = stream \/
     code = StatusInternalServerError /\ xa_err xadd <> None /\ xa_lost xadd <> 0%nat /\
     req_Method r = "POST"%string /\ req_trailing r = DecodeEOF /\ exists ev data, req_event r = Decoded ev /\
       TenantID ev = req_tenant r /\ Event_Validate uuid_Parse (setReceivedAt now ev) = None /\
       Serialize (setReceivedAt now ev) = Ok data /\ stream' = stream ++ replicate (xa_lost xadd) data).
Proof.
  unfold ServeHTTP.
  destruct (String.eqb_spec (req_Method r) "POST"); cbn [negb]; [|split_and!; [|done|by left]; split; [done|by intros (? & _)]].
  destruct (String.eqb_spec (req_tenant r) ""); [split_and!; [|done|by left]; split; [done|by intros (_ & ? & _)]|].
  destruct (req_event r) as [ev| | |];
    try (split_and!; [|done|by left]; split; [done|by intros (_ & _ & _ & _ & ? & ? & ? & _)]).
  destruct (req_trailing r);
    try (split_and!; [|done|by left]; split; [done|by intros (_ & _ & ? & _)]).
  destruct (String.eqb_spec (TenantID ev) (req_tenant r)); cbn [negb];
    [|split_and!; [|done|by left]; split; [done|by intros (_ & _ & _ & _ & ? & ? & [= <-] & ? & _)]].
  destruct (Event_Validate uuid_Parse (setReceivedAt now ev)) eqn:Hv.
  { split_and!; [|done|by left]. split; [done|]. intros (_ & _ & _ & _ & ? & ? & [= <-] & _ & ? & _). congruence. }
  unfold Publish. destruct (Serialize (setReceivedAt now ev)) as [data|err] eqn:Hs.
  2:{ split_and!; [|done|by left]. split; [done|]. intros (_ & _ & _ & _ & ? & ? & [= <-] & _ & _ & ?). congruence. }
  destruct xadd as [[err|] lost]; cbn.
  { split_and!; [by split; [|intros (_ & _ & _ & ? & _)]|done|]. intros _.
    destruct lost as [|lost]; [left; by rewrite app_nil_r|right]. split_and!; try done. by exists ev, data. }
  split_and!; [|intros _; by exists ev, data|done]. split; [|done]. intros _. split_and!; try done.
  by exists ev, data.
Qed.

(** A tenant reads its own newest events.  For a GET with a valid tenant
    and a working database, [ServeEvents] returns at most 50 views, newest
    first, all of events stored for that tenant; an event of the tenant that is
    missing is older than, or as old as, each of 50 returned ones. *)
Theorem read_tenant_isolated tenant pg rows :
  ServeEvents "GET" tenant None pg = Rows rows ->
  badTenant tenant = false /\
  exists evs, rows = map viewOf evs /\ (length evs <= 50)%nat /\ StronglySorted newerEvent evs /\
    (forall e, e ∈ evs -> TenantID e = tenant /\ exists k, pg_events pg !! k = Some e) /\
    (forall k e, pg_events pg !! k = Some e -> TenantID e = tenant ->
       e ∈ evs \/ (length evs = 50%nat /\ forall x, x ∈ evs -> newerEvent x e)).
Proof.
  unfold ServeEvents. cbn. destruct (badTenant tenant); [done|]. intros [= <-]. split; [done|].
  exists (selectEvents tenant pg). destruct (selectEvents_spec tenant pg) as (? & ? & ? & ?). by split_and!.
Qed.

Lemma read_tenant_isolated_witness :
  exists evs, map viewOf (selectEvents "tenant-1" (PersistEvent calmEnv emptyPG (sampleEvent "e1" "INFO")).1)
    = map viewOf evs /\ (length evs <= 50)%nat.
Proof.
  destruct (read_tenant_isolated "tenant-1" (PersistEvent calmEnv emptyPG (sampleEvent "e1" "INFO")).1
    (map viewOf (selectEvents "tenant-1" (PersistEvent calmEnv emptyPG (sampleEvent "e1" "INFO")).1))
    ltac:(vm_compute; reflexivity)) as (_ & evs & He & Hl & _).
  exists evs. split; [exact He|exact Hl].
Defined.
