(* ===== verification/IngestBody.v ===== *)
(** The body of an ingest request (server/internal/api/ingest.go): what the two
    calls of [json.Decoder.Decode] return on the bytes behind
    [http.MaxBytesReader]. *)
From Stdlib Require Import Strings.Byte Strings.Ascii.
From S2P Require Import Prelude GoStrings GoText GoFloat GoNumber GoJson GoStruct GoTime Events RetryTime EventJson Repository IngestApi.

Local Open Scope string_scope.
Local Open Scope list_scope.
Open Scope Z_scope.

Definition maxIngestBodyBytes : Z := 2 ^ 20.

(** ** The decoder *)

Definition dropSign (signs : list Ascii.ascii) (s : string) : string :=
  match s with String a s' => if existsb (Ascii.eqb a) signs then s' else s | EmptyString => s end.

(** What follows the number that the text begins with.  The decoder takes the
    longest one: nothing of [1-2] after the [1] is a part of it. *)
Definition afterNumber (s : string) : option string :=
  let! s := match dropSign ["-"%char] s with
            | String "0" s => Some s
            | s => snd <$> digits1 s
            end in
  let! s := match s with String "." s => snd <$> digits1 s | _ => Some s end in
  match s with
  | String e s' => if isE e then snd <$> digits1 (dropSign ["-"; "+"]%char s') else Some s
  | EmptyString => Some s
  end.

Definition numberHead (b : byte) : bool := (b =b x2d) || ((48 <=? bz b) && (bz b <=? 57)).

(** [Decode] into the event: the result, and the bytes left.  A number is no
    event. *)
Definition decodeEvent (l : list byte) : DecodeResult CanonicalEvent * list byte :=
  match skipSpace l with
  | [] => (DecodeEOF, [])
  | c :: _ =>
      if numberHead c then (DecodeError, [])
      else match pValue (2 * length l + 2) maxNestingDepth l with
           | Some (v, rest) =>
               match structValue emptyEvent decodeFields v with Some ev => (Decoded ev, rest) | None => (DecodeError, rest) end
           | None => (DecodeError, [])
           end
  end.

(** [Decode] into an [interface{}]. *)
Definition decodeTrailing (l : list byte) : DecodeResult unit :=
  match skipSpace l with
  | [] => DecodeEOF
  | c :: r =>
      let value := if numberHead c
                   then let s := string_of (c :: r) in
                        let! rest := afterNumber s in
                        VFloat <$> ParseFloat (prefixString (String.length s - String.length rest) s)
                   else let! r := pValue (2 * length l + 2) maxNestingDepth l in decodeMeta r.1 in
      match value with Some _ => Decoded tt | None => DecodeError end
  end.

(** What the handler reads of a body.  A body over the limit is cut, and then its
    end is never seen: how much of it is read before the error of the reader
    reaches the decoder is left open. *)
Inductive reads (body : string) : DecodeResult CanonicalEvent -> DecodeResult unit -> Prop :=
  | reads_whole : go_len body <= maxIngestBodyBytes ->
      reads body (decodeEvent (bytes_of body)).1 (decodeTrailing (decodeEvent (bytes_of body)).2)
  | reads_cut ev trailing : maxIngestBodyBytes < go_len body -> trailing <> DecodeEOF -> reads body ev trailing.

(** ** Lemmas *)
Lemma number_value fuel depth c r v rest l :
  numberHead c = true -> skipSpace l = c :: r -> pValue fuel depth l = Some (v, rest) -> exists lit, v = JNum lit.
Proof.
  intros Hc Hl H. destruct fuel as [|fuel]; [done|]. cbn [pValue] in H. rewrite Hl in H.
  assert (forall b, In b [x22; x5b; x7b; x6e; x74; x66] -> (c =b b) = false) as Hno.
  { intros b Hb. destruct (c =b b) eqn:E; [|done]. apply Byte.byte_dec_bl in E as ->.
    cbn [In] in Hb. repeat destruct Hb as [<-|Hb]; done. }
  rewrite !Hno in H by (cbn; tauto). unfold scanNum in H. destruct (spanNum (c :: r)) as [lit y].
  destruct (scanNumber (string_of lit)); [|done]. injection H as <- <-. by eexists.
Qed.

(** The two calls find one event and the end exactly when the whole text is the
    JSON of that event. *)
Lemma decoder_single decodeError body ev :
  ((decodeEvent (bytes_of body)).1 = Decoded ev /\ decodeTrailing (decodeEvent (bytes_of body)).2 = DecodeEOF) <->
  Event_Deserialize decodeError body = Ok ev.
Proof.
  unfold Event_Deserialize. rewrite structRead_ok. unfold jsonParse, decodeEvent. set (l := bytes_of body).
  destruct (skipSpace l) as [|c r] eqn:Hl.
  { split; [by intros [? _]|]. intros (v & Hv & _).
    assert (pValue (2 * length l + 2) maxNestingDepth l = None) as Hn by (rewrite Nat.add_comm; cbn [Nat.add pValue]; by rewrite Hl).
    by rewrite Hn in Hv. }
  destruct (pValue (2 * length l + 2) maxNestingDepth l) as [[v rest]|] eqn:Hp.
  2:{ destruct (numberHead c); (split; [by intros [? _]|by intros (? & ? & _)]). }
  destruct (numberHead c) eqn:Hc.
  { destruct (number_value _ _ _ _ _ _ _ Hc Hl Hp) as [lit ->]. split; [by intros [? _]|].
    intros (v & Hv & Hs). destruct (skipSpace rest); [by injection Hv as <-|done]. }
  assert (decodeTrailing rest = DecodeEOF <-> skipSpace rest = []) as Ht.
  { unfold decodeTrailing. destruct (skipSpace rest) as [|d r']; [done|]. split; [|done]. by destruct (if numberHead d then _ else _). }
  split.
  - destruct (structValue emptyEvent decodeFields v) as [ev'|] eqn:Hv; cbn [fst snd]; [|by intros [? _]].
    rewrite Ht. intros [[= ->] ->]. by exists v.
  - intros (v' & Hv' & Hs). destruct (skipSpace rest) eqn:Hr; [|done]. injection Hv' as ->. rewrite Hs. cbn [fst snd].
    by rewrite Ht.
Qed.

Lemma reads_single decodeError body r trailing ev :
  reads body r trailing ->
  ((r = Decoded ev /\ trailing = DecodeEOF) -> go_len body <= maxIngestBodyBytes /\ Event_Deserialize decodeError body = Ok ev) /\
  (go_len body <= maxIngestBodyBytes -> Event_Deserialize decodeError body = Ok ev -> r = Decoded ev /\ trailing = DecodeEOF).
Proof.
  intros [Hlen|? t Hlen Ht].
  - split; [intros H; split; [done|]|intros _ H]; by apply (decoder_single decodeError).
  - split; [by intros [_ ->]|lia].
Qed.

Lemma received_settled now ev : settledEvent ev -> settledEvent (setReceivedAt now ev).
Proof. by intros []. Qed.

Definition bodyRequest (method tenant : string) (ev : DecodeResult CanonicalEvent) (trailing : DecodeResult unit) : Request :=
  {| req_Method := method; req_tenant := tenant; req_event := ev; req_trailing := trailing |}.

(** ** Property *)

(** C37: 202 means queued, and only 202.  Whatever bytes are posted and however much
    of an oversized body is read, the handler answers 202 exactly when the method
    is POST, the body is within the limit and, as a whole, the JSON text of one
    event for the tenant of the query, the event stamped with the reception time
    passes validation and can be encoded, and the queue's client reported it as
    added.  What is then added is the encoding, in which a consumer finds the
    stamped event again: once, and once more for each execution of the XADD whose
    reply the client lost.  With any status but 202 and 500 the stream is
    unchanged, and with a 500 too unless the XADD that failed was executed: then
    the entries are those of a valid event that a repetition of the request would
    be accepted with. *)
Theorem body_accepted_iff_queued uuid_Parse zone decodeError now xadd stream method tenant body r trailing
    (Hzone : forall t, wholeMinutes (zone t)) (Hreads : reads body r trailing) :
  let '(stream', code) :=
    ServeHTTP uuid_Parse (Event_Serialize zone) now xadd stream (bodyRequest method tenant r trailing) in
  (code = StatusAccepted <->
     method = "POST" /\ tenant <> "" /\ go_len body <= maxIngestBodyBytes /\ xa_err xadd = None /\
     exists ev data, Event_Deserialize decodeError body = Ok ev /\ TenantID ev = tenant /\
       Event_Validate uuid_Parse (setReceivedAt now ev) = None /\ Event_Serialize zone (setReceivedAt now ev) = Ok data) /\
  (code = StatusAccepted -> exists ev data,
     Event_Deserialize decodeError body = Ok ev /\ stream' = stream ++ xaddEntries xadd data /\
     Event_Deserialize decodeError data = Ok (dropEmptyMetadata (setReceivedAt now ev))) /\
  (code <> StatusAccepted -> stream' = stream \/
     code = StatusInternalServerError /\ xa_err xadd <> None /\ xa_lost xadd <> 0%nat /\ method = "POST" /\
     go_len body <= maxIngestBodyBytes /\ exists ev data,
       Event_Deserialize decodeError body = Ok ev /\ TenantID ev = tenant /\
       Event_Validate uuid_Parse (setReceivedAt now ev) = None /\
       stream' = stream ++ replicate (xa_lost xadd) data /\
       Event_Deserialize decodeError data = Ok (dropEmptyMetadata (setReceivedAt now ev))).
Proof.
  pose proof (accepted_iff_queued uuid_Parse (Event_Serialize zone) now xadd stream (bodyRequest method tenant r trailing)) as H.
  pose proof (fun ev => reads_single decodeError body r trailing ev Hreads) as Hs.
  destruct (ServeHTTP _ _ _ _ _ _) as [stream' code]. cbn [bodyRequest req_Method req_tenant req_event req_trailing] in H.
  assert (forall ev data, Event_Deserialize decodeError body = Ok ev -> Event_Serialize zone (setReceivedAt now ev) = Ok data ->
    Event_Deserialize decodeError data = Ok (dropEmptyMetadata (setReceivedAt now ev))) as Hback.
  { intros ev data Hd Hser. pose proof (received_settled now _ (deserialized_settled _ _ _ Hd)) as Hse.
    rewrite <- settled_decoded by done. by apply (serialized_decodes zone Hzone); [apply settled_fitsEvent|]. }
  destruct H as (Hiff & Hok & Hno). split_and!; [split| |].
  - intros (Hm & Ht & Htr & Hx & ev & data & Hr & Hrest)%Hiff. destruct (proj1 (Hs ev) (conj Hr Htr)) as [Hlen Hd].
    split_and!; try done. by exists ev, data.
  - intros (Hm & Ht & Hlen & Hx & ev & data & Hd & Hrest). destruct (proj2 (Hs ev) Hlen Hd) as [Hr Htr].
    apply Hiff. split_and!; try done. by exists ev, data.
  - intros Hc. pose proof (proj1 Hiff Hc) as (_ & _ & Htr & _). destruct (Hok Hc) as (ev & data & Hr & Hser & ->).
    destruct (proj1 (Hs ev) (conj Hr Htr)) as [_ Hd]. exists ev, data. by split_and!; [done..|apply Hback].
  - intros [?|(Hc & Hx & Hl & Hm & Htr & ev & data & Hr & Ht & Hv & Hser & ->)]%Hno; [by left|right].
    destruct (proj1 (Hs ev) (conj Hr Htr)) as [Hlen Hd]. split_and!; try done. exists ev, data. by split_and!; [done..|apply Hback].
Qed.

(** ** Examples and witness *)

Definition postedText : string := apostrophes (
  "{'event_id': 'e1', 'tenant_id': 'tenant-1', 'site_id': 'site-1', 'occurred_at': '2023-11-14T22:13:20.5+05:30'," ^^
  " 'seq_no': 7, 'source': 'agent', 'category': 'network', 'severity': 'INFO', 'metadata': {'bytes': 12, 'tags': ['a', null]}," ^^
  " 'schema_version': '1.0.0', 'unknown': [1]} ").

(** A second value, a cut-off value and a number after the event. *)
Example trailing_ex :
  map (fun rest => decodeTrailing (bytes_of rest)) [" "; "{}"; "{"; "1-2"; "01"; "-"; "1e999"]
  = [DecodeEOF; Decoded tt; DecodeError; Decoded tt; Decoded tt; DecodeError; DecodeError].
Proof. vm_compute. reflexivity. Qed.

Lemma body_accepted_iff_queued_witness :
  let '(stream', code) := ServeHTTP (fun _ => None) (Event_Serialize utc) 9 {| xa_err := None; xa_lost := 1 |} []
    (bodyRequest "POST" "tenant-1" (decodeEvent (bytes_of postedText)).1 (decodeTrailing (decodeEvent (bytes_of postedText)).2)) in
  code = StatusAccepted /\ length stream' = 2%nat /\
  exists ev, Event_Deserialize ErrNew postedText = Ok ev /\ SeqNo ev = 7.
Proof.
  pose proof (body_accepted_iff_queued (fun _ => None) utc ErrNew 9 {| xa_err := None; xa_lost := 1 |} [] "POST" "tenant-1" postedText _ _ utc_minutes
    (reads_whole postedText ltac:(vm_compute; discriminate))) as H.
  destruct (ServeHTTP _ _ _ _ _ _) as [stream' code] eqn:E. destruct H as ((_ & Hacc) & Hq & _).
  assert (code = StatusAccepted) as Hc.
  { apply Hacc. split; [reflexivity|]. split; [discriminate|]. split; [vm_compute; discriminate|]. split; [reflexivity|].
    eexists _, _. split; [vm_compute; reflexivity|]. split; [reflexivity|]. split; [vm_compute; reflexivity|vm_compute; reflexivity]. }
  split; [exact Hc|]. destruct (Hq Hc) as (ev & data & Hd & -> & _). split; [reflexivity|]. exists ev. split; [exact Hd|].
  vm_compute in Hd. injection Hd as <-. reflexivity.
Defined.
