(* ===== verification/Worker.v ===== *)
(** The stream consumer of the worker (server/internal/queue/consumer.go):
    decoding, validation, persistence, acknowledgement and the dead-letter
    stream, and the recovery of pending messages.

    The consumer talks to the queue by commands; a run is the PostgreSQL
    database together with the log of the commands issued and whether each
    succeeded.  What Valkey delivers is an input. *)
From S2P Require Import Prelude GoStrings GoTime Events Repository IngestApi.

Open Scope Z_scope.

(** [msg.Values["payload"]]: a string, or something else printed with [%v]. *)
Inductive PayloadValue := PString (s : string) | POther (printed : string).

Record Message := {
  msg_ID : string;
  msg_payload : PayloadValue;
}.

Record DLQEntry := {
  dq_original_stream : string;
  dq_original_message_id : string;
  dq_original_payload : string;
  dq_failure_reason : string;
  dq_failure_type : string;
  dq_first_failure : Time;
  dq_last_failure : Time;
  dq_retry_count : Z;
}.

Inductive Command := XAddDLQ (entry : DLQEntry) | XAck (id : string).

(** Each command with the reply: [true] when it did not fail. *)
Record WorkerState := {
  w_pg : PG;
  w_log : list (Command * bool);
}.

Definition issue (c : Command) (ok : bool) (w : WorkerState) : WorkerState :=
  {| w_pg := w_pg w; w_log := w_log w ++ [(c, ok)] |}.

(** The failures and the clock of one message. *)
Record MessageEnv := {
  me_persist : PersistEnv;
  me_dlqErr : option error;
  me_ackErr : option error;
  me_now : Time;
}.

Section Consumer.
Context (uuid_Parse : string -> option error) (Deserialize : string -> result CanonicalEvent) (stream : string).

(** [sendToDLQ] and, when it succeeded, the acknowledgement. *)
Definition deadLetter (env : MessageEnv) (w : WorkerState) (id payload reason fType : string)
    (retryCount : Z) (idle : Duration) : WorkerState :=
  let entry := {| dq_original_stream := stream; dq_original_message_id := id; dq_original_payload := payload;
                  dq_failure_reason := reason; dq_failure_type := fType;
                  dq_first_failure := me_now env - idle; dq_last_failure := me_now env;
                  dq_retry_count := retryCount |} in
  match me_dlqErr env with
  | Some _ => issue (XAddDLQ entry) false w
  | None =>
      issue (XAck id) (match me_ackErr env with None => true | Some _ => false end) (issue (XAddDLQ entry) true w)
  end.

Definition processMessage (env : MessageEnv) (w : WorkerState) (msg : Message) (retryCount : Z) (idle : Duration)
    : WorkerState :=
  match msg_payload msg with
  | POther printed => deadLetter env w (msg_ID msg) printed "payload not a string" "unmarshal" retryCount idle
  | PString dataRaw =>
      match Deserialize dataRaw with
      | Err err => deadLetter env w (msg_ID msg) dataRaw (error_Error err) "unmarshal" retryCount idle
      | Ok ev =>
          match Event_Validate uuid_Parse ev with
          | Some err => deadLetter env w (msg_ID msg) dataRaw (error_Error err) "validation" retryCount idle
          | None =>
              match PersistEvent (me_persist env) (w_pg w) ev with
              | (pg, Err _) => {| w_pg := pg; w_log := w_log w |}
              | (pg, Ok _) =>
                  issue (XAck (msg_ID msg)) (match me_ackErr env with None => true | Some _ => false end)
                    {| w_pg := pg; w_log := w_log w |}
              end
          end
      end
  end.

(** An entry of XPENDING with the replies to the claim and the fetch. *)
Record PendingEntry := {
  pd_ID : string;
  pd_Idle : Duration;
  pd_RetryCount : Z;
  pd_claimErr : option error;
  pd_fetched : result (list Message);
}.

Definition MinIdleTime : Duration := 60 * Second.
Definition RecoveryBatchSize : Z := 100.

Definition recoverEntry (env : MessageEnv) (w : WorkerState) (p : PendingEntry) : WorkerState :=
  if MinIdleTime <? pd_Idle p then
    match pd_claimErr p with
    | Some _ => w
    | None =>
        match pd_fetched p with
        | Ok (msg :: _) => processMessage env w msg (pd_RetryCount p) (pd_Idle p)
        | _ => w
        end
    end
  else w.

Definition recoverPending (w : WorkerState) (pending : result (list (PendingEntry * MessageEnv)))
    : WorkerState * option error :=
  match pending with
  | Err err => (w, Some err)
  | Ok entries => (fold_left (fun w pe => recoverEntry pe.2 w pe.1) entries w, None)
  end.

(** One thing the worker does: a recovery pass or a batch of new messages. *)
Inductive Activity :=
  | Recovery (pending : result (list (PendingEntry * MessageEnv)))
  | NewMessages (batch : list (Message * MessageEnv)).

Definition perform (w : WorkerState) (a : Activity) : WorkerState :=
  match a with
  | Recovery pending => (recoverPending w pending).1
  | NewMessages batch => fold_left (fun w me => processMessage me.2 w me.1 0 0) batch w
  end.

Definition Consumer_run (w : WorkerState) (activities : list Activity) : WorkerState :=
  fold_left perform activities w.

(** ** What an acknowledgement stands for *)

(** The messages an activity may process. *)
Definition delivered (a : Activity) (msg : Message) : Prop :=
  match a with
  | Recovery (Ok entries) => exists p env rest, (p, env) ∈ entries /\ pd_fetched p = Ok (msg :: rest)
  | Recovery (Err _) => False
  | NewMessages batch => exists env, (msg, env) ∈ batch
  end.

(** The event of a message is in the database, under its key. *)
Definition persisted (pg : PG) (msg : Message) : Prop :=
  exists text ev, msg_payload msg = PString text /\ Deserialize text = Ok ev /\
    Event_Validate uuid_Parse ev = None /\ is_Some (pg_events pg !! keyOf ev).

(** The message is in the dead-letter stream, for a reason of its own. *)
Definition deadLettered (log : list (Command * bool)) (msg : Message) : Prop :=
  exists entry, (XAddDLQ entry, true) ∈ log /\ dq_original_message_id entry = msg_ID msg /\
    match msg_payload msg with
    | POther printed => dq_original_payload entry = printed
    | PString text => dq_original_payload entry = text /\
        match Deserialize text with Ok ev => Event_Validate uuid_Parse ev <> None | Err _ => True end
    end.

(** Every acknowledgement in the log is of a message from [seen] that is
    persisted or dead-lettered. *)
Definition ackSound (seen : Message -> Prop) (w : WorkerState) : Prop :=
  forall id ok, (XAck id, ok) ∈ w_log w ->
    exists msg, seen msg /\ msg_ID msg = id /\ (persisted (w_pg w) msg \/ deadLettered (w_log w) msg).

Definition wfWorker (seen : Message -> Prop) (w : WorkerState) : Prop := ackSound seen w /\ wfPG (w_pg w).
End Consumer.

(** ** Lemmas *)

Section ConsumerProofs.
Context (uuid_Parse : string -> option error) (Deserialize : string -> result CanonicalEvent) (stream : string).

Lemma persisted_mono env pg ev msg :
  persisted uuid_Parse Deserialize pg msg ->
  persisted uuid_Parse Deserialize (PersistEvent env pg ev).1 msg.
Proof.
  intros (text & x & ? & ? & ? & [y Hy]). exists text, x. split_and!; try done.
  exists y. by apply persist_mono.
Qed.

Lemma deadLettered_mono log more msg :
  deadLettered uuid_Parse Deserialize log msg -> deadLettered uuid_Parse Deserialize (log ++ more) msg.
Proof. intros (e & ? & ?). exists e. split; [apply elem_of_app; by left|done]. Qed.

(** Adding to the log and growing the tables keeps earlier acknowledgements
    sound. *)
Lemma ackSound_more seen w pg more :
  ackSound uuid_Parse Deserialize seen w ->
  (forall msg, persisted uuid_Parse Deserialize (w_pg w) msg -> persisted uuid_Parse Deserialize pg msg) ->
  (forall id ok, (XAck id, ok) ∈ more -> exists msg, seen msg /\ msg_ID msg = id /\
     (persisted uuid_Parse Deserialize pg msg \/ deadLettered uuid_Parse Deserialize (w_log w ++ more) msg)) ->
  ackSound uuid_Parse Deserialize seen {| w_pg := pg; w_log := w_log w ++ more |}.
Proof.
  intros Hs Hpg Hm id ok. cbn. rewrite elem_of_app. intros [H|H]; [|by eapply Hm].
  destruct (Hs id ok H) as (msg & ? & ? & [?|?]); exists msg; split_and!; auto using deadLettered_mono.
Qed.

Lemma deadLetter_sound seen env w msg payload reason fType rc idle :
  seen msg -> ackSound uuid_Parse Deserialize seen w ->
  match msg_payload msg with
  | POther printed => payload = printed
  | PString text => payload = text /\
      match Deserialize text with Ok ev => Event_Validate uuid_Parse ev <> None | Err _ => True end
  end ->
  ackSound uuid_Parse Deserialize seen (deadLetter stream env w (msg_ID msg) payload reason fType rc idle).
Proof.
  intros Hseen Hs Hp. unfold deadLetter. destruct (me_dlqErr env).
  - unfold issue. apply ackSound_more; [done|done|]. by intros id ok ?%list_elem_of_singleton.
  - unfold issue. cbn [w_pg w_log]. rewrite <- app_assoc. apply ackSound_more; [done|done|].
    intros id ok Hin. cbn [app] in Hin. rewrite !elem_of_cons in Hin.
    destruct Hin as [?|[[= -> ->]|?%elem_of_nil]]; [done| |done].
    exists msg. split_and!; [done|done|right]. eexists. split; [apply elem_of_app; right; left|].
    split; [done|exact Hp].
Qed.

Lemma processMessage_sound seen env w msg rc idle :
  seen msg -> wfWorker uuid_Parse Deserialize seen w ->
  wfWorker uuid_Parse Deserialize seen (processMessage uuid_Parse Deserialize stream env w msg rc idle).
Proof.
  intros Hseen [Hs Hpg]. unfold processMessage.
  assert (forall p r t, wfPG (w_pg (deadLetter stream env w (msg_ID msg) p r t rc idle))) as Hdl.
  { intros. unfold deadLetter. by destruct (me_dlqErr env). }
  destruct (msg_payload msg) as [text|printed] eqn:Hm.
  2:{ split; [|apply Hdl]. apply deadLetter_sound; [done|done|]. by rewrite Hm. }
  destruct (Deserialize text) as [ev|err] eqn:Hd.
  2:{ split; [|apply Hdl]. apply deadLetter_sound; [done|done|]. by rewrite Hm, Hd. }
  destruct (Event_Validate uuid_Parse ev) as [err|] eqn:Hv.
  { split; [|apply Hdl]. apply deadLetter_sound; [done|done|]. rewrite Hm, Hd. split; [done|congruence]. }
  pose proof (persist_wf (me_persist env) (w_pg w) ev Hpg) as Hpg'.
  pose proof (persisted_mono (me_persist env) (w_pg w) ev) as Hmono.
  destruct (persist_cases (me_persist env) (w_pg w) ev) as (pg' & r & Hp & _ & Hok & _).
  rewrite Hp in Hpg', Hmono |- *. cbn [fst] in Hpg', Hmono. destruct r as [b|err].
  - split; [|done]. unfold issue. cbn [w_pg w_log]. apply ackSound_more; [done|by intros ?; apply Hmono|].
    intros id ok [= -> ->]%list_elem_of_singleton. exists msg. split_and!; [done|done|left].
    exists text, ev. split_and!; try done. by eapply Hok.
  - split; [|done]. rewrite <- (app_nil_r (w_log w)). apply ackSound_more; [done|by intros ?; apply Hmono|].
    by intros id ok ?%elem_of_nil.
Qed.

Lemma fold_left_inv {A B} (P : B -> Prop) (f : B -> A -> B) l b :
  P b -> (forall b a, a ∈ l -> P b -> P (f b a)) -> P (fold_left f l b).
Proof.
  revert b. induction l as [|a l IH]; intros b Hb Hf; [done|]. cbn. apply IH.
  - apply Hf; [left|done].
  - intros b' a' Ha'. apply Hf. by right.
Qed.

Lemma perform_sound seen w a :
  (forall msg, delivered a msg -> seen msg) -> wfWorker uuid_Parse Deserialize seen w ->
  wfWorker uuid_Parse Deserialize seen (perform uuid_Parse Deserialize stream w a).
Proof.
  intros Hd Hw. destruct a as [[entries|err]|batch]; cbn [perform recoverPending fst]; [|done|].
  - apply fold_left_inv; [done|]. intros w' [p env] Hin Hw'. cbn [fst snd]. unfold recoverEntry.
    destruct (_ <? _); [|done]. destruct (pd_claimErr p); [done|].
    destruct (pd_fetched p) as [[|msg rest]|] eqn:Hf; [done| |done].
    apply processMessage_sound; [|done]. apply Hd. by exists p, env, rest.
  - apply fold_left_inv; [done|]. intros w' [msg env] Hin Hw'. cbn [fst snd].
    apply processMessage_sound; [|done]. apply Hd. by exists env.
Qed.

Lemma run_sound w activities :
  w_log w = [] -> wfPG (w_pg w) ->
  wfWorker uuid_Parse Deserialize (fun msg => exists a, a ∈ activities /\ delivered a msg)
    (Consumer_run uuid_Parse Deserialize stream w activities).
Proof.
  intros Hl Hpg. unfold Consumer_run. apply fold_left_inv.
  - split; [|done]. intros id ok. rewrite Hl. by intros ?%elem_of_nil.
  - intros w' a Ha Hw'. apply perform_sound; [|done]. intros msg Hm. by exists a.
Qed.
End ConsumerProofs.

(** ** Properties *)

(** The worker acknowledges only what is safe.  In any run, over new
    messages and recovered ones in any order and with any failures, every
    acknowledgement issued is of a delivered message whose event is in the
    database, or which was added to the dead-letter stream because its payload
    is not a string, does not decode or does not validate, with that payload;
    and the database stays consistent. *)
Theorem ack_only_after_durable uuid_Parse Deserialize stream pg activities :
  wfPG pg ->
  let w := Consumer_run uuid_Parse Deserialize stream {| w_pg := pg; w_log := [] |} activities in
  wfPG (w_pg w) /\
  forall id ok, (XAck id, ok) ∈ w_log w ->
    exists msg, (exists a, a ∈ activities /\ delivered a msg) /\ msg_ID msg = id /\
      (persisted uuid_Parse Deserialize (w_pg w) msg \/ deadLettered uuid_Parse Deserialize (w_log w) msg).
Proof.
  intros Hpg w. destruct (run_sound uuid_Parse Deserialize stream {| w_pg := pg; w_log := [] |} activities eq_refl Hpg)
    as [Hs Hpg']. by split.
Qed.

Definition calmMessage : MessageEnv :=
  {| me_persist := calmEnv; me_dlqErr := None; me_ackErr := None; me_now := 0 |}.

Lemma ack_only_after_durable_witness :
  let decode := fun text => if text =s "ok" then Ok (sampleEvent "e1" "INFO") else Err (ErrNew "bad") in
  let activities := [NewMessages [({| msg_ID := "1-0"; msg_payload := PString "ok" |}, calmMessage);
                                  ({| msg_ID := "2-0"; msg_payload := PString "junk" |}, calmMessage)]] in
  let w := Consumer_run (fun _ => None) decode "ot_events_stream" {| w_pg := emptyPG; w_log := [] |} activities in
  length (w_log w) = 3%nat /\
  exists msg, (exists a, a ∈ activities /\ delivered a msg) /\ msg_ID msg = "2-0"%string /\
    (persisted (fun _ => None) decode (w_pg w) msg \/ deadLettered (fun _ => None) decode (w_log w) msg).
Proof.
  intros decode activities w. split; [vm_compute; reflexivity|].
  apply (ack_only_after_durable (fun _ => None) decode "ot_events_stream" emptyPG activities wf_emptyPG) with (ok := true).
  apply list_elem_of_In. vm_compute. right. right. left. reflexivity.
Defined.

(** What the API accepted, the worker can persist.  If a request was
    answered 202, the payload it queued is, for a worker whose codec gives back
    an event with the same validated fields and whose database and queue work,
    neither poison nor retried: the event is stored under its tenant and id and
    the message is acknowledged. *)
Theorem accepted_event_persists uuid_Parse Serialize Deserialize name now stream r stream' env w id rc idle :
  (forall ev data, Serialize ev = Ok data -> exists ev', Deserialize data = Ok ev' /\
     EventID ev' = EventID ev /\ (WellFormedEvent ev -> WellFormedEvent ev') /\ TenantID ev' = TenantID ev) ->
  ServeHTTP uuid_Parse Serialize now xaddDone stream r = (stream', StatusAccepted) ->
  pe_begin (me_persist env) = None -> pe_insertEvent (me_persist env) = None ->
  pe_insertAlert (me_persist env) = None -> pe_commit (me_persist env) = None -> me_ackErr env = None ->
  exists ev data, req_event r = Decoded ev /\ stream' = stream ++ [data] /\
    let w' := processMessage uuid_Parse Deserialize name env w {| msg_ID := id; msg_payload := PString data |} rc idle in
    is_Some (pg_events (w_pg w') !! keyOf ev) /\ w_log w' = w_log w ++ [(XAck id, true)].
Proof.
  intros Hcodec Hserve Hb Hi Ha Hc Hack.
  assert (exists ev data, req_event r = Decoded ev /\ stream' = stream ++ [data] /\
    Serialize (setReceivedAt now ev) = Ok data /\ Event_Validate uuid_Parse (setReceivedAt now ev) = None)
    as (ev & data & Hev & Hst & Hser & Hval).
  { unfold ServeHTTP, Publish in Hserve. repeat (case_match; simplify_eq/=). eexists _, _. by split_and!. }
  exists ev, data. split_and!; try done. cbv zeta. unfold processMessage. cbn [msg_payload msg_ID].
  destruct (Hcodec _ _ Hser) as (ev' & -> & Hid & Hwf & Hten).
  apply Validate_wf in Hval as [Hp Hw].
  assert (Event_Validate uuid_Parse ev' = None) as Hv' by (apply Validate_complete; [by rewrite Hid|auto]).
  rewrite Hv'.
  assert (keyOf ev' = keyOf ev) as Hk by (unfold keyOf; rewrite Hid, Hten; done).
  destruct (persist_works (me_persist env) (w_pg w) ev') as (b & pg & -> & Hin);
    [done..|by eapply tooWide_validated|].
  rewrite Hack. unfold issue. cbn [w_pg w_log]. by rewrite <- Hk.
Qed.

Lemma accepted_event_persists_witness :
  let r := {| req_Method := "POST"; req_tenant := "tenant-1"; req_event := Decoded (sampleEvent "e1" "INFO");
              req_trailing := DecodeEOF |} in
  exists ev data, req_event r = Decoded ev /\ ["e1"%string] = [] ++ [data] /\
    let w' := processMessage (fun _ => None) (fun text => Ok (setReceivedAt 7 (sampleEvent text "INFO"))) "s" calmMessage
                {| w_pg := emptyPG; w_log := [] |} {| msg_ID := "1-0"; msg_payload := PString data |} 0 0 in
    is_Some (pg_events (w_pg w') !! keyOf ev) /\ w_log w' = [] ++ [(XAck "1-0", true)].
Proof.
  intros r.
  apply (accepted_event_persists (fun _ => None)
    (fun ev => if TenantID ev =s "tenant-1" then Ok (EventID ev) else Err (ErrNew "not a sample"))
    (fun text => Ok (setReceivedAt 7 (sampleEvent text "INFO"))) "s" 7 [] r ["e1"%string] calmMessage).
  - intros ev data H. destruct (String.eqb_spec (TenantID ev) "tenant-1") as [He|]; [|done]. injection H as <-.
    eexists. split_and!; [reflexivity|reflexivity| |by rewrite He]. intros _.
    apply (Validate_wf (fun _ => None)). vm_compute. reflexivity.
  - vm_compute. reflexivity.
  - reflexivity.
  - reflexivity.
  - reflexivity.
  - reflexivity.
  - reflexivity.
Defined.
