(* ===== verification/Shutdown.v ===== *)
(** The goroutines of the endpoint agent and the order in which main takes
    them down (agent/cmd/endpoint/main.go): collectors first, then the event
    channel, the ingestion loop, the forwarder and the store.

    A [Label] is one step of one goroutine; [astep] gives the state after it,
    [None] when that goroutine cannot take it.  Sending on a closed channel and
    using a closed store are steps like the others and set [fault].

    A collector sends in a select with its context (lifecycle.go:194,
    network/collector.go:172, and likewise in the others), so that a full
    channel holds it only until the context is done.  What it does between two
    sends ends by itself, unless [canHang] says otherwise: [UsbShutdown] shows
    that the USB collector can on Windows.  [stalls] says for which events the
    store answers only when the context of the call is done. *)
From S2P Require Import Prelude.

Local Open Scope list_scope.

(** What main waits for. *)
Inductive MainPhase :=
  | AwaitSignal | StopCollector (i : nat) | CloseChannel | AwaitIngest | StopForwarder | CloseStorage | Finished.

#[export] Instance MainPhase_eq_dec : EqDecision MainPhase.
Proof. solve_decision. Defined.

Section Shutdown.
Context {Ev : Type} (canHang : nat -> bool) (stalls : Ev -> bool).

(** The goroutine of a collector: at work, in the select of a send, blocked for
    ever, or returned. *)
Inductive Collector := Working | Sending (ev : Ev) | Hung | Returned.

(** The ingestion loop: at the receive, with an event, or returned. *)
Inductive IngestLoop := Receiving | Processing (ev : Ev) | Drained.

Inductive Fault := SendOnClosed | StorageClosed.

Record Agent := {
  ctxDone : bool;                 (* cancel() was called *)
  drainTimer : bool;              (* the 10 s timer is armed *)
  drainDone : bool;               (* drainCancel() was called *)
  collectors : list Collector;
  central : list Ev;              (* centralEvents *)
  centralClosed : bool;
  ingest : IngestLoop;
  forwarding : bool;              (* the forwarder's goroutine *)
  storeOpen : bool;
  phase : MainPhase;
  sentEvents : list Ev;           (* ghost: everything ever put into the channel *)
  processed : list (Ev * bool);   (* the events given to ProcessEvent; was ctx cancelled *)
  fault : option Fault;
}.

Definition centralCap : nat := 200.

(** Main after every component was started. *)
Definition startedAgent (n : nat) : Agent :=
  {| ctxDone := false; drainTimer := false; drainDone := false; collectors := repeat Working n; central := [];
     centralClosed := false; ingest := Receiving; forwarding := true; storeOpen := true; phase := AwaitSignal;
     sentEvents := []; processed := []; fault := None |}.

Definition withPhase (p : MainPhase) (s : Agent) : Agent :=
  {| ctxDone := ctxDone s; drainTimer := drainTimer s; drainDone := drainDone s; collectors := collectors s;
     central := central s; centralClosed := centralClosed s; ingest := ingest s; forwarding := forwarding s;
     storeOpen := storeOpen s; phase := p; sentEvents := sentEvents s; processed := processed s; fault := fault s |}.

Definition withCancel (ctx timer drain : bool) (s : Agent) : Agent :=
  {| ctxDone := ctx; drainTimer := timer; drainDone := drain; collectors := collectors s;
     central := central s; centralClosed := centralClosed s; ingest := ingest s; forwarding := forwarding s;
     storeOpen := storeOpen s; phase := phase s; sentEvents := sentEvents s; processed := processed s; fault := fault s |}.

Definition withChannel (q : list Ev) (closed : bool) (sent : list Ev) (s : Agent) : Agent :=
  {| ctxDone := ctxDone s; drainTimer := drainTimer s; drainDone := drainDone s; collectors := collectors s;
     central := q; centralClosed := closed; ingest := ingest s; forwarding := forwarding s;
     storeOpen := storeOpen s; phase := phase s; sentEvents := sent; processed := processed s; fault := fault s |}.

Definition withIngest (i : IngestLoop) (done : list (Ev * bool)) (s : Agent) : Agent :=
  {| ctxDone := ctxDone s; drainTimer := drainTimer s; drainDone := drainDone s; collectors := collectors s;
     central := central s; centralClosed := centralClosed s; ingest := i; forwarding := forwarding s;
     storeOpen := storeOpen s; phase := phase s; sentEvents := sentEvents s; processed := done; fault := fault s |}.

Definition withServices (cols : list Collector) (fwd store : bool) (s : Agent) : Agent :=
  {| ctxDone := ctxDone s; drainTimer := drainTimer s; drainDone := drainDone s; collectors := cols;
     central := central s; centralClosed := centralClosed s; ingest := ingest s; forwarding := fwd;
     storeOpen := store; phase := phase s; sentEvents := sentEvents s; processed := processed s; fault := fault s |}.

Definition withFault (f : Fault) (s : Agent) : Agent :=
  {| ctxDone := ctxDone s; drainTimer := drainTimer s; drainDone := drainDone s; collectors := collectors s;
     central := central s; centralClosed := centralClosed s; ingest := ingest s; forwarding := forwarding s;
     storeOpen := storeOpen s; phase := phase s; sentEvents := sentEvents s; processed := processed s;
     fault := Some f |}.

Definition useStore (s : Agent) : Agent := if storeOpen s then s else withFault StorageClosed s.

Definition setCollector (i : nat) (c : Collector) (s : Agent) : Agent :=
  withServices (<[i := c]> (collectors s)) (forwarding s) (storeOpen s) s.

(** Main, from the wait for the signal to the return: each [Stop] waits for the
    goroutine of that component. *)
Definition mainStep (s : Agent) : option Agent :=
  match phase s with
  | AwaitSignal => if ctxDone s then Some (withPhase (StopCollector 0) s) else None
  | StopCollector i =>
      match collectors s !! i with
      | Some Returned => Some (withPhase (StopCollector (S i)) s)
      | Some _ => None
      | None => Some (withPhase CloseChannel s)
      end
  | CloseChannel => Some (withPhase AwaitIngest (withChannel (central s) true (sentEvents s) s))
  | AwaitIngest => match ingest s with Drained => Some (withPhase StopForwarder s) | _ => None end
  | StopForwarder => if forwarding s then None else Some (withPhase CloseStorage s)
  | CloseStorage => Some (withPhase Finished (withServices (collectors s) (forwarding s) false s))
  | Finished => None
  end.

Inductive Label :=
  | Signal                           (* SIGINT or SIGTERM: cancel(), and the drain timer *)
  | DrainTimeout                     (* ten seconds later: drainCancel() *)
  | Emit (i : nat) (ev : Ev)         (* collector i has an event to send *)
  | Send (i : nat)                   (* the channel takes it *)
  | Abandon (i : nat)                (* the context is done: it is given up *)
  | CollectorExit (i : nat)          (* the goroutine returns *)
  | Hang (i : nat)                   (* it blocks for ever *)
  | Receive | Process | IngestExit   (* the ingestion loop *)
  | ForwardRound | ForwarderExit     (* the forwarder *)
  | MainStep.

Definition astep (l : Label) (s : Agent) : option Agent :=
  match l with
  | Signal => if ctxDone s then None else Some (withCancel true true (drainDone s) s)
  | DrainTimeout => if drainTimer s then Some (withCancel (ctxDone s) false true s) else None
  | Emit i ev =>
      match collectors s !! i with Some Working => Some (setCollector i (Sending ev) s) | _ => None end
  | Send i =>
      match collectors s !! i with
      | Some (Sending ev) =>
          if centralClosed s then Some (withFault SendOnClosed s)
          else if decide (length (central s) < centralCap)%nat
               then Some (setCollector i Working (withChannel (central s ++ [ev]) false (sentEvents s ++ [ev]) s))
               else None
      | _ => None
      end
  | Abandon i =>
      match collectors s !! i with
      | Some (Sending _) => if ctxDone s then Some (setCollector i Working s) else None
      | _ => None
      end
  | CollectorExit i =>
      match collectors s !! i with Some Working => Some (setCollector i Returned s) | _ => None end
  | Hang i =>
      match collectors s !! i with
      | Some Working => if canHang i && ctxDone s then Some (setCollector i Hung s) else None
      | _ => None
      end
  | Receive =>
      match ingest s, central s with
      | Receiving, ev :: q => Some (withIngest (Processing ev) (processed s) (withChannel q (centralClosed s) (sentEvents s) s))
      | _, _ => None
      end
  | Process =>
      match ingest s with
      | Processing ev =>
          if stalls ev && negb (drainDone s) then None
          else Some (useStore (withIngest Receiving (processed s ++ [(ev, ctxDone s)]) s))
      | _ => None
      end
  | IngestExit =>
      match ingest s, central s with
      | Receiving, [] => if centralClosed s then Some (withIngest Drained (processed s) s) else None
      | _, _ => None
      end
  | ForwardRound => if forwarding s then Some (useStore s) else None
  | ForwarderExit =>
      if forwarding s && ctxDone s then Some (withServices (collectors s) false (storeOpen s) s) else None
  | MainStep => mainStep s
  end.

Fixpoint runAgent (ls : list Label) (s : Agent) : option Agent :=
  match ls with
  | [] => Some s
  | l :: ls => match astep l s with Some s => runAgent ls s | None => None end
  end.

(** ** The invariant *)

(** How far main has come. *)
Definition rank (n : nat) (p : MainPhase) : nat :=
  match p with
  | AwaitSignal => n + 6 | StopCollector i => n - i + 5 | CloseChannel => 4 | AwaitIngest => 3
  | StopForwarder => 2 | CloseStorage => 1 | Finished => 0
  end.

Definition inHand (i : IngestLoop) : list Ev := match i with Processing ev => [ev] | _ => [] end.

Record agent_ok (n : nat) (s : Agent) : Prop := {
  ok_count : length (collectors s) = n;
  ok_phase : phase s <> AwaitSignal -> ctxDone s = true;
  ok_drain : ctxDone s = true -> drainTimer s = true \/ drainDone s = true;
  ok_index : forall i, phase s = StopCollector i -> (i <= n)%nat /\ forall j, (j < i)%nat -> collectors s !! j = Some Returned;
  ok_collectors : (rank n (phase s) <= 4)%nat -> Forall (fun c => c = Returned) (collectors s);
  ok_closed : centralClosed s = true <-> (rank n (phase s) <= 3)%nat;
  ok_drained : ingest s = Drained -> centralClosed s = true /\ central s = [];
  ok_ingest : (rank n (phase s) <= 2)%nat -> ingest s = Drained;
  ok_forwarder : (rank n (phase s) <= 1)%nat -> forwarding s = false;
  ok_store : storeOpen s = false <-> phase s = Finished;
  ok_sent : sentEvents s = map fst (processed s) ++ inHand (ingest s) ++ central s;
  ok_fault : fault s = None;
}.

Lemma startedAgent_ok n : agent_ok n (startedAgent n).
Proof.
  split; cbn; try done; try lia.
  apply repeat_length.
Qed.

Lemma useStore_ok n s : agent_ok n s -> phase s <> Finished -> useStore s = s.
Proof.
  intros H Hp. unfold useStore. destruct (storeOpen s) eqn:E; [done|]. by apply (ok_store _ _ H) in E.
Qed.

Lemma ok_open n s : agent_ok n s -> (2 <= rank n (phase s))%nat -> storeOpen s = true.
Proof.
  intros H Hr. destruct (storeOpen s) eqn:E; [done|]. apply (ok_store _ _ H) in E. rewrite E in Hr. cbn in Hr. lia.
Qed.

Lemma processing_rank n s ev : agent_ok n s -> ingest s = Processing ev -> (3 <= rank n (phase s))%nat.
Proof.
  intros H Hi. destruct (le_lt_dec (rank n (phase s)) 2) as [Hr|]; [|lia].
  apply (ok_ingest _ _ H) in Hr. congruence.
Qed.

Lemma receiving_rank n s : agent_ok n s -> ingest s = Receiving -> (3 <= rank n (phase s))%nat.
Proof.
  intros H Hi. destruct (le_lt_dec (rank n (phase s)) 2) as [Hr|]; [|lia].
  apply (ok_ingest _ _ H) in Hr. congruence.
Qed.

Lemma forwarding_rank n s : agent_ok n s -> forwarding s = true -> (2 <= rank n (phase s))%nat.
Proof.
  intros H Hi. destruct (le_lt_dec (rank n (phase s)) 1) as [Hr|]; [|lia].
  apply (ok_forwarder _ _ H) in Hr. congruence.
Qed.

(** A collector still running: main has not come past it. *)
Lemma running_rank n s i c : agent_ok n s -> collectors s !! i = Some c -> c <> Returned -> (5 <= rank n (phase s))%nat.
Proof.
  intros H Hi Hne. destruct (le_lt_dec (rank n (phase s)) 4) as [Hr|]; [|lia].
  apply (ok_collectors _ _ H) in Hr. rewrite Forall_lookup in Hr. by apply Hr in Hi.
Qed.

Lemma running_open n s i c : agent_ok n s -> collectors s !! i = Some c -> c <> Returned -> centralClosed s = false.
Proof.
  intros H Hi Hne. pose proof (running_rank _ _ _ _ H Hi Hne). destruct (centralClosed s) eqn:E; [|done].
  apply (ok_closed _ _ H) in E. lia.
Qed.

(** A collector that has not returned moves: main is not past it. *)
Lemma setCollector_ok n s i c c' :
  agent_ok n s -> collectors s !! i = Some c -> c <> Returned -> agent_ok n (setCollector i c' s).
Proof.
  intros H Hi Hne. pose proof (running_rank _ _ _ _ H Hi Hne). destruct H. split; cbn; try done.
  - by rewrite length_insert.
  - intros k Hk. destruct (ok_index0 _ Hk) as (Hle & Hj). split; [done|]. intros j Hlt.
    rewrite list_lookup_insert_ne; [by apply Hj|]. intros ->. rewrite (Hj _ Hlt) in Hi. congruence.
  - intros Hr. lia.
Qed.

(** Only the phase moves; the fields that do not speak of it stay. *)
Lemma withPhase_ok n p s :
  agent_ok n s -> (rank n p <= rank n (phase s))%nat -> ctxDone s = true ->
  (forall i, p = StopCollector i -> (i <= n)%nat /\ forall j, (j < i)%nat -> collectors s !! j = Some Returned) ->
  ((rank n p <= 4)%nat -> Forall (fun c => c = Returned) (collectors s)) ->
  (centralClosed s = true <-> (rank n p <= 3)%nat) ->
  ((rank n p <= 2)%nat -> ingest s = Drained) -> ((rank n p <= 1)%nat -> forwarding s = false) ->
  (storeOpen s = false <-> p = Finished) ->
  agent_ok n (withPhase p s).
Proof. intros [] **. by split. Qed.

Lemma all_stopped n s i :
  agent_ok n s -> phase s = StopCollector i -> collectors s !! i = None -> Forall (fun c => c = Returned) (collectors s).
Proof.
  intros H Hp Hi. apply lookup_ge_None in Hi. destruct (ok_index _ _ H _ Hp) as (_ & Hj).
  apply Forall_lookup. intros j b Hb. pose proof (lookup_lt_Some _ _ _ Hb). rewrite Hj in Hb by lia. congruence.
Qed.

Lemma mainStep_ok n s s' :
  agent_ok n s -> mainStep s = Some s' -> agent_ok n s' /\ (rank n (phase s') < rank n (phase s))%nat.
Proof.
  intros H Hm. pose proof (ok_phase _ _ H) as Hctx. pose proof (ok_closed _ _ H) as Hcl.
  pose proof (ok_store _ _ H) as Hst. pose proof (ok_ingest _ _ H) as Hin. pose proof (ok_collectors _ _ H) as Hco.
  pose proof (ok_forwarder _ _ H) as Hfw.
  unfold mainStep in Hm. destruct (phase s) as [|i| | | | |] eqn:Hp; cbn [rank] in *.
  - destruct (ctxDone s) eqn:Hc; [|done]. injection Hm as <-. split; [|cbn; lia].
    apply withPhase_ok; rewrite ?Hp; cbn; try done; try lia; naive_solver lia.
  - destruct (ok_index _ _ H _ Hp) as (Hle & Hj). pose proof (ok_count _ _ H) as Hn.
    destruct (collectors s !! i) as [[| | |]|] eqn:Hi; [done..| |]; injection Hm as <-.
    + apply lookup_lt_Some in Hi as Hlt. split; [|cbn; lia].
      apply withPhase_ok; rewrite ?Hp; cbn; try done; try lia; [by apply Hctx| |naive_solver lia..].
      intros ? [= <-]. split; [lia|]. intros j Hlj. destruct (decide (j = i)) as [->|]; [done|]. apply Hj. lia.
    + split; [|cbn; lia]. apply withPhase_ok; rewrite ?Hp; cbn; try done; try lia; [by apply Hctx| |naive_solver lia..].
      intros _. by eapply all_stopped.
  - injection Hm as <-. split; [|cbn; lia]. destruct H. split; cbn; try done; try lia; naive_solver lia.
  - destruct (ingest s) eqn:Hi; [done..|]. injection Hm as <-. split; [|cbn; lia].
    apply withPhase_ok; rewrite ?Hp; cbn; try done; try lia; try (by apply Hctx); naive_solver lia.
  - destruct (forwarding s) eqn:Hf; [done|]. injection Hm as <-. split; [|cbn; lia].
    apply withPhase_ok; rewrite ?Hp; cbn; try done; try lia; try (by apply Hctx); naive_solver lia.
  - injection Hm as <-. split; [|cbn; lia]. destruct H. split; cbn; try done; try lia; naive_solver lia.
  - done.
Qed.

Lemma astep_ok n l s s' : agent_ok n s -> astep l s = Some s' -> agent_ok n s'.
Proof.
  intros H Hs. destruct l as [| |i ev|i|i|i|i| | | | | |]; cbn in Hs.
  - destruct (ctxDone s) eqn:Hc; [done|]. injection Hs as <-. destruct H. split; try done. by left.
  - destruct (drainTimer s); [|done]. injection Hs as <-. destruct H. split; try done. by right.
  - destruct (collectors s !! i) as [[]|] eqn:Hi; try done. injection Hs as <-. by eapply setCollector_ok.
  - destruct (collectors s !! i) as [[|ev| |]|] eqn:Hi; try done.
    assert (centralClosed s = false) as Ho by by eapply running_open.
    rewrite Ho in Hs. case_decide; [|done]. injection Hs as <-.
    apply (setCollector_ok n _ _ (Sending ev)); [|done..]. destruct H.
    split; cbn; try done; [by rewrite <- Ho| |by rewrite ok_sent0, <- !app_assoc].
    intros Hd. by apply ok_drained0 in Hd as [? _]; congruence.
  - destruct (collectors s !! i) as [[|ev| |]|] eqn:Hi; try done. destruct (ctxDone s); [|done].
    injection Hs as <-. by eapply setCollector_ok.
  - destruct (collectors s !! i) as [[]|] eqn:Hi; try done. injection Hs as <-. by eapply setCollector_ok.
  - destruct (collectors s !! i) as [[]|] eqn:Hi; try done. destruct (canHang i && ctxDone s); [|done].
    injection Hs as <-. by eapply setCollector_ok.
  - destruct (ingest s) eqn:Hi; [|done..]. destruct (central s) as [|ev q] eqn:Hq; [done|]. injection Hs as <-.
    pose proof (receiving_rank _ _ H Hi). destruct H. split; cbn; try done; [lia|].
    by rewrite ok_sent0, Hi, Hq.
  - destruct (ingest s) as [|ev|] eqn:Hi; [done| |done].
    destruct (stalls ev && negb (drainDone s)); [done|]. injection Hs as <-.
    pose proof (processing_rank _ _ _ H Hi). unfold useStore. cbn. rewrite (ok_open _ _ H) by lia.
    destruct H. split; cbn; try done; [lia|]. by rewrite ok_sent0, Hi, map_app, <- !app_assoc.
  - destruct (ingest s) eqn:Hi; [|done..]. destruct (central s) eqn:Hq; [|done].
    destruct (centralClosed s) eqn:Hc; [|done]. injection Hs as <-. destruct H. split; cbn; try done.
    by rewrite ok_sent0, Hi, Hq.
  - destruct (forwarding s) eqn:Hf; [|done]. injection Hs as <-.
    pose proof (forwarding_rank _ _ H Hf). unfold useStore. by rewrite (ok_open _ _ H) by lia.
  - destruct (forwarding s && ctxDone s) eqn:Hf; [|done]. injection Hs as <-. destruct H. by split.
  - by apply mainStep_ok with (n := n) in Hs as [? _].
Qed.

Lemma runAgent_ok n ls s s' : agent_ok n s -> runAgent ls s = Some s' -> agent_ok n s'.
Proof.
  revert s. induction ls as [|l ls IH]; intros s H Hr; cbn in Hr; [by injection Hr as <-|].
  destruct (astep l s) as [s1|] eqn:E; [|done]. eapply IH; [|exact Hr]. by eapply astep_ok.
Qed.

(** ** Termination *)

(** The steps that are not new work. *)
Definition quiet (l : Label) : bool :=
  match l with Emit _ _ | ForwardRound => false | _ => true end.

(** What a collector still has to do; an event it sends has to be received and
    processed. *)
Definition collectorWork (c : Collector) : nat :=
  match c with Working => 1 | Sending _ => 4 | Hung | Returned => 0 end.

Definition runningWork (cols : list Collector) : nat := list_sum (map collectorWork cols).
Arguments runningWork : simpl never.

Definition measure (s : Agent) : nat :=
  rank (length (collectors s)) (phase s) + runningWork (collectors s) + 2 * length (central s)
  + length (inHand (ingest s)) + (match ingest s with Drained => 0 | _ => 1 end)
  + Nat.b2n (forwarding s) + Nat.b2n (drainTimer s).

Lemma runningWork_insert cols i c c' :
  cols !! i = Some c -> (runningWork (<[i := c']> cols) + collectorWork c = runningWork cols + collectorWork c')%nat.
Proof.
  unfold runningWork. revert i. induction cols as [|b cols IH]; intros [|i] Hi; try done.
  - injection Hi as ->. cbn. lia.
  - change (<[S i:=c']> (b :: cols)) with (b :: <[i:=c']> cols). specialize (IH i Hi). unfold list_sum in *. cbn [map fold_right]. lia.
Qed.

Lemma quiet_decreases n l s s' :
  agent_ok n s -> ctxDone s = true -> quiet l = true -> astep l s = Some s' ->
  ctxDone s' = true /\ (measure s' < measure s)%nat.
Proof.
  intros H Hc Hq Hs. destruct l as [| |i ev|i|i|i|i| | | | | |]; try done; cbn in Hs.
  - by rewrite Hc in Hs.
  - destruct (drainTimer s) eqn:Hd; [|done]. injection Hs as <-. split; [done|]. unfold measure. cbn. rewrite Hd. cbn. lia.
  - destruct (collectors s !! i) as [[|ev| |]|] eqn:Hi; try done.
    assert (centralClosed s = false) as Ho by by eapply running_open. rewrite Ho in Hs.
    case_decide; [|done]. injection Hs as <-. split; [done|].
    apply (runningWork_insert _ _ _ Working) in Hi. unfold measure. cbn in *. rewrite length_insert, length_app. cbn. lia.
  - destruct (collectors s !! i) as [[|ev| |]|] eqn:Hi; try done. rewrite Hc in Hs. injection Hs as <-. split; [done|].
    apply (runningWork_insert _ _ _ Working) in Hi. unfold measure. cbn in *. rewrite length_insert. lia.
  - destruct (collectors s !! i) as [[]|] eqn:Hi; try done. injection Hs as <-. split; [done|].
    apply (runningWork_insert _ _ _ Returned) in Hi. unfold measure. cbn in *. rewrite length_insert. lia.
  - destruct (collectors s !! i) as [[]|] eqn:Hi; try done. destruct (canHang i && ctxDone s); [|done].
    injection Hs as <-. split; [done|].
    apply (runningWork_insert _ _ _ Hung) in Hi. unfold measure. cbn in *. rewrite length_insert. lia.
  - destruct (ingest s) eqn:Hi; [|done..]. destruct (central s) as [|ev q] eqn:Hcq; [done|]. injection Hs as <-.
    split; [done|]. unfold measure. cbn. rewrite Hi, Hcq. cbn. lia.
  - destruct (ingest s) as [|ev|] eqn:Hi; [done| |done].
    destruct (stalls ev && negb (drainDone s)); [done|]. injection Hs as <-.
    pose proof (processing_rank _ _ _ H Hi). unfold useStore. cbn. rewrite (ok_open _ _ H) by lia.
    split; [done|]. unfold measure. cbn. rewrite Hi. cbn. lia.
  - destruct (ingest s) eqn:Hi; [|done..]. destruct (central s) eqn:Hcq; [|done].
    destruct (centralClosed s); [|done]. injection Hs as <-. split; [done|]. unfold measure. cbn. rewrite Hi. cbn. lia.
  - destruct (forwarding s) eqn:Hf; [|done]. rewrite Hc in Hs. injection Hs as <-. split; [done|].
    unfold measure. cbn. rewrite Hf. cbn. lia.
  - destruct (mainStep_ok _ _ _ H Hs) as (H' & Hr). pose proof (ok_count _ _ H) as Hn. pose proof (ok_count _ _ H') as Hn'.
    assert (collectors s' = collectors s /\ central s' = central s /\ ingest s' = ingest s /\ forwarding s' = forwarding s
      /\ drainTimer s' = drainTimer s /\ ctxDone s' = ctxDone s) as (E1 & E2 & E3 & E4 & E5 & E6).
    { revert Hs. unfold mainStep. repeat case_match; intros [= <-]; done. }
    split; [congruence|]. unfold measure. rewrite E1, E2, E3, E4, E5. rewrite Hn. lia.
Qed.

(** ** Collectors that hang *)

Definition isHung (c : Collector) : bool := match c with Hung => true | _ => false end.

Definition noneHung (s : Agent) : Prop := Forall (fun c => isHung c = false) (collectors s).

(** The collectors after a step: only [Hang] hangs one. *)
Lemma astep_collectors l s s' :
  astep l s = Some s' ->
  collectors s' = collectors s \/
  exists i c c', collectors s !! i = Some c /\ isHung c = false /\ collectors s' = <[i := c']> (collectors s) /\
    (isHung c' = true -> canHang i = true).
Proof.
  destruct l as [| |i ev|i|i|i|i| | | | | |]; cbn; unfold mainStep, useStore.
  all: repeat case_match; intros [= <-]; try (by left); right.
  all: eexists i, _, _; split; [eassumption|]; split; [done|]; split; [reflexivity|]; cbn; try done.
  intros _. by destruct (canHang i).
Qed.

Lemma noneHung_step n l s s' :
  (forall i, (i < n)%nat -> canHang i = false) -> agent_ok n s -> noneHung s -> astep l s = Some s' -> noneHung s'.
Proof.
  intros Hh Hok H [E|(i & c & c' & Hi & _ & E & Hc)]%astep_collectors; unfold noneHung; rewrite E; [done|].
  apply Forall_insert; [done|]. apply lookup_lt_Some in Hi. rewrite (ok_count _ _ Hok) in Hi. specialize (Hh i Hi).
  destruct (isHung c'); [|done]. rewrite Hc in Hh by done. congruence.
Qed.

Lemma noneHung_run n ls s s' :
  (forall i, (i < n)%nat -> canHang i = false) -> agent_ok n s -> noneHung s -> runAgent ls s = Some s' -> noneHung s'.
Proof.
  intros Hh. revert s. induction ls as [|l ls IH]; intros s Hok H Hr; cbn in Hr; [by injection Hr as <-|].
  destruct (astep l s) as [s1|] eqn:E; [|done].
  eapply IH; [by eapply astep_ok|by eapply noneHung_step|done].
Qed.

Lemma startedAgent_noneHung n : noneHung (startedAgent n).
Proof. unfold noneHung. cbn. induction n; by constructor. Qed.

(** One that hangs stays so. *)
Lemma hung_run i ls s s' : collectors s !! i = Some Hung -> runAgent ls s = Some s' -> collectors s' !! i = Some Hung.
Proof.
  revert s. induction ls as [|l ls IH]; intros s H Hr; cbn in Hr; [by injection Hr as <-|].
  destruct (astep l s) as [s1|] eqn:E; [|done]. eapply IH; [|exact Hr].
  apply astep_collectors in E as [->|(j & c & c' & Hj & Hn & -> & _)]; [done|].
  rewrite list_lookup_insert_ne; [done|]. intros ->. rewrite H in Hj. by injection Hj as <-.
Qed.

(** Main never comes past it. *)
Lemma hung_never_finished n i s : agent_ok n s -> collectors s !! i = Some Hung -> phase s <> Finished.
Proof. intros H Hi Hp. assert (5 <= rank n (phase s))%nat as Hr by by eapply running_rank. rewrite Hp in Hr. cbn in Hr. lia. Qed.

Lemma repeat_lookup n i : (i < n)%nat -> repeat Working n !! i = Some Working.
Proof. revert i. induction n as [|n IH]; intros [|i] Hi; [lia..|done|]. cbn. apply IH. lia. Qed.

Lemma hang_run n i :
  (i < n)%nat -> canHang i = true ->
  exists s, runAgent [Signal; Hang i] (startedAgent n) = Some s /\ ctxDone s = true /\ collectors s !! i = Some Hung.
Proof.
  intros Hi Hh. cbn. rewrite (repeat_lookup n i Hi), Hh. cbn.
  eexists. split; [reflexivity|]. split; [done|]. cbn. rewrite list_lookup_insert_eq; [done|]. by rewrite repeat_length.
Qed.

(** ** Progress *)

(** A collector that is not blocked for ever and has not returned can move. *)
Lemma collector_progress i c s :
  ctxDone s = true -> collectors s !! i = Some c -> c <> Hung -> c <> Returned ->
  exists l s', quiet l = true /\ astep l s = Some s'.
Proof.
  intros Hc Hi H1 H2. destruct c as [|ev| |]; [| |done..].
  - eexists (CollectorExit i), _. split; [done|]. cbn. by rewrite Hi.
  - eexists (Abandon i), _. split; [done|]. cbn. by rewrite Hi, Hc.
Qed.

(** An event in hand: the store answers, or the drain ends, or it has ended. *)
Lemma processing_progress n ev s :
  agent_ok n s -> ctxDone s = true -> ingest s = Processing ev ->
  exists l s', quiet l = true /\ astep l s = Some s'.
Proof.
  intros H Hc Hi. destruct (stalls ev && negb (drainDone s)) eqn:E.
  - destruct (ok_drain _ _ H Hc) as [Ht|Hd]; [|by rewrite Hd, andb_false_r in E].
    eexists DrainTimeout, _. split; [done|]. cbn. by rewrite Ht.
  - eexists Process, _. split; [done|]. cbn. by rewrite Hi, E.
Qed.

(** Nobody waits for anybody in a circle: until main returns some goroutine can
    take a step that is not new work. *)
Lemma quiet_progress n s :
  agent_ok n s -> noneHung s -> ctxDone s = true -> phase s <> Finished ->
  exists l s', quiet l = true /\ astep l s = Some s'.
Proof.
  intros H Hn Hc Hp. destruct (mainStep s) as [s'|] eqn:Hm; [by exists MainStep, s'|].
  unfold mainStep in Hm. destruct (phase s) as [|i| | | | |] eqn:Hph; try done.
  - by rewrite Hc in Hm.
  - destruct (collectors s !! i) as [c|] eqn:Hi; [|done]. unfold noneHung in Hn. rewrite Forall_lookup in Hn. apply Hn in Hi as Hh.
    eapply collector_progress; [done|exact Hi|by destruct c..].
  - destruct (ingest s) as [|ev|] eqn:Hi; [| |done].
    + destruct (central s) as [|ev q] eqn:Hq.
      * assert (centralClosed s = true) as Hcl by (apply (ok_closed _ _ H); rewrite Hph; cbn; lia).
        eexists IngestExit, _. split; [done|]. cbn. by rewrite Hi, Hq, Hcl.
      * eexists Receive, _. split; [done|]. cbn. by rewrite Hi, Hq.
    + by eapply processing_progress.
  - destruct (forwarding s) eqn:Hf; [|done]. eexists ForwarderExit, _. split; [done|]. cbn. by rewrite Hf, Hc.
Qed.

Lemma shutdown_schedule n m s :
  (forall i, (i < n)%nat -> canHang i = false) -> agent_ok n s -> noneHung s -> ctxDone s = true -> (measure s <= m)%nat ->
  exists ls s', Forall (fun l => quiet l = true) ls /\ (length ls <= m)%nat /\ runAgent ls s = Some s' /\ phase s' = Finished.
Proof.
  intros Hh. revert s. induction m as [|m IH]; intros s H Hn Hc Hm.
  - destruct (decide (phase s = Finished)) as [|Hp]; [by exists [], s|].
    destruct (quiet_progress _ _ H Hn Hc Hp) as (l & s' & Hq & Hs).
    destruct (quiet_decreases _ _ _ _ H Hc Hq Hs). lia.
  - destruct (decide (phase s = Finished)) as [|Hp]; [exists [], s; split_and!; [done|cbn; lia|done|done]|].
    destruct (quiet_progress _ _ H Hn Hc Hp) as (l & s1 & Hq & Hs).
    destruct (quiet_decreases _ _ _ _ H Hc Hq Hs) as (Hc1 & Hm1).
    destruct (IH s1 (astep_ok _ _ _ _ H Hs) (noneHung_step _ _ _ _ Hh H Hn Hs) Hc1 ltac:(lia)) as (ls & s' & Hls & Hlen & Hrun & Hfin).
    exists (l :: ls), s'. split_and!; [by constructor|cbn; lia|cbn; by rewrite Hs|done].
Qed.

(** ** Properties *)


(** C12: The shutdown terminates exactly when no collector can block for ever.
    If none can, then from every state the agent can be in once the signal was
    received, and until main has returned, some goroutine can take a step that
    is not new work (a collector that begins to send an event, a forwarding
    round); each such step lowers [measure], so that at most that many of them
    bring main to its return.  That holds with the channel full and collectors
    in the middle of a send, which they give up, and with a store that answers
    only when the context of the call is done, since the drain timer ends it:
    there is no deadlock between the waits of the five [Stop]s, the ingestion
    loop and the forwarder.  If one of them can, as the Windows USB collector
    does in [UsbShutdown], a run leads to a state from which main never returns,
    whatever the goroutines do.  Taken as given is that what a collector does
    between its sends ends by itself, and a forwarding request with its context. *)
Theorem shutdown_terminates n :
  ((forall i, (i < n)%nat -> canHang i = false) -> forall ls s,
     runAgent ls (startedAgent n) = Some s -> ctxDone s = true ->
     (phase s <> Finished -> exists l s', quiet l = true /\ astep l s = Some s') /\
     (forall l s', quiet l = true -> astep l s = Some s' -> (measure s' < measure s)%nat) /\
     exists rest s', Forall (fun l => quiet l = true) rest /\ (length rest <= measure s)%nat /\
       runAgent rest s = Some s' /\ phase s' = Finished) /\
  (forall i, (i < n)%nat -> canHang i = true -> exists ls s,
     runAgent ls (startedAgent n) = Some s /\ ctxDone s = true /\
     forall rest s', runAgent rest s = Some s' -> phase s' <> Finished).
Proof.
  split.
  - intros Hh ls s Hr Hc. pose proof (runAgent_ok _ _ _ _ (startedAgent_ok n) Hr) as H.
    pose proof (noneHung_run _ _ _ _ Hh (startedAgent_ok n) (startedAgent_noneHung n) Hr) as Hn. split_and!.
    + by apply quiet_progress with n.
    + intros l s' Hq Hs. by eapply quiet_decreases.
    + by eapply shutdown_schedule.
  - intros i Hi Hh. destruct (hang_run _ _ Hi Hh) as (s & Hr & Hc & Hs). exists [Signal; Hang i], s.
    split; [done|]. split; [done|]. intros rest s' Hr'. apply (hung_never_finished n i).
    + eapply runAgent_ok; [|exact Hr']. eapply runAgent_ok; [apply startedAgent_ok|exact Hr].
    + by eapply hung_run.
Qed.
End Shutdown.

(** ** Witnesses *)

(** Two collectors; the first has sent one event and gives the next up when the
    signal comes, the second one sends after the signal.  The store answers for
    an even event only when the drain has ended. *)
Definition sampleRun : list (Label (Ev := nat)) :=
  [Emit 0 7; Send 0; Receive; Emit 0 9; Signal; MainStep; Emit 1 8; Send 1; Abandon 0; CollectorExit 0; MainStep;
   Process; CollectorExit 1; MainStep; MainStep; MainStep; Receive; DrainTimeout; ForwarderExit; Process; IngestExit;
   MainStep; MainStep; MainStep]%nat.


(** Without a collector that can hang, the middle of that run; with one. *)
Lemma shutdown_terminates_witness :
  (exists s, runAgent (fun _ => false) Nat.even (take 8 sampleRun) (startedAgent 2) = Some s /\ measure s = 18%nat /\
    exists rest s', (length rest <= 18)%nat /\ runAgent (fun _ => false) Nat.even rest s = Some s' /\ phase s' = Finished) /\
  exists ls s, runAgent (fun i => i =? 4)%nat Nat.even ls (startedAgent 5) = Some s /\
    forall rest s', runAgent (fun i => i =? 4)%nat Nat.even rest s = Some s' -> phase s' <> Finished.
Proof.
  split.
  - eexists. split; [vm_compute; reflexivity|]. split; [vm_compute; reflexivity|].
    destruct (shutdown_terminates (fun _ => false) Nat.even 2) as [Ht _].
    destruct (Ht ltac:(done) (take 8 sampleRun) _ ltac:(vm_compute; reflexivity) ltac:(vm_compute; reflexivity)) as (_ & _ & rest & s' & _ & Hl & Hr & Hp).
    exists rest, s'. split; [exact Hl|]. split; [exact Hr|exact Hp].
  - destruct (shutdown_terminates (fun i => i =? 4)%nat Nat.even 5) as [_ Ht].
    destruct (Ht 4%nat ltac:(lia) ltac:(reflexivity)) as (ls & s & Hr & _ & Hf). exists ls, s. split; [exact Hr|exact Hf].
Defined.
