(* ===== verification/Endpoint.v ===== *)
(** The endpoint agent put together (agent/cmd/endpoint/main.go): what its
    collectors emit, what the ingestion engine makes of it, and what the server
    answers when the forwarder posts it. *)
From S2P Require Import Prelude GoStrings GoTime Events Collectors Filesystem Usb Storage StorageSpec RetryTime GoJson EventJson Interfaces Contents Ingestion Forwarder IngestApi IngestBody.
From S2P Require Config Network Inventory Lifecycle.

Local Open Scope string_scope.
Local Open Scope list_scope.
Open Scope Z_scope.

(** ** Wiring *)

(** [ingestion.NewEngine] as main calls it. *)
Definition endpointEngine (cfg : Config.Config) (deviceID : string) : IngestConfig := NewEngine {|
  ic_TenantID := Config.TenantID cfg; ic_SiteID := Config.SiteID cfg; ic_AssetID := deviceID;
  ic_RetryDelay := 0; ic_EmergencySpillPath := "";
  hasOnCommitted := true; hasOnDropped := false; hasOnDLQ := false; hasOnFatal := false |}.

(** [forwarder.NewForwarder(cfg.APIAddr, cfg.TenantID, db)]. *)
Definition endpointForwarder (cfg : Config.Config) : Forwarder :=
  NewForwarder (Config.APIAddr cfg) (Config.TenantID cfg).

(** What can arrive on [centralEvents]: the events of the five collectors, with
    a fresh id and the time of a running clock. *)
Section Collected.
Context (uuid_Parse : string -> option error) (cfg : Config.Config).

Inductive collected : CanonicalEvent -> Prop :=
  | from_process formatTime id t exitTime em :
      uuid_Parse id = None -> t <> zeroTime ->
      collected (Lifecycle.emissionEvent formatTime id t exitTime em)
  | from_filesystem e ev :
      uuid_Parse (fe_id e) = None -> fe_time e <> zeroTime -> ev ∈ handleEvent cfg e -> collected ev
  | from_inventory r ev :
      uuid_Parse (Inventory.hr_id r) = None -> Inventory.hr_time r <> zeroTime ->
      ev ∈ Inventory.invTakeSnapshot cfg r -> collected ev
  | from_network r ev :
      uuid_Parse (Network.rd_id r) = None -> Network.rd_time r <> zeroTime ->
      ev ∈ Network.takeSnapshot cfg r -> collected ev
  | from_usb_linux lower payload now u id sel ev :
      uuid_Parse id = None -> now <> zeroTime -> parseUevent lower payload now = Some u ->
      ev ∈ emitEvent cfg id sel u -> collected ev
  | from_usb_windows utf16 msg wParam lParam watching now u id sel ev :
      uuid_Parse id = None -> now <> zeroTime -> deviceChange utf16 msg wParam lParam watching now = Some u ->
      ev ∈ emitEvent cfg id sel u -> collected ev.
End Collected.

(** ** The wire *)

(** The first value of the body behind [http.MaxBytesReader]. *)
Definition serverDecode (Deserialize : string -> result CanonicalEvent) (payload : string) : DecodeResult CanonicalEvent :=
  if maxIngestBodyBytes <? go_len payload then DecodeTooLarge
  else match Deserialize payload with Ok ev => Decoded ev | Err _ => DecodeError end.

(** The request the forwarder builds, as the handler reads it. *)
Definition ingestRequest (Deserialize : string -> result CanonicalEvent) (tenant payload : string) : Request :=
  {| req_Method := "POST"; req_tenant := tenant; req_event := serverDecode Deserialize payload; req_trailing := DecodeEOF |}.

(** For JSON it is what the handler reads of a payload that holds one event. *)
Lemma ingestRequest_reads decodeError tenant payload ev :
  go_len payload <= maxIngestBodyBytes -> Event_Deserialize decodeError payload = Ok ev ->
  exists trailing, reads payload (Decoded ev) trailing /\
    ingestRequest (Event_Deserialize decodeError) tenant payload = bodyRequest "POST" tenant (Decoded ev) trailing.
Proof.
  intros Hlen Hd. exists DecodeEOF. pose proof (reads_whole payload Hlen) as Hr.
  destruct (proj2 (decoder_single decodeError payload ev) Hd) as [Hev Htr]. rewrite Hev, Htr in Hr. split; [done|].
  unfold ingestRequest, serverDecode. by rewrite (proj2 (Z.ltb_ge _ _) Hlen), Hd.
Qed.

Section Wire.
Context {S E : Type} `{HS : Storage S E}.
Context (uuid_Parse : string -> option error) (Serialize : CanonicalEvent -> result string)
        (Deserialize : string -> result CanonicalEvent).

(** One event from the agent to the server: the handler's answer is the
    response [sendEvent] acts on. *)
Definition exchange (env : E) (now : Time) (body retryAfter : string) (stream : list string)
    (st : ForwardState S) (event : CanonicalEvent) : ForwardState S * list string :=
  let input r := {| si_env := env; si_request := None; si_response := r; si_ctxCancelled := false |} in
  match Serialize event with
  | Err e => (sendEvent Serialize (input (Err e)) st event, stream)
  | Ok payload =>
      let '(stream, code) := ServeHTTP uuid_Parse Serialize now xaddDone stream
                               (ingestRequest Deserialize (fw_tenantID (fs_forwarder st)) payload) in
      (sendEvent Serialize (input (Ok {| StatusCode := code; Body := body; RetryAfterHeader := retryAfter |})) st event, stream)
  end.
End Wire.

(** ** Lemmas *)
Lemma setIdentity_wf tenant site asset ev :
  validIdentifier tenant -> validIdentifier site -> RuneCountInString asset <= 128 ->
  WellFormedEvent (setIdentity tenant site "" ev) -> WellFormedEvent (setIdentity tenant site asset ev).
Proof.
  intros Ht Hs Ha []. split; cbn in *; try done.
  unfold limitedFields in *. cbn in *. rewrite Forall_cons in wf_limits |- *. by destruct wf_limits.
Qed.

(** The events of the collectors that fill the identity in themselves. *)
Lemma identified_wf uuid_Parse parseAuthority cfg ev :
  Config.Config_Validate parseAuthority cfg = None -> Event_Validate uuid_Parse ev = None ->
  TenantID ev = Config.TenantID cfg -> SiteID ev = Config.SiteID cfg -> AssetID ev = "" ->
  WellFormedEvent (setIdentity (Config.TenantID cfg) (Config.SiteID cfg) "" ev).
Proof.
  intros _ [_ Hwf]%Validate_wf <- <- Ha. by destruct ev; cbn in *; subst.
Qed.

Lemma parseUevent_shape lower payload now u :
  parseUevent lower payload now = Some u -> usb_Action u ∈ ["USB_INSERT"; "USB_REMOVE"] /\ usb_OccurredAt u = now.
Proof. unfold parseUevent. repeat case_match; intros [= <-]; cbn; (split; [set_solver|done]). Qed.

Lemma deviceChange_shape utf16 msg wParam lParam watching now u :
  deviceChange utf16 msg wParam lParam watching now = Some u ->
  usb_Action u ∈ ["USB_INSERT"; "USB_REMOVE"] /\ usb_OccurredAt u = now.
Proof. unfold deviceChange. repeat case_match; intros [= <-]; cbn; (split; [set_solver|done]). Qed.

Lemma usbCanonical_valid uuid_Parse parseAuthority cfg id u :
  Config.Config_Validate parseAuthority cfg = None -> uuid_Parse id = None -> usb_OccurredAt u <> zeroTime ->
  usb_Action u ∈ ["USB_INSERT"; "USB_REMOVE"] -> Event_Validate uuid_Parse (usbCanonical cfg id u) = None.
Proof.
  intros Hcfg Hid Ht Ha. destruct (Config.Validate_identifiers _ _ Hcfg) as [H1 H2].
  apply Validate_complete; [done|]. split; cbn; try done.
  - set_solver.
  - unfold limitedFields. cbn. apply list_elem_of_In in Ha. destruct Ha as [<-|[<-|[]]]; repeat constructor; vm_compute; congruence.
Qed.

Lemma emission_wf tenant site formatTime id t exitTime em :
  validIdentifier tenant -> validIdentifier site -> t <> zeroTime ->
  WellFormedEvent (setIdentity tenant site "" (Lifecycle.emissionEvent formatTime id t exitTime em)).
Proof.
  intros Ht Hs Hz. destruct em as [inst action]. split; cbn; try done.
  - set_solver.
  - destruct action; repeat constructor; vm_compute; congruence.
Qed.

Lemma inventory_in cfg r ev :
  ev ∈ Inventory.invTakeSnapshot cfg r -> exists h info flags, ev = Inventory.inventoryEvent cfg r h info flags.
Proof.
  unfold Inventory.invTakeSnapshot. destruct (Inventory.Hostname r), (Inventory.Interfaces r);
    (destruct (_ && _); [by intros ?%not_elem_of_nil|]);
    (destruct (delivered _); [|by intros ?%not_elem_of_nil]);
    intros ->%list_elem_of_singleton; by eexists _, _, _.
Qed.

(** What the collectors have in common. *)
Lemma collected_spec uuid_Parse parseAuthority cfg ev :
  Config.Config_Validate parseAuthority cfg = None -> collected uuid_Parse cfg ev ->
  uuid_Parse (EventID ev) = None /\ AssetID ev = "" /\
  (TenantID ev = "" \/ TenantID ev = Config.TenantID cfg) /\ (SiteID ev = "" \/ SiteID ev = Config.SiteID cfg) /\
  WellFormedEvent (setIdentity (Config.TenantID cfg) (Config.SiteID cfg) "" ev).
Proof.
  intros Hcfg Hc. destruct (Config.Validate_identifiers _ _ Hcfg) as [Ht Hs].
  assert (forall ev, Event_Validate uuid_Parse ev = None -> TenantID ev = Config.TenantID cfg ->
    SiteID ev = Config.SiteID cfg -> AssetID ev = "" ->
    uuid_Parse (EventID ev) = None /\ AssetID ev = "" /\
    (TenantID ev = "" \/ TenantID ev = Config.TenantID cfg) /\ (SiteID ev = "" \/ SiteID ev = Config.SiteID cfg) /\
    WellFormedEvent (setIdentity (Config.TenantID cfg) (Config.SiteID cfg) "" ev)) as Hfull.
  { intros ev' Hv E1 E2 E3. split_and!; [by apply Validate_wf in Hv as []|done|by right|by right|by eapply identified_wf]. }
  destruct Hc as [formatTime id t exitTime em Hid Hz|e ev Hid Hz Hin|r ev Hid Hz Hin|r ev Hid Hz Hin
                 |lower payload now u id sel ev Hid Hz Hu Hin|utf16 msg wP lP w now u id sel ev Hid Hz Hu Hin].
  - destruct em as [inst action]. split_and!; [done|done|by left|by left|by apply emission_wf].
  - unfold handleEvent in Hin. destruct (fileAction e =s ""); [set_solver|]. destruct (delivered _); [|set_solver].
    apply list_elem_of_singleton in Hin as ->. apply Hfull; [|done..]. eapply fileEvent_valid; try done.
    pose proof (fileAction_cases e) as Ha. apply list_elem_of_In in Ha.
    destruct Ha as [<-|[<-|[<-|[<-|[<-|[]]]]]]; vm_compute; congruence.
  - apply inventory_in in Hin as (h & info & flags & ->).
    apply Hfull; [by eapply Inventory.inventoryEvent_valid|done..].
  - unfold Network.takeSnapshot in Hin. destruct (Network.rd_tables r) as [[conns flags]|]; [|set_solver].
    destruct (delivered _); [|set_solver]. apply list_elem_of_singleton in Hin as ->.
    apply Hfull; [by eapply Network.snapshotEvent_valid|done..].
  - apply parseUevent_shape in Hu as [Ha <-]. unfold emitEvent in Hin. destruct (delivered _); [|set_solver].
    apply list_elem_of_singleton in Hin as ->. apply Hfull; [by eapply usbCanonical_valid|done..].
  - apply deviceChange_shape in Hu as [Ha <-]. unfold emitEvent in Hin. destruct (delivered _); [|set_solver].
    apply list_elem_of_singleton in Hin as ->. apply Hfull; [by eapply usbCanonical_valid|done..].
Qed.

(** The engine completes the identity of whatever the collectors emit. *)
Lemma enriched cfg deviceID ev :
  Config.TenantID cfg <> "" -> Config.SiteID cfg <> "" ->
  AssetID ev = "" -> (TenantID ev = "" \/ TenantID ev = Config.TenantID cfg) ->
  (SiteID ev = "" \/ SiteID ev = Config.SiteID cfg) ->
  enrich (endpointEngine cfg deviceID) ev = setIdentity (Config.TenantID cfg) (Config.SiteID cfg) deviceID ev.
Proof.
  intros Ht Hs Ha HT HS. unfold enrich, endpointEngine, NewEngine. cbn. rewrite Ha.
  assert (forall c f, c <> "" -> f = "" \/ f = c -> (if negb (c =s "") && (f =s "") then c else f) = c) as Hfill.
  { intros c f Hc [->| ->]; by rewrite (proj2 (String.eqb_neq _ _) Hc). }
  rewrite !Hfill by done. by destruct (String.eqb_spec deviceID "") as [->|].
Qed.

(** ** Properties *)

(** C10: What the agent observes, the server accepts.  With a configuration that
    passed [Validate] and a device id of at most 128 characters, every event of
    every collector becomes, through the ingestion engine and under any
    sequence number of the store, one that passes the event schema under the
    configured tenant and the device's id; posted by the forwarder, in an encoding
    that can carry it (for JSON: ids in valid UTF-8), it is
    answered 202, queued once, and deleted from the agent's store.  The one
    exception is an event of more than 1 MiB of JSON: the 413 it is answered
    with queues nothing and only has it tried again later. *)
Theorem endpoint_event_accepted {S E} `{HS : Storage S E} uuid_Parse parseAuthority Serialize Deserialize
    `{HC : !EventCodec Serialize Deserialize} cfg deviceID ev seq (env : E) now body retryAfter stream (st : ForwardState S) payload
    (Hgood : codec_event (setSeqNo seq (enrich (endpointEngine cfg deviceID) ev))) (Hclock : codec_clock now)
    (Hcfg : Config.Config_Validate parseAuthority cfg = None)
    (Hdev : RuneCountInString deviceID <= 128) (Hseq : 0 <= seq <= MaxInt64)
    (Hev : collected uuid_Parse cfg ev)
    (Hfwd : fw_tenantID (fs_forwarder st) = fw_tenantID (endpointForwarder cfg)) :
  let event := setSeqNo seq (enrich (endpointEngine cfg deviceID) ev) in
  Serialize event = Ok payload ->
  let '(st', stream') := exchange uuid_Parse Serialize Deserialize env now body retryAfter stream st event in
  Event_Validate uuid_Parse event = None /\ TenantID event = Config.TenantID cfg /\ AssetID event = deviceID /\
  if maxIngestBodyBytes <? go_len payload
  then stream' = stream /\ fs_store st' = (storage_MarkFailed env (fs_store st) (EventID event) 0).1
  else (exists data, stream' = stream ++ [data]) /\
       fs_store st' = (storage_RemoveEvent env (fs_store st) (EventID event)).1.
Proof.
  intros event Hser. destruct (collected_spec _ _ _ _ Hcfg Hev) as (Hid & Ha & HT & HSi & Hwf).
  destruct (Config.Validate_identifiers _ _ Hcfg) as [Ht Hs].
  assert (event = setSeqNo seq (setIdentity (Config.TenantID cfg) (Config.SiteID cfg) deviceID ev)) as Heq.
  { unfold event. f_equal. apply enriched; [apply Ht|apply Hs|done..]. }
  assert (WellFormedEvent event) as Hwe.
  { rewrite Heq. apply (setIdentity_wf _ _ deviceID) in Hwf; [|done..]. destruct Hwf; split; try done. apply Hseq. }
  assert (TenantID event = Config.TenantID cfg) as HTe by (by rewrite Heq).
  assert (Event_Validate uuid_Parse event = None) as Hval by (apply Validate_complete; [by rewrite Heq|done]).
  unfold exchange. rewrite Hser. cbn in Hfwd.
  unfold ServeHTTP, ingestRequest, serverDecode. cbn [req_Method req_tenant req_event req_trailing]. rewrite Hfwd.
  change ("POST" =s "POST") with true. cbn [negb].
  rewrite (proj2 (String.eqb_neq _ _) (proj1 Ht)).
  destruct (codec_decodes event _ Hgood Hser) as (ev2 & Hdes & Hid2 & HT2 & Hwf2 & _ & Hser2).
  destruct (maxIngestBodyBytes <? go_len payload).
  - unfold sendEvent. rewrite HTe, Hfwd, String.eqb_refl, Hser. split_and!; try done. by rewrite Heq.
  - rewrite Hdes, HT2, HTe, String.eqb_refl. cbn [negb].
    assert (Event_Validate uuid_Parse (setReceivedAt now ev2) = None) as ->.
    { apply Validate_complete; [cbn; rewrite Hid2; by rewrite Heq|]. destruct (Hwf2 ltac:(unfold event, in_i64; cbn; int_lits; lia) Hwe); by split. }
    unfold Publish. specialize (Hser2 now Hclock). destruct (Serialize (setReceivedAt now ev2)) as [data2|]; [|done].
    unfold sendEvent. rewrite HTe, Hfwd, String.eqb_refl, Hser.
    split_and!; [done..|by rewrite Heq|by eexists|done].
Qed.

(** ** Witness *)

Definition sampleProcess : Lifecycle.Instance := {|
  Lifecycle.PID := 4312; Lifecycle.StartTime := 7; Lifecycle.Name := Some "sh"; Lifecycle.ParentPID := Some 1;
  Lifecycle.ExecutablePath := None; Lifecycle.CommandLine := None; Lifecycle.User := None |}.

Definition lanEvent : CanonicalEvent :=
  Lifecycle.emissionEvent (fun _ => "t") "e1" 5 0 (sampleProcess, Lifecycle.PROCESS_START).

Definition lanForwarding : ForwardState SQLiteStorage :=
  {| fs_forwarder := endpointForwarder Config.lanConfig; fs_store := freshStorage; fs_exchanges := [] |}.

Definition lanSerialize : CanonicalEvent -> result string := Event_Serialize utc.
Definition lanDeserialize : string -> result CanonicalEvent := Event_Deserialize ErrNew.

Definition lanEnriched : CanonicalEvent := setSeqNo 3 (enrich (endpointEngine Config.lanConfig "dev-9") lanEvent).
Definition lanPayload : string := match lanSerialize lanEnriched with Ok text => text | Err _ => "" end.

Lemma endpoint_event_accepted_witness :
  let r := exchange (HS := sqlite_storage lanSerialize lanDeserialize) (fun _ => None) lanSerialize lanDeserialize
             {| ce_env := quietEnv; ce_quarantine := fun _ => quietEnv |} 9 "" "" [] lanForwarding lanEnriched in
  TenantID lanEvent = "" /\ TenantID lanEnriched = "plant-7" /\ exists data, r.2 = [] ++ [data].
Proof.
  split; [reflexivity|].
  pose proof (endpoint_event_accepted (HS := sqlite_storage lanSerialize lanDeserialize) (HC := json_codec utc ErrNew)
    (fun _ => None) GoUrl.plainAuthority lanSerialize lanDeserialize Config.lanConfig "dev-9" lanEvent 3
    {| ce_env := quietEnv; ce_quarantine := fun _ => quietEnv |} 9 "" "" [] lanForwarding lanPayload) as H.
  specialize (H ltac:(split; [vm_compute; reflexivity|vm_compute; reflexivity|
    split; [intros f Hf; vm_compute in Hf; discriminate|intros m [= <-]; vm_compute; reflexivity]]) ltac:(vm_compute; reflexivity)
    ltac:(vm_compute; reflexivity) ltac:(vm_compute; discriminate) ltac:(split; vm_compute; discriminate)
    (from_process _ _ (fun _ => "t") "e1" 5 0 (sampleProcess, Lifecycle.PROCESS_START) eq_refl ltac:(discriminate)) eq_refl ltac:(vm_compute; reflexivity)).
  change (maxIngestBodyBytes <? go_len lanPayload) with false in H.
  revert H. unfold lanEnriched. destruct (exchange _ _ _ _ _ _ _ _ _ _) as [st' stream']. intros (_ & Ht & _ & Hd & _).
  split; [exact Ht|exact Hd].
Defined.
