(* ===== verification/PostUrl.v ===== *)
(** Where the agent posts its events (agent/internal/config/config.go: Validate;
    agent/internal/forwarder/forwarder.go: NewForwarder and the URL of sendEvent):
    the path and the query that the validated address of the server leads to,
    and what the server (server/internal/api/ingest.go) reads of the query. *)
From Stdlib Require Import Strings.Ascii.
From S2P Require Import Prelude GoStrings GoText GoUrl Forwarder Endpoint.
From S2P Require Config.

Local Open Scope string_scope.
Local Open Scope list_scope.
Open Scope Z_scope.

(** What [http.NewRequestWithContext] is given, and parses. *)
Definition postURL (cfg : Config.Config) : string := fw_apiURL (endpointForwarder cfg) ^^ "/v1/ingest".

(** [NewRequestWithContext] drops a port that is only a colon. *)
Definition removeEmptyPort (host : string) : string :=
  match LastIndexByte host ":"%char with
  | Some i =>
      if (match LastIndexByte host "]"%char with Some j => (j <? i)%nat | None => true end)
         && (S i =? String.length host)%nat
      then prefixString i host else host
  | None => host
  end.

Definition withHostQuery (host query : string) (u : URL) : URL :=
  {| Scheme := Scheme u; Opaque := Opaque u; HasUser := HasUser u; Host := host; Path := Path u;
     RawQuery := query; Fragment := Fragment u |}.

(** The URL of the request, with the tenant added to its query; [None] when it
    cannot be parsed. *)
Definition requestURL (parseAuthority : string -> option (bool * string)) (cfg : Config.Config) : option URL :=
  let! u := Parse parseAuthority (postURL cfg) in
  let q := ParseQuery (RawQuery u) in
  let q := Values_Add q "tenant_id" (fw_tenantID (endpointForwarder cfg)) in
  Some (withHostQuery (removeEmptyPort (Host u)) (Values_Encode q) u).


(** ** Lemmas *)
Lemma noChar_control a s : isControl a = false -> allChars (fun c => negb (isControl c)) (String a s) = allChars (fun c => negb (isControl c)) s.
Proof. intros Ha. cbn [allChars]. by rewrite Ha. Qed.
















(** ** Property *)


(** ** Witnesses *)

Definition markedConfig (mark : string) : Config.Config := {|
  Config.APIAddr := "http://10.0.0.5:8081/ot/" ^^ mark; Config.TenantID := "plant-7"; Config.SiteID := "line-2";
  Config.ProcessInterval := ""; Config.InventoryInterval := ""; Config.NetworkInterval := "";
  Config.MonitorPaths := [] |}.

(** Accepted addresses, and what is posted to. *)
Example marked_paths :
  map (fun mark => (Config.Config_Validate plainAuthority (markedConfig mark),
                    (fun u => (Path u, RawQuery u, Fragment u)) <$> requestURL plainAuthority (markedConfig mark))) [""; "?"; "#"; "?#"]
  = [(None, Some ("/ot/v1/ingest", "tenant_id=plant-7", ""));
     (None, Some ("/ot/", "%2Fv1%2Fingest=&tenant_id=plant-7", ""));
     (None, Some ("/ot/", "tenant_id=plant-7", "/v1/ingest"));
     (None, Some ("/ot/", "tenant_id=plant-7", "/v1/ingest"))].
Proof. vm_compute. reflexivity. Qed.

