(* ===== verification/EndToEnd.v ===== *)
(** The delivery of an event from the agent's store to the server's database:
    ingestion and detection (agent/internal), the forwarder
    (agent/internal/forwarder/forwarder.go), the network, the ingest handler
    (server/internal/api/ingest.go), the stream
    (server/internal/queue/producer.go) and the worker
    (server/internal/queue/consumer.go) as one machine, and the abstract
    specification it implements: who has custody of an event. *)
From S2P Require Import Prelude GoStrings GoTime Events Storage StorageSpec RetryTime GoJson EventJson Interfaces Contents Forwarder Repository IngestApi IngestBody Worker Endpoint.

Local Open Scope string_scope.
Local Open Scope list_scope.
Open Scope Z_scope.

(** ** The machine *)

(** What becomes of one request: it never arrives, its answer is lost on the
    way back, or it is answered. *)
Inductive Network :=
  | RequestLost (err : error) (ctxCancelled : bool)
  | ReplyLost (err : error) (ctxCancelled : bool) (now : Time) (xadd : XAdd)
  | Answered (now : Time) (xadd : XAdd) (body retryAfter : string).

Definition netCancelled (n : Network) : bool :=
  match n with RequestLost _ c | ReplyLost _ c _ _ => c | Answered _ _ _ _ => false end.

(** What an observer of the two ends sees. *)
Inductive Observation :=
  | Offered (ev : CanonicalEvent) (ok : bool)   (* an event handed to the agent's store *)
  | Inserted (k : EventKey)                     (* a new row of the server's table *)
  | Silent.

Section Machine.
Context {S E : Type} `{HS : Storage S E}.
Context (uuid_Parse : string -> option error) (Serialize : CanonicalEvent -> result string)
        (Deserialize : string -> result CanonicalEvent).

(** [streamID n] is the id the queue gave to the n-th entry of the stream. *)
Context (streamID : nat -> string).

Record System := {
  sy_agent : ForwardState S;
  sy_batch : list CanonicalEvent;      (* what is left of the round of the forwarder *)
  sy_stream : list string;
  sy_worker : WorkerState;
}.

Inductive Input :=
  | DoStore (e : E) (ev : CanonicalEvent)                  (* ingestion or detection commits an event *)
  | DoDeadLetter (e : E) (ev : CanonicalEvent) (failureType reason : string)
  | DoFetch (e : E)                                        (* the forwarder starts a round *)
  | DoSend (e : E) (request : option error) (n : Network)  (* it sends the next event *)
  | DoAbandon                                              (* it leaves the round *)
  | DoProcess (n : nat) (env : MessageEnv) (retryCount : Z) (idle : Duration)
  | DoOther (r : Request) (now : Time) (xadd : XAdd).  (* another client's request *)

Definition withStore (s : S) (a : ForwardState S) : ForwardState S :=
  {| fs_forwarder := fs_forwarder a; fs_store := s; fs_exchanges := fs_exchanges a |}.

(** The bytes of the request, when [sendEvent] gets as far as sending it. *)
Definition wirePayload (a : ForwardState S) (ev : CanonicalEvent) (request : option error) : option string :=
  if negb (TenantID ev =s fw_tenantID (fs_forwarder a)) then None
  else match Serialize ev, request with Ok payload, None => Some payload | _, _ => None end.

Definition transmit (n : Network) (tenant payload : string) (stream : list string) : list string * result Response :=
  let handle now xadd := ServeHTTP uuid_Parse Serialize now xadd stream (ingestRequest Deserialize tenant payload) in
  match n with
  | RequestLost err _ => (stream, Err err)
  | ReplyLost err _ now xadd => ((handle now xadd).1, Err err)
  | Answered now xadd body retryAfter =>
      let '(stream, code) := handle now xadd in
      (stream, Ok {| StatusCode := code; Body := body; RetryAfterHeader := retryAfter |})
  end.

Definition sendOne (e : E) (request : option error) (n : Network) (a : ForwardState S) (stream : list string)
    (ev : CanonicalEvent) : ForwardState S * list string :=
  let '(stream, response) :=
    match wirePayload a ev request with
    | Some payload => transmit n (fw_tenantID (fs_forwarder a)) payload stream
    | None => (stream, Err (ErrNew "not sent"))
    end in
  (sendEvent Serialize {| si_env := e; si_request := request; si_response := response;
                          si_ctxCancelled := netCancelled n |} a ev, stream).

(** The rows one message added. *)
Definition insertedBy (data : string) (before after : PG) : Observation :=
  match Deserialize data with
  | Ok ev =>
      match pg_events before !! keyOf ev, pg_events after !! keyOf ev with
      | None, Some _ => Inserted (keyOf ev)
      | _, _ => Silent
      end
  | Err _ => Silent
  end.

Definition isNone {A} (o : option A) : bool := match o with None => true | Some _ => false end.

Definition sysStep (i : Input) (y : System) : System * Observation :=
  let agent a batch stream :=
    {| sy_agent := a; sy_batch := batch; sy_stream := stream; sy_worker := sy_worker y |} in
  match i with
  | DoStore e ev =>
      let '(s, _, res) := storage_Store e (fs_store (sy_agent y)) ev in
      (agent (withStore s (sy_agent y)) (sy_batch y) (sy_stream y), Offered ev (isNone res))
  | DoDeadLetter e ev ft fr =>
      let '(s, res) := storage_MoveToDLQ e (fs_store (sy_agent y)) ev ft fr in
      (agent (withStore s (sy_agent y)) (sy_batch y) (sy_stream y), Offered ev (isNone res))
  | DoFetch e =>
      match storage_GetPendingEvents e (fs_store (sy_agent y)) 50 with
      | (s, Ok evs) => (agent (withStore s (sy_agent y)) evs (sy_stream y), Silent)
      | (s, Err _) => (agent (withStore s (sy_agent y)) [] (sy_stream y), Silent)
      end
  | DoSend e request n =>
      match sy_batch y with
      | [] => (y, Silent)
      | ev :: batch =>
          let '(a, stream) := sendOne e request n (sy_agent y) (sy_stream y) ev in
          (agent a batch stream, Silent)
      end
  | DoAbandon => (agent (sy_agent y) [] (sy_stream y), Silent)
  | DoProcess n env retryCount idle =>
      match sy_stream y !! n with
      | None => (y, Silent)
      | Some data =>
          let w := processMessage uuid_Parse Deserialize "ot_events_stream" env (sy_worker y)
                     {| msg_ID := streamID n; msg_payload := PString data |} retryCount idle in
          ({| sy_agent := sy_agent y; sy_batch := sy_batch y; sy_stream := sy_stream y; sy_worker := w |},
           insertedBy data (w_pg (sy_worker y)) (w_pg w))
      end
  | DoOther r now xadd =>
      (agent (sy_agent y) (sy_batch y) (ServeHTTP uuid_Parse Serialize now xadd (sy_stream y) r).1, Silent)
  end.

Fixpoint sysRun (inputs : list Input) (y : System) : System * list Observation :=
  match inputs with
  | [] => (y, [])
  | i :: inputs =>
      let '(y, o) := sysStep i y in
      let '(y, obs) := sysRun inputs y in (y, o :: obs)
  end.
End Machine.

Arguments System : clear implicits.
Arguments Input : clear implicits.

(** ** The specification

    The custody of one event.  [Forgone]: nobody promises it, because the
    commit failed or was uncertain, or the quota sacrificed it.
    [cu_expendable] says that it was offered with a severity the quota may
    sacrifice. *)
Inductive Holder := Nobody | AgentStore | ServerStream | Database | Forgone.

Record Custody := { cu_holder : Holder; cu_expendable : bool }.

Definition unknownEvent : Custody := {| cu_holder := Nobody; cu_expendable := false |}.

Definition unclaimed (h : Holder) : bool := match h with Nobody | Forgone => true | _ => false end.

(** The event [id] of [tenant].  Custody goes to the agent when the event is
    offered successfully, from there to the stream, and from the stream to the
    database, where the row is inserted once.  An expendable event in the
    agent's custody may be sacrificed when another event is offered.  What is
    forgone may still arrive, what was never offered may not. *)
Inductive custodyStep (tenant id : string) : Observation -> Custody -> Custody -> Prop :=
  | c_silent c : custodyStep tenant id Silent c c
  | c_handover h x : h = AgentStore \/ h = Forgone ->
      custodyStep tenant id Silent {| cu_holder := h; cu_expendable := x |} {| cu_holder := ServerStream; cu_expendable := x |}
  | c_other ev ok c : EventID ev <> id -> custodyStep tenant id (Offered ev ok) c c
  | c_sacrifice ev ok : EventID ev <> id ->
      custodyStep tenant id (Offered ev ok) {| cu_holder := AgentStore; cu_expendable := true |}
        {| cu_holder := Forgone; cu_expendable := true |}
  | c_offer ev ok h x : EventID ev = id -> unclaimed h = true ->
      custodyStep tenant id (Offered ev ok) {| cu_holder := h; cu_expendable := x |}
        {| cu_holder := if (ok : bool) then AgentStore else Forgone; cu_expendable := x || lowSeverity ev |}
  | c_again ev ok h x : EventID ev = id -> unclaimed h = false ->
      custodyStep tenant id (Offered ev ok) {| cu_holder := h; cu_expendable := x |}
        {| cu_holder := h; cu_expendable := x || lowSeverity ev |}
  | c_insert x :
      custodyStep tenant id (Inserted (tenant, id)) {| cu_holder := ServerStream; cu_expendable := x |}
        {| cu_holder := Database; cu_expendable := x |}
  | c_other_insert k c : k <> (tenant, id) -> custodyStep tenant id (Inserted k) c c.

Inductive custodyRun (tenant id : string) : list Observation -> Custody -> Custody -> Prop :=
  | run_nil c : custodyRun tenant id [] c c
  | run_cons o obs c1 c2 c3 : custodyStep tenant id o c1 c2 -> custodyRun tenant id obs c2 c3 ->
      custodyRun tenant id (o :: obs) c1 c3.

(** ** The refinement relation *)

Section Refinement.
Context {S E : Type} `{HS : Storage S E, HL : !StorageLaws S E}.
Context (uuid_Parse : string -> option error) (Serialize : CanonicalEvent -> result string)
        (Deserialize : string -> result CanonicalEvent) `{HC : !EventCodec Serialize Deserialize}.
Context `{HT : !StorageContents S E (codec_event (EventCodec := HC))}.
Context (streamID : nat -> string) `{HJ : !Inj (=) (=) streamID} (tenant : string).

Definition held (s : S) (id : string) : Prop := pending s id \/ dead s id.

(** An entry of the stream the worker will accept. *)
Definition queueable (data : string) : Prop :=
  exists ev, Deserialize data = Ok ev /\ Event_Validate uuid_Parse ev = None.

Definition queued (stream : list string) (id : string) : Prop :=
  exists n data ev, stream !! n = Some data /\ Deserialize data = Ok ev /\ keyOf ev = (tenant, id).

Definition stored (pg : PG) (id : string) : Prop := is_Some (pg_events pg !! (tenant, id)).

(** What holds of the machine between any two steps. *)
Record sysInv (y : System S) : Prop := {
  iv_ok : storage_ok (fs_store (sy_agent y));
  iv_contents : contents_ok (fs_store (sy_agent y));
  iv_tenant : fw_tenantID (fs_forwarder (sy_agent y)) = tenant;
  iv_stream : Forall queueable (sy_stream y);
  iv_log : forall id ok, (XAck id, ok) ∈ w_log (sy_worker y) ->
    exists n, id = streamID n /\ (n < length (sy_stream y))%nat;
  iv_acked : forall n data ev ok, sy_stream y !! n = Some data -> Deserialize data = Ok ev ->
    (XAck (streamID n), ok) ∈ w_log (sy_worker y) -> is_Some (pg_events (w_pg (sy_worker y)) !! keyOf ev);
  iv_clean : forall entry ok, (XAddDLQ entry, ok) ∉ w_log (sy_worker y);
  iv_batch : Forall codec_event (sy_batch y);
}.

Definition custodyOf (id : string) (y : System S) (c : Custody) : Prop :=
  (prunable (fs_store (sy_agent y)) id -> cu_expendable c = true) /\
  match cu_holder c with
  | Database => stored (w_pg (sy_worker y)) id
  | ServerStream => queued (sy_stream y) id /\ ~ stored (w_pg (sy_worker y)) id
  | AgentStore => held (fs_store (sy_agent y)) id /\ ~ queued (sy_stream y) id /\ ~ stored (w_pg (sy_worker y)) id
  | Forgone => ~ queued (sy_stream y) id /\ ~ stored (w_pg (sy_worker y)) id
  | Nobody => ~ pending (fs_store (sy_agent y)) id /\ id ∉ map EventID (sy_batch y) /\
      ~ queued (sy_stream y) id /\ ~ stored (w_pg (sy_worker y)) id
  end.

(** *** The server *)
Lemma serve_cases now xadd stream r stream' code :
  ServeHTTP uuid_Parse Serialize now xadd stream r = (stream', code) ->
  (stream' = stream /\ code <> 202) \/
  exists ev data k, req_event r = Decoded ev /\ TenantID ev = req_tenant r /\
    Event_Validate uuid_Parse (setReceivedAt now ev) = None /\
    Serialize (setReceivedAt now ev) = Ok data /\ stream' = stream ++ replicate (1 + k) data.
Proof.
  unfold ServeHTTP, Publish.
  destruct (negb (req_Method r =s "POST")); [intros [= <- <-]; by left|].
  destruct (req_tenant r =s ""); [intros [= <- <-]; by left|].
  destruct (req_event r) as [ev| | |]; try (intros [= <- <-]; by left).
  destruct (req_trailing r); try (intros [= <- <-]; by left).
  destruct (String.eqb_spec (TenantID ev) (req_tenant r)); cbn [negb]; [|intros [= <- <-]; by left].
  destruct (Event_Validate uuid_Parse (setReceivedAt now ev)) eqn:Hv; [intros [= <- <-]; by left|].
  destruct (Serialize (setReceivedAt now ev)) as [data|] eqn:Hs; [|intros [= <- <-]; by left].
  destruct xadd as [[err|] lost]; cbn; intros [= <- <-]; [|right; by exists ev, data, lost].
  destruct lost as [|k]; [left; by rewrite app_nil_r|right]. by exists ev, data, k.
Qed.

Lemma queued_added stream data k id :
  queued (stream ++ replicate (1 + k) data) id <->
  queued stream id \/ exists ev, Deserialize data = Ok ev /\ keyOf ev = (tenant, id).
Proof.
  split.
  - intros (n & d & ev & Hn & Hd & Hid). apply lookup_app_Some in Hn as [Hn|[_ [-> _]%lookup_replicate]]; [left; by exists n, d, ev|right; by exists ev].
  - intros [(n & d & ev & Hn & Hd & Hid)|(ev & Hd & Hid)].
    + exists n, d, ev. split_and!; try done. by apply lookup_app_l_Some.
    + exists (length stream), data, ev. split_and!; try done. by rewrite lookup_app_r, Nat.sub_diag.
Qed.

(** One transmission: nothing happened at the server, or the event was queued,
    perhaps more than once. *)
Lemma transmit_cases n ev payload stream stream' response :
  codec_event ev -> Serialize ev = Ok payload -> transmit uuid_Parse Serialize Deserialize n tenant payload stream = (stream', response) ->
  (stream' = stream /\ forall r, response = Ok r -> StatusCode r <> 202) \/
  exists data k ev', stream' = stream ++ replicate (1 + k) data /\ Deserialize data = Ok ev' /\ keyOf ev' = (tenant, EventID ev) /\
    queueable data.
Proof.
  intros Hev Hser Ht.
  assert (forall now xadd st code,
    ServeHTTP uuid_Parse Serialize now xadd stream (ingestRequest Deserialize tenant payload) = (st, code) ->
    (st = stream /\ code <> 202) \/
    exists data k ev', st = stream ++ replicate (1 + k) data /\ Deserialize data = Ok ev' /\ keyOf ev' = (tenant, EventID ev) /\ queueable data)
    as Hserve.
  { intros now xadd st code [?|(x & data & k & Hx & Htx & Hv & Hs & ->)]%serve_cases; [by left|right].
    cbn in Hx, Htx. unfold serverDecode in Hx. destruct (_ <? _); [done|].
    destruct (codec_decodes _ _ Hev Hser) as (x' & Hx' & Hid & _). rewrite Hx' in Hx. injection Hx as <-.
    destruct (codec_image _ _ Hx') as [Hgood Hseq].
    destruct (codec_decodes _ _ (codec_received now _ Hgood) Hs) as (ev' & Hev' & Hid' & Hten' & Hwf' & _).
    apply Validate_wf in Hv as [Hp Hw]. exists data, k, ev'. cbn in Hid', Hten', Hp. unfold keyOf.
    split_and!; [done|done|congruence|]. exists ev'. split; [done|]. apply Validate_complete; [by rewrite Hid'|auto]. }
  unfold transmit in Ht. destruct n as [err c|err c now xadd|now xadd body ra].
  - simplify_eq. by left.
  - destruct (ServeHTTP uuid_Parse Serialize now xadd stream _) as [st code] eqn:Hsv. cbn [fst] in Ht. simplify_eq.
    destruct (Hserve _ _ _ _ Hsv) as [[-> _]|?]; [by left|by right].
  - destruct (ServeHTTP uuid_Parse Serialize now xadd stream _) as [st code] eqn:Hsv. simplify_eq.
    destruct (Hserve _ _ _ _ Hsv) as [[-> Hc]|?]; [left|by right]. split; [done|]. by intros r [= <-].
Qed.

(** Processing a queueable entry: the row is inserted or nothing changes, and
    an acknowledgement is only issued for a row that is there. *)
Lemma process_cases env w id data ev rc idle :
  Deserialize data = Ok ev -> Event_Validate uuid_Parse ev = None ->
  let w' := processMessage uuid_Parse Deserialize "ot_events_stream" env w
              {| msg_ID := id; msg_payload := PString data |} rc idle in
  (pg_events (w_pg w') = pg_events (w_pg w) \/
   (pg_events (w_pg w) !! keyOf ev = None /\ pg_events (w_pg w') = <[keyOf ev := ev]> (pg_events (w_pg w)))) /\
  (w_log w' = w_log w \/
   exists ok, w_log w' = w_log w ++ [(XAck id, ok)] /\ is_Some (pg_events (w_pg w') !! keyOf ev)).
Proof.
  intros Hd Hv. unfold processMessage. cbn [msg_payload msg_ID]. rewrite Hd, Hv.
  destruct (persist_cases (me_persist env) (w_pg w) ev) as (pg' & r & -> & Hcase & Hok & _).
  assert (pg_events pg' = pg_events (w_pg w) \/
    (pg_events (w_pg w) !! keyOf ev = None /\ pg_events pg' = <[keyOf ev := ev]> (pg_events (w_pg w)))) as Hpg.
  { destruct Hcase as [->|(? & ? & _)]; auto. }
  destruct r as [b|err]; cbn; (split; [done|]); [right|by left].
  eexists. split; [done|]. by eapply Hok.
Qed.

Lemma insertedBy_cases data ev before after id :
  Deserialize data = Ok ev ->
  pg_events after = pg_events before \/
    (pg_events before !! keyOf ev = None /\ pg_events after = <[keyOf ev := ev]> (pg_events before)) ->
  (keyOf ev = (tenant, id) /\ insertedBy Deserialize data before after = Inserted (tenant, id) /\
   ~ stored before id /\ stored after id) \/
  ((insertedBy Deserialize data before after = Silent \/
    exists k, insertedBy Deserialize data before after = Inserted k /\ k <> (tenant, id)) /\
   (stored after id <-> stored before id)).
Proof.
  intros Hd Hcase. unfold insertedBy, stored. rewrite Hd. destruct Hcase as [->|[Hn ->]].
  { right. split; [left|done]. by destruct (pg_events before !! keyOf ev). }
  rewrite lookup_insert_eq, Hn. destruct (decide (keyOf ev = (tenant, id))) as [Hk|Hk].
  - left. rewrite Hk in Hn |- *. rewrite lookup_insert_eq, Hn. split_and!; [done|done|by intros []|by eexists].
  - right. split; [right; by exists (keyOf ev)|]. by rewrite lookup_insert_ne.
Qed.

(** *** The agent *)

(** What sending one event does to the store: an event leaves it only when it
    is the one sent and the answer was 202. *)
Lemma send_store e request n a ev response :
  storage_ok (fs_store a) -> contents_ok (fs_store a) ->
  let inp := {| si_env := e; si_request := request; si_response := response; si_ctxCancelled := netCancelled n |} in
  let a' := sendEvent Serialize inp a ev in
  storage_ok (fs_store a') /\ contents_ok (fs_store a') /\
  fw_tenantID (fs_forwarder a') = fw_tenantID (fs_forwarder a) /\
  (forall id, pending (fs_store a') id -> pending (fs_store a) id) /\
  (forall id, prunable (fs_store a') id -> prunable (fs_store a) id) /\
  (forall id, held (fs_store a) id -> held (fs_store a') id \/
     (id = EventID ev /\ is_Some (wirePayload Serialize a ev request) /\ exists r, response = Ok r /\ StatusCode r = 202)).
Proof.
  intros Hok Hc inp a'.
  assert (forall ev ft fr s' res, storage_MoveToDLQ e (fs_store a) ev ft fr = (s', res) ->
    storage_ok s' /\ contents_ok s' /\ (forall id, pending s' id -> pending (fs_store a) id) /\
    (forall id, prunable s' id -> prunable (fs_store a) id) /\ (forall id, held (fs_store a) id -> held s' id)) as Hdlq.
  { intros x ft fr s' res H. pose proof (law_dlq_contents _ _ _ _ _ _ _ Hok Hc H).
    destruct (law_dlq _ _ _ _ _ _ _ Hok H) as (? & Hoth & ? & ? & Hdead & Hpend & _). split_and!; try done.
    intros id [Hp|Hp]; (destruct (decide (id = EventID x)) as [->|Hne]; [|destruct (Hoth id Hne) as [Hi1 Hi2]]).
    - by apply Hpend.
    - left. by apply Hi1.
    - right. auto.
    - right. by apply Hi2. }
  assert (forall ra s' res, storage_MarkFailed e (fs_store a) (EventID ev) ra = (s', res) ->
    storage_ok s' /\ contents_ok s' /\ (forall id, pending s' id -> pending (fs_store a) id) /\
    (forall id, prunable s' id -> prunable (fs_store a) id) /\ (forall id, held (fs_store a) id -> held s' id)) as Hfail.
  { intros ra s' res H. destruct (law_failed_contents _ _ _ _ _ _ Hok Hc H) as [? ?].
    destruct (law_failed _ _ _ _ _ _ Hok H) as (? & Hd & Hp). split_and!; try done.
    - intros id. by rewrite Hp.
    - intros id [?|?]; [left; by rewrite Hp|right; by rewrite Hd]. }
  subst a' inp. unfold sendEvent, wirePayload. cbn [si_env si_request si_response si_ctxCancelled].
  destruct (TenantID ev =s fw_tenantID (fs_forwarder a)); cbn [negb].
  2:{ destruct (storage_MoveToDLQ _ _ _ _ _) as [s' res] eqn:H. cbn. apply Hdlq in H. naive_solver. }
  destruct (Serialize ev) as [payload|err].
  2:{ destruct (storage_MoveToDLQ _ _ _ _ _) as [s' res] eqn:H. cbn. apply Hdlq in H. naive_solver. }
  destruct request as [err|].
  { destruct (storage_MarkFailed _ _ _ _) as [s' res] eqn:H. cbn. apply Hfail in H. naive_solver. }
  destruct response as [r|err].
  2:{ destruct (storage_MarkFailed _ _ _ _) as [s' res] eqn:H. cbn. apply Hfail in H.
      destruct (negb (netCancelled n)); cbn; naive_solver. }
  destruct (Z.eqb_spec (StatusCode r) 202) as [H202|Hn].
  - destruct (storage_RemoveEvent _ _ _) as [s' res] eqn:H. cbn.
    destruct (law_remove_contents _ _ _ _ _ Hok Hc H) as [? ?].
    destruct (law_remove _ _ _ _ _ Hok H) as (? & Hd & Hp & Hres). split_and!; try done.
    + intros id. destruct (decide (id = EventID ev)) as [->|Hne]; [|by rewrite Hp by done].
      destruct res; [by rewrite Hres|done].
    + intros id Hheld. destruct (decide (id = EventID ev)) as [->|Hne]; [right; eauto 6|left].
      destruct Hheld; [left; by rewrite Hp by done|right; by rewrite Hd].
  - destruct (StatusCode r =? 400).
    + destruct (storage_MoveToDLQ _ _ _ _ _) as [s' res] eqn:H. cbn. apply Hdlq in H. naive_solver.
    + destruct (storage_MarkFailed _ _ _ _) as [s' res] eqn:H. cbn. apply Hfail in H. naive_solver.
Qed.

Definition withAgent (a : ForwardState S) (batch : list CanonicalEvent) (y : System S) : System S :=
  {| sy_agent := a; sy_batch := batch; sy_stream := sy_stream y; sy_worker := sy_worker y |}.

Lemma agent_inv y a batch :
  sysInv y -> storage_ok (fs_store a) -> contents_ok (fs_store a) ->
  fw_tenantID (fs_forwarder a) = fw_tenantID (fs_forwarder (sy_agent y)) -> Forall codec_event batch ->
  sysInv (withAgent a batch y).
Proof. intros [] Hok Hc Ht Hb. split; cbn; try done. congruence. Qed.

(** The agent acts and loses nothing. *)
Lemma agent_custody y a batch id c :
  (held (fs_store (sy_agent y)) id -> held (fs_store a) id) ->
  (pending (fs_store a) id -> pending (fs_store (sy_agent y)) id) ->
  (prunable (fs_store a) id -> prunable (fs_store (sy_agent y)) id) ->
  (id ∈ map EventID batch -> pending (fs_store (sy_agent y)) id \/ id ∈ map EventID (sy_batch y)) ->
  custodyOf id y c -> custodyOf id (withAgent a batch y) c.
Proof.
  intros Hh Hp Hx Hb [Hex Hc]. split; cbn; [auto|]. destruct (cu_holder c); cbn in Hc |- *; try done.
  - destruct Hc as (? & ? & ? & ?). split_and!; try done; [auto|]. intros [?|?]%Hb; auto.
  - destruct Hc as (? & ? & ?). split_and!; auto.
Qed.

(** An event is offered to the store. *)
Lemma offer_custody y s' ev ok id c :
  let s := fs_store (sy_agent y) in
  (ok = true -> held s' (EventID ev)) -> (held s (EventID ev) -> held s' (EventID ev)) ->
  (prunable s' (EventID ev) -> prunable s (EventID ev) \/ lowSeverity ev = true) ->
  (forall id, id <> EventID ev -> held s id -> held s' id \/ prunable s id) ->
  (forall id, id <> EventID ev -> pending s' id -> pending s id) ->
  (forall id, id <> EventID ev -> prunable s' id -> prunable s id) ->
  custodyOf id y c ->
  exists c', custodyStep tenant id (Offered ev ok) c c' /\
             custodyOf id (withAgent (withStore s' (sy_agent y)) (sy_batch y) y) c'.
Proof.
  intros s Hnew Hkeep Hlow Hoth Hpend Hprun [Hex Hc]. destruct c as [h x]. cbn in Hex, Hc.
  destruct (decide (EventID ev = id)) as [Hid|Hne].
  - assert (prunable s' id -> x || lowSeverity ev = true) as Hex'.
    { rewrite <- Hid. intros [Hp|Hl]%Hlow; [|by rewrite Hl, orb_true_r]. rewrite Hid in Hp. by rewrite Hex. }
    destruct (unclaimed h) eqn:Hu; eexists; (split; [by constructor|]); (split; [exact Hex'|]); cbn.
    + assert (~ queued (sy_stream y) id /\ ~ stored (w_pg (sy_worker y)) id) by (by destruct h; naive_solver).
      destruct ok; [|done]. split; [|done]. rewrite <- Hid. by apply Hnew.
    + destruct h; try done. destruct Hc as [Hheld ?]. split; [|done]. rewrite <- Hid. apply Hkeep. by rewrite Hid.
  - assert (id <> EventID ev) as Hne' by congruence.
    assert (prunable s' id -> x = true) as Hex' by auto.
    destruct h; try (eexists; split; [by apply c_other|]; split; [exact Hex'|exact Hc]).
    + eexists. split; [by apply c_other|]. split; [exact Hex'|]. cbn. destruct Hc as (? & ? & ? & ?).
      split_and!; auto.
    + destruct Hc as (Hheld & Hq & Hs). destruct (Hoth id Hne' Hheld) as [Hh|Hp].
      * eexists. split; [by apply c_other|]. by split_and!.
      * rewrite (Hex Hp). eexists. split; [by apply c_sacrifice|]. by split_and!.
Qed.

Lemma store_step e ev y y' o id c :
  codec_event ev -> sysInv y -> custodyOf id y c ->
  sysStep uuid_Parse Serialize Deserialize streamID (DoStore e ev) y = (y', o) ->
  sysInv y' /\ exists c', custodyStep tenant id o c c' /\ custodyOf id y' c'.
Proof.
  intros Hgood Hinv Hcu. cbn. destruct (storage_Store e _ ev) as [[s' ev'] res] eqn:H. intros [= <- <-].
  destruct Hinv as [Hok Hc ? ? ? ? ? ?] eqn:Hi. clear Hi.
  destruct (law_store_contents _ _ _ _ _ _ Hgood Hok Hc H) as (Hc' & Hpk & Hlow).
  destruct (law_store _ _ _ _ _ _ Hok H) as (Hok' & _ & Hdead & Hk & Hn & Hx & Hres).
  split; [by apply agent_inv|]. apply offer_custody; try done.
  - intros Hr. destruct res; [done|exact Hres].
  - intros [?|?]; [left; auto|right; by rewrite Hdead].
  - intros id' Hne [Hp|Hd]; [|left; right; by rewrite Hdead]. destruct (Hk id' Hne Hp); [left; by left|by right].
Qed.

Lemma deadLetter_step e ev ft fr y y' o id c :
  sysInv y -> custodyOf id y c ->
  sysStep uuid_Parse Serialize Deserialize streamID (DoDeadLetter e ev ft fr) y = (y', o) ->
  sysInv y' /\ exists c', custodyStep tenant id o c c' /\ custodyOf id y' c'.
Proof.
  intros Hinv Hcu. cbn. destruct (storage_MoveToDLQ e _ ev ft fr) as [s' res] eqn:H. intros [= <- <-].
  destruct Hinv as [Hok Hc ? ? ? ? ? ?] eqn:Hi. clear Hi.
  pose proof (law_dlq_contents _ _ _ _ _ _ _ Hok Hc H) as Hc'.
  destruct (law_dlq _ _ _ _ _ _ _ Hok H) as (Hok' & Hoth & Hx & Hn & Hd & Hp & Hres).
  split; [by apply agent_inv|]. apply offer_custody; try done; auto.
  - intros Hr. destruct res; [done|]. right. by apply Hres.
  - intros [?|?]; [by apply Hp|right; auto].
  - intros id' Hne [Hp'|Hd']; left; [left|right]; by apply (Hoth id' Hne).
Qed.

Lemma fetch_step e y y' o id c :
  sysInv y -> custodyOf id y c ->
  sysStep uuid_Parse Serialize Deserialize streamID (DoFetch e) y = (y', o) ->
  sysInv y' /\ exists c', custodyStep tenant id o c c' /\ custodyOf id y' c'.
Proof.
  intros Hinv Hcu. cbn. destruct (storage_GetPendingEvents e _ 50) as [s' res] eqn:H.
  pose proof (iv_ok _ Hinv) as Hok. pose proof (iv_contents _ Hinv) as Hc.
  destruct (law_batch _ _ _ _ _ Hok Hc H) as (Hc' & Hx & Hb).
  destruct (law_pending _ _ _ _ _ Hok H) as (Hok' & Hk & _ & Hn).
  destruct res as [evs|err]; intros [= <- <-];
    (split; [apply agent_inv; try done; apply List.Forall_forall; intros x Hin%list_elem_of_In; by apply Hb|]);
    exists c; (split; [constructor|]); apply agent_custody; try done; try exact (Hk id); auto.
  - intros (ev & -> & Hev)%list_elem_of_fmap. left. by apply Hb.
  - by intros ?%elem_of_nil.
Qed.

(** A longer stream of acceptable entries. *)
Lemma stream_inv y data k ev :
  sysInv y -> Deserialize data = Ok ev -> queueable data ->
  sysInv {| sy_agent := sy_agent y; sy_batch := sy_batch y; sy_stream := sy_stream y ++ replicate (1 + k) data;
            sy_worker := sy_worker y |}.
Proof.
  intros [Hok Hc Ht Hst Hlog Hack Hcl Hba] Hd Hq. split; cbn [sy_agent sy_batch sy_stream sy_worker] in *; try done.
  - apply Forall_app. by split; [|apply Forall_replicate].
  - intros i ok' Hin. destruct (Hlog i ok' Hin) as (m & -> & Hm). exists m. rewrite length_app. split; [done|lia].
  - intros m d x ok' Hm Hdx Hin. apply lookup_app_Some in Hm as [Hm|[Hge _]]; [by eapply Hack|].
    destruct (Hlog _ _ Hin) as (j & Hj%(inj streamID) & Hlt). subst j. lia.
Qed.

(** Sending: the event may arrive at the server, in which case its custody
    goes to the stream. *)
Lemma send_step e request n y y' o id c :
  sysInv y -> custodyOf id y c ->
  sysStep uuid_Parse Serialize Deserialize streamID (DoSend e request n) y = (y', o) ->
  sysInv y' /\ exists c', custodyStep tenant id o c c' /\ custodyOf id y' c'.
Proof.
  intros Hinv Hcu. unfold sysStep. destruct (sy_batch y) as [|ev batch] eqn:Hbatch.
  { intros [= <- <-]. split; [done|]. exists c. split; [constructor|done]. }
  pose proof (iv_batch _ Hinv) as Hgood. rewrite Hbatch in Hgood. apply Forall_cons in Hgood as [Hgood Hrest].
  unfold sendOne.
  assert (forall st r, match wirePayload Serialize (sy_agent y) ev request with
                       | Some payload => transmit uuid_Parse Serialize Deserialize n (fw_tenantID (fs_forwarder (sy_agent y))) payload (sy_stream y)
                       | None => (sy_stream y, Err (ErrNew "not sent"))
                       end = (st, r) ->
    (st = sy_stream y /\ forall x, r = Ok x -> StatusCode x <> 202) \/
    exists data k ev', st = sy_stream y ++ replicate (1 + k) data /\ Deserialize data = Ok ev' /\ keyOf ev' = (tenant, EventID ev) /\ queueable data) as Hwire.
  { intros st r. unfold wirePayload. rewrite (iv_tenant _ Hinv).
    destruct (TenantID ev =s tenant); cbn [negb]; [|intros [= <- <-]; by left].
    destruct (Serialize ev) as [payload|] eqn:Hs; [|intros [= <- <-]; by left].
    destruct request; [intros [= <- <-]; by left|]. apply transmit_cases; [|done]. apply Hgood. }
  destruct (match wirePayload _ _ _ _ with Some _ => _ | None => _ end) as [st r] eqn:Hr.
  intros [= <- <-]. specialize (Hwire _ _ eq_refl).
  pose proof (send_store e request n (sy_agent y) ev r (iv_ok _ Hinv) (iv_contents _ Hinv)) as Hsend. cbv zeta in Hsend.
  set (a := sendEvent _ _ _ _) in *. destruct Hsend as (Hok & Hc & Ht & Hp & Hx & Hh).
  assert (sysInv (withAgent a batch y)) as Hagent by by apply agent_inv.
  assert (id ∈ map EventID batch -> pending (fs_store (sy_agent y)) id \/ id ∈ map EventID (sy_batch y)) as Hb
    by (rewrite Hbatch; right; by right).
  destruct Hwire as [[-> Hcode]|(data & k & ev' & -> & Hd & Hid & Hq)].
  { split; [exact Hagent|]. exists c. split; [constructor|].
    apply (agent_custody y a batch); try done; auto.
    intros Hheld. destruct (Hh id Hheld) as [?|(_ & _ & x & Hx1 & Hx2)]; [done|]. by destruct (Hcode x). }
  split; [exact (stream_inv (withAgent a batch y) data k ev' Hagent Hd Hq)|].
  destruct c as [h x]. destruct Hcu as [Hex Hcu]. cbn in Hex, Hcu.
  destruct (decide (EventID ev = id)) as [He|Hne].
  - assert (queued (sy_stream y ++ replicate (1 + k) data) id) as Hqd by (apply queued_added; right; exists ev'; by rewrite Hid, He).
    destruct h.
    + destruct Hcu as (_ & Hnb & _). destruct Hnb. rewrite Hbatch. cbn. rewrite He. by left.
    + eexists. split; [apply c_handover; by left|]. split; cbn; [auto|]. naive_solver.
    + eexists. split; [apply c_silent|]. split; cbn; [auto|]. naive_solver.
    + eexists. split; [apply c_silent|]. split; cbn; [auto|done].
    + eexists. split; [apply c_handover; by right|]. split; cbn; [auto|]. naive_solver.
  - assert (queued (sy_stream y ++ replicate (1 + k) data) id <-> queued (sy_stream y) id) as Hqi.
    { rewrite queued_added. split; [|by left]. intros [?|(z & Hz & Hzi)]; [done|]. simplify_eq. congruence. }
    assert (held (fs_store (sy_agent y)) id -> held (fs_store a) id) as Hh'.
    { intros Hheld. destruct (Hh id Hheld) as [?|(? & _)]; [done|congruence]. }
    eexists. split; [apply c_silent|]. split; cbn; [auto|].
    destruct h; cbn; rewrite ?Hqi; try done; [|naive_solver].
    destruct Hcu as (? & ? & ? & ?). split_and!; try done; [auto|]. intros [?|?]%Hb; auto.
Qed.

(** The worker processes an entry: a new row is in the custody of the
    database. *)
Lemma process_step n env rc idle y y' o id c :
  sysInv y -> custodyOf id y c ->
  sysStep (S := S) (E := E) uuid_Parse Serialize Deserialize streamID (DoProcess n env rc idle) y = (y', o) ->
  sysInv y' /\ exists c', custodyStep tenant id o c c' /\ custodyOf id y' c'.
Proof.
  intros Hinv Hcu. unfold sysStep. destruct (sy_stream y !! n) as [data|] eqn:Hn.
  2:{ intros [= <- <-]. split; [done|]. exists c. split; [constructor|done]. }
  pose proof (proj1 (Forall_lookup _ _) (iv_stream _ Hinv) n data Hn) as (ev & Hd & Hv).
  destruct (process_cases env (sy_worker y) (streamID n) data ev rc idle Hd Hv) as [Hpg Hlog].
  set (w := processMessage _ _ _ _ _ _ _ _) in *. clearbody w. intros [= <- <-].
  destruct Hinv as [Hok Hc Ht Hst Hids Hack Hcl Hba]. split.
  { split; cbn; try done.
    - intros i ok Hin. destruct Hlog as [Hl|(ok' & Hl & _)]; rewrite Hl in Hin; [by eapply Hids|].
      apply elem_of_app in Hin as [Hin|[= -> ->]%list_elem_of_singleton]; [by eapply Hids|].
      exists n. split; [done|]. by eapply lookup_lt_Some.
    - intros m d x ok Hm Hdx Hin.
      assert (forall k, is_Some (pg_events (w_pg (sy_worker y)) !! k) -> is_Some (pg_events (w_pg w) !! k)) as Hmono.
      { intros k. destruct Hpg as [->|[_ ->]]; [done|]. rewrite lookup_insert_is_Some'. by right. }
      destruct Hlog as [Hl|(ok' & Hl & Hs)]; rewrite Hl in Hin; [by eapply Hmono, Hack|].
      apply elem_of_app in Hin as [Hin|[= Heq ->]%list_elem_of_singleton]; [by eapply Hmono, Hack|].
      apply (inj streamID) in Heq as ->. rewrite Hn in Hm. injection Hm as <-. by rewrite Hd in Hdx; simplify_eq.
    - intros entry ok Hin. destruct Hlog as [Hl|(ok' & Hl & _)]; rewrite Hl in Hin; [by eapply Hcl|].
      apply elem_of_app in Hin as [Hin|?%list_elem_of_singleton]; [by eapply Hcl|done]. }
  destruct (insertedBy_cases data ev (w_pg (sy_worker y)) (w_pg w) id Hd Hpg) as [(Hk & -> & Hno & Hyes)|[Hobs Hs]].
  - assert (queued (sy_stream y) id) as Hq by by exists n, data, ev.
    destruct c as [h x]. destruct Hcu as [Hex Hcu]. cbn in Hex, Hcu. destruct h; cbn in Hcu.
    + by destruct Hcu as (_ & _ & [] & _).
    + by destruct Hcu as (_ & [] & _).
    + eexists. split; [apply c_insert|]. by split.
    + done.
    + by destruct Hcu as [[] _].
  - exists c. split; [destruct Hobs as [->|(k & -> & Hk)]; by constructor|].
    destruct Hcu as [Hex Hcu]. split; [done|]. cbn. destruct (cu_holder c); rewrite ?Hs; done.
Qed.

(** The agent's events are what the codec asks for, and another client never
    sends this event: what it sends was decoded from some text. *)
Definition otherClients (id : string) (i : Input E) : Prop :=
  match i with
  | DoStore _ ev => codec_event ev
  | DoOther r _ _ => forall ev, req_event r = Decoded ev -> (exists text, Deserialize text = Ok ev) /\ keyOf ev <> (tenant, id)
  | _ => True
  end.

Lemma other_step r now xadd y y' o id c :
  otherClients id (DoOther r now xadd) -> sysInv y -> custodyOf id y c ->
  sysStep (S := S) (E := E) uuid_Parse Serialize Deserialize streamID (DoOther r now xadd) y = (y', o) ->
  sysInv y' /\ exists c', custodyStep tenant id o c c' /\ custodyOf id y' c'.
Proof.
  intros Hother Hinv Hcu. unfold sysStep. destruct (ServeHTTP _ _ _ _ _ _) as [st code] eqn:Hs. intros [= <- <-]. cbn [fst].
  apply serve_cases in Hs as [[-> _]|(ev & data & k & Hev & _ & Hv & Hser & ->)].
  { split; [by apply (agent_inv y); destruct Hinv|]. exists c. split; [constructor|]. by apply (agent_custody y); auto. }
  destruct (Hother ev Hev) as [[text Htext] Hkey]. destruct (codec_image _ _ Htext) as [Hgood Hseq].
  destruct (codec_decodes _ _ (codec_received now ev Hgood) Hser) as (ev' & Hev' & Hid' & Hten' & Hwf' & _). apply Validate_wf in Hv as [Hp Hw].
  split.
  { apply (stream_inv y data k ev' Hinv Hev'). exists ev'. split; [done|]. apply Validate_complete; [by rewrite Hid'|auto]. }
  exists c. split; [constructor|]. destruct Hcu as [Hex Hcu]. split; [done|]. cbn.
  assert (queued (sy_stream y ++ replicate (1 + k) data) id <-> queued (sy_stream y) id) as Hqi.
  { rewrite queued_added. split; [|by left]. intros [?|(z & Hz & Hzk)]; [done|]. rewrite Hev' in Hz. simplify_eq.
    destruct Hkey. rewrite <- Hzk. unfold keyOf. by rewrite Hid', Hten'. }
  destruct (cu_holder c); rewrite ?Hqi; done.
Qed.

Lemma sys_step_refines i y y' o id c :
  otherClients id i -> sysInv y -> custodyOf id y c ->
  sysStep uuid_Parse Serialize Deserialize streamID i y = (y', o) ->
  sysInv y' /\ exists c', custodyStep tenant id o c c' /\ custodyOf id y' c'.
Proof.
  intros Hi. destruct i; [cbn in Hi|..]; eauto using store_step, deadLetter_step, fetch_step, send_step, process_step, other_step.
  intros Hinv Hcu. cbn. intros [= <- <-]. split; [by apply (agent_inv y); destruct Hinv|].
  exists c. split; [constructor|]. apply (agent_custody y); auto. by intros ?%elem_of_nil.
Qed.

Lemma sys_run_refines inputs y y' obs id c :
  Forall (otherClients id) inputs -> sysInv y -> custodyOf id y c ->
  sysRun uuid_Parse Serialize Deserialize streamID inputs y = (y', obs) ->
  sysInv y' /\ exists c', custodyRun tenant id obs c c' /\ custodyOf id y' c'.
Proof.
  intros Hall. revert y c obs. induction Hall as [|i inputs Hi _ IH]; intros y c obs Hinv Hcu; cbn [sysRun].
  { intros [= <- <-]. split; [done|]. exists c. split; [constructor|done]. }
  destruct (sysStep _ _ _ _ i y) as [y1 o] eqn:H1. destruct (sysRun _ _ _ _ inputs y1) as [y2 obs2] eqn:H2.
  intros [= <- <-]. destruct (sys_step_refines _ _ _ _ _ _ Hi Hinv Hcu H1) as (Hinv1 & c1 & Hs1 & Hc1).
  destruct (IH _ _ _ Hinv1 Hc1 H2) as (Hinv2 & c2 & Hs2 & Hc2). split; [done|].
  exists c2. split; [by econstructor|done].
Qed.
End Refinement.

(** *** What the specification promises *)

Section Promises.
Context (tenant id : string).

(** Offers and insertions of the event itself. *)
Definition offersOf (obs : list Observation) (ev : CanonicalEvent) : Prop :=
  exists ok, Offered ev ok ∈ obs /\ EventID ev = id.

Definition isInsertion (o : Observation) : bool :=
  match o with Inserted k => bool_decide (k = (tenant, id)) | _ => false end.

Definition insertions (obs : list Observation) : nat := length (List.filter isInsertion obs).

Lemma offersOf_cons o obs ev : offersOf obs ev -> offersOf (o :: obs) ev.
Proof. intros (ok & ? & ?). exists ok. split; [by right|done]. Qed.

(** Who may hold the event after an insertion or not. *)
Lemma custodyStep_insertion o c c' :
  custodyStep tenant id o c c' ->
  (cu_holder c = Database -> cu_holder c' = Database /\ isInsertion o = false) /\
  (isInsertion o = true -> cu_holder c' = Database).
Proof.
  intros H. destruct H; cbn; rewrite ?bool_decide_eq_true, ?bool_decide_eq_false; try naive_solver.
Qed.

Lemma insertions_once obs c c' :
  custodyRun tenant id obs c c' ->
  (insertions obs <= 1)%nat /\ (cu_holder c = Database -> insertions obs = 0%nat).
Proof.
  induction 1 as [|o obs c1 c2 c3 Hs _ [IH1 IH2]]; [split; [cbn; lia|done]|].
  destruct (custodyStep_insertion _ _ _ Hs) as [Hdb Hins]. unfold insertions in *. cbn [List.filter].
  destruct (isInsertion o) eqn:Ho; cbn [length].
  - rewrite (IH2 (Hins eq_refl)). split; [lia|]. intros Hd. by destruct (Hdb Hd).
  - split; [done|]. intros Hd. by apply IH2, Hdb.
Qed.

(** An event that nobody holds is not inserted before it is offered. *)
Lemma no_phantom obs c c' :
  custodyRun tenant id obs c c' -> cu_holder c = Nobody ->
  (exists ev, offersOf obs ev) \/ (insertions obs = 0%nat /\ cu_holder c' = Nobody).
Proof.
  induction 1 as [|o obs c1 c2 c3 Hs _ IH]; intros Hn; [by right|].
  assert ((exists ev ok, o = Offered ev ok /\ EventID ev = id) \/ (isInsertion o = false /\ cu_holder c2 = Nobody))
    as [(ev & ok & -> & He)|[Ho H2]].
  { destruct Hs; cbn in *; subst; try naive_solver.
    right. split; [|done]. apply bool_decide_eq_false. congruence. }
  - left. exists ev, ok. split; [left|done].
  - destruct (IH H2) as [(ev & Hev)|[Hi H3]]; [left; exists ev; by apply offersOf_cons|right].
    unfold insertions in *. cbn [List.filter]. by rewrite Ho.
Qed.

(** An event in custody stays in custody unless it is expendable. *)
Lemma custodyStep_kept o c c' :
  custodyStep tenant id o c c' -> cu_expendable c = false ->
  (forall ev ok, o = Offered ev ok -> EventID ev = id -> lowSeverity ev = false) ->
  cu_expendable c' = false /\
  (unclaimed (cu_holder c) = false \/ (exists ev, o = Offered ev true /\ EventID ev = id) ->
   unclaimed (cu_holder c') = false).
Proof.
  intros H Hx Hlow. destruct H as [c|h x Hh|ev ok c Hne|ev ok Hne|ev ok h x He Hu|ev ok h x He Hu|x|i c Hi]; cbn in *.
  - split; [done|]. by intros [?|(? & ? & _)].
  - done.
  - split; [done|]. intros [?|(? & [= -> _] & ?)]; [done|congruence].
  - done.
  - rewrite Hx, (Hlow ev ok eq_refl He). split; [done|]. intros [?|(? & [= _ ->] & _)]; [congruence|done].
  - rewrite Hx, (Hlow ev ok eq_refl He). done.
  - done.
  - split; [done|]. by intros [?|(? & ? & _)].
Qed.

Lemma never_lost obs c c' :
  custodyRun tenant id obs c c' -> cu_expendable c = false ->
  (forall ev, offersOf obs ev -> lowSeverity ev = false) ->
  unclaimed (cu_holder c) = false \/ (exists ev, Offered ev true ∈ obs /\ EventID ev = id) ->
  unclaimed (cu_holder c') = false.
Proof.
  induction 1 as [c|o obs c1 c2 c3 Hs _ IH]; intros Hx Hlow Hin.
  { destruct Hin as [?|(? & ?%elem_of_nil & _)]; done. }
  destruct (custodyStep_kept _ _ _ Hs Hx) as [Hx2 Hk].
  { intros ev ok -> He. apply Hlow. exists ok. split; [left|done]. }
  apply IH; [done| |].
  - intros ev Hev. by apply Hlow, offersOf_cons.
  - destruct Hin as [?|(ev & Hin & He)]; [left; auto|].
    apply elem_of_cons in Hin as [<-|Hin]; [left; apply Hk; right; by exists ev|right; by exists ev].
Qed.
End Promises.

(** *** Starting states *)

Section Start.
Context {S E : Type} `{HS : Storage S E, HL : !StorageLaws S E}.

(** Nothing queued, nothing acknowledged, no round under way. *)
Definition startSystem (f : Forwarder) (s : S) (pg : PG) : System S :=
  {| sy_agent := {| fs_forwarder := f; fs_store := s; fs_exchanges := [] |}; sy_batch := []; sy_stream := [];
     sy_worker := {| w_pg := pg; w_log := [] |} |}.

Lemma start_inv uuid_Parse Serialize Deserialize `{HC : !EventCodec Serialize Deserialize}
    `{HT : !StorageContents S E (codec_event (EventCodec := HC))} streamID f s pg :
  storage_ok s -> contents_ok s -> sysInv uuid_Parse Serialize Deserialize streamID (fw_tenantID f) (startSystem f s pg).
Proof. intros Hok Hc. split; cbn; try done; intros; set_solver. Qed.

Lemma start_custody Deserialize f s pg id :
  ~ pending s id -> ~ prunable s id -> ~ stored (fw_tenantID f) pg id ->
  custodyOf Deserialize (fw_tenantID f) id (startSystem f s pg) unknownEvent.
Proof.
  intros Hp Hx Hs. split; [done|]. cbn. split_and!; try done; [by intros ?%elem_of_nil|]. by intros (n & d & ev & ? & _).
Qed.

(** A round of the forwarder is these steps: fetch, one send per event until
    the context is done. *)
Lemma round_is_processPending uuid_Parse Serialize Deserialize streamID e (sends : list (E * option error * Network)) (y : System S) :
  exists inputs, fs_store (sy_agent (sysRun uuid_Parse Serialize Deserialize streamID
      (DoFetch e :: map (fun x => DoSend x.1.1 x.1.2 x.2) sends ++ [DoAbandon]) y).1) =
    fs_store (processPending Serialize e inputs (sy_agent y)) /\ length inputs = length sends.
Proof.
  cbn [sysRun]. unfold processPending. cbn [sysStep].
  assert (forall sends (y : System S) evs, sy_batch y = evs ->
    exists inputs, sy_agent (sysRun uuid_Parse Serialize Deserialize streamID
      (map (fun x => DoSend x.1.1 x.1.2 x.2) sends ++ [DoAbandon]) y).1 = sendAll Serialize inputs (sy_agent y) evs /\
      length inputs = length sends) as Hsends.
  { clear. intros sends. induction sends as [|[[e r] n] sends IH]; intros y evs Hb; cbn [map app sysRun sysStep fst snd].
    { exists []. by destruct evs. }
    rewrite Hb. destruct evs as [|ev evs].
    - destruct (IH y [] Hb) as (inputs & Hi & Hl). destruct (sysRun _ _ _ _ _ y) as [y2 o2]. cbn in Hi |- *.
      exists ((true, {| si_env := e; si_request := r; si_response := Err (ErrNew ""); si_ctxCancelled := true |}) :: inputs).
      cbn. rewrite Hl. split; [|done]. rewrite Hi. by destruct inputs as [|[]].
    - unfold sendOne. destruct (match wirePayload _ _ _ _ with Some _ => _ | None => _ end) as [st resp].
      match goal with |- context [sysRun _ _ _ _ _ ?y2] => destruct (IH y2 evs eq_refl) as (inputs & Hi & Hl);
        destruct (sysRun uuid_Parse Serialize Deserialize streamID (map (fun x => DoSend x.1.1 x.1.2 x.2) sends ++ [DoAbandon]) y2) as [y3 o3] end.
      cbn in Hi |- *.
      exists ((false, {| si_env := e; si_request := r; si_response := resp; si_ctxCancelled := netCancelled n |}) :: inputs).
      cbn. rewrite Hl. split; [|done]. exact Hi. }
  destruct (storage_GetPendingEvents e (fs_store (sy_agent y)) 50) as [s' [evs|err]].
  - destruct (Hsends sends {| sy_agent := withStore s' (sy_agent y); sy_batch := evs; sy_stream := sy_stream y;
                              sy_worker := sy_worker y |} evs eq_refl) as (inputs & Hi & Hl).
    exists inputs. destruct (sysRun _ _ _ _ _ _) as [y2 o2]. cbn in Hi |- *. by rewrite Hi.
  - destruct (Hsends sends {| sy_agent := withStore s' (sy_agent y); sy_batch := []; sy_stream := sy_stream y;
                              sy_worker := sy_worker y |} [] eq_refl) as (inputs & Hi & Hl).
    exists inputs. destruct (sysRun _ _ _ _ _ _) as [y2 o2]. cbn in Hi |- *. rewrite Hi.
    split; [|done]. by destruct inputs as [|[]].
Qed.
End Start.

(** A valid event of the tenant that fits the body limit is queued and
    answered 202 when the server and its queue work. *)
Lemma accepted_transmit uuid_Parse Serialize Deserialize `{HC : !EventCodec Serialize Deserialize}
    tenant ev payload now body ra stream :
  tenant <> "" -> codec_event ev -> in_i64 (SeqNo ev) -> codec_clock now -> TenantID ev = tenant -> Event_Validate uuid_Parse ev = None -> Serialize ev = Ok payload ->
  go_len payload <= maxIngestBodyBytes ->
  exists data ev', transmit uuid_Parse Serialize Deserialize (Answered now xaddDone body ra) tenant payload stream
      = (stream ++ [data], Ok {| StatusCode := StatusAccepted; Body := body; RetryAfterHeader := ra |}) /\
    Deserialize data = Ok ev' /\ keyOf ev' = (tenant, EventID ev) /\ Event_Validate uuid_Parse ev' = None.
Proof.
  intros Hten Hgood Hseq Hnow Ht Hv Hser Hlen.
  destruct (codec_decodes _ _ Hgood Hser) as (ev1 & Hd1 & Hid1 & Ht1 & Hw1 & _ & Htotal).
  destruct (codec_image _ _ Hd1) as [Hgood1 Hseq1]. specialize (Hw1 Hseq).
  apply Validate_wf in Hv as [Hp Hw].
  assert (Event_Validate uuid_Parse (setReceivedAt now ev1) = None) as Hv1.
  { apply Validate_complete; [cbn; by rewrite Hid1|]. destruct (Hw1 Hw). by split. }
  specialize (Htotal _ Hnow). destruct (Serialize (setReceivedAt now ev1)) as [data|] eqn:Hdata; [|done].
  destruct (codec_decodes _ _ (codec_received now ev1 Hgood1) Hdata) as (ev2 & Hd2 & Hid2 & Ht2 & Hw2 & _). exists data, ev2. split_and!; [|done| |].
  - unfold transmit, ServeHTTP. cbn [ingestRequest req_Method req_tenant req_event req_trailing]. rewrite String.eqb_refl.
    cbn [negb]. rewrite (proj2 (String.eqb_neq _ _) Hten). unfold serverDecode. rewrite (proj2 (Z.ltb_ge _ _) Hlen), Hd1.
    rewrite Ht1, Ht, String.eqb_refl. cbn [negb]. by rewrite Hv1; unfold Publish; rewrite Hdata.
  - unfold keyOf. by rewrite Ht2, Hid2; cbn; rewrite Ht1, Hid1, Ht.
  - apply Validate_wf in Hv1 as [? ?]. apply Validate_complete; [by rewrite Hid2|auto].
Qed.

(** ** Properties *)

(** C1: The pipeline implements the custody specification.  In any run of the
    agent's store, the forwarder, the network (losing requests and answers),
    the ingest handler, the stream (executing an XADD, once or more, whose reply
    the handler does not see) and the worker, with any failures at any
    statement and in any interleaving, and next to any requests of other clients
    of any tenant that do not carry this event's id, if the agent's events are
    what the encoding asks for (for JSON: ids in valid UTF-8), the custody of every event
    moves only as the specification allows, and the machine's state agrees with
    it. *)
Theorem delivery_refines_custody {S E} `{HS : Storage S E, HL : !StorageLaws S E}
    uuid_Parse Serialize Deserialize `{HC : !EventCodec Serialize Deserialize}
    `{HT : !StorageContents S E (codec_event (EventCodec := HC))} streamID `{HJ : !Inj (=) (=) streamID}
    tenant id inputs (y : System S) y' obs c :
  Forall (otherClients Serialize Deserialize tenant id) inputs ->
  sysInv uuid_Parse Serialize Deserialize streamID tenant y -> custodyOf Deserialize tenant id y c ->
  sysRun uuid_Parse Serialize Deserialize streamID inputs y = (y', obs) ->
  sysInv uuid_Parse Serialize Deserialize streamID tenant y' /\
  exists c', custodyRun tenant id obs c c' /\ custodyOf Deserialize tenant id y' c'.
Proof. intros Ho Hi Hc Hr. by eapply sys_run_refines. Qed.

(** C2: At least once to the stream, exactly once to the database, and nothing
    from nowhere.  From a start where the event is unknown and the queue empty,
    in any run, next to any other clients: its row is inserted at most once, and
    only if it was offered to the agent's store; once an offer succeeded, and
    unless it was ever offered with a severity the quota may sacrifice, it is in
    the agent's store or dead-letter queue, in the stream and not acknowledged,
    or in the database; and the worker's dead-letter stream stays empty. *)
Theorem delivery_exactly_once {S E} `{HS : Storage S E, HL : !StorageLaws S E}
    uuid_Parse Serialize Deserialize `{HC : !EventCodec Serialize Deserialize}
    `{HT : !StorageContents S E (codec_event (EventCodec := HC))} streamID `{HJ : !Inj (=) (=) streamID}
    f (s : S) pg id inputs (y' : System S) obs :
  Forall (otherClients Serialize Deserialize (fw_tenantID f) id) inputs ->
  storage_ok s -> contents_ok s -> ~ pending s id -> ~ prunable s id -> ~ stored (fw_tenantID f) pg id ->
  sysRun uuid_Parse Serialize Deserialize streamID inputs (startSystem f s pg) = (y', obs) ->
  (insertions (fw_tenantID f) id obs <= 1)%nat /\
  (insertions (fw_tenantID f) id obs <> 0%nat -> exists ev, offersOf id obs ev) /\
  ((exists ev, Offered ev true ∈ obs /\ EventID ev = id) -> (forall ev, offersOf id obs ev -> lowSeverity ev = false) ->
   held (fs_store (sy_agent y')) id \/
   (exists n data ev, sy_stream y' !! n = Some data /\ Deserialize data = Ok ev /\ keyOf ev = (fw_tenantID f, id) /\
      forall ok, (XAck (streamID n), ok) ∉ w_log (sy_worker y')) \/
   stored (fw_tenantID f) (w_pg (sy_worker y')) id) /\
  forall entry ok, (XAddDLQ entry, ok) ∉ w_log (sy_worker y').
Proof.
  intros Hother Hok Hc Hp Hx Hs Hrun.
  destruct (sys_run_refines uuid_Parse Serialize Deserialize streamID (fw_tenantID f) inputs _ _ _ id unknownEvent Hother
    (start_inv uuid_Parse Serialize Deserialize streamID f s pg Hok Hc) (start_custody Deserialize f s pg id Hp Hx Hs) Hrun)
    as (Hinv & c & Hcr & Hcu).
  split_and!; [by apply (insertions_once _ _ _ _ _ Hcr)| | |apply (iv_clean _ _ _ _ _ _ Hinv)].
  - intros Hi. by destruct (no_phantom _ _ _ _ _ Hcr eq_refl) as [?|[? _]].
  - intros Hoff Hlow. pose proof (never_lost _ _ _ _ _ Hcr eq_refl Hlow (or_intror Hoff)) as Hkept.
    destruct Hcu as [_ Hcu]. destruct (cu_holder c); try done.
    + left. apply Hcu.
    + destruct Hcu as [(n & data & ev & Hn & Hd & He) Hns]. right. left. exists n, data, ev. split_and!; try done.
      intros ok Hin. destruct Hns. pose proof (iv_acked _ _ _ _ _ _ Hinv _ _ _ _ Hn Hd Hin) as Hst.
      by rewrite He in Hst.
    + by right; right.
Qed.

(** One good round trip is enough.  Wherever the machine is: if the forwarder's
    next event is a valid event of its tenant whose encoding fits the body
    limit, one answered request queues it, and processing that entry with a
    working database stores it and acknowledges the entry. *)
Theorem delivery_progress {S E} `{HS : Storage S E, HL : !StorageLaws S E}
    uuid_Parse Serialize Deserialize `{HC : !EventCodec Serialize Deserialize}
    `{HT : !StorageContents S E (codec_event (EventCodec := HC))} streamID
    tenant (y : System S) (e : E) ev batch payload now body ra env rc idle :
  tenant <> "" -> codec_event ev -> in_i64 (SeqNo ev) -> codec_clock now -> fw_tenantID (fs_forwarder (sy_agent y)) = tenant -> sy_batch y = ev :: batch ->
  TenantID ev = tenant -> Event_Validate uuid_Parse ev = None -> Serialize ev = Ok payload ->
  go_len payload <= maxIngestBodyBytes ->
  pe_begin (me_persist env) = None -> pe_insertEvent (me_persist env) = None ->
  pe_insertAlert (me_persist env) = None -> pe_commit (me_persist env) = None -> me_ackErr env = None ->
  let n := length (sy_stream y) in
  let y' := (sysRun uuid_Parse Serialize Deserialize streamID
               [DoSend e None (Answered now xaddDone body ra); DoProcess n env rc idle] y).1 in
  stored tenant (w_pg (sy_worker y')) (EventID ev) /\ (XAck (streamID n), true) ∈ w_log (sy_worker y').
Proof.
  intros Hten Hgood Hseq Hnow Hf Hb Ht Hv Hser Hlen Hbe Hie Hia Hco Hack n y'.
  destruct (accepted_transmit uuid_Parse Serialize Deserialize tenant ev payload now body ra (sy_stream y))
    as (data & ev2 & Htr & Hd2 & Hk & Hv2); [done..|].
  assert (exists y1, sysStep uuid_Parse Serialize Deserialize streamID (DoSend e None (Answered now xaddDone body ra)) y = (y1, Silent) /\
    sy_stream y1 = sy_stream y ++ [data] /\ sy_worker y1 = sy_worker y) as (y1 & H1 & Hst & Hwk).
  { unfold sysStep. rewrite Hb. unfold sendOne, wirePayload. rewrite Hf, Ht, String.eqb_refl. cbn [negb].
    rewrite Hser, Htr. by eexists. }
  assert (w_log (sy_worker y') = w_log (sy_worker y) ++ [(XAck (streamID n), true)] /\
          stored tenant (w_pg (sy_worker y')) (EventID ev)) as [Hl Hs].
  { subst y'. cbn [sysRun]. rewrite H1. unfold sysStep. rewrite Hst, Hwk. unfold n.
    rewrite list_lookup_middle by done. cbn [fst sy_worker]. unfold processMessage. cbn [msg_payload msg_ID].
    rewrite Hd2, Hv2.
    destruct (persist_works (me_persist env) (w_pg (sy_worker y)) ev2) as (b & pg' & Hpe & Hin);
      [done..|by eapply tooWide_validated|]. rewrite Hpe, Hack. cbn. split; [done|]. unfold stored. by rewrite <- Hk. }
  rewrite Hl. split; [done|]. apply elem_of_app. right. left.
Qed.

(** ** Examples: the SQLite store and a codec *)

Definition wireSerialize : CanonicalEvent -> result string := Event_Serialize utc.
Definition wireDeserialize : string -> result CanonicalEvent := Event_Deserialize ErrNew.

#[export] Instance wire_codec : EventCodec wireSerialize wireDeserialize := json_codec utc ErrNew.

Lemma sample_event id sev : plainText id -> codec_event (EventCodec := wire_codec) (sampleEvent id sev).
Proof. intros Hid. split; [exact Hid|by vm_compute|by split]. Qed.

Definition demoID (n : nat) : string := pretty n.

Definition demoStart : System SQLiteStorage :=
  startSystem (NewForwarder "http://api/" "tenant-1") freshStorage emptyPG.

Definition demoCall : CallEnv := {| ce_env := quietEnv; ce_quarantine := fun _ => quietEnv |}.

(** The answer to the first request is lost, the event is sent again and
    queued twice; the first attempt to persist it fails. *)
Definition laterCall : CallEnv :=
  {| ce_env := {| sqlErr := sqlErr quietEnv; commitApplied := commitApplied quietEnv; txCheckOk := txCheckOk quietEnv;
                  stat := stat quietEnv; now := now quietEnv + 1000; nowNano := nowNano quietEnv |};
     ce_quarantine := fun _ => quietEnv |}.

Definition demoInputs : list (Input CallEnv) :=
  [DoStore demoCall (sampleEvent "e1" "CRITICAL"); DoFetch demoCall;
   DoSend demoCall None (ReplyLost (ErrNew "connection reset") false 7 xaddDone);
   DoProcess 0 {| me_persist := {| pe_begin := Some (ErrNew "down"); pe_insertEvent := None; pe_insertAlert := None;
                                   pe_commit := None; pe_commitApplied := false; pe_alertID := "u"; pe_now := 0 |};
                  me_dlqErr := None; me_ackErr := None; me_now := 0 |} 1 0;
   DoOther {| req_Method := "POST"; req_tenant := "tenant-1"; req_event := Decoded (sampleEvent "e9" "INFO");
              req_trailing := DecodeEOF |} 8 xaddDone;
   DoFetch laterCall; DoSend laterCall None (Answered 9 xaddDone "" ""); DoProcess 0 calmMessage 2 0; DoProcess 2 calmMessage 1 0; DoProcess 1 calmMessage 1 0].

Lemma demo_others : Forall (otherClients wireSerialize wireDeserialize "tenant-1" "e1") demoInputs.
Proof.
  repeat apply List.Forall_cons; try exact I; try apply List.Forall_nil; [by apply sample_event; vm_compute|].
  intros ev [= <-]. split; [|done]. exists (match wireSerialize (sampleEvent "e9" "INFO") with Ok text => text | Err _ => "" end).
  vm_compute. reflexivity.
Qed.

Definition demoRun : System SQLiteStorage * list Observation :=
  sysRun (HS := sqlite_storage wireSerialize wireDeserialize) (fun _ => None) wireSerialize wireDeserialize demoID demoInputs demoStart.

Lemma demo_store : sqlite_ok freshStorage /\ sqlite_contents wireSerialize wireDeserialize freshStorage.
Proof.
  split; [exists freshDB; split; [done|apply freshDB_wf]|]. intros db id r ev [= <-] Hr.
  change (db_events freshDB) with (∅ : gmap string EventRow) in Hr. by rewrite lookup_empty in Hr.
Qed.

Lemma demo_nothing id : ~ sqlite_pending freshStorage id /\ ~ sqlite_prunable freshStorage id.
Proof.
  split; [intros (db & [= <-] & [r Hr])|intros (db & r & [= <-] & Hr & _)];
    change (db_events freshDB) with (∅ : gmap string EventRow) in Hr; by rewrite lookup_empty in Hr.
Qed.

Lemma delivery_refines_custody_witness :
  length demoRun.2 = 10%nat /\
  exists c, custodyRun "tenant-1" "e1" demoRun.2 unknownEvent c /\
    custodyOf (HL := sqlite_laws wireSerialize wireDeserialize) wireDeserialize "tenant-1" "e1" demoRun.1 c.
Proof.
  split; [vm_compute; reflexivity|].
  apply (delivery_refines_custody (HT := sqlite_contents_laws wireSerialize wireDeserialize) (fun _ => None) wireSerialize
    wireDeserialize demoID "tenant-1" "e1" demoInputs demoStart demoRun.1 demoRun.2 unknownEvent).
  - exact demo_others.
  - apply (start_inv (HL := sqlite_laws wireSerialize wireDeserialize) (HT := sqlite_contents_laws wireSerialize wireDeserialize)
      (fun _ => None) wireSerialize wireDeserialize demoID (NewForwarder "http://api/" "tenant-1") freshStorage emptyPG); apply demo_store.
  - apply (start_custody (HL := sqlite_laws wireSerialize wireDeserialize)
      wireDeserialize (NewForwarder "http://api/" "tenant-1") freshStorage emptyPG "e1"); [apply demo_nothing..|]. by intros [x Hx].
  - apply surjective_pairing.
Defined.

Lemma delivery_exactly_once_witness :
  length (sy_stream demoRun.1) = 3%nat /\ insertions "tenant-1" "e1" demoRun.2 = 1%nat /\
  exists ev, offersOf "e1" demoRun.2 ev.
Proof.
  split; [vm_compute; reflexivity|]. split; [vm_compute; reflexivity|].
  apply (delivery_exactly_once (HT := sqlite_contents_laws wireSerialize wireDeserialize) (fun _ => None) wireSerialize
    wireDeserialize demoID (NewForwarder "http://api/" "tenant-1") freshStorage emptyPG "e1" demoInputs demoRun.1 demoRun.2
    demo_others (proj1 demo_store) (proj2 demo_store)); [apply demo_nothing..| | |].
  - by intros [x Hx].
  - apply surjective_pairing.
  - vm_compute. discriminate.
Defined.

(** The machine with the event in the forwarder's hands. *)
Definition demoFetched : System SQLiteStorage :=
  (sysRun (HS := sqlite_storage wireSerialize wireDeserialize) (fun _ => None) wireSerialize wireDeserialize demoID
     [DoStore demoCall (sampleEvent "e1" "CRITICAL"); DoFetch demoCall] demoStart).1.

Definition demoFirst : CanonicalEvent := hd (sampleEvent "" "") (sy_batch demoFetched).
Definition demoPayload : string := match wireSerialize demoFirst with Ok text => text | Err _ => "" end.

Lemma delivery_progress_witness :
  let y' := (sysRun (HS := sqlite_storage wireSerialize wireDeserialize) (fun _ => None) wireSerialize wireDeserialize demoID
     [DoSend demoCall None (Answered 9 xaddDone "" ""); DoProcess 0 calmMessage 1 0] demoFetched).1 in
  stored "tenant-1" (w_pg (sy_worker y')) (EventID demoFirst) /\ (XAck (demoID 0), true) ∈ w_log (sy_worker y').
Proof.
  apply (delivery_progress (HT := sqlite_contents_laws wireSerialize wireDeserialize) (fun _ => None) wireSerialize
    wireDeserialize demoID "tenant-1" demoFetched demoCall demoFirst [] demoPayload 9 "" "" calmMessage 1 0);
    [vm_compute; discriminate| |split; vm_compute; discriminate|try (vm_compute; reflexivity)..].
  2: vm_compute; discriminate.
  split; [vm_compute; reflexivity..|]. split; [intros f Hf; vm_compute in Hf; discriminate|intros m Hm; vm_compute in Hm; discriminate].
Defined.
