(* ===== verification/Drain.v ===== *)
(** The backlog drains: how many rounds of the forwarder
    (agent/internal/forwarder/forwarder.go) against the SQLite store
    (agent/internal/storage/sqlite.go) it takes to deliver everything that is
    due, and that no event, whatever the server answers to it, holds up the
    others.

    The rounds take place at any times of a window.  An event that cannot be
    delivered becomes due again within it and takes places in several batches:
    [tries] counts how many, from the backoff of the retry schedule, and
    [total] is the sum over the rows, which every full batch lowers by its
    length. *)
From S2P Require Import Prelude GoStrings GoTime Events Storage StorageSpec RetryTime GoJson EventJson Interfaces Contents Forwarder Repository IngestApi IngestBody Worker Endpoint EndToEnd.

Local Open Scope list_scope.
Open Scope Z_scope.

(** ** One round *)

(** No statement fails, and the clock is not before [lo]. *)
Definition calm (lo : Z) (env : Env) : Prop := noSqlErrors env /\ lo <= now env /\ 0 <= nowNano env.
Definition calmCall (lo : Z) (e : CallEnv) : Prop := calm lo (ce_env e) /\ forall id, calm lo (ce_quarantine e id).

(** A request the server answers with a working queue. *)
Record GoodSend := { gs_call : CallEnv; gs_now : Time; gs_body : string; gs_retryAfter : string }.

Definition sendInput (g : GoodSend) : Input CallEnv :=
  DoSend (gs_call g) None (Answered (gs_now g) xaddDone (gs_body g) (gs_retryAfter g)).

Record GoodRound := { gr_fetch : CallEnv; gr_sends : list GoodSend }.

Definition roundInputs (r : GoodRound) : list (Input CallEnv) := DoFetch (gr_fetch r) :: map sendInput (gr_sends r).

(** An attempt of the worker at an entry of the stream. *)
Record Attempt := { at_entry : nat; at_env : MessageEnv; at_retries : Z; at_idle : Duration }.

Definition attemptInput (a : Attempt) : Input CallEnv := DoProcess (at_entry a) (at_env a) (at_retries a) (at_idle a).

(** No statement of the transaction fails. *)
Definition working (env : PersistEnv) : Prop :=
  pe_begin env = None /\ pe_insertEvent env = None /\ pe_insertAlert env = None /\ pe_commit env = None.

(** When the round reads its batch. *)
Definition fetchTime (r : GoodRound) : Z := now (ce_env (gr_fetch r)).

(** Every call is calm, the batch is read in the window from [t] to [e] and sent
    later than that, the server's clock can be written, and there are enough
    sends for a full batch. *)
Definition goodSend (clock : Time -> Prop) (f : Z) (g : GoodSend) : Prop := calmCall f (gs_call g) /\ clock (gs_now g).
Definition goodRound (clock : Time -> Prop) (t e : Z) (r : GoodRound) : Prop :=
  calmCall t (gr_fetch r) /\ fetchTime r <= e /\ Forall (goodSend clock (fetchTime r)) (gr_sends r) /\
  (50 <= length (gr_sends r))%nat.

Definition dueRows (t : Z) (db : DB) : list EventRow := matching (due t) (db_events db).

(** ** How often an event can be tried *)

(** An event that is due with [left] seconds to go, after [count] failures: each
    further failure puts it off by at least its backoff.  The fuel is enough,
    since that is at least a second. *)
Fixpoint triesFuel (fuel : nat) (count left : Z) : nat :=
  match fuel with
  | O => 0
  | S fuel =>
      if left <? 0 then 0
      else S (triesFuel fuel (nextAttemptCount count) (left - backoffSeconds (nextAttemptCount count)))
  end.

Definition tries (count left : Z) : nat := triesFuel (S (Z.to_nat left)) count left.

Definition dueFrom (t : Z) (r : EventRow) : Z :=
  match er_next_attempt_at r with None => t | Some n => Z.max t n end.

(** The places a row can take in the batches read between [t] and [e]. *)
Definition rowTries (t e : Z) (r : EventRow) : nat :=
  if due e r then tries (er_attempt_count r) (e - dueFrom t r) else 0.

Definition total (t e : Z) (m : gmap string EventRow) : nat := list_sum (rowTries t e <$> (map_to_list m).*2).

Lemma backoff_positive n : 0 <= n -> 1 <= backoffSeconds n.
Proof.
  intros Hn. unfold backoffSeconds, maxBackoffSeconds. destruct (10 <=? n); [lia|]. cbv zeta.
  destruct (_ <? _); [lia|]. rewrite Z.shiftl_mul_pow2 by done. pose proof (Z.pow_pos_nonneg 2 n). lia.
Qed.

Lemma next_backoff_positive n : 1 <= backoffSeconds (nextAttemptCount n).
Proof. apply backoff_positive, nextAttemptCount_range. Qed.

Lemma triesFuel_mono f1 f2 count l1 l2 :
  l2 < Z.of_nat f2 -> l1 <= l2 -> (triesFuel f1 count l1 <= triesFuel f2 count l2)%nat.
Proof.
  revert f2 count l1 l2. induction f1 as [|f1 IH]; intros f2 count l1 l2 H2 Hl; [cbn; lia|]. cbn [triesFuel].
  destruct (Z.ltb_spec l1 0); [lia|]. destruct f2 as [|f2]; [lia|]. cbn [triesFuel]. destruct (Z.ltb_spec l2 0); [lia|].
  pose proof (next_backoff_positive count). apply le_n_S, IH; lia.
Qed.

Lemma tries_mono count l1 l2 : l1 <= l2 -> (tries count l1 <= tries count l2)%nat.
Proof. intros Hl. apply triesFuel_mono; lia. Qed.

Lemma tries_next count left d :
  0 <= left -> backoffSeconds (nextAttemptCount count) <= d -> (tries (nextAttemptCount count) (left - d) < tries count left)%nat.
Proof.
  intros Hl Hd. unfold tries at 2. cbn [triesFuel]. destruct (Z.ltb_spec left 0); [lia|].
  pose proof (next_backoff_positive count). apply le_n_S, triesFuel_mono; lia.
Qed.

(** A backoff is of five seconds at least. *)
Lemma tries_bound count left : 0 <= left -> Z.of_nat (tries count left) <= 1 + left / 5.
Proof.
  unfold tries. generalize (S (Z.to_nat left)). intros fuel. revert count left.
  induction fuel as [|fuel IH]; intros count left Hl; cbn [triesFuel]; [pose proof (Z.div_pos left 5); lia|].
  destruct (Z.ltb_spec left 0); [lia|]. set (n := nextAttemptCount count).
  assert (5 <= backoffSeconds n) as Hb.
  { pose proof (nextAttemptCount_range count) as Hn. fold n in Hn. rewrite backoff_formula by lia. unfold exponentialBackoff, maxBackoffSeconds.
    pose proof (Z.pow_pos_nonneg 2 n). lia. }
  destruct (Z.leb_spec 0 (left - backoffSeconds n)) as [Hr|Hr].
  - pose proof (IH n _ Hr). pose proof (Z.div_le_mono (left - backoffSeconds n + 5) left 5 ltac:(lia) ltac:(lia)) as Hd.
    replace (left - backoffSeconds n + 5) with (left - backoffSeconds n + 1 * 5) in Hd by lia. rewrite Z.div_add in Hd by lia. lia.
  - pose proof (Z.div_pos left 5 Hl ltac:(lia)). destruct fuel; cbn [triesFuel]; [lia|]. destruct (Z.ltb_spec (left - backoffSeconds n) 0); lia.
Qed.

Lemma due_later f f' r : f <= f' -> due f r = true -> due f' r = true.
Proof. unfold due. intros Hf [-> H]%andb_true_iff. destruct (er_next_attempt_at r); [|done]. cbn. lia. Qed.

Lemma due_from t e r : t <= e -> due e r = true -> dueFrom t r <= e.
Proof. unfold due, dueFrom. intros Ht [_ H]%andb_true_iff. destruct (er_next_attempt_at r); lia. Qed.

Lemma due_live t e f r : t <= f <= e -> due f r = true -> (1 <= rowTries t e r)%nat.
Proof.
  intros Hf Hd. unfold rowTries. rewrite (due_later f e) by (done || lia).
  pose proof (due_from t f r ltac:(lia) Hd). unfold tries. cbn [triesFuel].
  destruct (Z.ltb_spec (e - dueFrom t r) 0); lia.
Qed.

(** A failure costs the row one of its tries. *)
Lemma rescheduled_tries t e now d r :
  t <= now -> due now r = true -> backoffSeconds (nextAttemptCount (er_attempt_count r)) <= d -> (1 <= rowTries t e r)%nat ->
  (rowTries t e (rescheduled (nextAttemptCount (er_attempt_count r)) (now + d) r) < rowTries t e r)%nat.
Proof.
  intros Ht Hd Hb Hlive. unfold rowTries in Hlive |- *. destruct (due e r) eqn:He; [|lia].
  pose proof (due_from t now r Ht Hd) as Hfrom. pose proof (next_backoff_positive (er_attempt_count r)).
  destruct (due e (rescheduled _ _ r)); [|lia]. change (er_attempt_count (rescheduled ?n _ _)) with n.
  assert (dueFrom t (rescheduled (nextAttemptCount (er_attempt_count r)) (now + d) r) = now + d) as -> by (unfold dueFrom; cbn; lia).
  assert (0 <= e - dueFrom t r) as Hl.
  { unfold tries in Hlive. cbn [triesFuel] in Hlive. destruct (Z.ltb_spec (e - dueFrom t r) 0); lia. }
  eapply Nat.le_lt_trans; [apply (tries_mono _ _ (e - dueFrom t r - d)); lia|]. by apply tries_next.
Qed.

Lemma total_delete t e m id r : m !! id = Some r -> total t e m = (rowTries t e r + total t e (delete id m))%nat.
Proof. intros Hr. unfold total. rewrite <- (map_to_list_delete m id r Hr). done. Qed.

Lemma total_insert t e m id r r' :
  m !! id = Some r -> (total t e (<[id := r']> m) + rowTries t e r = total t e m + rowTries t e r')%nat.
Proof.
  intros Hr. rewrite (total_delete t e m id r Hr), (total_delete t e (<[id := r']> m) id r') by by rewrite lookup_insert_eq.
  rewrite delete_insert_eq. lia.
Qed.

Lemma total_none t e db : keyed (db_events db) -> t <= e -> total t e (db_events db) = 0%nat -> dueRows t db = [].
Proof.
  intros Hk Ht H0. destruct (dueRows t db) as [|r l] eqn:E; [done|]. assert (r ∈ dueRows t db) as Hr by (rewrite E; left).
  apply matching_elem in Hr as [Hd [id Hr]]. rewrite (total_delete t e _ _ _ Hr) in H0.
  pose proof (due_live t e t r ltac:(lia) Hd). lia.
Qed.

(** It is at most one try for each row that becomes due, and one more for every
    five seconds. *)
Lemma total_bound t e db :
  t <= e -> Z.of_nat (total t e (db_events db)) <= Z.of_nat (length (dueRows e db)) * (1 + (e - t) / 5).
Proof.
  intros Ht. unfold total, dueRows, matching. induction ((map_to_list (db_events db)).*2) as [|r l IH]; [done|].
  rewrite fmap_cons, filter_cons. cbn [list_sum fold_right]. unfold rowTries at 1.
  destruct (due e r) eqn:Hd; [|rewrite decide_False by done; unfold list_sum in IH; lia]. rewrite decide_True by done.
  pose proof (due_from t e r Ht Hd). pose proof (tries_bound (er_attempt_count r) (e - dueFrom t r) ltac:(lia)).
  assert (t <= dueFrom t r) by (unfold dueFrom; destruct (er_next_attempt_at r); lia).
  pose proof (Z.div_le_mono (e - dueFrom t r) (e - t) 5 ltac:(lia) ltac:(lia)). cbn [length]. unfold list_sum in IH. lia.
Qed.

(** ** The store in a calm moment *)
Lemma retryDelay_backoff nano count : 0 <= nano -> backoffSeconds count <= retryDelay nano count 0.
Proof. intros Hn. unfold retryDelay. cbn. pose proof (Z.rem_bound_pos nano 10 Hn ltac:(lia)). lia. Qed.

Lemma moveRaw_calm env db id dev seq payload ft fr :
  noSqlErrors env -> db_dlq db !! id = None ->
  exists db', moveRawToDLQLocked env db id dev seq payload ft fr = (db', None) /\ movedToDLQ db db' id seq payload.
Proof.
  intros Hno Hd. destruct (moveRaw_spec env db id dev seq payload ft fr) as (db' & res & Hm & _ & Hok).
  assert (res = None) as ->; [|by exists db'; auto].
  unfold moveRawToDLQLocked in Hm. rewrite !Hno, Hd in Hm. by simplify_eq.
Qed.

Lemma quarantine_calm envs db rows :
  (forall id, noSqlErrors (envs id)) -> NoDup (er_event_id <$> rows) ->
  (forall r, r ∈ rows -> db_dlq db !! er_event_id r = None) -> exists db', quarantine envs db rows = (db', None).
Proof.
  intros Hno. revert db. induction rows as [|r rows IH]; intros db Hnd Hd; [by eexists|]. cbn [quarantine].
  destruct (moveRaw_calm (envs (er_event_id r)) db (er_event_id r) (er_device_id r) (er_seq_no r) (er_payload r)
    "local_deserialization_error" "Failed to deserialize JSON" (Hno _) (Hd r ltac:(left))) as (db' & -> & [_ _ _ Hoth _]).
  apply NoDup_cons in Hnd as [Hr Hnd]. apply IH; [done|]. intros x Hx. rewrite Hoth; [apply Hd; by right|].
  intros Heq. apply Hr. rewrite <- Heq. by apply list_elem_of_fmap_2.
Qed.

(** An initialised store whose tables are [db]. *)
Definition storeAt (Serialize : CanonicalEvent -> result string) (Deserialize : string -> result CanonicalEvent)
    (s : SQLiteStorage) (db : DB) : Prop :=
  s_db s = Some db /\ wfDB (deviceID s) db /\ sqlite_contents Serialize Deserialize s.

(** The events [ids] are gone or put off, each at the cost of a try, and nothing
    else changed. *)
Record served (t e : Z) (ids : list string) (db db' : DB) : Prop := {
  sv_others : forall id, id ∉ ids -> db_events db' !! id = db_events db !! id;
  sv_notDue : forall id r, id ∈ ids -> db_events db' !! id = Some r -> due t r = false;
  sv_rows : rowsFrom db db';
  sv_total : (total t e (db_events db') + length ids <= total t e (db_events db))%nat;
}.

Lemma served_trans t e l1 l2 db1 db2 db3 :
  served t e l1 db1 db2 -> served t e l2 db2 db3 -> served t e (l1 ++ l2) db1 db3.
Proof.
  intros [O1 N1 R1 T1] [O2 N2 R2 T2]. split.
  - intros id [H1 H2]%not_elem_of_app. by rewrite O2, O1.
  - intros id r Hin Hr. destruct (decide (id ∈ l2)); [by eapply N2|]. rewrite O2 in Hr by done.
    apply elem_of_app in Hin as [?|?]; [by eapply N1|done].
  - intros id r (r2 & H2 & Hp2 & Hs2)%R2. destruct (R1 _ _ H2) as (r1 & H1 & Hp1 & Hs1). exists r1. split_and!; congruence.
  - rewrite length_app. lia.
Qed.

Lemma served_ids t e l1 l2 db db' : l1 ≡ₚ l2 -> served t e l1 db db' -> served t e l2 db db'.
Proof.
  intros Hp [Ho Hn Hr Ht]. split; [|intros id r; rewrite <- Hp; apply Hn|done|by rewrite <- Hp]. intros id. rewrite <- Hp. apply Ho.
Qed.

Lemma served_nil t e db : served t e [] db db.
Proof. split; [done|by intros id r ?%elem_of_nil|apply rowsFrom_refl|cbn; lia]. Qed.

Lemma deleteRows_total t e ids m :
  NoDup ids -> (forall id, id ∈ ids -> exists r, m !! id = Some r /\ (1 <= rowTries t e r)%nat) ->
  (total t e (deleteRows ids m) + length ids <= total t e m)%nat.
Proof.
  revert m. induction ids as [|id ids IH]; intros m Hnd Hl; [cbn; lia|]. apply NoDup_cons in Hnd as [Hid Hnd].
  destruct (Hl id ltac:(left)) as (r & Hr & H1). rewrite <- deleteRows_delete. rewrite (total_delete t e m id r Hr). cbn [length].
  enough (total t e (deleteRows ids (delete id m)) + length ids <= total t e (delete id m))%nat by lia.
  apply IH; [done|]. intros i Hi. destruct (Hl i ltac:(by right)) as (x & Hx & H2). exists x. split; [|done].
  rewrite lookup_delete_ne; [done|]. by intros ->.
Qed.

Lemma served_deleted t e ids db db' :
  NoDup ids -> (forall id, id ∈ ids -> exists r, db_events db !! id = Some r /\ (1 <= rowTries t e r)%nat) ->
  db_events db' = deleteRows ids (db_events db) -> served t e ids db db'.
Proof.
  intros Hnd Hl He. split.
  - intros i Hi. by rewrite He, deleteRows_lookup, decide_False.
  - intros i r Hi. by rewrite He, deleteRows_lookup, decide_True.
  - apply rowsFrom_sub. rewrite He. apply deleteRows_subseteq.
  - rewrite He. by apply deleteRows_total.
Qed.

Lemma served_one t e id r db db' :
  db_events db !! id = Some r -> (1 <= rowTries t e r)%nat -> db_events db' = deleteRows [id] (db_events db) ->
  served t e [id] db db'.
Proof.
  intros Hr Hl He. apply served_deleted; [apply NoDup_singleton| |done]. intros i ->%list_elem_of_singleton. by exists r.
Qed.

(** Nothing becomes due by being served. *)
Lemma served_notDue t e ids db db' :
  served t e ids db db' -> keyed (db_events db) -> keyed (db_events db') -> dueRows t db = [] -> dueRows t db' = [].
Proof.
  intros [Ho Hn _ _] Hk Hk' Hnil. destruct (dueRows t db') as [|r l] eqn:E; [done|].
  assert (r ∈ dueRows t db') as Hr by (rewrite E; left). apply matching_elem in Hr as [Hd [id Hr]].
  destruct (decide (id ∈ ids)) as [Hin|Hin]; [by rewrite (Hn id r Hin Hr) in Hd|]. rewrite Ho in Hr by done.
  assert (r ∈ dueRows t db) as Hx by (apply matching_elem; eauto). by rewrite Hnil in Hx; apply elem_of_nil in Hx.
Qed.

(** What is gone stays gone. *)
Lemma served_gone t e ids db db' id : served t e ids db db' -> db_events db !! id = None -> db_events db' !! id = None.
Proof.
  intros [_ _ Hr _] Hn. destruct (db_events db' !! id) as [r|] eqn:Hid; [|done].
  destruct (Hr _ _ Hid) as (x & Hx & _). congruence.
Qed.

Section Draining.
Context (uuid_Parse : string -> option error) (Serialize : CanonicalEvent -> result string)
        (Deserialize : string -> result CanonicalEvent) `{HC : !EventCodec Serialize Deserialize}.
Context (streamID : nat -> string) (tenant : string) (t e : Z).

Context (Htenant : tenant <> "").

#[local] Hint Extern 0 (Storage SQLiteStorage CallEnv) => exact (sqlite_storage Serialize Deserialize) : typeclass_instances.
#[local] Hint Extern 0 (StorageLaws SQLiteStorage CallEnv) => exact (sqlite_laws Serialize Deserialize) : typeclass_instances.
#[local] Hint Extern 0 (StorageContents SQLiteStorage CallEnv _) => exact (sqlite_contents_laws Serialize Deserialize) : typeclass_instances.
#[local] Abbreviation St := (storeAt Serialize Deserialize).
#[local] Abbreviation clock := (codec_clock (EventCodec := HC)).

(** *** The three outcomes of a send *)
Lemma storeAt_set s db db' :
  St s db -> wfDB (deviceID s) db' -> rowsFrom db db' -> St (setDB db' s) db'.
Proof.
  intros (Hdb & _ & Hc) Hwf Hr. split_and!; [done|done|].
  by eapply (rowsFrom_keeps Serialize Deserialize s (setDB db' s)).
Qed.

Lemma remove_serves env s db id r :
  noSqlErrors env -> St s db -> db_events db !! id = Some r -> (1 <= rowTries t e r)%nat ->
  exists db', (RemoveEvent env s id).1 = setDB db' s /\ St (setDB db' s) db' /\
    served t e [id] db db' /\ db_events db' !! id = None.
Proof.
  intros Hno Hs Hr Hl. pose proof Hs as (Hdb & Hwf & _). unfold RemoveEvent. rewrite Hdb, Hno.
  eexists. split; [done|].
  assert (served t e [id] db (setEvents (delete id (db_events db)) db)) as Hsv by by eapply served_one.
  split_and!; [|done|by cbn; rewrite lookup_delete_eq].
  apply (storeAt_set s db); [done|by apply wf_delete|apply Hsv].
Qed.

Lemma dlq_serves env s db ev ft fr r :
  noSqlErrors env -> St s db -> is_ok (Serialize ev) = true -> db_events db !! EventID ev = Some r -> (1 <= rowTries t e r)%nat ->
  exists db', (MoveToDLQ Serialize env s ev ft fr).1 = setDB db' s /\ St (setDB db' s) db' /\ served t e [EventID ev] db db'.
Proof.
  intros Hno Hs Hser Hr Hl. pose proof Hs as (Hdb & Hwf & _). unfold MoveToDLQ.
  destruct (Serialize ev) as [payload|]; [|done]. rewrite Hdb.
  assert (db_dlq db !! EventID ev = None) as Hd.
  { destruct (db_dlq db !! EventID ev) eqn:Hq; [|done]. destruct (wf_dlq _ _ Hwf _ _ Hq). congruence. }
  destruct (moveRaw_calm env db (EventID ev) (deviceID s) (SeqNo ev) payload ft fr Hno Hd) as (db' & Hm & Hmv).
  pose proof (moveRaw_wf env (deviceID s) db (EventID ev) (SeqNo ev) payload ft fr Hwf) as Hwf'.
  rewrite Hm in *. cbn [fst] in *.
  assert (served t e [EventID ev] db db') as Hsv by (eapply served_one; [done..|apply (mv_events _ _ _ _ _ Hmv)]).
  exists db'. split_and!; [done| |done]. apply (storeAt_set s db); [done|done|apply Hsv].
Qed.

Lemma failed_serves env s db id r :
  calm t env -> St s db -> db_events db !! id = Some r -> due (now env) r = true -> (1 <= rowTries t e r)%nat ->
  exists db', (MarkFailed env s id 0).1 = setDB db' s /\ St (setDB db' s) db' /\ served t e [id] db db'.
Proof.
  intros (Hno & Hnow & Hnano) Hs Hr Hdue Hl. pose proof Hs as (Hdb & Hwf & _). unfold MarkFailed. rewrite Hdb, !Hno, Hr.
  eexists. split; [done|]. set (row := rescheduled _ _ r).
  assert (served t e [id] db (setEvents (<[id := row]> (db_events db)) db)) as Hsv.
  { pose proof (retryDelay_backoff (nowNano env) (nextAttemptCount (er_attempt_count r)) Hnano) as Hd.
    pose proof (next_backoff_positive (er_attempt_count r)). split; cbn [setEvents db_events].
    - intros i Hi%not_elem_of_cons. rewrite lookup_insert_ne; [done|]. by destruct Hi.
    - intros i x ->%list_elem_of_singleton. rewrite lookup_insert_eq. intros [= <-]. unfold due, row. cbn [rescheduled er_next_attempt_at].
      rewrite (proj2 (Z.leb_gt _ _)) by lia. apply andb_false_r.
    - intros i x. cbn. rewrite lookup_insert_Some. intros [[<- <-]|[_ ?]]; [by exists r|by exists x].
    - pose proof (total_insert t e _ _ _ row Hr). pose proof (rescheduled_tries t e (now env) _ r Hnow Hdue Hd Hl). fold row in H1.
      cbn [length]. lia. }
  split; [|done]. apply (storeAt_set s db); [done|by apply wf_markFailed|apply Hsv].
Qed.

(** The server never answers with the status that sets a delay. *)
Lemma serve_code xadd gnow stream req stream' code :
  ServeHTTP uuid_Parse Serialize gnow xadd stream req = (stream', code) -> code ∈ [202; 400; 405; 413; 500].
Proof. unfold ServeHTTP, Publish. repeat case_match; intros [= <- <-]; set_solver. Qed.

(** *** One send *)

(** An event the server can accept. *)
Definition sendable (ev : CanonicalEvent) : Prop :=
  TenantID ev = tenant /\ Event_Validate uuid_Parse ev = None /\
  exists payload, Serialize ev = Ok payload /\ go_len payload <= maxIngestBodyBytes.

(** An entry of the stream that the worker will store as event [id]. *)
Definition accepted (stream : list string) (id : string) : Prop :=
  exists n data ev, stream !! n = Some data /\ Deserialize data = Ok ev /\ keyOf ev = (tenant, id) /\
    Event_Validate uuid_Parse ev = None.

(** Whatever the answer was, the event is gone or put off. *)
Lemma sendEvent_serves (inp : SendInput CallEnv) (st : ForwardState SQLiteStorage) ev db r :
  calm t (ce_env (si_env inp)) -> St (fs_store st) db -> is_ok (Serialize ev) = true ->
  db_events db !! EventID ev = Some r -> due (now (ce_env (si_env inp))) r = true -> (1 <= rowTries t e r)%nat ->
  (forall resp, si_response inp = Ok resp -> retryAfterOf resp = 0) ->
  exists db', St (fs_store (sendEvent Serialize inp st ev)) db' /\ served t e [EventID ev] db db'.
Proof.
  intros Hcalm Hs Hser Hr Hdue Hl Hresp. unfold sendEvent. cbn [storage_MoveToDLQ storage_MarkFailed storage_RemoveEvent sqlite_storage].
  pose proof (proj1 Hcalm) as Hno.
  pose proof (fun ft fr => dlq_serves _ (fs_store st) db ev ft fr r Hno Hs Hser Hr Hl) as Hdlq.
  pose proof (failed_serves _ (fs_store st) db (EventID ev) r Hcalm Hs Hr Hdue Hl) as (dbf & Hfm & Hfs & Hfv).
  pose proof (remove_serves _ (fs_store st) db (EventID ev) r Hno Hs Hr Hl) as (dbr & Hrm & Hrs & Hrv & _).
  repeat case_match; cbn [fs_store]; try discriminate;
    try match goal with |- context [retryAfterOf ?x] => rewrite (Hresp x) by done end;
    first [ match goal with |- context [MoveToDLQ _ _ _ _ ?ft ?fr] => destruct (Hdlq ft fr) as (db' & -> & ? & ?) end; by exists db'
          | rewrite Hfm; by exists dbf
          | rewrite Hrm; by exists dbr ].
Qed.

(** No answer of the handler asks for a delay. *)
Lemma answered_retry gnow xadd body ra st payload (stream stream' : list string) response resp :
  transmit uuid_Parse Serialize Deserialize (Answered gnow xadd body ra) st payload stream = (stream', response) ->
  response = Ok resp -> retryAfterOf resp = 0.
Proof.
  unfold transmit. destruct (ServeHTTP _ _ _ _ _ _) as [st' code] eqn:E. intros [= <- <-] [= <-].
  apply serve_code, list_elem_of_In in E. unfold retryAfterOf. cbn in E |- *. by destruct E as [<-|[<-|[<-|[<-|[<-|[]]]]]].
Qed.

Lemma sendOne_serves f g (st st' : ForwardState SQLiteStorage) stream stream' ev db r :
  t <= f <= e -> goodSend clock f g -> fw_tenantID (fs_forwarder st) = tenant -> St (fs_store st) db ->
  is_ok (Serialize ev) = true -> (exists text, Deserialize text = Ok ev) ->
  db_events db !! EventID ev = Some r -> due f r = true ->
  sendOne uuid_Parse Serialize Deserialize (gs_call g) None
    (Answered (gs_now g) xaddDone (gs_body g) (gs_retryAfter g)) st stream ev = (st', stream') ->
  exists db', St (fs_store st') db' /\ served t e [EventID ev] db db' /\ fw_tenantID (fs_forwarder st') = tenant /\
    stream `prefix_of` stream' /\
    (sendable ev -> accepted stream' (EventID ev) /\ db_events db' !! EventID ev = None).
Proof.
  intros Hwin [[Hcalm _] Hclock] Hf Hs Hser [text Htext] Hr Hdue. destruct (codec_image _ _ Htext) as [Hgood Hseq]. unfold sendOne.
  pose proof (due_live t e f r Hwin Hdue) as Hl. destruct Hcalm as (Hno & Hnow & Hnano).
  destruct (match wirePayload _ _ _ _ with Some _ => _ | None => _ end) as [stream1 response] eqn:Hw.
  intros [= <- <-].
  match goal with |- context [sendEvent Serialize ?i st ev] => set (inp := i) end.
  destruct (sendEvent_serves inp st ev db r) as (db' & Hs' & Hsv); try done.
  { split_and!; [done|cbn; lia|done]. }
  { by apply (due_later f). }
  { cbn [si_response inp]. intros resp Hresp. destruct (wirePayload _ _ _ _); [|by simplify_eq]. by eapply answered_retry. }
  assert (fw_tenantID (fs_forwarder (sendEvent Serialize inp st ev)) = tenant) as Hf'.
  { rewrite <- Hf. destruct Hs as (? & ? & _).
    by destruct (sendEvent_result Serialize inp st ev) as [_ [-> _] _ _ _ _ _]; [by exists db|]. }
  exists db'. split_and!; try done.
  - unfold wirePayload in Hw. destruct (negb _); [by simplify_eq|].
    destruct (Serialize ev) as [payload|] eqn:Hp; [|by simplify_eq].
    rewrite Hf in Hw. destruct (transmit_cases uuid_Parse Serialize Deserialize tenant _ _ _ _ _ _ Hgood Hp Hw) as [[-> _]|(d & k & _ & -> & _)];
      [done|by apply prefix_app_r].
  - intros (Ht & Hv & payload & Hp & Hlen). unfold wirePayload in Hw. rewrite Hf, Ht, String.eqb_refl, Hp in Hw. cbn [negb] in Hw.
    destruct (accepted_transmit uuid_Parse Serialize Deserialize tenant ev payload (gs_now g) (gs_body g) (gs_retryAfter g) stream)
      as (data & ev' & Htr & Hd & Hk & Hv'); try done.
    rewrite Htr in Hw. injection Hw as <- <-. split.
    { exists (length stream), data, ev'. by rewrite list_lookup_middle. }
    destruct (remove_serves (ce_env (gs_call g)) (fs_store st) db (EventID ev) r Hno Hs Hr Hl) as (dbr & Hrm & _ & _ & Hgone).
    assert (fs_store (sendEvent Serialize inp st ev) = setDB dbr (fs_store st)) as Heq.
    { unfold sendEvent. cbn [si_request si_response inp StatusCode]. rewrite Hf, Ht, String.eqb_refl, Hp. exact Hrm. }
    destruct Hs' as [Hdb' _]. rewrite Heq in Hdb'. cbn in Hdb'. by injection Hdb' as <-.
Qed.

(** *** One batch *)

#[local] Abbreviation runs inputs y := (sysRun (HS := sqlite_storage Serialize Deserialize) uuid_Parse Serialize Deserialize streamID inputs y).1.

Lemma runs_app l1 l2 (y : System SQLiteStorage) : runs (l1 ++ l2) y = runs l2 (runs l1 y).
Proof.
  revert y. induction l1 as [|i l1 IH]; intros y; [done|]. cbn [app sysRun].
  destruct (sysStep _ _ _ _ i y) as [y1 o]. specialize (IH y1).
  destruct (sysRun _ _ _ _ (l1 ++ l2) y1), (sysRun _ _ _ _ l1 y1). exact IH.
Qed.

Lemma runs_cons i l (y : System SQLiteStorage) :
  runs (i :: l) y = runs l (sysStep (HS := sqlite_storage Serialize Deserialize) uuid_Parse Serialize Deserialize streamID i y).1.
Proof. cbn [sysRun]. destruct (sysStep _ _ _ _ i y) as [y1 o]. cbn [fst]. by destruct (sysRun _ _ _ _ l y1). Qed.

(** The machine went from [y] to [y'] and its tables from [db] to [db']. *)
Record progress (ids : list string) (y y' : System SQLiteStorage) (db db' : DB) : Prop := {
  gp_at : St (fs_store (sy_agent y')) db';
  gp_tenant : fw_tenantID (fs_forwarder (sy_agent y')) = tenant;
  gp_stream : sy_stream y `prefix_of` sy_stream y';
  gp_served : served t e ids db db';
}.

Definition delivered (y : System SQLiteStorage) (db : DB) (id : string) : Prop :=
  accepted (sy_stream y) id /\ db_events db !! id = None.

Lemma progress_trans l1 l2 y1 y2 y3 db1 db2 db3 :
  progress l1 y1 y2 db1 db2 -> progress l2 y2 y3 db2 db3 -> progress (l1 ++ l2) y1 y3 db1 db3.
Proof. intros [_ _ P1 S1] [A2 T2 P2 S2]. split; [done|done|by etrans|by eapply served_trans]. Qed.

Lemma progress_delivered l y y' db db' id : progress l y y' db db' -> delivered y db id -> delivered y' db' id.
Proof.
  intros [_ _ [more Hs] Hsv] [(n & data & ev & Hn & Hd & Hk & Hv) Hg]. split; [|by eapply served_gone].
  exists n, data, ev. split_and!; try done. rewrite Hs. by apply lookup_app_l_Some.
Qed.

Lemma sends_serve f gs evs (y : System SQLiteStorage) db :
  t <= f <= e -> Forall (goodSend clock f) gs -> (length evs <= length gs)%nat -> sy_batch y = evs ->
  fw_tenantID (fs_forwarder (sy_agent y)) = tenant -> St (fs_store (sy_agent y)) db -> NoDup (EventID <$> evs) ->
  (forall ev, ev ∈ evs -> ((exists text, Deserialize text = Ok ev) /\ is_ok (Serialize ev) = true) /\
     exists r, db_events db !! EventID ev = Some r /\ due f r = true) ->
  exists db', progress (EventID <$> evs) y (runs (map sendInput gs) y) db db' /\
    forall ev, ev ∈ evs -> sendable ev -> delivered (runs (map sendInput gs) y) db' (EventID ev).
Proof.
  intros Hwin Hgs. revert evs y db. induction Hgs as [|g gs Hg Hgs IH]; intros evs y db Hlen Hb Hf Hs Hnd Hev.
  { destruct evs; [|cbn in Hlen; lia]. exists db. split; [split; [done..|apply served_nil]|by intros ? ?%elem_of_nil]. }
  cbn [map]. rewrite runs_cons. change (sendInput g) with (DoSend (gs_call g) None (Answered (gs_now g) xaddDone (gs_body g) (gs_retryAfter g))).
  cbn [sysStep]. rewrite Hb. destruct evs as [|ev evs].
  { apply IH; try done. cbn. lia. }
  destruct (Hev ev ltac:(left)) as [[Htext Hser] (r & Hr & Hdue)].
  destruct (sendOne _ _ _ _ _ _ _ _ _) as [st' stream'] eqn:Hsend. cbn [fst].
  destruct (sendOne_serves f g (sy_agent y) st' (sy_stream y) stream' ev db r Hwin Hg Hf Hs Hser) as (db1 & Hs1 & Hsv1 & Hf1 & Hpre & Hdel); [done..|].
  apply NoDup_cons in Hnd as [Hne Hnd].
  match goal with |- context [runs (map sendInput gs) ?z] => set (y1 := z) end.
  assert (progress [EventID ev] y y1 db db1) as Hp1 by by split.
  destruct (IH evs y1 db1) as (db' & Hp & Hq); [cbn in Hlen; lia|done..| |].
  { intros x Hx. destruct (Hev x ltac:(by right)) as [? ?]. split; [done|].
    rewrite (sv_others _ _ _ _ _ Hsv1); [done|]. intros Heq%list_elem_of_singleton. apply Hne. rewrite <- Heq.
    by apply list_elem_of_fmap_2. }
  exists db'. split; [exact (progress_trans [EventID ev] _ _ _ _ _ _ _ Hp1 Hp)|].
  intros x [->|Hx]%elem_of_cons Hx'; [|by apply Hq].
  eapply progress_delivered; [done|]. by apply Hdel.
Qed.

(** *** One round *)
Lemma split_permutation (l : list EventRow) :
  filter (fun r => decodes Deserialize r = false) l ++ filter (fun r => decodes Deserialize r = true) l ≡ₚ l.
Proof.
  induction l as [|r l IH]; [done|]. destruct (decodes Deserialize r) eqn:Hd.
  - rewrite filter_cons_False, filter_cons_True by congruence. by rewrite <- Permutation_middle, IH.
  - rewrite filter_cons_True, (filter_cons_False _ r) by congruence. cbn. by rewrite IH.
Qed.

Lemma decoded_ids s db good evs :
  St s db -> (forall r, r ∈ good -> db_events db !! er_event_id r = Some r) ->
  Forall2 (fun r ev => Deserialize (er_payload r) = Ok ev) good evs -> EventID <$> evs = er_event_id <$> good.
Proof.
  intros (Hdb & _ & Hc) Hin H. induction H as [|r ev good evs Hr _ IH]; [done|]. cbn.
  rewrite (proj1 (Hc _ _ _ _ Hdb (Hin r ltac:(left)) Hr)), IH; [done|]. intros x Hx. apply Hin. by right.
Qed.

(** The rows of the batch that do not decode are dead-lettered, the others
    are the forwarder's batch. *)
Lemma fetch_serves c (y : System SQLiteStorage) db :
  calmCall t c -> now (ce_env c) <= e -> fw_tenantID (fs_forwarder (sy_agent y)) = tenant -> St (fs_store (sy_agent y)) db ->
  let batch := selectBySeq (due (now (ce_env c))) 50 (db_events db) in
  let y1 := (sysStep (HS := sqlite_storage Serialize Deserialize) uuid_Parse Serialize Deserialize streamID (DoFetch c) y).1 in
  exists db1 bad,
    progress bad y y1 db db1 /\ bad ++ (EventID <$> sy_batch y1) ≡ₚ er_event_id <$> batch /\
    (forall ev, ev ∈ sy_batch y1 <-> exists r, r ∈ batch /\ Deserialize (er_payload r) = Ok ev).
Proof.
  intros [(Hno & Hnow & _) Hq] Hend Hf Hs batch y1. pose proof Hs as (Hdb & Hwf & _).
  assert (forall r, r ∈ batch -> db_events db !! er_event_id r = Some r) as Hrows.
  { intros r [_ [id Hr]]%select_elem. by rewrite (wf_keyed _ _ Hwf _ _ Hr). }
  pose proof (select_nodup (due (now (ce_env c))) 50 _ (wf_keyed _ _ Hwf)) as Hnd. fold batch in Hnd.
  destruct (decodeRows_spec Deserialize batch) as [Hgood Hbad].
  set (bad := filter (fun r => decodes Deserialize r = false) batch) in *.
  assert (forall r, r ∈ bad -> r ∈ batch) as Hsub by (by intros r [_ ?]%list_elem_of_filter).
  assert (NoDup (er_event_id <$> bad)) as Hndb.
  { rewrite <- (split_permutation batch), fmap_app in Hnd. by apply NoDup_app in Hnd as [? _]. }
  destruct (quarantine_calm (ce_quarantine c) db bad) as [db1 Hqr]; [apply Hq|done| |].
  { intros r Hr. destruct (db_dlq db !! er_event_id r) eqn:Hd; [|done]. destruct (wf_dlq _ _ Hwf _ _ Hd).
    rewrite (Hrows r) in *; [done|by apply Hsub]. }
  pose proof (quarantine_wf (deviceID (fs_store (sy_agent y))) (ce_quarantine c) db bad Hwf) as Hwf1.
  rewrite Hqr in Hwf1. cbn [fst] in Hwf1.
  assert (sy_batch y1 = (decodeRows Deserialize batch).1 /\ progress (er_event_id <$> bad) y y1 db db1) as [Hb Hp].
  { subst y1. cbn [sysStep storage_GetPendingEvents sqlite_storage]. unfold GetPendingEvents. rewrite Hdb, !Hno.
    fold batch. destruct (decodeRows Deserialize batch) as [evs bad']. cbn [fst snd] in Hbad |- *. rewrite Hbad, Hqr.
    cbn [fst sy_batch]. split; [done|]. destruct (quarantine_spec _ _ _ _ Hndb Hqr) as [He _ _ _].
    assert (served t e (er_event_id <$> bad) db db1) as Hsv.
    { apply served_deleted; [done| |done]. intros id (x & -> & Hx)%list_elem_of_fmap. exists x.
      split; [by apply Hrows, Hsub|]. apply (due_live t e (now (ce_env c))); [lia|]. by apply Hsub, select_elem in Hx as [? _]. }
    split; [|done|done|done]. apply (storeAt_set _ db); [done| |apply Hsv].
    apply Hwf1. intros r Hr. eapply (wf_row _ _ Hwf). by apply Hrows, Hsub. }
  exists db1, (er_event_id <$> bad). split_and!; [done| |].
  - rewrite Hb, (decoded_ids _ _ _ _ Hs) with (2 := Hgood).
    + rewrite <- fmap_app. apply fmap_Permutation, split_permutation.
    + intros r [_ Hr]%list_elem_of_filter. by apply Hrows.
  - intros ev. rewrite Hb. split.
    + intros [i Hi]%list_elem_of_lookup_1. destruct (Forall2_lookup_r _ _ _ _ _ Hgood Hi) as (r & Hr & Hd).
      exists r. split; [|done]. by apply list_elem_of_lookup_2, list_elem_of_filter in Hr as [_ ?].
    + intros (r & Hr & Hd). assert (r ∈ filter (fun r => decodes Deserialize r = true) batch) as Hin.
      { apply list_elem_of_filter. split; [|done]. unfold decodes. by rewrite Hd. }
      apply list_elem_of_lookup_1 in Hin as [i Hi]. destruct (Forall2_lookup_l _ _ _ _ _ Hgood Hi) as (ev' & Hev & Hd').
      rewrite Hd in Hd'. injection Hd' as ->. by eapply list_elem_of_lookup_2.
Qed.

Lemma batch_clears f batch db db' :
  t <= f -> keyed (db_events db) -> keyed (db_events db') -> served t e (er_event_id <$> batch) db db' ->
  (forall r, due f r = true -> db_events db !! er_event_id r = Some r -> r ∈ batch) -> dueRows t db' = [].
Proof.
  intros Hf Hk Hk' [Ho Hn _ _] Hfull. destruct (dueRows t db') as [|r l] eqn:E; [done|].
  assert (r ∈ dueRows t db') as Hr by (rewrite E; left). apply matching_elem in Hr as [Hd [id Hr]].
  destruct (decide (id ∈ er_event_id <$> batch)) as [Hin|Hin]; [by rewrite (Hn id r Hin Hr) in Hd|]. rewrite Ho in Hr by done.
  destruct Hin. rewrite <- (Hk _ _ Hr). apply list_elem_of_fmap_2, Hfull; [by apply (due_later t)|]. by rewrite (Hk _ _ Hr).
Qed.

(** A round serves the oldest fifty events that are due; if they are fewer,
    nothing that was due stays so. *)
Lemma round_serves r (y : System SQLiteStorage) db :
  goodRound clock t e r -> fw_tenantID (fs_forwarder (sy_agent y)) = tenant -> St (fs_store (sy_agent y)) db ->
  let batch := selectBySeq (due (fetchTime r)) 50 (db_events db) in
  exists db', progress (er_event_id <$> batch) y (runs (roundInputs r) y) db db' /\
    (length batch = 50%nat \/ dueRows t db' = []) /\
    forall row ev, row ∈ batch -> Deserialize (er_payload row) = Ok ev -> sendable ev ->
      delivered (runs (roundInputs r) y) db' (er_event_id row).
Proof.
  intros (Hfe & Hend & Hse & Hlen) Hf Hs batch. unfold roundInputs. rewrite runs_cons.
  destruct (fetch_serves (gr_fetch r) y db Hfe Hend Hf Hs) as (db1 & bad & Hp & Hperm & Hin). fold (fetchTime r) in Hperm, Hin.
  fold batch in Hperm, Hin. assert (t <= fetchTime r <= e) as Hwin by (split; [apply Hfe|done]).
  set (y1 := (sysStep _ _ _ _ (DoFetch (gr_fetch r)) y).1) in *.
  pose proof Hs as (Hdb & Hwf & Hc).
  pose proof (select_nodup (due (fetchTime r)) 50 _ (wf_keyed _ _ Hwf)) as Hnd. fold batch in Hnd. rewrite <- Hperm in Hnd.
  apply NoDup_app in Hnd as (_ & Hdis & Hnd).
  assert (forall x ev, x ∈ batch -> Deserialize (er_payload x) = Ok ev -> db_events db !! EventID ev = Some x /\ EventID ev = er_event_id x) as Hid.
  { intros x ev [_ [id Hx]]%select_elem Hd. by rewrite (wf_keyed _ _ Hwf _ _ Hx), (proj1 (Hc _ _ _ _ Hdb Hx Hd)). }
  destruct (sends_serve (fetchTime r) (gr_sends r) (sy_batch y1) y1 db1) as (db' & Hp' & Hdel); [done|done| |done|apply Hp..|done| |].
  { etrans; [|exact Hlen]. apply Permutation_length in Hperm.
    rewrite length_app, !length_fmap in Hperm. pose proof (select_length (due (fetchTime r)) 50 (db_events db)). fold batch in H. lia. }
  { intros ev Hev. pose proof Hev as (x & Hx & Hd)%Hin. destruct (Hid _ _ Hx Hd) as [Hrow Heq].
    split; [split; [by eexists|]; by destruct (Hc _ _ _ _ Hdb Hrow Hd)|].
    rewrite (sv_others _ _ _ _ _ (gp_served _ _ _ _ _ Hp)).
    { exists x. split; [done|]. by apply select_elem in Hx as [? _]. }
    intros Hb. apply (Hdis _ Hb). by apply list_elem_of_fmap_2. }
  assert (progress (er_event_id <$> batch) y (runs (map sendInput (gr_sends r)) y1) db db') as Hall.
  { pose proof (progress_trans _ _ _ _ _ _ _ _ Hp Hp') as [? ? ? Hsv]. split; [done..|by eapply served_ids]. }
  exists db'. split_and!; [done| |].
  - destruct (select_full (due (fetchTime r)) 50 (db_events db)) as [?|Hfull]; [by left|right]. fold batch in Hfull.
    destruct Hall as [(_ & Hwf' & _) _ _ Hsv]. eapply batch_clears; [exact (proj1 Hwin)|apply Hwf|apply Hwf'|done|done].
  - intros row ev Hrow Hd Hsend. destruct (Hid _ _ Hrow Hd) as [_ <-]. apply Hdel; [|done]. apply Hin. by exists row.
Qed.

(** *** The backlog *)

Definition backlog (rounds : list GoodRound) : list (Input CallEnv) := concat (map roundInputs rounds).

(** Either some round left nothing due, or each of them had fifty tries. *)
Lemma backlog_run rounds (y : System SQLiteStorage) db :
  Forall (goodRound clock t e) rounds -> fw_tenantID (fs_forwarder (sy_agent y)) = tenant -> St (fs_store (sy_agent y)) db ->
  exists ids db', progress ids y (runs (backlog rounds) y) db db' /\
    (forall id r, id ∈ ids -> db_events db !! id = Some r -> due e r = true) /\
    (dueRows t db' = [] \/ (total t e (db_events db') + 50 * length rounds <= total t e (db_events db))%nat) /\
    forall id r ev, id ∈ ids -> db_events db !! id = Some r -> Deserialize (er_payload r) = Ok ev -> sendable ev ->
      delivered (runs (backlog rounds) y) db' id.
Proof.
  intros Hrs. revert y db. unfold backlog. induction Hrs as [|r rounds Hr Hrs IH]; intros y db Hf Hs.
  { exists [], db. split_and!; [by split; [..|apply served_nil]|by intros ? ? ?%elem_of_nil|right; cbn; lia|by intros ? ? ? ?%elem_of_nil]. }
  cbn [map concat]. rewrite runs_app. set (y1 := runs (roundInputs r) y) in *.
  destruct (round_serves r y db Hr Hf Hs) as (db1 & Hp & Hfull & Hdel). set (batch := selectBySeq _ _ _) in *.
  destruct (IH y1 db1 (gp_tenant _ _ _ _ _ Hp) (gp_at _ _ _ _ _ Hp)) as (ids & db' & Hp' & Hdue & Hlen & Hdel').
  pose proof Hs as (Hdb & Hwf & Hc). pose proof (gp_at _ _ _ _ _ Hp) as (_ & Hwf1 & _). pose proof (gp_at _ _ _ _ _ Hp') as (_ & Hwf' & _).
  assert (forall id x, id ∈ er_event_id <$> batch -> db_events db !! id = Some x -> x ∈ batch) as Hbatch.
  { intros id x (b & -> & Hb)%list_elem_of_fmap Hx. pose proof Hb as [_ [k Hk]]%select_elem.
    rewrite <- (wf_keyed _ _ Hwf _ _ Hk) in Hk. rewrite Hx in Hk. by injection Hk as ->. }
  exists ((er_event_id <$> batch) ++ ids), db'. split_and!.
  - exact (progress_trans _ _ _ _ _ _ _ _ Hp Hp').
  - intros id x Hin Hx. destruct (decide (id ∈ er_event_id <$> batch)) as [Hb|Hb].
    + apply (due_later (fetchTime r)); [apply Hr|]. by destruct (select_elem _ _ _ _ (Hbatch _ _ Hb Hx)).
    + apply elem_of_app in Hin as [?|Hin]; [done|]. apply (Hdue id); [done|].
      by rewrite (sv_others _ _ _ _ _ (gp_served _ _ _ _ _ Hp)).
  - destruct Hlen as [?|Hlen]; [by left|]. destruct Hfull as [H50|Hnil].
    + right. pose proof (sv_total _ _ _ _ _ (gp_served _ _ _ _ _ Hp)) as Ht. rewrite length_fmap, H50 in Ht. cbn [length]. lia.
    + left. eapply served_notDue; [apply Hp'|apply Hwf1|apply Hwf'|done].
  - intros id x ev Hin Hx Hd Hsend. destruct (decide (id ∈ er_event_id <$> batch)) as [Hb|Hb].
    + eapply progress_delivered; [exact Hp'|]. rewrite <- (wf_keyed _ _ Hwf _ _ Hx). eapply Hdel; [by eapply Hbatch|done..].
    + apply elem_of_app in Hin as [?|Hin]; [done|]. eapply Hdel'; [done| |done..].
      by rewrite (sv_others _ _ _ _ _ (gp_served _ _ _ _ _ Hp)).
Qed.

(** *** The worker *)
Lemma deadLetter_pg name env w id data reason stage rc idle : w_pg (deadLetter name env w id data reason stage rc idle) = w_pg w.
Proof. unfold deadLetter. by repeat case_match. Qed.

Lemma attempt_run a (y : System SQLiteStorage) :
  let y' := (sysStep (HS := sqlite_storage Serialize Deserialize) uuid_Parse Serialize Deserialize streamID (attemptInput a) y).1 in
  sy_agent y' = sy_agent y /\ sy_stream y' = sy_stream y /\
  pg_events (w_pg (sy_worker y)) ⊆ pg_events (w_pg (sy_worker y')) /\
  forall id data ev, working (me_persist (at_env a)) -> sy_stream y !! at_entry a = Some data -> Deserialize data = Ok ev ->
    keyOf ev = (tenant, id) -> Event_Validate uuid_Parse ev = None -> stored tenant (w_pg (sy_worker y')) id.
Proof.
  cbv zeta. cbn [sysStep attemptInput]. destruct (sy_stream y !! at_entry a) as [data|] eqn:Hn; [|by split_and!].
  cbn [fst sy_agent sy_stream sy_worker]. split_and!; [done|done| |].
  - unfold processMessage. cbn [msg_payload msg_ID].
    destruct (Deserialize data) as [ev|]; [|by rewrite deadLetter_pg].
    destruct (Event_Validate uuid_Parse ev); [by rewrite deadLetter_pg|].
    destruct (persist_cases (me_persist (at_env a)) (w_pg (sy_worker y)) ev) as (pg' & r & -> & Hcase & _).
    assert (pg_events (w_pg (sy_worker y)) ⊆ pg_events pg'); [|by destruct r].
    destruct Hcase as [->|(Hnone & -> & _)]; [done|]. by apply insert_subseteq.
  - intros id d ev (Hb & Hi & Ha & Hc) [= <-] Hd Hk Hv. unfold processMessage. cbn [msg_payload msg_ID]. rewrite Hd, Hv.
    destruct (persist_works (me_persist (at_env a)) (w_pg (sy_worker y)) ev) as (b & pg' & -> & Hin);
      [done..|by eapply tooWide_validated|]. cbn. unfold stored. by rewrite <- Hk.
Qed.

Lemma attempts_run l (y : System SQLiteStorage) :
  let y' := runs (map attemptInput l) y in
  sy_agent y' = sy_agent y /\ pg_events (w_pg (sy_worker y)) ⊆ pg_events (w_pg (sy_worker y')) /\
  forall a id data ev, a ∈ l -> working (me_persist (at_env a)) -> sy_stream y !! at_entry a = Some data ->
    Deserialize data = Ok ev -> keyOf ev = (tenant, id) -> Event_Validate uuid_Parse ev = None ->
    stored tenant (w_pg (sy_worker y')) id.
Proof.
  revert y. induction l as [|b l IH]; intros y y'; [split_and!; [done|done|by intros ? ? ? ? ?%elem_of_nil]|].
  subst y'. cbn [map]. rewrite runs_cons. destruct (attempt_run b y) as (Ha & Hst & Hsub & Hs).
  destruct (IH (sysStep uuid_Parse Serialize Deserialize streamID (attemptInput b) y).1) as (Ha' & Hsub' & Hs').
  split_and!; [congruence|by etrans|]. intros a id data ev [->|Hin]%elem_of_cons Hw Hn Hd Hk Hv; [|by eapply Hs'; rewrite ?Hst].
  destruct (Hs id data ev) as [row Hrow]; [done..|]. exists row. by eapply lookup_weaken.
Qed.
End Draining.

(** That rows encode again is needed: [MoveToDLQ] encodes the event, so one that
    does not encode is neither dead-lettered nor put off. *)
Lemma unencodable_stays Serialize Deserialize (inp : SendInput CallEnv) (st : ForwardState SQLiteStorage) ev err :
  Serialize ev = Err err -> sendEvent (HS := sqlite_storage Serialize Deserialize) Serialize inp st ev = st.
Proof.
  intros Hs. unfold sendEvent. cbn [storage_MoveToDLQ sqlite_storage]. unfold MoveToDLQ. rewrite Hs.
  by destruct (negb _), st.
Qed.

(** ** Properties *)

(** C3: The backlog drains.  Let the forwarder have uninterrupted rounds at any
    times of a window from [t] to [e], in which the store's statements succeed,
    the network delivers, the server queues what it accepts, and nothing new is
    stored.  An event that cannot be delivered (not decodable, of another tenant,
    invalid or oversized) is dead-lettered or due again after its backoff, so that
    it may take places in several batches.  [total t e] counts these places: none
    for a row not due by [e], at most 1 + (e - t) / 5 for each other one.  If the
    rounds have that many, 50 each, then none of the events due at [t] is left so,
    whatever the server answers to any of them: each is gone, or put off beyond
    [t].  The events not due by [e] are untouched; and once the worker has had one
    working attempt at every entry of the stream, amid any failing ones, every
    event due at [t] that the server can accept has left the agent and is in the
    database. *)
Theorem backlog_drains uuid_Parse Serialize Deserialize `{HC : !EventCodec Serialize Deserialize} streamID tenant t e
    (rounds : list GoodRound) (attempts : list Attempt) (y : System SQLiteStorage) db :
  tenant <> "" -> t <= e ->
  fw_tenantID (fs_forwarder (sy_agent y)) = tenant -> storeAt Serialize Deserialize (fs_store (sy_agent y)) db ->
  Forall (goodRound codec_clock t e) rounds -> (total t e (db_events db) <= 50 * length rounds)%nat ->
  let sysRun := sysRun (HS := sqlite_storage Serialize Deserialize) uuid_Parse Serialize Deserialize streamID in
  let y1 := (sysRun (backlog rounds) y).1 in
  (forall n, (n < length (sy_stream y1))%nat ->
     exists a, a ∈ attempts /\ at_entry a = n /\ working (me_persist (at_env a))) ->
  let y2 := (sysRun (map attemptInput attempts) y1).1 in
  exists db', s_db (fs_store (sy_agent y2)) = Some db' /\ dueRows t db' = [] /\
    (forall id r, db_events db !! id = Some r -> due e r = false -> db_events db' !! id = Some r) /\
    forall id r ev, db_events db !! id = Some r -> due t r = true -> Deserialize (er_payload r) = Ok ev ->
      sendable uuid_Parse Serialize tenant ev ->
      stored tenant (w_pg (sy_worker y2)) id /\ db_events db' !! id = None.
Proof.
  intros Hten Hwin Hf Hs Hrs Hlen run y1 Hatt y2.
  destruct (backlog_run uuid_Parse Serialize Deserialize streamID tenant t e Hten rounds y db Hrs Hf Hs)
    as (ids & db' & Hp & Hdue & Hlen' & Hdel). fold run y1 in Hp, Hdel.
  destruct (attempts_run uuid_Parse Serialize Deserialize streamID tenant attempts y1) as (Ha & _ & Hst). fold run y2 in Ha, Hst.
  pose proof (gp_served _ _ _ _ _ _ _ _ _ _ Hp) as Hsv. destruct (gp_at _ _ _ _ _ _ _ _ _ _ Hp) as (Hdb' & Hwf' & _).
  assert (dueRows t db' = []) as Hnil.
  { destruct Hlen' as [?|Hl]; [done|]. apply (total_none t e); [apply Hwf'|done|lia]. }
  exists db'. split_and!; [by rewrite Ha|done| |].
  - intros id r Hr Hd. rewrite (sv_others _ _ _ _ _ Hsv); [done|]. intros Hin. specialize (Hdue id r Hin Hr). congruence.
  - intros id r ev Hr Hd Hdec Hsend. destruct (decide (id ∈ ids)) as [Hin|Hin].
    2:{ assert (r ∈ dueRows t db') as Hd'; [|by rewrite Hnil in Hd'; apply elem_of_nil in Hd'].
        apply matching_elem. split; [done|]. exists id. by rewrite (sv_others _ _ _ _ _ Hsv). }
    destruct (Hdel id r ev Hin Hr Hdec Hsend) as [(n & data & x & Hn & Hx & Hk & Hv) Hgone]. split; [|done].
    destruct (Hatt n (lookup_lt_Some _ _ _ Hn)) as (a & Hina & <- & Hw). by eapply Hst.
Qed.

(** ** Example: two events due, rounds a quarter of a minute apart, one failing
    attempt of the worker *)

Definition demoTime : Z := now quietEnv.

Definition callAt (d : Z) : CallEnv :=
  let env := {| sqlErr := sqlErr quietEnv; commitApplied := commitApplied quietEnv; txCheckOk := txCheckOk quietEnv;
                stat := stat quietEnv; now := demoTime + d; nowNano := nowNano quietEnv |} in
  {| ce_env := env; ce_quarantine := fun _ => env |}.

Definition roundAt (d : Z) : GoodRound :=
  {| gr_fetch := callAt d;
     gr_sends := replicate 50 {| gs_call := callAt (d + 2); gs_now := 9; gs_body := ""; gs_retryAfter := "" |} |}.

Definition demoRounds : list GoodRound := [roundAt 0; roundAt 15].

(** A first failure puts an event off by ten seconds, a second one by twenty. *)
Example tries_ex : map (tries 0) [-1; 0; 9; 10; 29; 30; 3600] = [0; 1; 1; 2; 2; 3; 9]%nat.
Proof. vm_compute. reflexivity. Qed.

Definition failingMessage : MessageEnv :=
  {| me_persist := {| pe_begin := Some (ErrNew "down"); pe_insertEvent := None; pe_insertAlert := None;
                      pe_commit := None; pe_commitApplied := false; pe_alertID := "u"; pe_now := 0 |};
     me_dlqErr := None; me_ackErr := None; me_now := 0 |}.

Definition demoAttempts : list Attempt :=
  {| at_entry := 0; at_env := failingMessage; at_retries := 1; at_idle := 0 |} ::
  map (fun n => {| at_entry := n; at_env := calmMessage; at_retries := 2; at_idle := 0 |}) [1; 0]%nat.

Definition demoStored : list (Input CallEnv) :=
  [DoStore demoCall (sampleEvent "e1" "CRITICAL"); DoStore demoCall (sampleEvent "e2" "INFO")].

#[local] Abbreviation demoSys inputs y :=
  (sysRun (HS := sqlite_storage wireSerialize wireDeserialize) (fun _ => None) wireSerialize wireDeserialize demoID inputs y).1.

Definition demoBacklog : System SQLiteStorage := demoSys demoStored demoStart.
Definition demoDrained : System SQLiteStorage := demoSys (map attemptInput demoAttempts) (demoSys (backlog demoRounds) demoBacklog).

Lemma callAt_calm d f : f <= demoTime + d -> calmCall f (callAt d).
Proof. intros Hf. split; [|intros id]; (split_and!; [by intros c|exact Hf|vm_compute; discriminate]). Qed.

Lemma demoRounds_good : Forall (goodRound (codec_clock (EventCodec := wire_codec)) demoTime (demoTime + 15)) demoRounds.
Proof.
  assert (forall d, 0 <= d <= 15 -> goodRound (codec_clock (EventCodec := wire_codec)) demoTime (demoTime + 15) (roundAt d)) as H.
  { intros d Hd. split_and!; [apply callAt_calm; lia|unfold fetchTime; cbn; lia| |cbn; lia].
    apply Forall_replicate. split; [apply callAt_calm; unfold fetchTime; cbn; lia|vm_compute; reflexivity]. }
  do 2 (apply List.Forall_cons; [apply H; lia|]). apply List.Forall_nil.
Qed.

Lemma demoBacklog_at : exists db, storeAt wireSerialize wireDeserialize (fs_store (sy_agent demoBacklog)) db.
Proof.
  destruct (sys_run_refines (HL := sqlite_laws wireSerialize wireDeserialize) (HT := sqlite_contents_laws wireSerialize wireDeserialize)
    (fun _ => None) wireSerialize wireDeserialize demoID "tenant-1" demoStored demoStart demoBacklog
    (sysRun (HS := sqlite_storage wireSerialize wireDeserialize) (fun _ => None) wireSerialize wireDeserialize demoID demoStored demoStart).2
    "e3" unknownEvent) as [[(db & Hdb & Hwf) Hc _ _ _ _ _ _] _].
  - repeat apply List.Forall_cons; try apply List.Forall_nil; by apply sample_event; vm_compute.
  - apply (start_inv (HL := sqlite_laws wireSerialize wireDeserialize) (HT := sqlite_contents_laws wireSerialize wireDeserialize)
      (fun _ => None) wireSerialize wireDeserialize demoID (NewForwarder "http://api/" "tenant-1") freshStorage emptyPG); apply demo_store.
  - apply (start_custody (HL := sqlite_laws wireSerialize wireDeserialize)
      wireDeserialize (NewForwarder "http://api/" "tenant-1") freshStorage emptyPG "e3"); [apply demo_nothing..|]. by intros [x Hx].
  - apply surjective_pairing.
  - exists db. exact (conj Hdb (conj Hwf Hc)).
Qed.

(** What the store has of the first event, and what the forwarder reads. *)
Definition demoText : string :=
  match s_db (fs_store (sy_agent demoBacklog)) with
  | Some db => match db_events db !! "e1" with Some r => er_payload r | None => "" end
  | None => ""
  end.
Definition demoRead : CanonicalEvent := match wireDeserialize demoText with Ok ev => ev | Err _ => emptyEvent end.

Lemma backlog_drains_witness :
  ((fun db => total demoTime (demoTime + 15) (db_events db)) <$> s_db (fs_store (sy_agent demoBacklog)) = Some 4%nat) /\
  exists db', s_db (fs_store (sy_agent demoDrained)) = Some db' /\ dueRows demoTime db' = [] /\
    stored "tenant-1" (w_pg (sy_worker demoDrained)) "e1" /\ db_events db' !! "e1" = None.
Proof.
  assert ((fun db => total demoTime (demoTime + 15) (db_events db)) <$> s_db (fs_store (sy_agent demoBacklog)) = Some 4%nat) as Hlen
    by (vm_compute; reflexivity).
  split; [exact Hlen|]. destruct demoBacklog_at as [db Hat].
  pose proof (proj1 Hat) as Hdb. rewrite Hdb in Hlen. injection Hlen as Hlen.
  destruct (backlog_drains (fun _ => None) wireSerialize wireDeserialize demoID "tenant-1" demoTime (demoTime + 15) demoRounds demoAttempts
    demoBacklog db) as (db' & Hdb' & Hnil & _ & Hall).
  - discriminate.
  - vm_compute. discriminate.
  - vm_compute; reflexivity.
  - exact Hat.
  - exact demoRounds_good.
  - etrans; [apply Nat.eq_le_incl, Hlen|cbn; lia].
  - intros n Hn.
    assert (length (sy_stream (demoSys (backlog demoRounds) demoBacklog)) = 2%nat) as H2 by (vm_compute; reflexivity).
    rewrite H2 in Hn. clear -Hn. unfold demoAttempts. cbn [map].
    destruct n as [|[|n]]; [| |lia]; eexists.
    + split; [right; right; left|]. split; [reflexivity|repeat split; reflexivity].
    + split; [right; left|]. split; [reflexivity|repeat split; reflexivity].
  - assert ((fun db => er_payload <$> db_events db !! "e1") <$> s_db (fs_store (sy_agent demoBacklog)) = Some (Some demoText)) as H1
      by (vm_compute; reflexivity).
    assert ((fun db => due demoTime <$> db_events db !! "e1") <$> s_db (fs_store (sy_agent demoBacklog)) = Some (Some true)) as H3
      by (vm_compute; reflexivity).
    rewrite Hdb in H1, H3. cbn in H1, H3. destruct (db_events db !! "e1") as [r|] eqn:Hr; [|discriminate].
    cbn in H1, H3. apply (inj Some), (inj Some) in H1. apply (inj Some), (inj Some) in H3.
    exists db'. split; [exact Hdb'|]. split; [exact Hnil|]. apply (Hall "e1" r demoRead Hr H3).
    + rewrite H1. vm_compute. reflexivity.
    + split; [vm_compute; reflexivity|]. split; [vm_compute; reflexivity|]. exists (match wireSerialize demoRead with Ok text => text | Err _ => "" end).
      split; [vm_compute; reflexivity|vm_compute; discriminate].
Defined.
