(* ===== verification/EndpointStart.v ===== *)
(** The start of the endpoint agent (agent/cmd/endpoint/main.go): configuration,
    storage and device identity, forwarder, resource governance with its one
    baseline sample, the five collectors, health, detection and the ingestion
    engine, in main's order with its fatal exits. *)
From S2P Require Import Prelude GoStrings GoFloat GoTime Events Governor Metrics Coordinator Provider Collectors Filesystem Usb Storage StorageInit Ingestion Forwarder Detection Identity Endpoint.
From S2P Require Config Network Inventory Lifecycle.

Local Open Scope string_scope.
Local Open Scope list_scope.
Open Scope Z_scope.

Definition agentDBPath : string := "agent.db".
Definition storageQuotaBytes : Z := 50 * 1024 * 1024.

(** [make(chan *events.CanonicalEvent, 200)] *)
Definition centralEventsCap : Z := 200.

(** [fwd.NetworkState()] *)
Definition forwarderNetworkState (f : Forwarder) : NetworkState :=
  match fw_networkState f with
  | networkOnline => NetworkOnline
  | networkOffline => NetworkOffline
  | networkUnknown => NetworkUnknown
  end.

(** ** Resource governance *)

(** What was logged about it. *)
Inductive GovernanceLog :=
  | MonitoringUnavailable (err : error) | GovernorUnavailable (err : error) | CoordinatorUnavailable (err : error)
  | BaselineError (err : error)
  | CoordinatorInitialized (ready evaluated storageBlocked : bool).

Section Governance.
Context {P : Type} (NewOSResourceProvider : list string -> result P).

(** The signals of the baseline sample: the channel just made is empty. *)
Definition baselineSignals (f : Forwarder) : RuntimeSignals := {|
  QueueDepth := {| vu_Value := 0; vu_Valid := true |};
  QueueCapacity := {| vu_Value := centralEventsCap; vu_Valid := true |};
  QueueOldestAgeSec := {| vf_Value := fzero; vf_Valid := false |};
  Runtime_NetworkState := forwarderNetworkState f |}.

(** The coordinator, when there is one, after its baseline step. *)
Definition startGovernance (f : Forwarder) (ctxErr : option error) (samples : ProviderSamples) (now : Time)
    : option Coordinator * list GovernanceLog :=
  match NewSQLiteResourceProvider NewOSResourceProvider agentDBPath with
  | Err err => (None, [MonitoringUnavailable err])
  | Ok _ =>
      match NewGovernor endpointGovernorConfig true with
      | Err err => (None, [GovernorUnavailable err])
      | Ok governor =>
          match NewCoordinator true (Some governor) (Some NewGovernorMetrics) {| StorageBudgetBytes := 0 |} with
          | Err err => (None, [CoordinatorUnavailable err])
          | Ok coordinator =>
              let '(coordinator, stepRes, stepErr, _) := Coordinator_Step coordinator ctxErr samples (baselineSignals f) now in
              (Some coordinator,
               match stepErr with
               | Some err => if errors_Is err ErrMissingStorageBudget then [] else [BaselineError err]
               | None => []
               end ++ [CoordinatorInitialized (Ready stepRes) (Evaluated stepRes) (StorageBlocked stepRes)])
          end
      end
  end.
End Governance.

(** ** Main *)

Record Running := {
  ag_cfg : Config.Config;
  ag_deviceID : string;
  ag_forwarder : Forwarder;
  ag_coordinator : option Coordinator;
  ag_governance : list GovernanceLog;
  ag_process : Lifecycle.ProcessCollector;
  ag_filesystem : FsCollector;
  ag_inventory : Inventory.invCollector;
  ag_network : Network.Collector;
  ag_usb : usbCollector;
  ag_health : Health.Manager;
  ag_rules : list Rule;
  ag_engine : IngestConfig;
}.

(** [log.Fatalf], or the agent with everything started. *)
Inductive StartResult := Fatal (message : string) | Started (agent : Running).

Section Main.
Context {P F : Type} (parseAuthority : string -> option (bool * string)) (decodeError : string -> error)
        (NewOSResourceProvider : list string -> result P).

(** What the start finds outside the program. *)
Record StartWorld := {
  sw_configFile : result string;
  sw_init : @InitEnv F; sw_db : DB; sw_disk : gmap string F; sw_opened : gmap string F;
  sw_ctxErr : option error; sw_samples : ProviderSamples; sw_now : Time;
  sw_newWatcher : option error; sw_Abs : string -> result string; sw_Add : string -> option error;
}.

(** [if err := c.Start(...); err != nil { log.Fatalf(message, err) }] *)
Definition startOr {C} (message : string) (started : C * option error) (k : C -> StartResult) : StartResult :=
  match started with
  | (_, Some err) => Fatal (message ^^ error_Error err)
  | (c, None) => k c
  end.

Definition endpointStart (identityPath : string) (w : StartWorld) : StartResult :=
  match Config.Load parseAuthority decodeError (sw_configFile w) with
  | Err err => Fatal ("Failed to load configuration: " ^^ error_Error err)
  | Ok cfg =>
      match (StorageInit.Init (sw_init w) agentDBPath identityPath (sw_db w) (sw_disk w) (sw_opened w)).2 with
      | Err err => Fatal ("Failed to initialize storage: " ^^ error_Error err)
      | Ok deviceID =>
          if deviceID =s "" then Fatal "Failed to establish authoritative device identity from storage"
          else
            startOr "Failed to start forwarder: " (Forwarder_Start (endpointForwarder cfg)) (fun fwd =>
            let '(coordinator, logged) :=
              startGovernance NewOSResourceProvider fwd (sw_ctxErr w) (sw_samples w) (sw_now w) in
            startOr "Process collector failed to start: " (Lifecycle.ProcessCollector_Start Lifecycle.NewCollector) (fun procCol =>
            startOr "Filesystem collector failed to start: "
              (fsStart cfg (sw_newWatcher w) (sw_Abs w) (sw_Add w) NewFsCollector) (fun fsCol =>
            startOr "Inventory collector failed to start: " (Inventory.invStart Inventory.newInvCollector) (fun invCol =>
            startOr "Network collector failed to start: " (Network.Collector_Start Network.NewCollector) (fun netCol =>
            startOr "USB collector failed to start: " (usbStart newUsbCollector) (fun usbCol =>
            Started {|
              ag_cfg := cfg; ag_deviceID := deviceID; ag_forwarder := fwd; ag_coordinator := coordinator;
              ag_governance := logged; ag_process := procCol; ag_filesystem := fsCol; ag_inventory := invCol;
              ag_network := netCol; ag_usb := usbCol;
              ag_health := Health.NewManager deviceID (Config.TenantID cfg) (Config.SiteID cfg);
              ag_rules := [RealIOCExecRule]; ag_engine := endpointEngine cfg deviceID |}))))))
      end
  end.
End Main.

Arguments StartWorld : clear implicits.

(** ** Lemmas *)
Lemma errors_Join_Is a b t : errors_IsOpt (errors_Join a b) t = errors_IsOpt a t || errors_IsOpt b t.
Proof. destruct a, b; cbn; by rewrite ?orb_false_r. Qed.

Lemma joinIf_Is a b t : errors_IsOpt a t = true -> errors_IsOpt (joinIf a b) t = true.
Proof. intros Ha. unfold joinIf. destruct b; [|done]. by rewrite errors_Join_Is, Ha. Qed.

(** Without a budget every live step reports the missing budget. *)
Lemma step_missing_budget c p rs now :
  StorageBudgetBytes (coord_config c) = 0 ->
  errors_IsOpt (Coordinator_Step c None p rs now).1.2 ErrMissingStorageBudget = true.
Proof.
  intros H0. unfold Coordinator_Step. rewrite H0.
  destruct (resolveCPU _ _ _) as [[[[cpuM cpuV] warm] done] e1].
  destruct (resolveMemory _ _ _) as [[[memM memV] inval] e2].
  destruct (resolveStorage _ _ _ _ _) as [[[[um wm] sv] blk] e3] eqn:H3.
  assert (errors_IsOpt e3 ErrMissingStorageBudget = true) as He3.
  { unfold resolveStorage in H3. destruct (match storageErr p with Some _ => _ | None => _ end) as [[u w] e].
    unfold CalculateStoragePressure in H3. cbn [Z.eqb] in H3. simplify_eq. rewrite errors_Join_Is. apply orb_true_r. }
  destruct (resolveQueue _ _ _) as [qv e4] eqn:H4.
  assert (errors_IsOpt e4 ErrMissingStorageBudget = true) as He4.
  { unfold resolveQueue in H4. destruct (CalculateQueueSaturation _ _) as [sat [qe|]]; simplify_eq; [|done].
    by rewrite errors_Join_Is, He3. }
  destruct (feedMetrics _ _ _ _ _ _ _ _ _) as [ms e5] eqn:H5.
  assert (errors_IsOpt e5 ErrMissingStorageBudget = true) as He5.
  { unfold feedMetrics in H5. destruct (coord_metrics c); [|by simplify_eq].
    repeat case_match; simplify_eq; by repeat apply joinIf_Is. }
  destruct (warm || negb done || inval); [done|]. destruct blk; [done|].
  destruct (coord_governor c); [|done]. by destruct (Governor_Evaluate _ _ _).
Qed.

Lemma governance_cases {P} (NewOS : list string -> result P) f ctxErr samples now :
  match NewOS [agentDBPath] with
  | Ok _ => exists c, (startGovernance NewOS f ctxErr samples now).1 = Some c /\
      StorageBudgetBytes (coord_config c) = 0 /\ coord_governor c = Some (endpointGovernor StateNormal)
  | Err _ => (startGovernance NewOS f ctxErr samples now).1 = None
  end.
Proof.
  unfold startGovernance, NewSQLiteResourceProvider. cbn [String.eqb agentDBPath].
  destruct (NewOS [agentDBPath]) as [p|err]; [|done].
  assert (NewGovernor endpointGovernorConfig true = Ok (endpointGovernor StateNormal)) as -> by (vm_compute; reflexivity).
  cbn [NewCoordinator negb].
  set (c0 := {| coord_governor := Some (endpointGovernor StateNormal); coord_metrics := Some NewGovernorMetrics;
                coord_config := {| StorageBudgetBytes := 0 |}; cpuInitDone := false |}).
  destruct ctxErr as [e|].
  { exists c0. by split_and!. }
  pose proof (Step_inv c0 samples (baselineSignals f) now) as (Hcfg & _ & _ & _ & _ & _ & _ & _ & Hg).
  destruct (Coordinator_Step c0 None samples (baselineSignals f) now) as [[[c r] e] trs]. cbn [fst snd] in Hcfg, Hg |- *.
  exists c. split_and!; [done|by rewrite Hcfg|].
  change (StorageBudgetBytes (coord_config c0) =? 0) with true in Hg. cbn [negb] in Hg. rewrite andb_false_r in Hg.
  cbn in Hg. by destruct Hg as (_ & -> & _).
Qed.

Lemma no_baseline_error {P} (NewOS : list string -> result P) f samples now err :
  BaselineError err ∉ (startGovernance NewOS f None samples now).2.
Proof.
  unfold startGovernance. destruct (NewSQLiteResourceProvider _ _) as [p|e]; [|by intros [=]%list_elem_of_singleton].
  destruct (NewGovernor _ _) as [g|e]; [|by intros [=]%list_elem_of_singleton].
  cbn [NewCoordinator negb].
  match goal with |- context [Coordinator_Step ?c None _ ?rs _] =>
    pose proof (step_missing_budget c samples rs now eq_refl) as Hm;
    destruct (Coordinator_Step c None samples rs now) as [[[c' r] e] trs] end.
  cbn [fst snd] in Hm |- *. destruct e as [e|]; [|done]. cbn [errors_IsOpt] in Hm. rewrite Hm.
  by intros [=]%list_elem_of_singleton.
Qed.

(** ** Properties *)

(** C20: The start of the endpoint agent.  It runs exactly when the configuration
    loads and is valid, the store opens with a non-empty device id, and, if
    paths are to be monitored, the file watcher can be created; otherwise it
    ends with the message of the first of these that fails.  Running, its
    configuration is valid, every collector has been started once, the forwarder, the engine and the health
    manager act for the configured tenant and the device id of the store, and
    resource governance exists exactly when the platform has a provider, stays
    in NORMAL whatever is sampled later, and, with a live context, never logs
    an error of its baseline sample. *)
Theorem endpoint_starts {P F} parseAuthority decodeError (NewOS : list string -> result P) identityPath (w : StartWorld F) :
  let loaded := Config.Load parseAuthority decodeError (sw_configFile w) in
  let id := (StorageInit.Init (sw_init w) agentDBPath identityPath (sw_db w) (sw_disk w) (sw_opened w)).2 in
  match endpointStart parseAuthority decodeError NewOS identityPath w with
  | Fatal message =>
      (exists e, loaded = Err e /\ message = "Failed to load configuration: " ^^ error_Error e) \/
      (exists cfg, loaded = Ok cfg /\
        ((exists e, id = Err e /\ message = "Failed to initialize storage: " ^^ error_Error e) \/
         (id = Ok "" /\ message = "Failed to establish authoritative device identity from storage") \/
         (exists d e, id = Ok d /\ d <> "" /\ Config.MonitorPaths cfg <> [] /\ sw_newWatcher w = Some e /\
            message = "Filesystem collector failed to start: failed to create fsnotify watcher: " ^^ error_Error e)))
  | Started a =>
      loaded = Ok (ag_cfg a) /\ Config.Config_Validate parseAuthority (ag_cfg a) = None /\ id = Ok (ag_deviceID a) /\ ag_deviceID a <> "" /\
      (Config.MonitorPaths (ag_cfg a) = [] \/ sw_newWatcher w = None) /\
      ag_engine a = endpointEngine (ag_cfg a) (ag_deviceID a) /\
      ag_health a = Health.NewManager (ag_deviceID a) (Config.TenantID (ag_cfg a)) (Config.SiteID (ag_cfg a)) /\
      fw_tenantID (ag_forwarder a) = Config.TenantID (ag_cfg a) /\ fw_started (ag_forwarder a) = true /\
      Lifecycle.pc_started (ag_process a) = true /\ started (ag_inventory a) = true /\
      started (ag_network a) = true /\ started (ag_usb a) = true /\
      (fs_running (ag_filesystem a) = true <-> Config.MonitorPaths (ag_cfg a) <> []) /\
      match NewOS [agentDBPath] with
      | Err _ => ag_coordinator a = None
      | Ok _ => exists c, ag_coordinator a = Some c /\
          forall inputs, coord_governor (Coordinator_run c inputs) = Some (endpointGovernor StateNormal)
      end /\
      (sw_ctxErr w = None -> forall err, BaselineError err ∉ ag_governance a)
  end.
Proof.
  intros loaded id. unfold endpointStart. fold loaded.
  pose proof (fun c => Config.Load_valid parseAuthority decodeError (sw_configFile w) c) as Hvalid. fold loaded in Hvalid.
  destruct loaded as [cfg|e]; [|left; by exists e]. destruct (Hvalid cfg eq_refl) as [Hcfg _].
  fold id. destruct id as [d|e]; [|right; exists cfg; split; [done|]; left; by exists e].
  destruct (String.eqb_spec d "") as [->|Hd]; [right; exists cfg; split; [done|]; by right; left|].
  cbn [startOr Forwarder_Start endpointForwarder NewForwarder fw_stopped fw_started].
  set (fwd := {| fw_apiURL := _ |}).
  pose proof (governance_cases NewOS fwd (sw_ctxErr w) (sw_samples w) (sw_now w)) as Hgov.
  pose proof (fun err => no_baseline_error NewOS fwd (sw_samples w) (sw_now w) err) as Hlog.
  destruct (startGovernance NewOS fwd (sw_ctxErr w) (sw_samples w) (sw_now w)) as [coord logged] eqn:Hs. cbn [fst] in Hgov.
  cbn [startOr Lifecycle.ProcessCollector_Start Lifecycle.NewCollector Lifecycle.pc_stopped Lifecycle.pc_started].
  assert (sw_ctxErr w = None -> forall err, BaselineError err ∉ logged) as Hlog'.
  { intros Hn err. rewrite Hn in Hs. specialize (Hlog err). by rewrite Hs in Hlog. }
  assert (match NewOS [agentDBPath] with
          | Err _ => coord = None
          | Ok _ => exists c, coord = Some c /\
              forall inputs, coord_governor (Coordinator_run c inputs) = Some (endpointGovernor StateNormal)
          end) as Hgov'.
  { destruct (NewOS [agentDBPath]); [|done]. destruct Hgov as (c & -> & Hb & Hg). exists c. split; [done|].
    intros inputs. by rewrite coordinator_inert. }
  unfold fsStart. destruct (Config.MonitorPaths cfg) as [|p paths] eqn:Hp.
  - cbn. split_and!; try done. by left.
  - destruct (sw_newWatcher w) as [e|] eqn:Hw.
    + right. exists cfg. split; [done|]. right. right. exists d, e. rewrite Hp. by split_and!.
    + cbn. split_and!; try done; [by right|by rewrite Hp].
Qed.
