(* ===== verification/WorkerStart.v ===== *)
(** The worker process: the consumer from its start to its end
    (server/internal/queue/consumer.go, [Start]) with the recovery goroutine
    interleaved, and main (server/cmd/worker/main.go). *)
From S2P Require Import Prelude GoStrings GoText GoTime Events Repository IngestApi Worker Mains.

Local Open Scope string_scope.
Local Open Scope list_scope.
Open Scope Z_scope.

(** ** The consumer *)

(** The reply of XPENDING, with what each entry meets. *)
Notation PendingReply := (result (list (PendingEntry * MessageEnv))).

(** One turn of the main loop, or one tick of the recovery goroutine. *)
Inductive LoopStep :=
  | CtxDoneAtTop
  | ReadFailed (err : error) (ctxDone isNil ctxDoneWaiting : bool)
  | ReadMessages (batch : list (Message * MessageEnv))
  | RecoveryTick (pending : PendingReply).

(** How [Start] ends, or that it has not. *)
Inductive ConsumerEnd := ConsumerFailed (err : error) | ConsumerReturned | ConsumerRunning.

Section Start.
Context (uuid_Parse : string -> option error) (Deserialize : string -> result CanonicalEvent) (stream : string).

Fixpoint consumerLoop (steps : list LoopStep) (w : WorkerState) : WorkerState * ConsumerEnd :=
  match steps with
  | [] => (w, ConsumerRunning)
  | CtxDoneAtTop :: _ => (w, ConsumerReturned)
  | ReadFailed _ ctxDone isNil ctxDoneWaiting :: steps =>
      if (ctxDone : bool) then (w, ConsumerReturned)
      else if (isNil : bool) then consumerLoop steps w
      else if (ctxDoneWaiting : bool) then (w, ConsumerReturned)
      else consumerLoop steps w
  | ReadMessages batch :: steps =>
      consumerLoop steps (fold_left (fun w me => processMessage uuid_Parse Deserialize stream me.2 w me.1 0 0) batch w)
  | RecoveryTick pending :: steps =>
      consumerLoop steps (recoverPending uuid_Parse Deserialize stream w pending).1
  end.

(** [group]: the error of XGROUP CREATE; [ctxDone]: the context is done after
    the first recovery. *)
Definition Consumer_Start (group : option error) (initial : PendingReply) (ctxDone : bool) (steps : list LoopStep)
    (w : WorkerState) : WorkerState * ConsumerEnd :=
  match group with
  | Some err =>
      if negb (HasPrefix (error_Error err) "BUSYGROUP") then (w, ConsumerFailed err)
      else
        let w := (recoverPending uuid_Parse Deserialize stream w initial).1 in
        if ctxDone then (w, ConsumerReturned) else consumerLoop steps w
  | None =>
      let w := (recoverPending uuid_Parse Deserialize stream w initial).1 in
      if ctxDone then (w, ConsumerReturned) else consumerLoop steps w
  end.
End Start.

(** ** Main *)

(** The message of [log.Fatalf], or the state of the worker and whether it has
    exited. *)
Definition workerMain (uuid_Parse : string -> option error) (Deserialize : string -> result CanonicalEvent)
    (getenv : string -> string) (env : StartEnv) (group : option error) (initial : PendingReply) (ctxDone : bool)
    (steps : list LoopStep) (w : WorkerState) : string + (WorkerState * bool) :=
  match serverStart getenv env with
  | inl message => inl message
  | inr _ =>
      match Consumer_Start uuid_Parse Deserialize "ot_events_stream" group initial ctxDone steps w with
      | (_, ConsumerFailed err) => inl ("Consumer encountered fatal error: " ^^ error_Error err)
      | (w, ConsumerReturned) => inr (w, true)
      | (w, ConsumerRunning) => inr (w, false)
      end
  end.

(** ** Lemmas *)

(** What a step makes the worker do, and whether it ends the loop. *)
Definition activityOf (s : LoopStep) : list Activity :=
  match s with
  | ReadMessages batch => [NewMessages batch]
  | RecoveryTick pending => [Recovery pending]
  | _ => []
  end.

Definition endsLoop (s : LoopStep) : bool :=
  match s with
  | CtxDoneAtTop => true
  | ReadFailed _ ctxDone isNil ctxDoneWaiting => ctxDone || (negb isNil && ctxDoneWaiting)
  | _ => false
  end.

Section StartProofs.
Context (uuid_Parse : string -> option error) (Deserialize : string -> result CanonicalEvent) (stream : string).

(** The steps up to the first that ends the loop. *)
Fixpoint performed (steps : list LoopStep) : list LoopStep :=
  match steps with
  | [] => []
  | s :: steps => if endsLoop s then [] else s :: performed steps
  end.

Lemma consumerLoop_run steps w :
  consumerLoop uuid_Parse Deserialize stream steps w =
    (Consumer_run uuid_Parse Deserialize stream w (concat (map activityOf (performed steps))),
     if existsb endsLoop steps then ConsumerReturned else ConsumerRunning).
Proof.
  revert w. induction steps as [|s steps IH]; intros w; [done|]. cbn [consumerLoop performed existsb].
  destruct s as [|err [] [] []|batch|pending]; cbn [endsLoop negb andb orb]; try done; try (by rewrite IH).
Qed.

(** What the worker did when [Start] got past the consumer group. *)
Definition startActivities (initial : PendingReply) (ctxDone : bool) (steps : list LoopStep) : list Activity :=
  Recovery initial :: if ctxDone then [] else concat (map activityOf (performed steps)).

Lemma Consumer_Start_run group initial ctxDone steps w :
  Consumer_Start uuid_Parse Deserialize stream group initial ctxDone steps w =
    match group with
    | Some err =>
        if HasPrefix (error_Error err) "BUSYGROUP"
        then (Consumer_run uuid_Parse Deserialize stream w (startActivities initial ctxDone steps),
              if ctxDone || existsb endsLoop steps then ConsumerReturned else ConsumerRunning)
        else (w, ConsumerFailed err)
    | None => (Consumer_run uuid_Parse Deserialize stream w (startActivities initial ctxDone steps),
               if ctxDone || existsb endsLoop steps then ConsumerReturned else ConsumerRunning)
    end.
Proof.
  unfold Consumer_Start, startActivities.
  assert (forall w', (if ctxDone then (w', ConsumerReturned) else consumerLoop uuid_Parse Deserialize stream steps w') =
    (Consumer_run uuid_Parse Deserialize stream w' (if ctxDone then [] else concat (map activityOf (performed steps))),
     if ctxDone || existsb endsLoop steps then ConsumerReturned else ConsumerRunning)) as Hrest.
  { intros w'. destruct ctxDone; [done|]. apply consumerLoop_run. }
  destruct group as [err|]; [destruct (HasPrefix _ _); cbn [negb]|]; try done; by rewrite Hrest.
Qed.

Lemma performed_all steps : existsb endsLoop steps = false -> performed steps = steps.
Proof.
  induction steps as [|s steps IH]; [done|]. cbn. destruct (endsLoop s); [done|]. cbn. intros H. by rewrite IH.
Qed.

Lemma performed_sub steps s : s ∈ performed steps -> s ∈ steps.
Proof.
  induction steps as [|x steps IH]; [done|]. cbn [performed]. destruct (endsLoop x); [by intros ?%elem_of_nil|].
  intros [->|Hin]%elem_of_cons; [left|right; auto].
Qed.

Lemma startActivities_from initial ctxDone steps a :
  a ∈ startActivities initial ctxDone steps -> a = Recovery initial \/ exists s, s ∈ steps /\ a ∈ activityOf s.
Proof.
  unfold startActivities. intros [->|Hin]%elem_of_cons; [by left|right].
  destruct ctxDone; [by apply elem_of_nil in Hin|].
  apply list_elem_of_In, in_concat in Hin as (l & Hl & Ha). apply in_map_iff in Hl as (s & <- & Hs).
  exists s. split; [by apply performed_sub, list_elem_of_In|by apply list_elem_of_In].
Qed.
End StartProofs.

(** ** Properties *)

(** C7: The worker from its start to its end.  [Start] fails only when the
    consumer group cannot be created for another reason than that it exists,
    and then nothing was done; it returns without error only when the context
    is done; failed reads and failed recoveries end nothing, every batch
    delivered until then is processed.  And in every case an acknowledgement is
    only issued for a delivered message that is in the database, or that was
    added to the dead-letter stream because it is unusable; the database stays
    consistent. *)
Theorem worker_sound uuid_Parse Deserialize stream group initial ctxDone steps pg :
  wfPG pg ->
  let '(w, e) := Consumer_Start uuid_Parse Deserialize stream group initial ctxDone steps {| w_pg := pg; w_log := [] |} in
  match e with
  | ConsumerFailed err => group = Some err /\ HasPrefix (error_Error err) "BUSYGROUP" = false /\
      w = {| w_pg := pg; w_log := [] |}
  | ConsumerReturned => ctxDone = true \/ exists s, s ∈ steps /\ endsLoop s = true
  | ConsumerRunning => w = Consumer_run uuid_Parse Deserialize stream {| w_pg := pg; w_log := [] |}
      (Recovery initial :: concat (map activityOf steps))
  end /\
  wfPG (w_pg w) /\
  forall id ok, (XAck id, ok) ∈ w_log w ->
    exists msg a, (a = Recovery initial \/ exists s, s ∈ steps /\ a ∈ activityOf s) /\ delivered a msg /\ msg_ID msg = id /\
      (persisted uuid_Parse Deserialize (w_pg w) msg \/ deadLettered uuid_Parse Deserialize (w_log w) msg).
Proof.
  intros Hpg. rewrite Consumer_Start_run.
  pose proof (run_sound uuid_Parse Deserialize stream {| w_pg := pg; w_log := [] |}
    (startActivities initial ctxDone steps) eq_refl Hpg) as [Hs Hpg'].
  set (w := Consumer_run uuid_Parse Deserialize stream {| w_pg := pg; w_log := [] |} (startActivities initial ctxDone steps)) in *.
  assert (wfPG (w_pg w) /\ forall id ok, (XAck id, ok) ∈ w_log w ->
    exists msg a, (a = Recovery initial \/ exists s, s ∈ steps /\ a ∈ activityOf s) /\ delivered a msg /\ msg_ID msg = id /\
      (persisted uuid_Parse Deserialize (w_pg w) msg \/ deadLettered uuid_Parse Deserialize (w_log w) msg)) as Hacks.
  { split; [done|]. intros id ok Hin. destruct (Hs id ok Hin) as (msg & (a & Ha & Hd) & Hid & Hp).
    exists msg, a. split_and!; try done. by apply startActivities_from in Ha. }
  assert (match (if ctxDone || existsb endsLoop steps then ConsumerReturned else ConsumerRunning) with
    | ConsumerFailed err => group = Some err /\ HasPrefix (error_Error err) "BUSYGROUP" = false /\ w = {| w_pg := pg; w_log := [] |}
    | ConsumerReturned => ctxDone = true \/ exists s, s ∈ steps /\ endsLoop s = true
    | ConsumerRunning => w = Consumer_run uuid_Parse Deserialize stream {| w_pg := pg; w_log := [] |}
        (Recovery initial :: concat (map activityOf steps))
    end) as Hend.
  { destruct ctxDone; cbn [orb]; [by left|]. destruct (existsb endsLoop steps) eqn:He.
    - right. apply existsb_exists in He as (s & Hin%list_elem_of_In & Hs'). by exists s.
    - unfold w, startActivities. by rewrite performed_all. }
  destruct group as [err|]; [destruct (HasPrefix _ _) eqn:Hb|]; try by split.
  split; [done|]. split; [done|]. by intros id ok ?%elem_of_nil.
Qed.

Lemma worker_sound_witness :
  let decode := fun text => if text =s "ok" then Ok (sampleEvent "e1" "INFO") else Err (ErrNew "bad") in
  let steps := [ReadFailed (ErrNew "i/o timeout") false false false;
                ReadMessages [({| msg_ID := "1-0"; msg_payload := PString "ok" |}, calmMessage)]; CtxDoneAtTop;
                ReadMessages [({| msg_ID := "2-0"; msg_payload := PString "junk" |}, calmMessage)]] in
  let run := Consumer_Start (fun _ => None) decode "ot_events_stream" (Some (ErrNew "BUSYGROUP exists")) (Ok []) false steps
               {| w_pg := emptyPG; w_log := [] |} in
  run.2 = ConsumerReturned /\ w_log run.1 = [(XAck "1-0", true)] /\ wfPG (w_pg run.1).
Proof.
  intros decode steps run. split; [vm_compute; reflexivity|]. split; [vm_compute; reflexivity|].
  apply (worker_sound (fun _ => None) decode "ot_events_stream" (Some (ErrNew "BUSYGROUP exists")) (Ok []) false steps
    emptyPG wf_emptyPG).
Defined.
